(* ===== verification/_CoqProject ===== *)
-Q . S2P
Prelude.v
Common.v
Crash.v
Gps.v
ApcProto.v
ApcSerializer.v
ApcCache.v
ApcConnector.v
NotifThread.v
IoSrvThread.v
RemoteLog.v
ApcClient.v
ApcHistory.v
ApcOrder.v
ApcSession.v
ApcResume.v
ApmProto.v
ApmSerializer.v
ApmTransport.v
ApmThreads.v
Hdlc.v
SerialPort.v
FmtConv.v
FmtFloat.v
FmtOutput.v
Printing.v
Coupler.v
Bridge.v
Wire.v
Uplink.v
ZMessage.v
RpcProtocol.v
RpcDispatcher.v
RpcWorker.v
ApcWorker.v
NodeState.v
Endpoint.v
Options.v
Main.v
RpcServer.v
RpcCall.v
