(* ===== verification/Prelude.v ===== *)
(** AP Bridge: a verification development.

    The AP bridge connects one access point (AP), attached to a serial port, to the
    network manager, reached over TCP.  Packets of the AP are sent up to the manager,
    packets of the manager down to the AP; the bridge sets the AP's clock source and
    time and brings the AP into a defined state before each session.

    <<
      manager --TCP-- APCConnector --- APCClient --- APCoupler --- APMTransport --- SerialPort -- AP
                      APCSerializer    APCCache         |          APMSerializer    HDLC
                                       NotifThread     GPS, clocks
    >>

    ** Files and the code they model

    Foundations and helpers:
    - Prelude: machine integers, byte images of packed structures, record update, the
      state-and-output monad [M] in which the components are written, its lemmas and
      the hint databases [apb] and [apb_keeps].
    - Crash: computations that may end the process, and Hoare triples for them.
    - Common (common/common.cpp, StatDelaysCalc): byte order, ASN buffers, MAC addresses,
      ring arithmetic, bounded random numbers, delay statistics.
    - IoSrvThread (IOSrvThread.cpp): the thread of an io service and its timer.

    The manager's side:
    - ApcProto (APCProto.h, APCError.h, IAPCCommon.h): the manager's protocol.
    - ApcSerializer (APCSerializer.cpp): [prepMsg], [convert] and the parser
      [dataReceived] that cuts the TCP stream into messages, with its input buffer.
    - ApcCache (APCCache.cpp): the ring of packets that the manager has not confirmed.
    - ApcConnector (APCConnector.cpp): one connection: keep-alive timers, pool of output
      buffers, sending, reading, shutting down.
    - NotifThread (APCCntrlNotifThread.cpp): the queue between network threads and client.
    - ApcClient (APCClient.cpp): the session: connecting, resuming, replaying, giving up.
      Connectors live in a store and are named by numbers, as shared pointers name them.
    - ApcHistory: what a client accepted and sent over a sequence of operations.
    - ApcOrder: selections of numbered packets in order, which may leave out overwritten ones.
    - ApcSession: client, connectors, cache and notification thread together, with the
      manager at the other end of the connections, which are lost and made again.
    - ApcResume: the run that resumes a session which waits for its reconnection.

    The AP's side:
    - ApmProto (dn_api_*.h, dn_mesh.h): the part of the AP's message set in use.
    - ApmSerializer (APMSerializer.cpp): responses and notifications of the AP.
    - ApmTransport (APMTransport.cpp): the command queue, retries, packet ids,
      acknowledgements, flow control and life cycle of the link to the AP; one operation
      is one step.
    - ApmThreads: the transport's operations cut into sections where its lock is released,
      run by the thread of the io service and any number of callers.
    - Hdlc (HDLC.cpp): frame check sequence, byte stuffing, receiver.
    - SerialPort (SerialPort.cpp): output buffers and their completions, reading; a write
      as the steps between which other threads use the pool.
    - Gps (GPS.cpp): the thread that reads the GPS daemon, its status.

    The middle:
    - Coupler (APCoupler.cpp): handlers of the client, the AP and the GPS, and the state
      machine thread.
    - Bridge: transport, coupler and client put together as apc_main does; a call of one
      is executed in the other, and the composition has a log of what passes.
    - Wire: the bridge behind its serial port, and at the other end of the line the AP as
      the transport expects it: it repeats a notification until it hears its
      acknowledgement.  Bytes and frames in flight are part of the state.
    - Uplink: Wire and ApcSession with the client that they share, from the AP to the manager.

    The console:
    - ZMessage (rpc/public/zmqUtils.h): multi-part messages over the CZMQ library.
    - RpcProtocol, RpcDispatcher, RpcWorker, RpcServer (rpc/): commands and result codes,
      the log of nonces, the dispatcher with its workers on a heap, a worker, the server
      and the worker for log levels (logging/LogWorker.cpp); RpcCall composes them.
    - ApcWorker (rpc/APCRpcWorker.cpp): the commands of the bridge's console.
    - Endpoint (RpcCommon.cpp, ChangeIPCFilePrivilege.cpp): addresses of the servers.
    - RemoteLog (RemoteLogPublisher.cpp): the thread that publishes log messages.

    The program:
    - NodeState (ChangeNodeState.cpp, WdClntWrapper_APC.cpp): waiting for the end.
    - Options (ProcessInputArguments.cpp, apc_main.cpp): the options.
    - Main (apc_main.cpp): [main], its objects, calls, exceptions and destructors.

    Text:
    - FmtConv, FmtFloat, FmtOutput (FmtOutput.cpp, FmtOutput.h): integer, address and
      floating point conversions, the format parser, and the outputs of the program
      (string, bounded buffer, file) as instances of the class [IFmtOutput].
    - Printing (common/common.cpp): times, buffers and addresses as text.

    A method of the code is a definition of the same name.  A component's fields are
    a record; a method is a computation in [M], or in [CM] of Crash where it may crash,
    over it whose output is the list of the calls it makes of other components (sockets,
    timers, callbacks) in order.  What a method obtains from its environment during one
    call, the clock, errors of Boost.Asio, wake-ups of a condition variable, is an
    argument ([env]) and all theorems quantify over it.

    Code that runs in several threads has an inductive set of steps, and theorems about
    reachable states hold for every interleaving of them.  ApmThreads, NotifThread, SerialPort, IoSrvThread, RemoteLog,
    NodeState and the command [AP_API] of ApcWorker are cut where the code takes and releases its
    locks (or uses a shared field without one).  In ApcConnector, ApcClient, ApmTransport and Coupler a method that is called is
    one step, the waits in it included as arguments, and the coupler's thread is cut at its waits; ApcSession, Bridge, Wire and
    Uplink compose these steps.  In Gps an iteration of the reading thread is one step, which [stop_inside]
    justifies for one such thread.

    ** What the theorems show

    - The line (Wire): from the AP to the client, over a serial line that corrupts copies
      and loses acknowledgements and is read in arbitrary pieces, packets arrive exactly
      once and in order ([line_exactly_once]), and exactly one more copy is enough for the AP to get
      its acknowledgement ([line_progress]).
    - The session (ApcSession): over any number of connections the manager receives
      packets the client accepted in order and none twice; only packets overwritten in the cache are missing between
      others, and none if the cache held what was missing at every answer ([session_exactly_once], [session_overflow]; the
      conditions on the manager, timers and reads are in its comment); a session that waits for its reconnection can
      be resumed ([session_resumes]).
    - From end to end (Uplink): line and session at once, under the same conditions, the manager receives packets of
      the AP in order and without repetition, and all of them once the client is online
      and has refused and overwritten none ([packets_to_manager]).
    - The bridge as a whole (Bridge): packets of the AP reach the client exactly once and
      in order, and the client keeps them for a resumption ([uplink_once]); a packet of the manager becomes the frame for the AP
      ([downlink_frame]).
    - The session with the manager (ApcClient, ApcConnector, ApcCache, NotifThread):
      every reachable client has a cache that is its history of sent packets; a resumed
      session replays exactly the packets that are not confirmed; a lost connection is
      retried up to a fixed deadline; sending is described on every branch; output
      buffers are exclusive; a connector reports its end once; the cache is a bounded
      queue; notifications arrive once and in order.
    - The parsers and serializers (ApcSerializer, ApmSerializer, Hdlc, Printing): round
      trips, independence of the chunking of the stream, absence of writes outside
      the buffers, soundness of the checksum; the table of the checksum equals the
      bitwise polynomial.
    - The link to the AP (ApmTransport, ApmThreads, SerialPort): an invariant of the states that operations reach, and of
      those that interleaved sections of operations reach (in which the manager need not be paused above the high
      watermark, [late_resume_unpaused]); exactly-once delivery of notifications, what a response does to the command
      in flight on every result code, bounded retries, writes that stay intact until they complete unless a reference into the
      pool becomes stale ([write_through_stale]).
    - The coupler and the GPS: joins only after a boot, bounded resets, the clock source
      settles over sessions that begin with the AP's report of its source, the time is exact and kept out of the blackout around a leap second; a GPS
      fix is only reported after the time it takes to be stable.
    - The console (RpcCall, RpcDispatcher, RpcProtocol, RpcServer, ApcWorker, Endpoint): a
      call is answered with the worker's reply; requests are served in order; the heap of
      workers is well formed and the running dispatcher crashes exactly on the named inputs; a nonce is accepted
      once as long as the clock does not go back; requests are kept before the workers have registered; workers reach their
      server; a response of the AP belongs to its command; a clock source or log level
      that was set is read back.
    - The program (Main, Options, NodeState, IoSrvThread, RemoteLog): end, exit code and misuse
      of objects for every pattern of calls that fail or hang; where options come from; a request to stop
      is not lost unless a signal interrupts a thread that has the mutex; the io service does not run out of work; log messages are published in
      order and deleted once.
    - The formatter: all outputs receive the same text, the loop ends, decimal
      directives and conversions are exact for machine integers of either width, IPv6
      addresses have their reference text.

    Places where the code does not do what it means to are theorems or facts as well (for
    example [highPriority_overtakes], [stop_waits_for_manager], [alternate_hex_stale],
    [stale_response], [signal_blocks], [config_name_lost], [late_answer_strands],
    [late_resume_unpaused], [write_through_stale], [clk_change_repeated], [clock_back_replays]).

    ** Parameters, bounds and fuel

    - ApmTransport takes the reactions of the upper layer as parameters ([reactFlow],
      [react]), the first with the laws of the class [FlowHandler]; Bridge instantiates
      them by the coupler.  The formatter takes the width of [long] and the table of
      extensions; what [fwrite] accepts is a field of [CFmtFile].
    - The RPC files take the CZMQ library as the class [CZMQ] with its documented laws
      [CZMQ_laws] (implemented by [CzmqList]), and the parsers and serializers generated
      from protocol buffers as functions; Endpoint and Options take Boost.Filesystem
      ([Filesystem], [FilesystemLaws]; implemented by [UnixFs]) and the results of
      Boost.Program_options.
    - The parser's fuel is the length of the data, each round consumes a byte; the replay's
      is the size of the ring and one; number conversions have 64 rounds, one per bit; the
      formatter's fuel is the length of the format and one ([vformat_loop_ends]); the
      floating point loops have 80 rounds, the size of their buffer, and 400 for the
      zeros behind the point of a double; the dispatcher's loop has the number of requests.

    ** Not modelled

    Operating system and libraries: sockets, timers and threads of Boost.Asio (events),
    the gpsd library, ZeroMQ, log4cxx, the NTP and C library's time zone functions (their
    results are arguments), zmq.hpp.  The contents of log messages and the macros that
    write them.  Constants and structures of the radio headers that the bridge does not
    use.  The GPS is not part of the composition in Bridge and Wire, nor are the sockets;
    in Wire every write on the port is uninterrupted and goes out whole and in order ([write_through_stale] and
    [port_writes_overlap] in SerialPort show that the code does not see to that), the AP does not boot during the
    run, and its responses answer commands other than the two notifications that the
    serializer also takes from a response.  In ApcSession the packets of a connection are
    messages, not bytes; a timer that was cancelled does not expire, a stopped connector's
    reads fail ([late_answer_strands] shows that the code does not see to that), and the
    manager answers connections in their order, each once.  What a thread does after a use of freed memory or a read beyond
    a buffer is left open: the event or the crash says where it happens.  Two threads in Gps at once, signals that
    interrupt a thread after it has written in [stop] or [promote], and what the thread that [main] leaves behind does with destroyed
    objects are not followed. *)
From stdpp Require Import base numbers list option strings.
From Stdlib Require Import ZArith Lia.

Local Open Scope Z_scope.

(** * Machine integers

    An unsigned integer of [w] bits is a [Z]; every store into a C++ variable
    of that width goes through [wrap w]. *)
Definition wrap (w : Z) (z : Z) : Z := z mod 2 ^ w.
Definition u8 (z : Z) : Z := wrap 8 z.
Definition u16 (z : Z) : Z := wrap 16 z.
Definition u32 (z : Z) : Z := wrap 32 z.
Definition u64 (z : Z) : Z := wrap 64 z.

(** A signed two's complement integer of [w] bits. *)
Definition swrap (w : Z) (z : Z) : Z := (z + 2 ^ (w - 1)) mod 2 ^ w - 2 ^ (w - 1).
Definition s32 (z : Z) : Z := swrap 32 z.
Definition s64 (z : Z) : Z := swrap 64 z.

(** * Bytes and the memory image of integers (little-endian host) *)
Definition is_byte (b : Z) : Prop := 0 <= b < 256.

Fixpoint le_bytes (n : nat) (v : Z) : list Z :=
  match n with
  | O => []
  | S n' => (v mod 256) :: le_bytes n' (v / 256)
  end.

Fixpoint le_val (bs : list Z) : Z :=
  match bs with
  | [] => 0
  | b :: r => b + 256 * le_val r
  end.

(** Byte swap of an [n]-byte integer: what [htons], [htonl] and their inverses
    compute on a little-endian host. *)
Definition bswap (n : nat) (v : Z) : Z := le_val (rev (le_bytes n v)).
Definition htons (v : Z) : Z := bswap 2 v.
Definition ntohs (v : Z) : Z := bswap 2 v.
Definition htonl (v : Z) : Z := bswap 4 v.
Definition ntohl (v : Z) : Z := bswap 4 v.

(** In-place access to an [n]-byte integer at offset [off] of a buffer. *)
Definition get_field (off n : nat) (bs : list Z) : Z := le_val (take n (drop off bs)).
Definition set_field (off n : nat) (v : Z) (bs : list Z) : list Z :=
  take off bs ++ le_bytes n v ++ drop (off + n) bs.

(** * Packed structures

    A [PACKED] C++ structure is the list of its fields in order with their
    sizes in bytes; offsets and the total size follow from it. *)
Definition layout : Type := list (string * nat).

Definition sizeof (l : layout) : nat := foldr (fun f n => snd f + n)%nat 0%nat l.

Fixpoint offsetof (l : layout) (f : string) : nat :=
  match l with
  | [] => 0
  | (g, n) :: r => if String.eqb f g then 0 else n + offsetof r f
  end.

Fixpoint widthof (l : layout) (f : string) : nat :=
  match l with
  | [] => 0
  | (g, n) :: r => if String.eqb f g then n else widthof r f
  end.

(** Field access through a pointer to the structure at the front of [bs]. *)
Definition fld (l : layout) (f : string) (bs : list Z) : Z :=
  get_field (offsetof l f) (widthof l f) bs.
Definition set_fld (l : layout) (f : string) (v : Z) (bs : list Z) : list Z :=
  set_field (offsetof l f) (widthof l f) v bs.

(** * Record update

    [r <| f := v |>] is [r] with field [f] set to [v]; a record type provides
    its eta-expansion ([Eta]) once, and the update functions are derived. *)
Class Eta (R : Type) := rebuild : R -> R.
Class FieldUpd {R T : Type} (proj : R -> T) := upd : T -> R -> R.
Arguments upd {R T} proj {_} v r : rename.

Ltac derive_upd R proj :=
  let e := eval cbv delta [rebuild] in (@rebuild R _) in
  let e := eval hnf in e in
  lazymatch eval pattern proj in e with
  | ?F _ => exact (fun v r => ltac:(let t := eval cbv beta in (F (fun _ => v) r) in exact t))
  end.
#[export] Hint Extern 0 (@FieldUpd ?R _ ?proj) => derive_upd R proj : typeclass_instances.

Declare Scope apb_scope.
Delimit Scope apb_scope with apb.
#[warnings="-postfix-notation-not-level-1"]
Notation "r <| f := v |>" := (upd f v r)
  (at level 12, f constr at next level, left associativity, format "r  <| f  :=  v |>") : apb_scope.
#[global] Open Scope apb_scope.

(** * A state and output monad

    [M S E A] is a computation that reads and writes the component state [S],
    calls other components by emitting events [E] in order, and returns [A]. *)
Definition M (S E A : Type) : Type := S -> S * list E * A.

#[export] Instance M_ret {S E} : MRet (M S E) := fun A a s => (s, [], a).
#[export] Instance M_bind {S E} : MBind (M S E) := fun A B k m s =>
  let '(s1, t1, a) := m s in
  let '(s2, t2, b) := k a s1 in
  (s2, t1 ++ t2, b).

Definition get {S E} : M S E S := fun s => (s, [], s).
Definition gets {S E A} (f : S -> A) : M S E A := fun s => (s, [], f s).
Definition modify {S E} (f : S -> S) : M S E unit := fun s => (f s, [], tt).
Definition emit {S E} (e : E) : M S E unit := fun s => (s, [e], tt).
Definition when {S E} (b : bool) (m : M S E unit) : M S E unit :=
  if b then m else mret tt.

(** Run a computation and keep only the state, the events or the result. *)
Definition st_of {S E A} (m : M S E A) (s : S) : S := fst (fst (m s)).
Definition out_of {S E A} (m : M S E A) (s : S) : list E := snd (fst (m s)).
Definition res_of {S E A} (m : M S E A) (s : S) : A := snd (m s).

(** Weakest precondition over result, final state and events. *)
Definition wp {S E A} (m : M S E A) (Q : A -> S -> list E -> Prop) (s : S) : Prop :=
  Q (res_of m s) (st_of m s) (out_of m s).

(** [m] keeps the state invariant [I] and emits only events that satisfy [P]. *)
Definition keeps {S E A} (I : S -> Prop) (P : E -> Prop) (m : M S E A) : Prop :=
  forall s, I s -> I (st_of m s) /\ Forall P (out_of m s).

(** [lia] with the equations of division and remainder. *)
Ltac dlia := Z.to_euclidean_division_equations; lia.

Create HintDb apb.
Create HintDb apb_keeps.

(** * Facts about widths *)
Lemma wrap_small w z : 0 <= z < 2 ^ w -> wrap w z = z.
Proof. intros; unfold wrap; by apply Z.mod_small. Qed.

Lemma wrap_range w z : 0 <= w -> 0 <= wrap w z < 2 ^ w.
Proof. intros; unfold wrap; apply Z.mod_pos_bound; lia. Qed.

Lemma wrap_wrap w z : 0 <= w -> wrap w (wrap w z) = wrap w z.
Proof. intros; apply wrap_small; by apply wrap_range. Qed.

Lemma u8_small z : 0 <= z < 256 -> u8 z = z.
Proof. intros; apply wrap_small; lia. Qed.
Lemma u16_small z : 0 <= z < 65536 -> u16 z = z.
Proof. intros; apply wrap_small; lia. Qed.
Lemma u32_small z : 0 <= z < 4294967296 -> u32 z = z.
Proof. intros; apply wrap_small; lia. Qed.
Lemma u64_small z : 0 <= z < 18446744073709551616 -> u64 z = z.
Proof. intros; apply wrap_small; lia. Qed.
Lemma u32_range z : 0 <= u32 z < 4294967296.
Proof. apply (wrap_range 32); lia. Qed.
Lemma u16_range z : 0 <= u16 z < 65536.
Proof. apply (wrap_range 16); lia. Qed.

(** * Facts about byte images *)
Lemma length_le_bytes n v : length (le_bytes n v) = n.
Proof. revert v; induction n; intros; simpl; auto. Qed.

Lemma le_bytes_byte n v : Forall is_byte (le_bytes n v).
Proof.
  revert v; induction n; intros; simpl; constructor; auto.
  unfold is_byte; apply Z.mod_pos_bound; lia.
Qed.

Lemma le_val_range bs : Forall is_byte bs -> 0 <= le_val bs < 256 ^ Z.of_nat (length bs).
Proof.
  induction 1 as [|b bs Hb _ IH]; [simpl; lia|].
  cbn [le_val length]. unfold is_byte in Hb.
  rewrite Nat2Z.inj_succ, Z.pow_succ_r by lia. lia.
Qed.

Lemma le_val_le_bytes n v : le_val (le_bytes n v) = v mod 256 ^ Z.of_nat n.
Proof.
  revert v; induction n; intros; cbn [le_val le_bytes].
  - by rewrite Z.mod_1_r.
  - rewrite IHn, Nat2Z.inj_succ, Z.pow_succ_r by lia.
    rewrite Z.rem_mul_r by lia. lia.
Qed.

Lemma le_bytes_le_val bs : Forall is_byte bs -> le_bytes (length bs) (le_val bs) = bs.
Proof.
  induction 1 as [|b bs Hb _ IH]; [done|]; cbn [le_val length le_bytes].
  unfold is_byte in Hb.
  rewrite (Z.mul_comm 256), Z.mod_add, Z.div_add by lia.
  rewrite Z.mod_small, Z.div_small, Z.add_0_l by lia. by rewrite IH.
Qed.

Lemma rev_bytes (bs : list Z) : Forall is_byte bs -> Forall is_byte (rev bs).
Proof. apply Forall_rev. Qed.

#[export] Hint Resolve le_bytes_byte rev_bytes : apb.
#[export] Hint Rewrite length_le_bytes length_rev : apb.

Lemma le_bytes_bswap n v : le_bytes n (bswap n v) = rev (le_bytes n v).
Proof.
  unfold bswap.
  rewrite <- (length_le_bytes n v) at 1. rewrite <- length_rev.
  apply le_bytes_le_val; auto with apb.
Qed.

Lemma bswap_range n v : 0 <= bswap n v < 256 ^ Z.of_nat n.
Proof.
  unfold bswap.
  pose proof (le_val_range (rev (le_bytes n v))) as H.
  rewrite length_rev, length_le_bytes in H. apply H; auto with apb.
Qed.

Lemma bswap_involutive n v : 0 <= v < 256 ^ Z.of_nat n -> bswap n (bswap n v) = v.
Proof.
  intros. unfold bswap at 1. rewrite le_bytes_bswap, rev_involutive.
  rewrite le_val_le_bytes. by apply Z.mod_small.
Qed.

Lemma set_get_length off n v bs :
  (off + n <= length bs)%nat -> length (set_field off n v bs) = length bs.
Proof.
  intros. unfold set_field.
  rewrite !length_app, length_take, length_drop, length_le_bytes. lia.
Qed.

Lemma get_set_same off n v bs :
  (off + n <= length bs)%nat -> get_field off n (set_field off n v bs) = v mod 256 ^ Z.of_nat n.
Proof.
  intros. unfold get_field, set_field.
  rewrite drop_app_length' by (rewrite length_take; lia).
  rewrite take_app_length' by (symmetry; apply length_le_bytes). apply le_val_le_bytes.
Qed.

Lemma get_field_app off n a b :
  (off + n <= length a)%nat -> get_field off n (a ++ b) = get_field off n a.
Proof.
  intros. unfold get_field. rewrite drop_app_le by lia.
  rewrite take_app_le by (rewrite length_drop; lia). done.
Qed.

Lemma get_field_app_r off n a b :
  (length a <= off)%nat -> get_field off n (a ++ b) = get_field (off - length a) n b.
Proof. intros. unfold get_field. by rewrite drop_app_ge by lia. Qed.

Lemma get_field_drop k off n bs : get_field off n (drop k bs) = get_field (k + off) n bs.
Proof. unfold get_field. by rewrite drop_drop. Qed.

Lemma get_set_other off n off' n' v bs :
  (off + n <= off' \/ off' + n' <= off)%nat -> (off' + n' <= length bs)%nat ->
  get_field off n (set_field off' n' v bs) = get_field off n bs.
Proof.
  intros Hd Hl. unfold set_field. destruct Hd as [Hd|Hd].
  - rewrite get_field_app by (rewrite length_take; lia).
    rewrite <- (take_drop off' bs) at 2. by rewrite get_field_app by (rewrite length_take; lia).
  - rewrite app_assoc, get_field_app_r by (rewrite length_app, length_take, length_le_bytes; lia).
    rewrite length_app, length_take, length_le_bytes, get_field_drop. f_equal. lia.
Qed.

Lemma get_field_range off n bs :
  Forall is_byte bs -> (off + n <= length bs)%nat ->
  0 <= get_field off n bs < 256 ^ Z.of_nat n.
Proof.
  intros Hb Hl. unfold get_field.
  pose proof (le_val_range (take n (drop off bs))) as H.
  rewrite length_take, length_drop, Nat.min_l in H by lia. apply H.
  by apply Forall_take, Forall_drop.
Qed.

(** Sizes of buffers after nested field writes. *)
Ltac fieldlen := rewrite ?set_get_length by fieldlen; lia.

(** Reversing the bytes of a field in place: a byte swap of its value. *)
Definition rev_seg (off n : nat) (bs : list Z) : list Z :=
  take off bs ++ rev (take n (drop off bs)) ++ drop (off + n) bs.

Lemma set_bswap off n bs :
  Forall is_byte bs -> (off + n <= length bs)%nat ->
  set_field off n (bswap n (get_field off n bs)) bs = rev_seg off n bs.
Proof.
  intros Hb Hl. unfold set_field, rev_seg, get_field. rewrite le_bytes_bswap.
  pose proof (le_bytes_le_val (take n (drop off bs))) as H.
  rewrite length_take, length_drop, Nat.min_l in H by lia.
  rewrite H; [done|]. by apply Forall_take, Forall_drop.
Qed.

Lemma length_rev_seg off n bs : length (rev_seg off n bs) = length bs.
Proof.
  unfold rev_seg.
  rewrite !length_app, length_rev, !length_take, !length_drop. lia.
Qed.

Lemma rev_seg_bytes off n bs : Forall is_byte bs -> Forall is_byte (rev_seg off n bs).
Proof.
  intros. unfold rev_seg. rewrite !Forall_app. split_and!.
  - by apply Forall_take.
  - by apply Forall_rev, Forall_take, Forall_drop.
  - by apply Forall_drop.
Qed.

Lemma rev_seg_lookup off n bs i :
  (off + n <= length bs)%nat ->
  rev_seg off n bs !! i =
    if decide (off <= i < off + n)%nat then bs !! (off + n - 1 - (i - off))%nat else bs !! i.
Proof.
  intros Hl. unfold rev_seg.
  assert (length (take off bs) = off) by (rewrite length_take; lia).
  assert (length (rev (take n (drop off bs))) = n)
    by (rewrite length_rev, length_take, length_drop; lia).
  case_decide as Hi.
  - rewrite lookup_app_r, lookup_app_l, rev_alt by lia.
    change (rev_append (take n (drop off bs)) []) with (reverse (take n (drop off bs))).
    assert (length (take n (drop off bs)) = n) as Hn by (rewrite length_take, length_drop; lia).
    rewrite reverse_lookup by (rewrite Hn; lia).
    rewrite Hn, lookup_take_lt, lookup_drop by lia. f_equal. lia.
  - destruct (decide (i < off)%nat).
    + by rewrite lookup_app_l, lookup_take_lt by lia.
    + rewrite !lookup_app_r, lookup_drop by lia. f_equal. lia.
Qed.

Lemma rev_seg_involutive off n bs :
  (off + n <= length bs)%nat -> rev_seg off n (rev_seg off n bs) = bs.
Proof.
  intros. apply list_eq; intros i. rewrite !rev_seg_lookup by (rewrite ?length_rev_seg; lia).
  repeat case_decide; try lia; f_equal; lia.
Qed.

Lemma rev_seg_comm off n off' n' bs :
  (off + n <= off' \/ off' + n' <= off)%nat ->
  (off + n <= length bs)%nat -> (off' + n' <= length bs)%nat ->
  rev_seg off n (rev_seg off' n' bs) = rev_seg off' n' (rev_seg off n bs).
Proof.
  intros Hd H1 H2. apply list_eq; intros i.
  rewrite !rev_seg_lookup by (rewrite ?length_rev_seg; lia).
  repeat case_decide; try lia; f_equal; lia.
Qed.

(** * Rules of the monad *)
Lemma wp_ret {S E A} (a : A) (Q : A -> S -> list E -> Prop) s :
  Q a s [] -> wp (mret a) Q s.
Proof. done. Qed.

Lemma run_bind {S E A B} (m : M S E A) (k : A -> M S E B) s :
  (m ≫= k) s = (st_of (k (res_of m s)) (st_of m s),
                out_of m s ++ out_of (k (res_of m s)) (st_of m s),
                res_of (k (res_of m s)) (st_of m s)).
Proof.
  unfold mbind, M_bind, st_of, out_of, res_of.
  destruct (m s) as [[s1 t1] a]; simpl. by destruct (k a s1) as [[s2 t2] b].
Qed.

Lemma bind_run {S E A B} (m : M S E A) (k : A -> M S E B) s s1 t1 a :
  m s = (s1, t1, a) ->
  (m ≫= k) s = (st_of (k a) s1, t1 ++ out_of (k a) s1, res_of (k a) s1).
Proof. intros H. rewrite run_bind. unfold st_of, out_of, res_of. by rewrite H. Qed.

(** A command without events: go on in its state. *)
Lemma bind_pure {S E A B} (m : M S E A) (k : A -> M S E B) s s1 a :
  m s = (s1, [], a) -> (m ≫= k) s = k a s1.
Proof. intros H. unfold mbind, M_bind. rewrite H. by destruct (k a s1) as [[s2 t2] b]. Qed.

Lemma bind_silent {S E A B} (m : M S E A) (k : A -> M S E B) s :
  out_of m s = [] -> (m ≫= k) s = k (res_of m s) (st_of m s).
Proof. unfold out_of, res_of, st_of. intros H. apply bind_pure. destruct (m s) as [[s1 t1] a]. by cbn in *; subst. Qed.

(** A list and the element taken from its end. *)
Lemma last_removelast {A} (l : list A) x : last l = Some x -> l = removelast l ++ [x].
Proof.
  intros H. destruct l as [|y l] using rev_ind; [done|].
  rewrite last_snoc in H. injection H as ->. by rewrite removelast_last.
Qed.

(** A computation for each element of a list. *)
Fixpoint each {S E A} (f : A -> M S E unit) (l : list A) : M S E unit :=
  match l with [] => mret tt | a :: l => f a ;; each f l end.

Lemma each_app {S E A} (f : A -> M S E unit) l1 l2 s s1 s2 t1 t2 :
  each f l1 s = (s1, t1, tt) -> each f l2 s1 = (s2, t2, tt) -> each f (l1 ++ l2) s = (s2, t1 ++ t2, tt).
Proof.
  intros H1 H2. revert s t1 H1. induction l1 as [|a l1 IH]; intros s t1 H1; [by injection H1 as <- <-|].
  cbn [app each] in *. unfold mbind, M_bind in *. destruct (f a s) as [[s0 t0] []].
  destruct (each f l1 s0) as [[s3 t3] []] eqn:H3. injection H1 as -> <-. rewrite (IH _ _ H3). by rewrite app_assoc.
Qed.

Lemma st_bind {S E A B} (m : M S E A) (k : A -> M S E B) s :
  st_of (m ≫= k) s = st_of (k (res_of m s)) (st_of m s).
Proof. unfold st_of at 1. by rewrite run_bind. Qed.

Lemma st_read {S E A} (k : S -> M S E A) s : st_of (get ≫= k) s = st_of (k s) s.
Proof. by rewrite st_bind. Qed.

Lemma out_bind {S E A B} (m : M S E A) (k : A -> M S E B) s :
  out_of (m ≫= k) s = out_of m s ++ out_of (k (res_of m s)) (st_of m s).
Proof. unfold out_of at 1. by rewrite run_bind. Qed.

Lemma out_read {S E A} (k : S -> M S E A) s : out_of (get ≫= k) s = out_of (k s) s.
Proof. by rewrite out_bind. Qed.

Lemma res_bind {S E A B} (m : M S E A) (k : A -> M S E B) s :
  res_of (m ≫= k) s = res_of (k (res_of m s)) (st_of m s).
Proof. unfold res_of at 1. by rewrite run_bind. Qed.

Lemma wp_bind {S E A B} (m : M S E A) (k : A -> M S E B) Q s :
  wp m (fun a s1 t1 => wp (k a) (fun b s2 t2 => Q b s2 (t1 ++ t2)) s1) s ->
  wp (m ≫= k) Q s.
Proof.
  unfold wp. unfold res_of at 5, st_of at 5, out_of at 3. by rewrite run_bind.
Qed.

Lemma keeps_ret {S E A} (I : S -> Prop) (P : E -> Prop) (a : A) : keeps I P (mret a).
Proof. by intros s ?. Qed.

Lemma keeps_bind {S E A B} (I : S -> Prop) (P : E -> Prop) (m : M S E A) (k : A -> M S E B) :
  keeps I P m -> (forall a, keeps I P (k a)) -> keeps I P (m ≫= k).
Proof.
  intros Hm Hk s Hs. unfold st_of at 1, out_of at 1. rewrite run_bind; simpl.
  destruct (Hm s Hs) as [H1 H2]. destruct (Hk (res_of m s) _ H1) as [H3 H4].
  split; [done|]. by apply Forall_app.
Qed.

Lemma keeps_get {S E} (I : S -> Prop) (P : E -> Prop) : keeps I P get.
Proof. by intros s ?. Qed.
Lemma keeps_gets {S E A} (I : S -> Prop) (P : E -> Prop) (f : S -> A) : keeps I P (gets f).
Proof. by intros s ?. Qed.
Lemma keeps_modify {S E} (I : S -> Prop) (P : E -> Prop) (f : S -> S) :
  (forall s, I s -> I (f s)) -> keeps I P (modify f).
Proof. intros H s Hs; split; [by apply H | constructor]. Qed.
Lemma keeps_emit {S E} (I : S -> Prop) (P : E -> Prop) (e : E) :
  P e -> keeps I P (emit e).
Proof. intros H s Hs; split; [done | by repeat constructor]. Qed.
Lemma keeps_if {S E A} (I : S -> Prop) (P : E -> Prop) (b : bool) (m1 m2 : M S E A) :
  keeps I P m1 -> keeps I P m2 -> keeps I P (if b then m1 else m2).
Proof. by destruct b. Qed.
Lemma keeps_when {S E} (I : S -> Prop) (P : E -> Prop) (b : bool) (m : M S E unit) :
  keeps I P m -> keeps I P (when b m).
Proof. intros; apply keeps_if; [done | apply keeps_ret]. Qed.


(** The same at one state; a command that begins by reading the state knows it. *)
Definition keeps_at {S E A} (I : S -> Prop) (P : E -> Prop) (m : M S E A) (s : S) : Prop :=
  I (st_of m s) /\ Forall P (out_of m s).

Lemma keeps_read {S E A} (I : S -> Prop) (P : E -> Prop) (k : S -> M S E A) :
  (forall s, I s -> keeps_at I P (k s) s) -> keeps I P (get ≫= k).
Proof.
  intros H s Hs. unfold st_of at 1, out_of at 1. rewrite run_bind. simpl. by apply H.
Qed.

Lemma keeps_to_at {S E A} (I : S -> Prop) (P : E -> Prop) (m : M S E A) s :
  keeps I P m -> I s -> keeps_at I P m s.
Proof. intros H Hs. by apply H. Qed.

Lemma keeps_st {S E A} (I : S -> Prop) (P : E -> Prop) (m : M S E A) s :
  keeps I P m -> I s -> I (st_of m s).
Proof. intros H Hs. by apply H. Qed.

Lemma keeps_at_bind {S E A B} (I : S -> Prop) (P : E -> Prop) (m : M S E A) (k : A -> M S E B) s :
  keeps_at I P m s -> (forall a, keeps I P (k a)) -> keeps_at I P (m ≫= k) s.
Proof.
  intros [H1 H2] Hk. unfold keeps_at, st_of at 1, out_of at 1. rewrite run_bind; simpl.
  destruct (Hk (res_of m s) _ H1) as [H3 H4]. split; [done|]. by apply Forall_app.
Qed.

Lemma keeps_at_modify {S E} (I : S -> Prop) (P : E -> Prop) (f : S -> S) s :
  I (f s) -> keeps_at I P (modify f) s.
Proof. intros; split; [done | constructor]. Qed.

(** Run a command whose state is at hand. *)
Ltac runM := unfold when, mbind, M_bind, mret, M_ret, get, gets, modify, emit; cbv beta iota.

(** From states [I] the command goes to states [J]. *)
Definition trans {S E A} (I J : S -> Prop) (m : M S E A) : Prop := forall s, I s -> J (st_of m s).

Lemma trans_bind {S E A B} (K I J : S -> Prop) (m : M S E A) (k : A -> M S E B) :
  trans I K m -> (forall a, trans K J (k a)) -> trans I J (m ≫= k).
Proof. intros Hm Hk s Hs. unfold st_of. rewrite run_bind. cbn [fst]. by apply Hk, Hm. Qed.

Lemma trans_read {S E A} (I J : S -> Prop) (k : S -> M S E A) :
  (forall s, I s -> J (st_of (k s) s)) -> trans I J (get ≫= k).
Proof. intros H s Hs. unfold st_of. rewrite run_bind. cbn [fst]. by apply H. Qed.

Lemma trans_modify {S E} (I J : S -> Prop) (f : S -> S) :
  (forall s, I s -> J (f s)) -> trans (E := E) I J (modify f).
Proof. intros H s Hs. by apply H. Qed.

Lemma trans_ret {S E A} (I J : S -> Prop) (a : A) :
  (forall s, I s -> J s) -> trans (E := E) I J (mret a).
Proof. intros H s Hs. by apply H. Qed.

Lemma keeps_trans {S E A} (I : S -> Prop) (P : E -> Prop) (m : M S E A) :
  keeps I P m -> trans I I m.
Proof. intros H s Hs. by apply H. Qed.

Lemma trans_weaken {S E A} (I J I' J' : S -> Prop) (m : M S E A) :
  (forall s, I' s -> I s) -> (forall s, J s -> J' s) -> trans I J m -> trans I' J' m.
Proof. intros H1 H2 Hm s Hs. by apply H2, Hm, H1. Qed.

(** Walk through a command; what is left are the updates of the state and the
    events that need an argument. *)
Ltac keeps_step :=
  match goal with
  | |- keeps _ _ (mret _) => apply keeps_ret
  | |- keeps _ _ get => apply keeps_get
  | |- keeps _ _ (gets _) => apply keeps_gets
  | |- keeps _ _ (emit _) => apply keeps_emit
  | |- keeps _ _ (modify _) => apply keeps_modify
  | |- keeps _ _ (when _ _) => apply keeps_when
  | |- keeps _ _ (_ ≫= _) => apply keeps_bind; [|intros ?]
  | |- keeps _ _ (if decide _ then _ else _) => case_decide
  | |- keeps _ _ (if _ then _ else _) => apply keeps_if
  | |- keeps _ _ (match ?x with _ => _ end) => destruct x
  | |- keeps _ _ _ => solve [eauto with apb_keeps]
  end.
Ltac keeps_auto := repeat (cbv zeta; keeps_step).

#[export] Hint Resolve keeps_ret keeps_bind keeps_get keeps_gets keeps_modify keeps_emit
  keeps_if keeps_when : apb_keeps.
