(* ===== verification/Common.v ===== *)
(** Utilities shared by all parts (common/common.cpp, common.h, StatDelaysCalc).

    Byte order macros, ASN buffers, MAC addresses, hexadecimal parsing and
    printing, wrapped counters, bounded random numbers, and the delay statistics
    kept by the connectors.  A C string is the list of its characters, without
    the terminator; a buffer is a list of bytes. *)
From stdpp Require Import base numbers list option sets.
From Stdlib Require Import ZArith Lia.
From S2P Require Import Prelude.

Local Open Scope Z_scope.

(** What a reader of a C string sees of a buffer: up to the first zero. *)
Fixpoint c_str (s : list Z) : list Z :=
  match s with [] => [] | c :: s => if c =? 0 then [] else c :: c_str s end.

(** ** Byte order *)
Inductive converttype_t : Set := HOST_TO_NET | NET_TO_HOST.

#[export] Instance converttype_t_eq_dec : EqDecision converttype_t.
Proof. solve_decision. Defined.

(** The macro on a 64-bit unsigned argument. *)
Definition htonll (l : Z) : Z :=
  let l := u64 l in
  Z.lor (Z.lor (Z.lor (Z.lor (Z.lor (Z.lor (Z.lor
    (Z.land (Z.shiftr l 56) 0xFF)
    (Z.land (Z.shiftr l 40) 0xFF00))
    (Z.land (Z.shiftr l 24) 0xFF0000))
    (Z.land (Z.shiftr l 8) 0xFF000000))
    (Z.land (Z.shiftl l 8) 0xFF00000000))
    (Z.land (Z.shiftl l 24) 0xFF0000000000))
    (Z.land (Z.shiftl l 40) 0xFF000000000000))
    (Z.land (Z.shiftl l 56) 0xFF00000000000000).
Definition ntohll (l : Z) : Z := htonll l.

Definition CONVERT_S (c : converttype_t) (v : Z) : Z :=
  if decide (c = NET_TO_HOST) then ntohs v else htons v.
Definition CONVERT_L (c : converttype_t) (v : Z) : Z :=
  if decide (c = NET_TO_HOST) then ntohl v else htonl v.
Definition CONVERT_LL (c : converttype_t) (v : Z) : Z :=
  if decide (c = NET_TO_HOST) then ntohll v else htonll v.

(** ** ASN buffers *)
Definition sizeof_asn_t : nat := 8.

Definition ntoh_asn (netAsn : list Z) (netAsnSize : nat) : Z :=
  let asnSize := Nat.min netAsnSize sizeof_asn_t in
  foldl (fun result b => s64 (s64 (Z.shiftl result 8) + b)) 0 (take asnSize netAsn).

(** The loop writes index [asnSize-1] first and shifts the value down. *)
Fixpoint hton_asn_loop (n : nat) (v : Z) (netAsn : list Z) : list Z :=
  match n with
  | O => netAsn
  | S i => hton_asn_loop i (Z.shiftr v 8) (<[i := Z.land v 0xFF]> netAsn)
  end.
Definition hton_asn (hostAsn : Z) (netAsn : list Z) (netAsnSize : nat) : list Z :=
  hton_asn_loop (Nat.min netAsnSize sizeof_asn_t) hostAsn netAsn.

(** ** MAC addresses *)
Definition MAC_LENGTH : nat := 8.
Definition MOTEID_EMPTY : Z := 0.
Definition MOTEID_BROADCAST : Z := 0xFFFF.

Definition isMacEqu (mac1 mac2 : list Z) : bool :=
  bool_decide (take MAC_LENGTH mac1 = take MAC_LENGTH mac2).
Definition isMacBroadcast (mac : list Z) : bool := isMacEqu mac (replicate MAC_LENGTH 0xFF).
Definition isMacEmpty (mac : list Z) : bool := isMacEqu mac (replicate MAC_LENGTH 0).
Definition setMacBroadcast (mac : list Z) : list Z :=
  replicate MAC_LENGTH 0xFF ++ drop MAC_LENGTH mac.
Definition setMacEmpty (mac : list Z) : list Z :=
  replicate MAC_LENGTH 0 ++ drop MAC_LENGTH mac.
Definition copyMac (dst src : list Z) : list Z := take MAC_LENGTH src ++ drop MAC_LENGTH dst.

(** ** Hexadecimal text *)
Definition ch_0 : Z := 48.
Definition ch_9 : Z := 57.
Definition ch_a : Z := 97.
Definition ch_f : Z := 102.
Definition ch_A : Z := 65.
Definition ch_F : Z := 70.
Definition ch_dash : Z := 45.
Definition ch_colon : Z := 58.

Definition hexCh2bin (ch : Z) : Z :=
  if (ch_0 <=? ch) && (ch <=? ch_9) then ch - ch_0
  else if (ch_a <=? ch) && (ch <=? ch_f) then ch - ch_a + 10
  else if (ch_A <=? ch) && (ch <=? ch_F) then ch - ch_A + 10
  else 0xFF.

(** State of the loop of [hexStr2bin]: output, position, nibbles already in the
    current byte, and whether the last character was a delimiter.  [chars] is
    what is left to read, last character first. *)
Fixpoint hexStr2bin_loop (chars : list Z) (pRes : list Z) (idx subIdx : Z) (isDelimiter : bool)
  : bool * list Z :=
  match chars with
  | [] => (true, pRes)
  | ch :: r =>
      if ((ch =? ch_dash) || (ch =? ch_colon)) && negb isDelimiter then
        hexStr2bin_loop r pRes idx 2 true
      else
        let nn := hexCh2bin ch in
        if negb (nn =? 0xFF) then
          if (subIdx =? 2) && (idx =? 0) then (false, pRes)
          else
            let '(idx, subIdx) := if subIdx =? 2 then (u32 (idx - 1), 0) else (idx, subIdx) in
            let nn := if subIdx =? 1 then u8 (Z.shiftl nn 4) else nn in
            hexStr2bin_loop r (alter (fun b => Z.lor b nn) (Z.to_nat idx) pRes)
                            idx (subIdx + 1) false
        else (false, pRes)
  end.

Definition hexStr2bin (str : list Z) (size : Z) : bool * list Z :=
  hexStr2bin_loop (rev str) (replicate (Z.to_nat size) 0) (u32 (size - 1)) 0 false.

(** C library character classes of [hexToBin] ("C" locale). *)
Definition isspace (c : Z) : bool := (c =? 32) || ((9 <=? c) && (c <=? 13)).
Definition isdigit (c : Z) : bool := (ch_0 <=? c) && (c <=? ch_9).
Definition isxdigit (c : Z) : bool :=
  isdigit c || ((ch_a <=? c) && (c <=? ch_f)) || ((ch_A <=? c) && (c <=? ch_F)).
Definition tolower (c : Z) : Z := if (ch_A <=? c) && (c <=? 90) then c + 32 else c.

Fixpoint skipSpaces (str : list Z) : list Z :=
  match str with
  | c :: r => if isspace c then skipSpaces r else str
  | [] => []
  end.

(** The scanning loop of [hexToBin]; the end of the list is the terminating 0. *)
Fixpoint hexToBin_loop (str : list Z) (pRes : list Z) (len idx nn : nat) (wasDigit : bool)
  : nat * list Z :=
  let c := match str with [] => 0 | c :: _ => c end in
  let isDigit := isxdigit c in
  if (wasDigit && ((c =? 0) || isspace c || (c =? ch_dash) || (c =? ch_colon))) || isDigit then
    let '(idx, nn) := if negb isDigit || (nn =? 2)%nat then (S idx, 0%nat) else (idx, nn) in
    match str with
    | [] => (idx, pRes)
    | _ :: r =>
        if isDigit then
          if (idx <? len)%nat then
            let numb := if isdigit c then c - ch_0 else tolower c - ch_a + 10 in
            hexToBin_loop r (alter (fun b => u8 (Z.shiftl b 4 + numb)) idx pRes)
                          len idx (S nn) isDigit
          else (0%nat, pRes)
        else if negb (c =? ch_dash) && negb (c =? ch_colon) then (idx, pRes)
        else hexToBin_loop r pRes len idx nn isDigit
    end
  else (0%nat, pRes).

Definition hexToBin (str : list Z) (len : nat) : nat * list Z :=
  hexToBin_loop (skipSpaces str) (replicate len 0) len 0 0 false.

(** ** Counters, random numbers, elapsed time *)
(** [delta] is a 32-bit signed argument, [val] and [maxVal] are unsigned. *)
Definition getNext (val delta maxVal : Z) : Z :=
  let isNegative := delta <? 0 in
  let delta := if isNegative then s32 (- delta) else delta in
  let delta := if maxVal <? u32 delta then s32 (u32 delta mod maxVal) else delta in
  let val :=
    if isNegative then
      let val := if val <? u32 delta then u32 (val + maxVal) else val in
      u32 (val - delta)
    else
      let val := u32 (val + delta) in
      if maxVal <=? val then u32 (val - maxVal) else val in
  if maxVal <? val then val mod maxVal else val.

Definition RAND_MAX : Z := 2147483647.

(** [r] is the value returned by the C library's [rand]. *)
Definition getRand (r maxVal : Z) : Z :=
  if maxVal <? 2 then 0 else r / (RAND_MAX / maxVal + 1).

(** The numbers printed by [toStringElapsed]: days, hours, minutes, seconds, milliseconds. *)
Definition elapsedFields (msec : Z) : Z * Z * Z * Z * Z :=
  let s := u32 (Z.quot msec 1000) in
  let ms := u32 (Z.rem msec 1000) in
  let m := s / 60 in let s := s mod 60 in
  let h := m / 60 in let m := m mod 60 in
  let d := h / 24 in let h := h mod 24 in
  (d, h, m, s, ms).

(** Characters that pad the Base64 text of [length] bytes ([size_t] arithmetic). *)
Definition numPaddingChars (length : Z) : Z := u64 (3 - length mod 3) mod 3.

(** ** Delay statistics *)
Record numthevent_s : Set := mkNumThEvent { m_threshold : Z; m_number : Z }.

Record CStatDelaysCalc : Set := mkStatDelays {
  sd_maxDelay : Z;
  sd_threshold : list numthevent_s;
  sd_numOutThresholds : numthevent_s;
  sd_allEvents : Z
}.

Definition DEFAULT_THRESHOLDS : list Z := [5000; 7000; 10000; 50000].

Definition sd_clear (s : CStatDelaysCalc) : CStatDelaysCalc :=
  mkStatDelays 0 (map (fun e => mkNumThEvent (m_threshold e) 0) (sd_threshold s))
               (mkNumThEvent (m_threshold (sd_numOutThresholds s)) 0) 0.

(** [delays.back()] is defined on a non-empty vector only: [None] otherwise. *)
Definition sd_setThresholds (delays : list Z) (s : CStatDelaysCalc) : option CStatDelaysCalc :=
  match last delays with
  | None => None
  | Some d =>
      Some (mkStatDelays (sd_maxDelay s) (map (fun d => mkNumThEvent d 0) delays)
                         (mkNumThEvent d 0) (sd_allEvents s))
  end.

(** The constructor. *)
Definition newCStatDelaysCalc : option CStatDelaysCalc :=
  sd_setThresholds DEFAULT_THRESHOLDS (sd_clear (mkStatDelays 0 [] (mkNumThEvent 0 0) 0)).

(** The loop over the thresholds; the boolean is [isAdded]. *)
Fixpoint addToThreshold (delay : Z) (l : list numthevent_s) : bool * list numthevent_s :=
  match l with
  | [] => (false, [])
  | e :: r =>
      if delay <=? m_threshold e
      then (true, mkNumThEvent (m_threshold e) (u64 (m_number e + 1)) :: r)
      else let '(b, r') := addToThreshold delay r in (b, e :: r')
  end.

Definition sd_addEvent (delay : Z) (s : CStatDelaysCalc) : CStatDelaysCalc :=
  let '(isAdded, th) := addToThreshold delay (sd_threshold s) in
  let out := sd_numOutThresholds s in
  mkStatDelays
    (if sd_maxDelay s <? delay then delay else sd_maxDelay s)
    th
    (if isAdded then out else mkNumThEvent (m_threshold out) (u64 (m_number out + 1)))
    (u64 (sd_allEvents s + 1)).

(** Number of delays of [ds] in the bucket [(lo, hi]]; [None] is unbounded. *)
Definition in_bucket (lo hi : option Z) (d : Z) : bool :=
  match hi with None => true | Some h => d <=? h end &&
  match lo with None => true | Some l => l <? d end.
Definition bucket (lo hi : option Z) (ds : list Z) : Z :=
  Z.of_nat (length (List.filter (in_bucket lo hi) ds)).

(** The statistics object that has seen exactly the delays [ds]. *)
Definition stat_of (ds : list Z) : CStatDelaysCalc :=
  mkStatDelays (foldl Z.max 0 ds)
    [mkNumThEvent 5000 (bucket None (Some 5000) ds);
     mkNumThEvent 7000 (bucket (Some 5000) (Some 7000) ds);
     mkNumThEvent 10000 (bucket (Some 7000) (Some 10000) ds);
     mkNumThEvent 50000 (bucket (Some 10000) (Some 50000) ds)]
    (mkNumThEvent 50000 (bucket (Some 50000) None ds))
    (Z.of_nat (length ds)).

(** ** Facts about signed wrapping *)
Lemma swrap_small w z : 0 < w -> - 2 ^ (w - 1) <= z < 2 ^ (w - 1) -> swrap w z = z.
Proof.
  intros Hw Hz. unfold swrap. rewrite Z.mod_small; [lia|].
  replace (2 ^ w) with (2 * 2 ^ (w - 1)); [lia|].
  rewrite <- Z.pow_succ_r by lia. f_equal; lia.
Qed.

Lemma s32_small z : -2147483648 <= z < 2147483648 -> s32 z = z.
Proof. intros; apply swrap_small; lia. Qed.
Lemma s64_small z : -9223372036854775808 <= z < 9223372036854775808 -> s64 z = z.
Proof. intros; apply swrap_small; lia. Qed.

Lemma swrap_congr w a b : 0 < w -> swrap w a = swrap w b <-> a mod 2 ^ w = b mod 2 ^ w.
Proof.
  intros Hw. unfold swrap. set (h := 2 ^ (w - 1)). assert (0 < 2 ^ w) by lia.
  set (m := 2 ^ w) in *. clearbody h m. split; intros H1.
  - replace a with (a + h - h) by lia. replace b with (b + h - h) by lia.
    rewrite (Zminus_mod (a + h)), (Zminus_mod (b + h)). do 2 f_equal. lia.
  - f_equal. rewrite (Z.add_mod a), (Z.add_mod b), H1 by lia. done.
Qed.

Lemma swrap_mod w z : 0 < w -> swrap w z mod 2 ^ w = z mod 2 ^ w.
Proof.
  intros Hw. unfold swrap. set (h := 2 ^ (w - 1)). assert (0 < 2 ^ w) by lia.
  set (m := 2 ^ w) in *. clearbody h m. rewrite Zminus_mod, Zmod_mod, <- Zminus_mod.
  f_equal. lia.
Qed.

Lemma s64_mul_add x k b : s64 (s64 (s64 x * k) + b) = s64 (x * k + b).
Proof.
  apply (swrap_congr 64); [lia|].
  rewrite Z.add_mod, (Z.add_mod (x * k)) by lia. f_equal. f_equal.
  unfold s64. rewrite swrap_mod, Z.mul_mod, swrap_mod, <- Z.mul_mod by lia. done.
Qed.

(** ** The 64-bit byte swap *)
Lemma land_byte_at x k : 0 <= k -> Z.land x (255 * 2 ^ k) = ((x / 2 ^ k) mod 256) * 2 ^ k.
Proof.
  intros Hk. rewrite <- !Z.shiftl_mul_pow2, <- Z.shiftr_div_pow2 by lia.
  change 256 with (2 ^ 8). rewrite <- (Z.land_ones (Z.shiftr x k) 8) by lia. change (Z.ones 8) with 255.
  apply Z.bits_inj'; intros n Hn. rewrite Z.land_spec, !Z.shiftl_spec, Z.land_spec by lia.
  destruct (Z.ltb_spec n k).
  - rewrite !(Z.testbit_neg_r _ (n - k)) by lia. apply andb_false_r.
  - rewrite Z.shiftr_spec by lia. by replace (n - k + k) with n by lia.
Qed.

Lemma lor_add_disjoint a b k : 0 <= k -> 0 <= a < 2 ^ k -> Z.lor a (b * 2 ^ k) = a + b * 2 ^ k.
Proof.
  intros Hk Ha. rewrite <- Z.add_lor_land.
  assert (Z.land a (b * 2 ^ k) = 0) as ->; [|lia].
  apply Z.bits_inj'; intros n Hn. rewrite Z.land_spec, <- Z.shiftl_mul_pow2, Z.bits_0 by lia.
  rewrite Z.shiftl_spec by lia. destruct (Z.ltb_spec n k).
  - by rewrite (Z.testbit_neg_r b), andb_false_r by lia.
  - rewrite <- (Z.mod_small a (2 ^ k)) by lia. by rewrite Z.mod_pow2_bits_high by lia.
Qed.

Lemma shiftl_div v s k : 0 <= s <= k -> Z.shiftl v s / 2 ^ k = v / 2 ^ (k - s).
Proof.
  intros. rewrite Z.shiftl_mul_pow2 by lia.
  replace (2 ^ k) with (2 ^ (k - s) * 2 ^ s) by (rewrite <- Z.pow_add_r by lia; f_equal; lia).
  rewrite Z.div_mul_cancel_r; lia.
Qed.

Lemma shiftr_div v s k : 0 <= s -> 0 <= k -> Z.shiftr v s / 2 ^ k = v / 2 ^ (s + k).
Proof. intros. rewrite Z.shiftr_div_pow2, Z.pow_add_r, Zdiv_Zdiv by lia. done. Qed.

Lemma div_div_pow2 v a b : 0 <= a -> 0 <= b -> v / 2 ^ a / 2 ^ b = v / 2 ^ (a + b).
Proof. intros. by rewrite Z.pow_add_r, Zdiv_Zdiv by lia. Qed.

Lemma lor_bytes b0 b1 b2 b3 b4 b5 b6 b7 :
  0 <= b0 < 256 -> 0 <= b1 < 256 -> 0 <= b2 < 256 -> 0 <= b3 < 256 ->
  0 <= b4 < 256 -> 0 <= b5 < 256 -> 0 <= b6 < 256 -> 0 <= b7 < 256 ->
  Z.lor (Z.lor (Z.lor (Z.lor (Z.lor (Z.lor (Z.lor (b0 * 2 ^ 0) (b1 * 2 ^ 8)) (b2 * 2 ^ 16))
    (b3 * 2 ^ 24)) (b4 * 2 ^ 32)) (b5 * 2 ^ 40)) (b6 * 2 ^ 48)) (b7 * 2 ^ 56) =
  b0 + 2 ^ 8 * (b1 + 2 ^ 8 * (b2 + 2 ^ 8 * (b3 + 2 ^ 8 * (b4 + 2 ^ 8 * (b5 + 2 ^ 8 *
    (b6 + 2 ^ 8 * (b7 + 2 ^ 8 * 0))))))).
Proof.
  intros. rewrite (lor_add_disjoint _ b1 8) by lia. rewrite (lor_add_disjoint _ b2 16) by lia.
  rewrite (lor_add_disjoint _ b3 24) by lia. rewrite (lor_add_disjoint _ b4 32) by lia.
  rewrite (lor_add_disjoint _ b5 40) by lia. rewrite (lor_add_disjoint _ b6 48) by lia.
  rewrite (lor_add_disjoint _ b7 56) by lia. lia.
Qed.

Lemma htonll_bswap v : 0 <= v < 2 ^ 64 -> htonll v = bswap 8 v.
Proof.
  intros Hv. unfold htonll. cbv zeta. rewrite (u64_small v) by lia.
  change 0xFF00000000000000 with (255 * 2 ^ 56). change 0xFF000000000000 with (255 * 2 ^ 48).
  change 0xFF0000000000 with (255 * 2 ^ 40). change 0xFF00000000 with (255 * 2 ^ 32).
  change 0xFF000000 with (255 * 2 ^ 24). change 0xFF0000 with (255 * 2 ^ 16).
  change 0xFF00 with (255 * 2 ^ 8). change 0xFF with (255 * 2 ^ 0).
  rewrite !land_byte_at by lia.
  rewrite !shiftl_div, !shiftr_div by lia. cbn [Z.add Z.sub Z.opp Z.pos_sub Pos.add Pos.succ Pos.add_carry].
  unfold bswap. cbn [le_bytes rev app le_val].
  change 256 with (2 ^ 8). rewrite !div_div_pow2 by lia.
  assert (Hb : forall k, 0 <= (v / 2 ^ k) mod 2 ^ 8 < 256)
    by (intros; apply Z.mod_pos_bound; lia).
  simpl Z.sub. simpl Z.add.
  change (2 ^ (56 - 56)) with 1. rewrite Z.div_1_r.
  apply lor_bytes; try apply Hb. apply Z.mod_pos_bound. lia.
Qed.

(** ** ASN buffers *)
Fixpoint be_val (acc : Z) (bs : list Z) : Z :=
  match bs with [] => acc | b :: r => be_val (acc * 256 + b) r end.

Lemma be_val_app acc a b : be_val acc (a ++ b) = be_val (be_val acc a) b.
Proof. revert acc; induction a; intros; simpl; auto. Qed.

Lemma be_val_rev bs : be_val 0 (rev bs) = le_val bs.
Proof.
  induction bs as [|b bs IH]; [done|]. cbn [rev le_val].
  rewrite be_val_app, IH. simpl. lia.
Qed.

Lemma ntoh_fold bs acc :
  foldl (fun result b => s64 (s64 (Z.shiftl result 8) + b)) (s64 acc) bs = s64 (be_val acc bs).
Proof.
  revert acc; induction bs as [|b bs IH]; intros; simpl; [done|].
  rewrite Z.shiftl_mul_pow2 by lia. change (2 ^ 8) with 256.
  rewrite s64_mul_add. apply IH.
Qed.

Lemma hton_asn_loop_eq n v buf :
  (n <= length buf)%nat -> hton_asn_loop n v buf = rev (le_bytes n v) ++ drop n buf.
Proof.
  revert v buf; induction n as [|n IH]; intros v buf Hl; [by rewrite drop_0|].
  cbn [hton_asn_loop le_bytes rev]. rewrite IH by (rewrite length_insert; lia).
  rewrite <- app_assoc. f_equal.
  - by rewrite Z.shiftr_div_pow2 by lia.
  - rewrite (drop_S _ (Z.land v 0xFF) n) by (apply list_lookup_insert_eq; lia). simpl.
    f_equal; [apply (Z.land_ones v 8); lia|]. by rewrite drop_insert_lt by lia.
Qed.

(** ** Statistics *)
Lemma bucket_snoc lo hi ds d :
  bucket lo hi (ds ++ [d]) = bucket lo hi ds + (if in_bucket lo hi d then 1 else 0).
Proof.
  unfold bucket. rewrite List.filter_app, length_app. simpl.
  destruct (in_bucket lo hi d); simpl; lia.
Qed.

Lemma bucket_bound lo hi ds : 0 <= bucket lo hi ds <= Z.of_nat (length ds).
Proof. unfold bucket. pose proof (filter_length_le (in_bucket lo hi) ds). lia. Qed.

Lemma stat_of_snoc ds d :
  Z.of_nat (length ds) < 2 ^ 64 - 1 -> sd_addEvent d (stat_of ds) = stat_of (ds ++ [d]).
Proof.
  intros Hl.
  assert (Hu : forall lo hi, u64 (bucket lo hi ds + 1) = bucket lo hi ds + 1).
  { intros lo hi. pose proof (bucket_bound lo hi ds). apply u64_small. lia. }
  unfold stat_of. rewrite !bucket_snoc, foldl_snoc, length_app.
  unfold sd_addEvent, in_bucket; cbn [sd_threshold sd_maxDelay sd_numOutThresholds sd_allEvents
    addToThreshold m_threshold m_number].
  rewrite !Hu. rewrite (u64_small (_ + 1)) by lia.
  replace (if foldl Z.max 0 ds <? d then d else foldl Z.max 0 ds) with (Z.max (foldl Z.max 0 ds) d)
    by (destruct (Z.ltb_spec (foldl Z.max 0 ds) d); lia).
  destruct (Z.leb_spec d 5000), (Z.leb_spec d 7000), (Z.leb_spec d 10000), (Z.leb_spec d 50000),
    (Z.ltb_spec 5000 d), (Z.ltb_spec 7000 d), (Z.ltb_spec 10000 d), (Z.ltb_spec 50000 d);
    try lia; simpl; f_equal; try lia; repeat (f_equal; try lia).
Qed.

(** ** Properties *)

(** ASN round trip. Writing a host ASN into the first bytes of a buffer in
    network order and reading it back gives the ASN, truncated to the bytes
    written (8 at most) and read as a signed 64-bit number; the rest of the buffer is kept. *)
Theorem asn_roundtrip a buf n :
  (Nat.min n 8 <= length buf)%nat ->
  ntoh_asn (hton_asn a buf n) n = s64 (a mod 256 ^ Z.of_nat (Nat.min n 8)) /\
  drop (Nat.min n 8) (hton_asn a buf n) = drop (Nat.min n 8) buf.
Proof.
  intros Hl. unfold ntoh_asn, hton_asn. change sizeof_asn_t with 8%nat.
  set (k := Nat.min n 8) in *. rewrite hton_asn_loop_eq by done.
  assert (Hk : length (rev (le_bytes k a)) = k) by by rewrite length_rev, length_le_bytes.
  rewrite take_app_length', drop_app_length' by done. split; [|done].
  change 0 with (s64 0) at 1. rewrite ntoh_fold, be_val_rev, le_val_le_bytes. done.
Qed.

Lemma asn_roundtrip_witness :
  ntoh_asn (hton_asn 1234567890123 [9; 9; 9; 9; 9; 9; 9] 6) 6 = 1234567890123.
Proof.
  pose proof (asn_roundtrip 1234567890123 [9; 9; 9; 9; 9; 9; 9] 6) as H.
  destruct H as [H _]; [simpl; lia|]. rewrite H. reflexivity.
Defined.

(** [getNext] is addition of a signed step modulo [maxVal], for a counter
    below [maxVal] and a modulus of at most 2^31 (above it, the sum wraps). *)
Theorem getNext_mod val delta maxVal :
  0 < maxVal <= 2147483648 -> 0 <= val < maxVal -> -2147483648 < delta < 2147483648 ->
  getNext val delta maxVal = (val + delta) mod maxVal.
Proof.
  intros Hm Hv Hd. unfold getNext.
  assert (Hs : forall z, -2147483648 <= z < 2147483648 -> s32 z = z) by apply s32_small.
  assert (Hu : forall z, 0 <= z < 4294967296 -> u32 z = z) by apply u32_small.
  destruct (Z.ltb_spec delta 0) as [Hneg|Hpos].
  - rewrite (Hs (- delta)) by lia. rewrite (Hu (- delta)) by lia.
    set (d := if maxVal <? - delta then _ else _).
    assert (exists q, - delta = maxVal * q + d /\ 0 <= d <= maxVal /\ d < 2147483648) as (q & Hq & Hd1 & Hd2).
    { unfold d. destruct (Z.ltb_spec maxVal (- delta)).
      - exists (- delta / maxVal). pose proof (Z.mod_pos_bound (- delta) maxVal).
        rewrite Hs by lia. pose proof (Z.div_mod (- delta) maxVal). lia.
      - exists 0. lia. }
    clearbody d. rewrite (Hu d) by lia.
    replace (val + delta) with (val - d + (- q) * maxVal) by lia. rewrite Z.mod_add by lia.
    destruct (Z.ltb_spec val d) as [Hlt|Hge].
    + rewrite (Hu (val + maxVal)), (Hu (val + maxVal - d)) by lia.
      destruct (Z.ltb_spec maxVal (val + maxVal - d)); [lia|].
      apply (Z.mod_unique _ _ (-1)); lia.
    + rewrite (Hu (val - d)) by lia. destruct (Z.ltb_spec maxVal (val - d)); [lia|].
      symmetry; apply Z.mod_small; lia.
  - rewrite (Hu delta) by lia.
    set (d := if maxVal <? delta then _ else _).
    assert (exists q, delta = maxVal * q + d /\ 0 <= d <= maxVal /\ d < 2147483648) as (q & Hq & Hd1 & Hd2).
    { unfold d. destruct (Z.ltb_spec maxVal delta).
      - exists (delta / maxVal). pose proof (Z.mod_pos_bound delta maxVal).
        rewrite Hs by lia. pose proof (Z.div_mod delta maxVal). lia.
      - exists 0. lia. }
    clearbody d. rewrite (Hu (val + d)) by lia.
    replace (val + delta) with (val + d + q * maxVal) by lia. rewrite Z.mod_add by lia.
    destruct (Z.leb_spec maxVal (val + d)).
    + rewrite (Hu (val + d - maxVal)) by lia.
      destruct (Z.ltb_spec maxVal (val + d - maxVal)); [lia|].
      apply (Z.mod_unique _ _ 1); lia.
    + destruct (Z.ltb_spec maxVal (val + d)); [lia|]. symmetry; apply Z.mod_small; lia.
Qed.

Lemma getNext_mod_witness : getNext 2 (-7) 4 = (2 + -7) mod 4 /\ getNext 2 (-7) 4 = 3.
Proof. split; [apply getNext_mod; lia | reflexivity]. Defined.

(** The delay statistics of a new object after any sequence of events are
    exact: every bucket counts the delays above the previous threshold and up
    to its own, the last counter those above 50 ms, and the maximum and the
    number of events are those of the sequence. *)
Theorem stat_exact ds s :
  newCStatDelaysCalc = Some s -> Z.of_nat (length ds) < 2 ^ 64 ->
  foldl (fun s d => sd_addEvent d s) s ds = stat_of ds.
Proof.
  intros [= <-]. induction ds as [|d ds IH] using rev_ind; intros Hl; [done|].
  rewrite length_app in Hl; simpl in Hl.
  rewrite foldl_snoc, IH by lia. apply stat_of_snoc. lia.
Qed.

Lemma stat_exact_witness :
  option_map (fun s => foldl (fun s d => sd_addEvent d s) s [100; 60000; 6000]) newCStatDelaysCalc
  = Some (mkStatDelays 60000
      [mkNumThEvent 5000 1; mkNumThEvent 7000 1; mkNumThEvent 10000 0; mkNumThEvent 50000 0]
      (mkNumThEvent 50000 1) 3).
Proof.
  destruct newCStatDelaysCalc as [s|] eqn:E; [|discriminate E].
  unfold option_map. rewrite (stat_exact [100; 60000; 6000] s E); [reflexivity|simpl; lia].
Defined.
