(* ===== verification/Crash.v ===== *)
(** Computations that may crash.

    A computation of type [CM S E A] reads and writes the state [S], emits events [E]
    and returns an [A], or ends: by a failed [assert], the use of a null pointer or of an
    object that was deleted, or by a read behind the end of a buffer, where the language leaves
    open what follows (the process need not end there).  [hoare P C m Q]: from a history and a
    state in [P], [m] either returns a result such that [Q] holds of it, the longer
    history and the new state, or crashes in a way that [C] allows. *)
From stdpp Require Import base numbers list option.
From S2P Require Import Prelude.

Inductive crash : Set := AssertFailed | NullDeref | Dangling | Overread.

Definition CM (S E A : Type) : Type := S -> S * list E * (crash + A).

#[export] Instance CM_ret {S E} : MRet (CM S E) := fun A a s => (s, [], inr a).
#[export] Instance CM_bind {S E} : MBind (CM S E) := fun A B k m s =>
  match m s with
  | (s1, t1, inr a) => let '(s2, t2, r) := k a s1 in (s2, t1 ++ t2, r)
  | (s1, t1, inl c) => (s1, t1, inl c)
  end.

Section Computations.
Context {S E : Type}.

Definition crashes {A} (c : crash) : CM S E A := fun s => (s, [], inl c).
Definition assert_ (b : bool) : CM S E unit := if b then mret tt else crashes AssertFailed.
Definition cget : CM S E S := fun s => (s, [], inr s).
Definition cmodify (f : S -> S) : CM S E unit := fun s => (f s, [], inr tt).
Definition cemit (e : E) : CM S E unit := fun s => (s, [e], inr tt).
Definition deref {A} (c : crash) (o : option A) : CM S E A := match o with Some a => mret a | None => crashes c end.

(** Running a computation step by step. *)
Lemma cm_bind {A B} (m : CM S E A) (k : A -> CM S E B) s s1 t1 a : m s = (s1, t1, inr a) ->
  (m ≫= k) s = (let '(s2, t2, r) := k a s1 in (s2, t1 ++ t2, r)).
Proof. intros Hm. unfold mbind, CM_bind. by rewrite Hm. Qed.

Lemma cm_silent {A B} (m : CM S E A) (k : A -> CM S E B) s s1 a : m s = (s1, [], inr a) -> (m ≫= k) s = k a s1.
Proof. intros Hm. rewrite (cm_bind _ _ _ _ _ _ Hm). by destruct (k a s1) as [[? ?] ?]. Qed.

(** ** Specifications *)
Notation asn := (list E -> S -> Prop).

Definition hoare {A} (P : asn) (C : crash -> Prop) (m : CM S E A) (Q : A -> asn) : Prop :=
  forall tr d, P tr d ->
  match m d with
  | (d', evs, inr a) => Q a (tr ++ evs) d'
  | (_, _, inl c) => C c
  end.

Context (C : crash -> Prop).
Implicit Types (P : asn).

Lemma h_ret {A} P (a : A) (Q : A -> asn) : (forall tr d, P tr d -> Q a tr d) -> hoare P C (mret a) Q.
Proof. intros HQ tr d HP. cbn. rewrite app_nil_r. auto. Qed.

Lemma h_bind {A B} P (m : CM S E A) (k : A -> CM S E B) R Q : hoare P C m R -> (forall a, hoare (R a) C (k a) Q) -> hoare P C (m ≫= k) Q.
Proof.
  intros Hm Hk tr d HP. specialize (Hm tr d HP). unfold mbind, CM_bind. destruct (m d) as [[d1 t1] [c|a]]; [done|].
  specialize (Hk a (tr ++ t1) d1 Hm). destruct (k a d1) as [[d2 t2] [c|b]]; [done|]. by rewrite app_assoc.
Qed.

Lemma h_pre {A} P P' (m : CM S E A) Q : (forall tr d, P tr d -> P' tr d) -> hoare P' C m Q -> hoare P C m Q.
Proof. intros HP Hm tr d H'. by apply Hm, HP. Qed.

Lemma h_post {A} P (m : CM S E A) Q Q' : hoare P C m Q' -> (forall a tr d, Q' a tr d -> Q a tr d) -> hoare P C m Q.
Proof. intros Hm HQ tr d HP. specialize (Hm tr d HP). destruct (m d) as [[d1 t1] [c|a]]; auto. Qed.

Lemma h_pure {A} (F : Prop) P (m : CM S E A) Q : (F -> hoare P C m Q) -> hoare (fun tr d => F /\ P tr d) C m Q.
Proof. intros Hm tr d [HF HP]. by apply Hm. Qed.

(** What follows from the precondition may be used in the proof. *)
Lemma h_fact {A} (F : Prop) P (m : CM S E A) Q : (forall tr d, P tr d -> F) -> (F -> hoare P C m Q) -> hoare P C m Q.
Proof. intros HF Hm tr d HP. exact (Hm (HF tr d HP) tr d HP). Qed.

Lemma h_crash {A} P c (Q : A -> asn) : (forall tr d, P tr d -> C c) -> hoare P C (crashes c) Q.
Proof. intros HC tr d HP. cbn. eauto. Qed.

Lemma h_get {B} P (k : S -> CM S E B) Q :
  (forall d0, hoare (fun tr d => P tr d /\ d = d0) C (k d0) Q) -> hoare P C (cget ≫= k) Q.
Proof.
  intros Hk tr d HP. unfold mbind, CM_bind, cget. specialize (Hk d tr d (conj HP eq_refl)).
  by destruct (k d d) as [[d2 t2] [c|b]].
Qed.

Lemma h_modify P f (Q : unit -> asn) : (forall tr d, P tr d -> Q tt tr (f d)) -> hoare P C (cmodify f) Q.
Proof. intros HQ tr d HP. cbn. rewrite app_nil_r. auto. Qed.

Lemma h_emit P e (Q : unit -> asn) : (forall tr d, P tr d -> Q tt (tr ++ [e]) d) -> hoare P C (cemit e) Q.
Proof. intros HQ tr d HP. cbn. auto. Qed.

Lemma h_assert P b (Q : unit -> asn) : (forall tr d, P tr d -> b = false -> C AssertFailed) ->
  (forall tr d, P tr d -> b = true -> Q tt tr d) -> hoare P C (assert_ b) Q.
Proof. intros H1 H2. destruct b; [apply (h_ret _ tt)|apply h_crash]; eauto. Qed.

Lemma h_assert_true {A} P b (k : CM S E A) Q : b = true -> hoare P C k Q -> hoare P C (assert_ b ;; k) Q.
Proof. intros -> Hk. apply (h_bind _ _ _ (fun _ => P)); [by apply h_ret|done]. Qed.

Lemma h_assert_false {A} P b (k : CM S E A) Q : b = false -> C AssertFailed -> hoare P C (assert_ b ;; k) Q.
Proof. intros -> HC. apply (h_bind _ _ _ (fun _ _ _ => False)); [by apply h_crash|]. by intros [] tr d []. Qed.

Lemma h_deref_some {A B} P c (a : A) (k : A -> CM S E B) Q : hoare P C (k a) Q -> hoare P C (deref c (Some a) ≫= k) Q.
Proof.
  intros Hk. apply (h_bind _ _ _ (fun a' tr d => a' = a /\ P tr d)); [by apply h_ret|]. intros a'. by apply h_pure; intros ->.
Qed.

Lemma h_deref_none {A B} P c (k : A -> CM S E B) Q : C c -> hoare P C (deref c None ≫= k) Q.
Proof. intros HC. apply (h_bind _ _ _ (fun _ _ _ => False)); [by apply h_crash|]. by intros a tr d []. Qed.

(** What is known of the state carries over to the result. *)
Lemma h_const {A} (F : Prop) P (m : CM S E A) Q : F -> hoare P C m Q -> hoare P C m (fun a tr d => Q a tr d /\ F).
Proof. intros HF Hm. by eapply h_post; [exact Hm|]. Qed.

End Computations.
