(* ===== verification/Gps.v ===== *)
(** GPS receiver (APInterface/GPS.cpp, GPS.h, public/IGPS.h, public/GPSError.h).

    A thread connects to the gpsd daemon, reads records and derives the status; every
    change of the status is reported to the handler.  Calls of the gpsd library appear
    with their results as events.  An iteration of a loop of the thread, and the parts
    of [stop] before and after the wait for the thread, are one step each; between them
    the threads interleave.  The code has no lock.  With one reading thread at a time this is no restriction: behind its test of
    [m_readThreadRunning] an iteration does not look at anything that [stop] changes ([stop_inside]).  With two (a
    second [start]) it would be one; the properties are for one. *)
From stdpp Require Import base numbers list option.
From Stdlib Require Import ZArith Lia.
From S2P Require Import Prelude Crash.

Local Open Scope Z_scope.

Definition RETRY_TIME : Z := 5000.

Inductive gps_error_t : Set := GPS_OK | GPS_ERR_STATE.

Inductive gps_status_t : Set := GPS_ST_NO_DEVICE | GPS_ST_NO_SYNC | GPS_ST_SYNC | GPS_ST_CONN_LOST.

#[export] Instance gps_status_t_eq_dec : EqDecision gps_status_t.
Proof. solve_decision. Defined.

Record start_param_t : Set := mkGpsParam {
  gp_gpsdAddress : list Z;
  gp_gpsdPort : list Z;
  gp_waitTimeout : Z;
  gp_minSatellitesInUse : Z;
  gp_maxTimeToStable : Z;
  gp_gpsd_conn : bool
}.

(** What the thread uses of a record of the gpsd library: two [int]s. *)
Record gps_data_t : Set := mkGpsData { gd_visible : Z; gd_used : Z }.

(** Where the thread is; [GpExit]: it has left its loop. *)
Inductive gps_pc : Set := GpBegin | GpOuter | GpInner | GpExit | GpDone.

(** A thread and whether its local [gps_rec] points to an object. *)
Record gps_thread : Set := mkGpsThread { t_pc : gps_pc; t_gps_rec : bool }.

Inductive gps_event : Set :=
| GeNewThread | GeJoin
| GeNewGpsmm (address port : list Z) | GeDeleteGpsmm
| GeStream (ok : bool)
| GeWaiting (timeout : Z) (data : bool)
| GeRead (r : option gps_data_t) (now : Z)
| GeDeleteRecord
| GeSleep (msec : Z)
| GeStatus (s : gps_status_t)
| GeVisible (n : Z) | GeUsed (n : Z).

(** [m_threads]: all threads ever started, [m_gpsdReadThread] the one of the handle. *)
Record CGPS : Set := mkGPS {
  m_config_params : start_param_t;
  m_readThreadRunning : bool;
  m_gpsdReadThread : option nat;
  m_lastRecord : option gps_data_t;
  m_current_gps_status : gps_status_t;
  m_notifHandler : bool;
  m_stable_start_time : Z;
  m_satellites_used : Z;
  m_satellites_visible : Z;
  m_threads : list gps_thread
}.
#[export] Instance CGPS_eta : Eta CGPS := fun g =>
  mkGPS (m_config_params g) (m_readThreadRunning g) (m_gpsdReadThread g) (m_lastRecord g)
    (m_current_gps_status g) (m_notifHandler g) (m_stable_start_time g) (m_satellites_used g)
    (m_satellites_visible g) (m_threads g).

Definition newCGPS : CGPS :=
  mkGPS (mkGpsParam [] [] 0 0 0 false) false None None GPS_ST_NO_DEVICE false 0 0 0 [].

(** Results of the gpsd library and the steady clock, in seconds, during one step. *)
Record GpsEnv : Set := mkGpsEnv {
  ge_stream : bool;
  ge_waiting : bool;
  ge_read : option gps_data_t;
  ge_now : Z
}.

Notation GM := (CM CGPS gps_event).

Definition cwhen (b : bool) (m : GM unit) : GM unit := if b then m else mret tt.

(** ** Notifying the handler *)
Definition setStatus (newstatus : gps_status_t) : GM unit :=
  match newstatus with
  | GPS_ST_NO_DEVICE | GPS_ST_CONN_LOST | GPS_ST_NO_SYNC => cmodify (fun g => g <| m_stable_start_time := 0 |>)
  | GPS_ST_SYNC => mret tt
  end ;;
  g ← cget;
  cwhen (negb (bool_decide (m_current_gps_status g = newstatus)) && m_notifHandler g) (cemit (GeStatus newstatus)) ;;
  cmodify (fun g => g <| m_current_gps_status := newstatus |>).

Definition notify (e : gps_event) : GM unit :=
  g ← cget; if m_notifHandler g then cemit e else crashes NullDeref.

Definition setSatellitesVisible (visible : Z) : GM unit :=
  cmodify (fun g => g <| m_satellites_visible := u16 visible |>) ;; notify (GeVisible (u16 visible)).

Definition setSatellitesUsed (used : Z) : GM unit :=
  cmodify (fun g => g <| m_satellites_used := u16 used |>) ;; notify (GeUsed (u16 used)).

Definition getStatus (g : CGPS) : gps_status_t := m_current_gps_status g.

(** ** The thread *)
Definition setThread (i : nat) (t : gps_thread) : GM unit :=
  cmodify (fun g => g <| m_threads := <[i := t]> (m_threads g) |>).

(** A record was read. *)
Definition handleRecord (now : Z) (r : gps_data_t) : GM unit :=
  g ← cget;
  cwhen (negb (m_satellites_visible g =? gd_visible r)) (setSatellitesVisible (gd_visible r)) ;;
  cwhen (negb (m_satellites_used g =? gd_used r)) (setSatellitesUsed (gd_used r)) ;;
  if gp_minSatellitesInUse (m_config_params g) <=? gd_used r then
    if m_stable_start_time g =? 0 then cmodify (fun g => g <| m_stable_start_time := u64 now |>)
    else cwhen (gp_maxTimeToStable (m_config_params g) <=? u64 (now - m_stable_start_time g)) (setStatus GPS_ST_SYNC)
  else setStatus GPS_ST_NO_SYNC.

(** The inner loop's body, [gps_rec] connected. *)
Definition readRecord (env : GpsEnv) (i : nat) (t : gps_thread) : GM unit :=
  g ← cget;
  cemit (GeWaiting (gp_waitTimeout (m_config_params g)) (ge_waiting env)) ;;
  if negb (ge_waiting env) then
    cwhen (bool_decide (is_Some (m_lastRecord g)))
      (cemit GeDeleteRecord ;; cmodify (fun g => g <| m_lastRecord := None |>) ;; setStatus GPS_ST_CONN_LOST)
  else
    cemit (GeRead (ge_read env) (ge_now env)) ;;
    cmodify (fun g => g <| m_lastRecord := ge_read env |>) ;;
    match ge_read env with
    | None =>
        setStatus GPS_ST_CONN_LOST ;;
        cmodify (fun g => g <| m_stable_start_time := 0 |>) ;;
        setThread i (mkGpsThread GpOuter (t_gps_rec t))
    | Some r => handleRecord (ge_now env) r
    end.

(** The outer loop's body up to the connection. *)
Definition connect (env : GpsEnv) (i : nat) (t : gps_thread) : GM unit :=
  cwhen (t_gps_rec t) (cemit GeDeleteGpsmm) ;;
  g ← cget;
  cemit (GeNewGpsmm (gp_gpsdAddress (m_config_params g)) (gp_gpsdPort (m_config_params g))) ;;
  cemit (GeStream (ge_stream env)) ;;
  if negb (ge_stream env) then
    setStatus GPS_ST_NO_DEVICE ;;
    cemit (GeSleep RETRY_TIME) ;;
    setThread i (mkGpsThread GpOuter true)
  else setThread i (mkGpsThread GpInner true).

Definition readGPSThreadFun (env : GpsEnv) (i : nat) (t : gps_thread) : GM unit :=
  g ← cget;
  match t_pc t with
  | GpBegin =>
      cmodify (fun g => g <| m_readThreadRunning := true |>) ;; setThread i (mkGpsThread GpOuter false)
  | GpOuter =>
      if m_readThreadRunning g then connect env i t
      else setThread i (mkGpsThread GpExit (t_gps_rec t))
  | GpInner =>
      if m_readThreadRunning g then readRecord env i t
      else cmodify (fun g => g <| m_stable_start_time := 0 |>) ;; setThread i (mkGpsThread GpOuter (t_gps_rec t))
  | GpExit =>
      cwhen (t_gps_rec t) (cemit GeDeleteGpsmm) ;;
      cmodify (fun g => g <| m_readThreadRunning := false |>) ;; setThread i (mkGpsThread GpDone false)
  | GpDone => mret tt
  end.

(** ** Operations *)

(** [new] does not return null: the wait for the thread is empty and the result is
    [GPS_OK]. *)
Definition start (config : start_param_t) (handler : bool) : GM gps_error_t :=
  cmodify (fun g => g <| m_config_params := config |> <| m_notifHandler := handler |>
    <| m_readThreadRunning := false |>) ;;
  cemit GeNewThread ;;
  cmodify (fun g => g <| m_gpsdReadThread := Some (length (m_threads g)) |>
    <| m_threads := m_threads g ++ [mkGpsThread GpBegin false] |>) ;;
  mret GPS_OK.

(** [stop] up to the wait for the thread, and the rest when the thread has ended. *)
Definition stop_signal : GM unit := cmodify (fun g => g <| m_readThreadRunning := false |>).
Definition stop_rest : GM unit :=
  g ← cget;
  cwhen (bool_decide (is_Some (m_gpsdReadThread g)))
    (cemit GeJoin ;; cmodify (fun g => g <| m_gpsdReadThread := None |>)).

Inductive gps_op : Set :=
| GoStart (config : start_param_t) (handler : bool)
| GoStopSignal | GoStopRest
| GoThread (i : nat) (env : GpsEnv).

Definition exec (op : gps_op) : GM unit :=
  match op with
  | GoStart config handler => start config handler ;; mret tt
  | GoStopSignal => stop_signal
  | GoStopRest => stop_rest
  | GoThread i env =>
      g ← cget;
      match m_threads g !! i with Some t => readGPSThreadFun env i t | None => mret tt end
  end.

(** The rest of [stop] waits for the thread of the handle. *)
Definition enabled (op : gps_op) (g : CGPS) : Prop :=
  match op with
  | GoStopRest =>
      match m_gpsdReadThread g with
      | Some i => t_pc <$> m_threads g !! i = Some GpDone
      | None => True
      end
  | _ => True
  end.

(** No thread reads. *)
Definition no_reader (g : CGPS) : Prop := Forall (fun t => t_pc t = GpDone) (m_threads g).

(** States reached by interleavings of the threads, the configuration being [cfg] and
    the handler not null, with [start] only while no thread reads; the steady clock is at [T]. *)
Inductive gps_reach (cfg : start_param_t) : Z -> list gps_event -> CGPS -> Prop :=
| gr_new T : 0 <= T < 2 ^ 64 -> gps_reach cfg T [] newCGPS
| gr_step T tr g op g' evs :
    gps_reach cfg T tr g -> enabled op g -> exec op g = (g', evs, inr tt) ->
    (forall c h, op = GoStart c h -> c = cfg /\ h = true /\ no_reader g) ->
    (forall i env, op = GoThread i env -> ge_now env = T) ->
    gps_reach cfg T (tr ++ evs) g'
| gr_clock T T' tr g : gps_reach cfg T tr g -> T <= T' < 2 ^ 64 -> gps_reach cfg T' tr g.

(** ** What the handler knows, and when it is told of a fix *)
Definition told (tr : list gps_event) : gps_status_t :=
  foldl (fun s e => match e with GeStatus s' => s' | _ => s end) GPS_ST_NO_DEVICE tr.

Definition good (cfg : start_param_t) (r : gps_data_t) : bool := gp_minSatellitesInUse cfg <=? gd_used r.

(** Events that do not end a stretch of records with enough satellites. *)
Definition unbroken (cfg : start_param_t) (e : gps_event) : bool :=
  match e with
  | GeStream ok => ok
  | GeWaiting _ data => data
  | GeRead (Some r) _ => good cfg r
  | GeRead None _ => false
  | _ => true
  end.

(** [tr] ends with an unbroken stretch that begins with a record at [t0]. *)
Definition good_since (cfg : start_param_t) (t0 : Z) (tr : list gps_event) : Prop :=
  exists tr0 r seg, tr = tr0 ++ GeRead (Some r) t0 :: seg /\ good cfg r = true /\
    Forall (fun e => unbroken cfg e = true) seg.

(** The last record was read at [t1], and no call of the library followed. *)
Definition read_at (cfg : start_param_t) (r : gps_data_t) (t1 : Z) (tr : list gps_event) : Prop :=
  exists tr0 seg, tr = tr0 ++ GeRead (Some r) t1 :: seg /\ Forall (fun e => match e with GeVisible _ | GeUsed _ => True | _ => False end) seg.

Definition earned (cfg : start_param_t) (tr : list gps_event) : Prop :=
  exists t0 t1 r, good_since cfg t0 tr /\ read_at cfg r t1 tr /\ good cfg r = true /\ t0 + gp_maxTimeToStable cfg <= t1.

Definition justified (cfg : start_param_t) (tr : list gps_event) : Prop :=
  forall tr1 s tr2, tr = tr1 ++ GeStatus s :: tr2 -> told tr1 <> s /\ (s = GPS_ST_SYNC -> earned cfg tr1).

Definition is_status (e : gps_event) : bool := match e with GeStatus _ => true | _ => false end.

Lemma told_snoc tr e : told (tr ++ [e]) = match e with GeStatus s => s | _ => told tr end.
Proof. unfold told. by rewrite foldl_snoc. Qed.

Lemma justified_snoc cfg tr e : justified cfg tr ->
  (forall s, e = GeStatus s -> told tr <> s /\ (s = GPS_ST_SYNC -> earned cfg tr)) -> justified cfg (tr ++ [e]).
Proof.
  intros Hj He tr1 s tr2 Heq. destruct tr2 as [|y m _] using rev_ind.
  - apply app_inj_tail in Heq as [-> ->]. by apply He.
  - rewrite app_comm_cons, app_assoc in Heq. apply app_inj_tail in Heq as [-> ->]. by apply (Hj tr1 s m).
Qed.

Lemma good_since_snoc cfg t0 tr e : good_since cfg t0 tr -> unbroken cfg e = true -> good_since cfg t0 (tr ++ [e]).
Proof.
  intros (tr0 & r & seg & -> & Hr & Hs) He. exists tr0, r, (seg ++ [e]). split; [by rewrite <- app_assoc|].
  split; [done|]. apply Forall_app. by repeat constructor.
Qed.

Section Invariant.
Context (cfg : start_param_t) (T : Z) (HT : 0 <= T < 2 ^ 64).

Record Told (tr : list gps_event) (g : CGPS) : Prop := {
  td_told : told tr = m_current_gps_status g;
  td_justified : justified cfg tr;
  td_cfg : m_config_params g = cfg;
  td_handler : m_notifHandler g = true
}.

(** The start of the stable time is that of an unbroken stretch; a record is held. *)
Definition Run (tr : list gps_event) (g : CGPS) : Prop :=
  m_stable_start_time g = 0 \/
  (is_Some (m_lastRecord g) /\ 0 < m_stable_start_time g <= T /\ good_since cfg (m_stable_start_time g) tr).

(** What stays the same when a step of the thread only calls other components. *)
Definition same (g g' : CGPS) : Prop :=
  m_current_gps_status g' = m_current_gps_status g /\ m_config_params g' = m_config_params g /\
  m_notifHandler g' = m_notifHandler g.

Lemma Told_snoc tr g g' e : Told tr g -> same g g' -> is_status e = false -> Told (tr ++ [e]) g'.
Proof.
  intros [H1 H2 H3 H4] (Hc & Hp & Hn) He. split; [|apply justified_snoc; [done|]|congruence|congruence].
  - rewrite told_snoc. destruct e; try done; congruence.
  - by intros s ->.
Qed.

Lemma Told_same tr g g' : Told tr g -> same g g' -> Told tr g'.
Proof. intros [H1 H2 H3 H4] (Hc & Hp & Hn). split; first [done|congruence]. Qed.

Lemma Run_snoc tr g g' e : Run tr g -> m_stable_start_time g' = m_stable_start_time g ->
  (is_Some (m_lastRecord g) -> is_Some (m_lastRecord g')) -> unbroken cfg e = true -> Run (tr ++ [e]) g'.
Proof.
  intros [H|(H1 & H2 & H3)] Hs Hl He; [left; congruence|right]. rewrite Hs. split; [auto|]. split; [done|].
  by apply good_since_snoc.
Qed.

Notation thoare := (hoare (S := CGPS) (E := gps_event)).
Notation never := (fun _ : crash => False).

Lemma setStatus_told s :
  thoare (fun tr g => Told tr g /\ (s = GPS_ST_SYNC -> earned cfg tr /\ Run tr g)) never (setStatus s) (fun _ tr g => Told tr g /\ Run tr g).
Proof.
  apply (h_bind _ _ _ _ (fun _ tr g => Told tr g /\ Run tr g /\ (s = GPS_ST_SYNC -> earned cfg tr))).
  { destruct s; try (apply h_modify; intros tr g [Ht Hs]; split_and!; [by apply (Told_same _ g)|by left|done]).
    apply h_ret. intros tr g [Ht Hs]. destruct (Hs eq_refl). by split_and!. }
  intros _. apply h_get. intros g0.
  apply (h_bind _ _ _ _ (fun _ tr g => told tr = s /\ justified cfg tr /\ m_config_params g = cfg /\ m_notifHandler g = true /\ Run tr g)).
  - unfold cwhen. case_bool_decide as Hd; cbn [negb andb].
    + apply h_ret. intros tr g ((Ht & Hr & _) & ->). destruct Ht as [H1 H2 H3 H4]. split; [congruence|]. by split_and!.
    + apply (h_fact _ (m_notifHandler g0 = true)); [by intros tr g ((Ht & _) & ->); apply Ht|].
      intros Hn. rewrite Hn. apply h_emit. intros tr g ((Ht & Hr & He) & ->).
      destruct Ht as [H1 H2 H3 H4]. rewrite told_snoc. split; [done|]. split; [|split; [done|split; [done|]]].
      * apply justified_snoc; [done|]. intros s' [= <-]. split; [congruence|done].
      * by apply (Run_snoc _ g0).
  - intros _. apply h_modify. intros tr g (H1 & H2 & H3 & H4 & Hr). by split.
Qed.

Lemma setStatus_lost s : s <> GPS_ST_SYNC -> thoare Told never (setStatus s) (fun _ tr g => Told tr g /\ Run tr g).
Proof. intros Hs. eapply h_pre; [|apply setStatus_told]. by intros tr g Ht. Qed.

(** A record has just been read; [st]: the start of the stable time. *)
Definition Record_read (r : gps_data_t) (st : Z) (tr : list gps_event) (g : CGPS) : Prop :=
  Told tr g /\ is_Some (m_lastRecord g) /\ read_at cfg r T tr /\ m_stable_start_time g = st /\
  (good cfg r = true -> Run tr g).

Lemma notify_read r st (P := Record_read r st) e f : (match e with GeVisible _ | GeUsed _ => True | _ => False end) ->
  (forall g, same g (f g) /\ m_stable_start_time (f g) = m_stable_start_time g /\ m_lastRecord (f g) = m_lastRecord g) ->
  thoare P never (cmodify f ;; notify e) (fun _ => P).
Proof.
  intros He Hf. apply (h_bind _ _ _ _ (fun _ => P)).
  - apply h_modify. intros tr g (Ht & Hl & Hr & Hst0 & Hrun). destruct (Hf g) as (Hs & Hst & Hlr).
    split; [by apply (Told_same _ g)|]. split; [by rewrite Hlr|]. split; [done|]. split; [congruence|].
    intros Hg. destruct (Hrun Hg) as [H|H]; [left|right]; by rewrite Hst, ?Hlr.
  - intros _. apply h_get. intros g0.
    apply (h_fact _ (m_notifHandler g0 = true)); [by intros tr g ((Ht & _) & ->); apply Ht|].
    intros ->. apply h_emit. intros tr g ((Ht & Hl & (tr0 & seg & -> & Hs) & Hst & Hrun) & ->).
    split; [apply (Told_snoc _ g0); [done|done|by destruct e]|]. split; [done|]. split; [|split; [done|]].
    + exists tr0, (seg ++ [e]). split; [by rewrite <- app_assoc|]. apply Forall_app. by repeat constructor.
    + intros Hg. apply (Run_snoc _ g0); [by apply Hrun|done|done|by destruct e].
Qed.

Lemma read_good r t tr : read_at cfg r t tr -> good cfg r = true -> good_since cfg t tr.
Proof.
  intros (tr0 & seg & -> & Hs) Hg. exists tr0, r, seg. split_and!; [done|done|].
  eapply Forall_impl; [|exact Hs]. by intros [].
Qed.

Lemma handleRecord_told r st : thoare (Record_read r st) never (handleRecord T r) (fun _ tr g => Told tr g /\ Run tr g).
Proof.
  apply h_get. intros g0. apply (h_fact _ (m_config_params g0 = cfg /\ m_stable_start_time g0 = st)).
  { intros tr g ((Ht & _ & _ & Hst & _) & ->). split; [apply Ht|done]. }
  intros [-> ->]. apply (h_pre _ _ (Record_read r st)); [by intros tr g [H _]|].
  apply (h_bind _ _ _ _ (fun _ => Record_read r st)).
  { unfold cwhen. case_match; [by apply notify_read|by apply h_ret]. }
  intros _. apply (h_bind _ _ _ _ (fun _ => Record_read r st)).
  { unfold cwhen. case_match; [by apply notify_read|by apply h_ret]. }
  intros _. fold (good cfg r). destruct (good cfg r) eqn:Hg.
  2: { apply (h_pre _ _ Told); [by intros tr g [H _]|]. by apply setStatus_lost. }
  destruct (Z.eqb_spec st 0) as [Hz|Hz].
  - apply h_modify. intros tr g (Ht & Hl & Hr & Hst & Hrun). split; [by apply (Told_same _ g)|].
    unfold Run. cbn. unfold u64, wrap. rewrite Z.mod_small by done.
    destruct (decide (T = 0)) as [->|]; [by left|right]. split; [done|]. split; [lia|]. by apply (read_good r).
  - unfold cwhen. case_match eqn:Hmax.
    + eapply h_pre; [|apply setStatus_told]. intros tr g (Ht & Hl & Hr & Hst & Hrun). split; [done|]. intros _.
      specialize (Hrun Hg). split; [|done]. destruct Hrun as [H|(_ & H1 & H2)]; [congruence|]. rewrite Hst in *.
      exists st, T, r. split_and!; [done..|]. apply Z.leb_le in Hmax. unfold u64, wrap in Hmax.
      rewrite Z.mod_small in Hmax by lia. lia.
    + apply h_ret. intros tr g (Ht & Hl & Hr & Hst & Hrun). split; [done|]. by apply Hrun.
Qed.

Notation TR := (fun tr g => Told tr g /\ Run tr g).

Lemma emit_keep e : is_status e = false -> unbroken cfg e = true -> thoare TR never (cemit e) (fun _ => TR).
Proof.
  intros He Hu. apply h_emit. intros tr g [Ht Hr].
  split; [by apply (Told_snoc _ g)|by apply (Run_snoc _ g)].
Qed.

Lemma emit_told e : is_status e = false -> thoare Told never (cemit e) (fun _ => Told).
Proof. intros He. apply h_emit. intros tr g Ht. by apply (Told_snoc _ g). Qed.

Lemma setThread_keep i t : thoare TR never (setThread i t) (fun _ => TR).
Proof. apply h_modify. intros tr g [Ht Hr]. split; [by apply (Told_same _ g)|exact Hr]. Qed.

(** The stable time is cleared, then the thread goes on elsewhere. *)
Lemma clear_then i t : thoare Told never (cmodify (fun g => g <| m_stable_start_time := 0 |>) ;; setThread i t) (fun _ => TR).
Proof.
  apply (h_bind _ _ _ _ (fun _ => TR)); [|intros _; apply setThread_keep].
  apply h_modify. intros tr g Ht. split; [by apply (Told_same _ g)|by left].
Qed.

Lemma readRecord_told env i t : ge_now env = T -> thoare TR never (readRecord env i t) (fun _ => TR).
Proof.
  intros Hnow. unfold readRecord. apply h_get. intros g0.
  destruct (ge_waiting env); cbn [negb].
  - apply (h_bind _ _ _ _ (fun _ => TR)); [apply (h_pre _ _ TR); [by intros tr g [H _]|by apply emit_keep]|]. intros _.
    destruct (ge_read env) as [r|].
    + apply (h_bind _ _ _ _ (fun _ tr g => Told tr g /\ read_at cfg r T tr /\ (good cfg r = true -> Run tr g))).
      { rewrite Hnow. apply h_emit. intros tr g [Ht Hr]. split; [by apply (Told_snoc _ g)|]. split; [by exists tr, []|].
        intros Hg. by apply (Run_snoc _ g). }
      intros _. apply (h_bind _ _ _ _ (fun _ tr g => exists st, Record_read r st tr g)).
      { apply h_modify. intros tr g (Ht & Hr & Hrun). exists (m_stable_start_time g).
        split; [by apply (Told_same _ g)|]. split; [by eexists|]. split; [done|]. split; [done|].
        intros Hg. destruct (Hrun Hg) as [H|(H1 & H2)]; [by left|right]. split; [by eexists|exact H2]. }
      intros _ tr g [st Hst]. rewrite Hnow. by apply (handleRecord_told r st).
    + apply (h_bind _ _ _ _ (fun _ => Told)); [apply (h_pre _ _ Told); [by intros tr g [H _]|by apply emit_told]|].
      intros _. apply (h_bind _ _ _ _ (fun _ => Told)); [apply h_modify; intros tr g Ht; by apply (Told_same _ g)|].
      intros _. apply (h_bind _ _ _ _ (fun _ => TR)); [by apply setStatus_lost|]. intros _.
      apply (h_pre _ _ Told); [by intros tr g [H _]|]. apply clear_then.
  - apply (h_bind _ _ _ _ (fun _ tr g => Told tr g /\ m_lastRecord g = m_lastRecord g0 /\ (m_lastRecord g = None -> m_stable_start_time g = 0))).
    { apply h_emit. intros tr g [[Ht Hr] ->]. split; [by apply (Told_snoc _ g0)|]. split; [done|].
      intros Hn. destruct Hr as [H|([? H] & _)]; congruence. }
    intros _. unfold cwhen. case_bool_decide as Hl.
    + apply (h_bind _ _ _ _ (fun _ => Told)); [apply (h_pre _ _ Told); [by intros tr g [H _]|by apply emit_told]|].
      intros _. apply (h_bind _ _ _ _ (fun _ => Told)); [apply h_modify; intros tr g Ht; by apply (Told_same _ g)|].
      intros _. by apply setStatus_lost.
    + apply h_ret. intros tr g (Ht & Hlr & Hs). split; [done|left]. apply Hs. rewrite Hlr. by apply eq_None_not_Some.
Qed.

Lemma connect_told env i t : thoare TR never (connect env i t) (fun _ => TR).
Proof.
  unfold connect. apply (h_bind _ _ _ _ (fun _ => TR)).
  { unfold cwhen. destruct (t_gps_rec t); [by apply emit_keep|by apply h_ret]. }
  intros _. apply h_get. intros g0. apply (h_pre _ _ TR); [by intros tr g [H _]|].
  apply (h_bind _ _ _ _ (fun _ => TR)); [by apply emit_keep|]. intros _.
  destruct (ge_stream env); cbn [negb].
  - apply (h_bind _ _ _ _ (fun _ => TR)); [by apply emit_keep|]. intros _. apply setThread_keep.
  - apply (h_pre _ _ Told); [by intros tr g [H _]|].
    apply (h_bind _ _ _ _ (fun _ => Told)); [by apply emit_told|]. intros _.
    apply (h_bind _ _ _ _ (fun _ => TR)); [by apply setStatus_lost|]. intros _.
    apply (h_bind _ _ _ _ (fun _ => TR)); [by apply emit_keep|]. intros _. apply setThread_keep.
Qed.

Lemma thread_told env i t : ge_now env = T -> thoare TR never (readGPSThreadFun env i t) (fun _ => TR).
Proof.
  intros Hnow. apply h_get. intros g0. apply (h_pre _ _ TR); [by intros tr g [H _]|].
  assert (Hflag : forall b, thoare TR never (cmodify (fun g => g <| m_readThreadRunning := b |>)) (fun _ => TR)).
  { intros b. apply h_modify. intros tr g [Ht Hr]. split; [by apply (Told_same _ g)|exact Hr]. }
  destruct (t_pc t).
  - apply (h_bind _ _ _ _ (fun _ => TR)); [apply Hflag|intros _; apply setThread_keep].
  - destruct (m_readThreadRunning g0); [apply connect_told|apply setThread_keep].
  - destruct (m_readThreadRunning g0); [by apply readRecord_told|].
    apply (h_pre _ _ Told); [by intros tr g [H _]|]. apply clear_then.
  - apply (h_bind _ _ _ _ (fun _ => TR)); [unfold cwhen; destruct (t_gps_rec t); [by apply emit_keep|by apply h_ret]|].
    intros _. apply (h_bind _ _ _ _ (fun _ => TR)); [apply Hflag|intros _; apply setThread_keep].
  - by apply h_ret.
Qed.
End Invariant.

(** ** [stop] within an iteration *)

(** Runs alike, whatever the flag is, and leaves it alone. *)
Definition flag_blind {A} (m : GM A) : Prop :=
  forall g b, m (g <| m_readThreadRunning := b |>) = (let '(g', e, r) := m g in (g' <| m_readThreadRunning := b |>, e, r)).

Lemma fb_ret {A} (a : A) : flag_blind (mret a).
Proof. done. Qed.
Lemma fb_emit e : flag_blind (cemit e).
Proof. done. Qed.
Lemma fb_crash {A} c : flag_blind (crashes (A := A) c).
Proof. done. Qed.
Lemma fb_modify f : (forall g b, f (g <| m_readThreadRunning := b |>) = f g <| m_readThreadRunning := b |>) -> flag_blind (cmodify f).
Proof. intros Hf g b. unfold cmodify. by rewrite Hf. Qed.
Lemma fb_bind {A B} (m : GM A) (k : A -> GM B) : flag_blind m -> (forall a, flag_blind (k a)) -> flag_blind (m ≫= k).
Proof.
  intros Hm Hk g b. unfold mbind, CM_bind. rewrite Hm. destruct (m g) as [[g1 e1] [c|a]]; [done|].
  rewrite (Hk a). by destruct (k a g1) as [[g2 e2] r].
Qed.
Lemma fb_get {B} (k : CGPS -> GM B) : (forall g b, k (g <| m_readThreadRunning := b |>) = k g) -> (forall g, flag_blind (k g)) ->
  flag_blind (cget ≫= k).
Proof.
  intros He Hk g b. unfold mbind, CM_bind, cget. rewrite He, (Hk g g b). by destruct (k g g) as [[? ?] ?].
Qed.
Lemma fb_when b m : flag_blind m -> flag_blind (cwhen b m).
Proof. by destruct b. Qed.

Ltac fb_auto := repeat first
  [ apply fb_ret | apply fb_emit | apply fb_crash | by apply fb_modify | apply fb_get; [done|intros ?] | apply fb_when
  | apply fb_bind; [|intros ?] | match goal with |- flag_blind (if ?b then _ else _) => destruct b end ].

Lemma setStatus_blind s : flag_blind (setStatus s).
Proof. unfold setStatus. fb_auto. by destruct s; fb_auto. Qed.

Lemma iteration_blind env i t : flag_blind (connect env i t) /\ flag_blind (readRecord env i t).
Proof.
  split; unfold connect, readRecord, handleRecord, setSatellitesVisible, setSatellitesUsed, notify, setThread; fb_auto;
    try apply setStatus_blind.
  destruct (ge_read env); fb_auto; apply setStatus_blind.
Qed.

(** A [stop] that comes between two parts of an iteration does what one after it does. *)
Lemma stop_inside {A B} (m : GM A) (k : A -> GM B) : (forall a, flag_blind (k a)) ->
  forall g, (a ← m; stop_signal ;; k a) g =
    (let '(g1, e, r) := (m ≫= k) g in match r with inr _ => (g1 <| m_readThreadRunning := false |>, e, r) | inl _ =>
       match m g with (_, _, inl _) => (g1, e, r) | _ => (g1 <| m_readThreadRunning := false |>, e, r) end end).
Proof.
  intros Hk g. unfold mbind, CM_bind, stop_signal, cmodify. destruct (m g) as [[g1 e1] [c|a]]; [done|].
  rewrite (Hk a g1 false). by destruct (k a g1) as [[g2 e2] [c|x]].
Qed.

(** ** Reachable states *)
Record gps_inv (cfg : start_param_t) (T : Z) (tr : list gps_event) (g : CGPS) : Prop := {
  gi_clock : 0 <= T < 2 ^ 64;
  gi_told : told tr = m_current_gps_status g;
  gi_justified : justified cfg tr;
  gi_started : m_threads g <> [] -> m_config_params g = cfg /\ m_notifHandler g = true;
  gi_run : Run cfg T tr g
}.

Lemma gps_inv_emit cfg T tr g g' e : gps_inv cfg T tr g -> is_status e = false -> unbroken cfg e = true ->
  m_current_gps_status g' = m_current_gps_status g -> m_stable_start_time g' = m_stable_start_time g ->
  m_lastRecord g' = m_lastRecord g -> (m_threads g' <> [] -> m_config_params g' = cfg /\ m_notifHandler g' = true) ->
  gps_inv cfg T (tr ++ [e]) g'.
Proof.
  intros [H1 H2 H3 H4 H5] He Hu Hc Hs Hl Hcfg. split; [done| |apply justified_snoc; [done|by intros s ->]|done|].
  - rewrite told_snoc. destruct e; try done; congruence.
  - by apply (Run_snoc _ _ _ g); [..|rewrite Hl| ].
Qed.

Lemma gps_reach_inv cfg T tr g : gps_reach cfg T tr g -> gps_inv cfg T tr g.
Proof.
  induction 1 as [T HT|T tr g op g' evs Hr IH Hen Hex Hst Hnow|T T' tr g Hr IH HT].
  - split; [done|done| |done|by left]. intros tr1 s tr2 H. by destruct tr1.
  - destruct op as [c h| | |i env];
    cbv [exec start stop_signal stop_rest cwhen mbind mret CM_bind CM_ret cmodify cemit cget app] in Hex.
    + destruct (Hst c h eq_refl) as (-> & -> & _). simplify_eq. by apply (gps_inv_emit _ _ _ g).
    + simplify_eq. rewrite app_nil_r. destruct IH as [H1 H2 H3 H4 H5]. by split.
    + case_bool_decide; simplify_eq.
      * apply (gps_inv_emit _ _ _ g); try done. apply IH.
      * by rewrite app_nil_r.
    + destruct (m_threads g !! i) as [t|] eqn:Ht; [|simplify_eq; by rewrite app_nil_r].
      destruct IH as [H1 H2 H3 H4 H5]. destruct H4 as [Hcfg Hh]; [by intros E; rewrite E in Ht|].
      pose proof (thread_told cfg T H1 env i t (Hnow i env eq_refl) tr g) as Hth.
      destruct (readGPSThreadFun env i t g) as [[g1 t1] [c|[]]]; [done|]. simplify_eq.
      destruct Hth as [[K1 K2 K3 K4] K5]; [split; [by split|done]|]. by split.
  - destruct IH as [H1 H2 H3 H4 H5]. split; [lia|done|done|done|].
    destruct H5 as [H|(Ha & Hb & Hc)]; [by left|right]. split; [done|]. split; [lia|done].
Qed.

(** ** Running operations at given times *)
#[export] Instance gps_pc_eq_dec : EqDecision gps_pc.
Proof. solve_decision. Defined.

#[export] Instance start_param_t_eq_dec : EqDecision start_param_t.
Proof. solve_decision. Defined.

#[export] Instance no_reader_dec g : Decision (no_reader g).
Proof. unfold no_reader. apply _. Defined.

Definition allowed (cfg : start_param_t) (T : Z) (op : gps_op) (g : CGPS) : bool :=
  match op with
  | GoStart c h => bool_decide (c = cfg) && h && bool_decide (no_reader g)
  | GoStopRest =>
      match m_gpsdReadThread g with
      | Some i => bool_decide (t_pc <$> m_threads g !! i = Some GpDone)
      | None => true
      end
  | GoThread _ env => ge_now env =? T
  | GoStopSignal => true
  end.

Fixpoint gps_runs (cfg : start_param_t) (T : Z) (l : list (Z * gps_op)) (tr : list gps_event) (g : CGPS)
  : option (Z * list gps_event * CGPS) :=
  match l with
  | [] => Some (T, tr, g)
  | (T', op) :: r =>
      if (T <=? T') && (T' <? 2 ^ 64) && allowed cfg T' op g then
        match exec op g with
        | (g', evs, inr _) => gps_runs cfg T' r (tr ++ evs) g'
        | _ => None
        end
      else None
  end.

Lemma gps_runs_reach cfg l : forall T tr g T' tr' g', gps_reach cfg T tr g ->
  gps_runs cfg T l tr g = Some (T', tr', g') -> gps_reach cfg T' tr' g'.
Proof.
  induction l as [|[T1 op] l IH]; intros T tr g T' tr' g' Hr Hrun; cbn [gps_runs] in Hrun; [by simplify_eq|].
  destruct ((T <=? T1) && (T1 <? 2 ^ 64) && allowed cfg T1 op g) eqn:Hc; [|done].
  apply andb_true_iff in Hc as [Hc Ha]. apply andb_true_iff in Hc as [H1 H2].
  destruct (exec op g) as [[g1 evs] [c|[]]] eqn:Hex; [done|].
  refine (IH _ _ _ _ _ _ _ Hrun). refine (gr_step _ _ _ g op g1 evs _ _ Hex _ _).
  - apply (gr_clock _ T); [done|lia].
  - destruct op; cbn in *; try done. destruct (m_gpsdReadThread g); [by apply bool_decide_eq_true in Ha|done].
  - intros c h ->. cbn in Ha. rewrite !andb_true_iff, !bool_decide_eq_true in Ha. by destruct Ha as [[? ?] ?].
  - intros i env ->. cbn in Ha. lia.
Qed.

Definition ex_gps_cfg : start_param_t := mkGpsParam [] [] 1000 4 10 true.
Definition ex_env (now used : Z) : GpsEnv := mkGpsEnv true true (Some (mkGpsData 9 used)) now.

Fixpoint exec_ops (l : list gps_op) : GM unit := match l with [] => mret tt | op :: l => exec op ;; exec_ops l end.

(** Starting a second time while the thread runs: the end of the first thread stops the
    second one as well, and nobody reads. *)
Fact start_twice :
  let th i := GoThread i (ex_env 1 5) in
  let l := [GoStart ex_gps_cfg true; th 0%nat; th 0%nat; th 0%nat; GoStart ex_gps_cfg true; th 0%nat; th 0%nat;
            th 1%nat; th 0%nat; th 1%nat; th 1%nat] in
  let '(g, _, _) := exec_ops l newCGPS in
  map t_pc (m_threads g) = [GpDone; GpDone] /\ m_gpsdReadThread g = Some 1%nat.
Proof. vm_compute. done. Qed.

(** C33: With one reading thread at a time ([start] only when the thread of an earlier [start] has
    ended), in every interleaving of that thread with [start] and [stop], the handler knows the current status at the end
    of each iteration, is told only of changes, and is
    told of a fix only after an unbroken stretch of records with enough satellites
    that spans the configured time, which the code takes in seconds: no record with fewer, no read error, no
    missing input and no failed connection since the first of them. *)
Theorem gps_fix_earned (cfg : start_param_t) (T : Z) (tr : list gps_event) (g : CGPS) (Hr : gps_reach cfg T tr g) :
  told tr = getStatus g /\
  forall tr1 s tr2, tr = tr1 ++ GeStatus s :: tr2 -> told tr1 <> s /\ (s = GPS_ST_SYNC -> earned cfg tr1).
Proof. destruct (gps_reach_inv _ _ _ _ Hr) as [H1 H2 H3 H4 H5]. split; [exact H2|exact H3]. Qed.

Lemma gps_fix_earned_witness :
  let th now used := (now, GoThread 0 (ex_env now used)) in
  let l := [(1, GoStart ex_gps_cfg true); th 1 0; th 1 0; th 2 3; th 3 5; th 8 6; th 13 4] in
  exists tr g, gps_runs ex_gps_cfg 1 l [] newCGPS = Some (13, tr, g) /\ getStatus g = GPS_ST_SYNC /\ told tr = GPS_ST_SYNC /\
    exists tr1 tr2, tr = tr1 ++ GeStatus GPS_ST_SYNC :: tr2 /\ earned ex_gps_cfg tr1.
Proof.
  cbv zeta. set (l := [_; _; _; _; _; _; _]).
  destruct (gps_runs ex_gps_cfg 1 l [] newCGPS) as [[[T tr] g]|] eqn:E; [|by vm_compute in E].
  assert (Hr : gps_reach ex_gps_cfg T tr g).
  { refine (gps_runs_reach _ l 1 [] newCGPS _ _ _ _ E). by apply gr_new. }
  destruct (gps_fix_earned ex_gps_cfg T tr g Hr) as [H1 H2].
  vm_compute in E. injection E as <- <- <-. eexists _, _. split; [done|]. split; [done|]. split; [done|].
  match goal with |- exists tr1 tr2, ?l = _ /\ _ => exists (removelast l), [] end.
  split; [done|]. by apply (H2 _ GPS_ST_SYNC []).
Defined.

(** ** A fix is reached *)
Record reading (cfg : start_param_t) (i : nat) (g : CGPS) : Prop := {
  rd_cfg : m_config_params g = cfg;
  rd_handler : m_notifHandler g = true;
  rd_running : m_readThreadRunning g = true;
  rd_pc : t_pc <$> m_threads g !! i = Some GpInner
}.

Definition good_read (cfg : start_param_t) (env : GpsEnv) : Prop :=
  ge_waiting env = true /\ 0 < ge_now env < 2 ^ 64 /\
  match ge_read env with Some r => good cfg r = true | None => False end.

Fixpoint reads (i : nat) (envs : list GpsEnv) : GM unit :=
  match envs with [] => mret tt | e :: r => exec (GoThread i e) ;; reads i r end.

(** What a read with enough satellites does to the start of the stable time [s]. *)
Definition after_good (cfg : start_param_t) (s now : Z) (g : CGPS) : Prop :=
  if s =? 0 then m_stable_start_time g = now
  else m_stable_start_time g = s /\ (s + gp_maxTimeToStable cfg <= now -> getStatus g = GPS_ST_SYNC).

Section GoodRead.
Context (cfg : start_param_t) (i : nat) (env : GpsEnv) (s : Z).
Context (Henv : good_read cfg env) (Hs : 0 <= s <= ge_now env).
Notation at_s := (fun (_ : list gps_event) g => reading cfg i g /\ m_stable_start_time g = s).
Notation never := (fun _ : crash => False).

Lemma at_s_emit e : hoare at_s never (cemit e) (fun _ => at_s).
Proof. by apply h_emit. Qed.

Lemma at_s_modify f : (forall g, m_config_params (f g) = m_config_params g /\ m_notifHandler (f g) = m_notifHandler g /\
    m_readThreadRunning (f g) = m_readThreadRunning g /\ m_threads (f g) = m_threads g /\
    m_stable_start_time (f g) = m_stable_start_time g) -> hoare at_s never (cmodify f) (fun _ => at_s).
Proof.
  intros Hf. apply h_modify. intros tr g [[H1 H2 H3 H4] Hst]. destruct (Hf g) as (E1 & E2 & E3 & E4 & E5).
  split; [split|]; congruence.
Qed.

Lemma at_s_notify f e b : (forall g, m_config_params (f g) = m_config_params g /\ m_notifHandler (f g) = m_notifHandler g /\
    m_readThreadRunning (f g) = m_readThreadRunning g /\ m_threads (f g) = m_threads g /\
    m_stable_start_time (f g) = m_stable_start_time g) -> hoare at_s never (cwhen b (cmodify f ;; notify e)) (fun _ => at_s).
Proof.
  intros Hf. unfold cwhen. destruct b; [|by apply h_ret].
  apply (h_bind _ _ _ _ (fun _ => at_s)); [by apply at_s_modify|]. intros _. apply h_get. intros g0.
  apply (h_fact _ (m_notifHandler g0 = true)); [by intros tr g ((Hr & _) & ->); apply Hr|].
  intros ->. apply (h_pre _ _ at_s); [by intros tr g [H _]|apply at_s_emit].
Qed.

Lemma sync_told : hoare at_s never (setStatus GPS_ST_SYNC)
  (fun _ _ g => reading cfg i g /\ m_stable_start_time g = s /\ getStatus g = GPS_ST_SYNC).
Proof.
  apply (h_bind _ _ _ _ (fun _ => at_s)); [by apply h_ret|]. intros _. apply h_get. intros g0.
  apply (h_pre _ _ at_s); [by intros tr g [H _]|].
  apply (h_bind _ _ _ _ (fun _ => at_s)); [unfold cwhen; case_match; [apply at_s_emit|by apply h_ret]|].
  intros _. apply h_modify. intros tr g [[H1 H2 H3 H4] Hst]. split; [by split|done].
Qed.

Lemma good_read_spec :
  hoare at_s never (exec (GoThread i env)) (fun _ _ g => reading cfg i g /\ after_good cfg s (ge_now env) g).
Proof.
  destruct Henv as (Hw & Hn & Hr). destruct (ge_read env) as [r|] eqn:Er; [|done].
  apply h_get. intros g0. apply (h_fact _ (reading cfg i g0)); [by intros tr g [[H _] ->]|].
  intros [H1 H2 H3 H4]. apply (h_pre _ _ at_s); [by intros tr g [H _]|].
  destruct (m_threads g0 !! i) as [t|]; [|done]. injection H4 as H4. apply h_get. intros g1.
  apply (h_fact _ (m_readThreadRunning g1 = true)); [by intros tr g [[[] _] ->]|].
  intros Hrun. rewrite H4, Hrun. apply (h_pre _ _ at_s); [by intros tr g [H _]|]. apply h_get. intros g2.
  apply (h_pre _ _ at_s); [by intros tr g [H _]|]. rewrite Hw, Er. cbn [negb].
  apply (h_bind _ _ _ _ (fun _ => at_s)); [apply at_s_emit|intros _].
  apply (h_bind _ _ _ _ (fun _ => at_s)); [apply at_s_emit|intros _].
  apply (h_bind _ _ _ _ (fun _ => at_s)); [by apply at_s_modify|intros _].
  apply h_get. intros g3. apply (h_fact _ (m_config_params g3 = cfg /\ m_stable_start_time g3 = s)).
  { by intros tr g [[[] ?] ->]. }
  intros [-> ->]. apply (h_pre _ _ at_s); [by intros tr g [H _]|].
  apply (h_bind _ _ _ _ (fun _ => at_s)); [by apply at_s_notify|intros _].
  apply (h_bind _ _ _ _ (fun _ => at_s)); [by apply at_s_notify|intros _].
  fold (good cfg r). rewrite Hr. unfold after_good, u64, wrap. rewrite !Z.mod_small by lia.
  destruct (Z.eqb_spec s 0) as [->|Hz].
  - apply h_modify. intros tr g [[E1 E2 E3 E4] Hst]. split; [by split|done].
  - unfold cwhen. case_match eqn:Hm.
    + eapply h_post; [apply sync_told|]. by intros u tr g (Ha & Hb & Hc).
    + apply h_ret. intros tr g [Ha Hb]. split; [done|]. split; [done|]. lia.
Qed.
End GoodRead.

(** A running thread that reads records with enough satellites, the first at [t0] and
    the last, of at least two, no earlier than the configured time later, reports a fix. *)
Theorem gps_fix_reached (cfg : start_param_t) (i : nat) (envs : list GpsEnv) (env env0 : GpsEnv) (g : CGPS)
  (Hg : reading cfg i g) (Hst : m_stable_start_time g = 0)
  (Hgood : Forall (good_read cfg) (env0 :: envs ++ [env]))
  (Hclock : Forall (fun e => ge_now env0 <= ge_now e) (envs ++ [env]))
  (Hspan : ge_now env0 + gp_maxTimeToStable cfg <= ge_now env) :
  exists tr g', reads i (env0 :: envs ++ [env]) g = (g', tr, inr tt) /\ getStatus g' = GPS_ST_SYNC.
Proof.
  set (s := ge_now env0) in *. inversion Hgood as [|? ? Hg0 Hgs]; subst.
  assert (Hs : 0 < s) by apply Hg0. clear Hgood.
  cut (hoare (fun (_ : list gps_event) g => reading cfg i g /\ m_stable_start_time g = 0) (fun _ => False)
    (reads i (env0 :: envs ++ [env])) (fun _ _ g => getStatus g = GPS_ST_SYNC)).
  { intros H. specialize (H [] g (conj Hg Hst)). destruct (reads i _ g) as [[g' tr] [c|[]]]; [done|]. by exists tr, g'. }
  apply (h_bind _ _ _ _ (fun _ _ g => reading cfg i g /\ m_stable_start_time g = s)).
  { eapply h_post; [apply good_read_spec; [done|lia]|]. by intros u tr g1. }
  intros _. clear Hg0.
  induction envs as [|e envs IH]; cbn [app] in *;
    inversion Hgs as [|? ? He Hgs']; subst; inversion Hclock as [|? ? Hc Hcs]; subst.
  - apply (h_bind _ _ _ _ (fun _ _ g => getStatus g = GPS_ST_SYNC)); [|intros ?; by apply h_ret].
    eapply h_post; [apply good_read_spec; [done|lia]|]. unfold after_good.
    destruct (Z.eqb_spec s 0); [lia|]. intros u tr g1 (_ & _ & H). by apply H.
  - apply (h_bind _ _ _ _ (fun _ _ g => reading cfg i g /\ m_stable_start_time g = s)); [|intros _; by apply IH].
    eapply h_post; [apply good_read_spec; [done|lia]|]. unfold after_good.
    destruct (Z.eqb_spec s 0); [lia|]. by intros u tr g1 (? & ? & _).
Qed.

Lemma gps_fix_reached_witness :
  let g := mkGPS ex_gps_cfg true (Some 0%nat) None GPS_ST_NO_DEVICE true 0 0 0 [mkGpsThread GpInner true] in
  exists tr g', reads 0 [ex_env 3 5; ex_env 8 6; ex_env 13 4] g = (g', tr, inr tt) /\
    getStatus g' = GPS_ST_SYNC.
Proof.
  apply (gps_fix_reached ex_gps_cfg 0 [ex_env 8 6] (ex_env 13 4) (ex_env 3 5)); [by split|done| | |done].
  - by repeat constructor.
  - by repeat constructor.
Defined.
