(* ===== verification/ApcProto.v ===== *)
(** The Manager-APC protocol (APInterface/APCProto.h, public/APCError.h and the
    types of public/IAPCCommon.h): message types, packed message structures,
    error codes and the enumerations the interface exposes. *)
From stdpp Require Import base numbers list option strings.
From Stdlib Require Import ZArith Lia.
From S2P Require Import Prelude Common.

Local Open Scope Z_scope.
Local Open Scope string_scope.

(** ** Protocol constants *)
Definition SIZE_STR_VER : nat := 80.
Definition APC_PROTO_VER : Z := 1.

(** [enum apc_msg_type_t : uint8_t]: any byte may arrive, so it stays a number. *)
Definition APC_NA : Z := 0.
Definition APC_CONNECT : Z := 1.
Definition APC_DISCONNECT : Z := 2.
Definition APC_NET_TX : Z := 3.
Definition APC_NET_RX : Z := 4.
Definition APC_NET_TXDONE : Z := 5.
Definition APC_NET_TX_PAUSE : Z := 6.
Definition APC_NET_TX_RESUME : Z := 7.
Definition APC_RESET_AP : Z := 8.
Definition APC_KA : Z := 9.
Definition APC_AP_LOST : Z := 10.
Definition APC_GET_TIME : Z := 11.
Definition APC_TIME_MAP : Z := 12.
Definition APC_GPS_LOCK : Z := 13.
Definition APC_DISCONNECT_AP : Z := 14.

Definition APC_FL_INTSYNCH_AP : Z := 0x1.
Definition APC_COOKIE : Z := 0x7E7E7E7E.
Definition APC_HDR_FLAGS_NOTRACK : Z := 0x1.
Definition APC_NETTX_FL_USETXINFO : Z := 0x1.
Definition APC_NETTX_NOTXDONE : Z := 0xFFFF.

(** ** Packed structures *)
Definition apc_hdr_s : layout :=
  [("cookie", 4); ("flags", 1); ("mySeq", 4); ("yourSeq", 4); ("type", 1); ("length", 2)]%nat.
Definition apc_msg_net_gpslock_s : layout := [("state", 1)]%nat.
Definition apc_msg_connect_s : layout :=
  [("ver", 1); ("flags", 4); ("identity", 32); ("sesId", 4);
   ("gpsstate", sizeof apc_msg_net_gpslock_s); ("netId", 4); ("version", SIZE_STR_VER)]%nat.
Definition apc_msg_net_tx_s : layout :=
  [("priority", 1); ("txDoneId", 2); ("flags", 1); ("frame", 1); ("slot", 4); ("offset", 1);
   ("dst", 2)]%nat.
Definition apc_msg_net_txdone_s : layout := [("txDoneId", 2); ("status", 1)]%nat.
Definition apc_msg_timemap_s : layout :=
  [("utcSeconds", 8); ("utcMicroseconds", 4); ("asn", 8); ("asnOffset", 2)]%nat.

Definition MAX_APC_HDR_SIZE : nat := sizeof apc_hdr_s + sizeof apc_msg_net_tx_s.
Definition MAX_NET_PKT_SIZE : nat := 1024.
(** Declared in APCConnector.h. *)
Definition APC_MAX_MSG_SIZE : nat := MAX_NET_PKT_SIZE + MAX_APC_HDR_SIZE.

(** ** Errors and stop reasons *)
Inductive apc_error_t : Set :=
| APC_OK
| APC_STOP_CONNECTOR
| APC_ERR_INIT
| APC_ERR_SIZE
| APC_ERR_OUTBUFOVERFLOW
| APC_ERR_UNCONFIRMED_PKT
| APC_ERR_IO
| APC_ERR_ASYNC_OPERATION
| APC_ERR_STATE
| APC_ERR_PROTOCOL
| APC_ERR_NOTFOUND
| APC_ERR_PKTSERIALIZATION
| APC_ERR_NOTCONNECT
| APC_ERR_DISCONNECT
| APC_ERR_OFFLINE
| APC_ERR_CONNECT.

#[export] Instance apc_error_t_eq_dec : EqDecision apc_error_t.
Proof. solve_decision. Defined.

Inductive apc_stop_reason_t : Set :=
| APC_STOP_NA
| APC_DISCONNECT_MSG
| APC_STOP_TIMEOUT
| APC_STOP_CREATE
| APC_STOP_READ
| APC_STOP_WRITE
| APC_STOP_CLOSE
| APC_STOP_DELAYED
| APC_STOP_CONNECT_NOT_FOUND
| APC_STOP_CONNECT_NEW_PORT
| APC_STOP_CONNECT_SAME_PORT
| APC_STOP_PKTPARSE
| APC_STOP_VER
| APC_STOP_MAXAPC
| APC_STOP_RECONNECTION.

#[export] Instance apc_stop_reason_t_eq_dec : EqDecision apc_stop_reason_t.
Proof. solve_decision. Defined.

(** ** Types of the interface *)
Inductive ap_intf_priority_t : Set := APINTF_LOW | APINTF_MED | APINTF_HI | APINTF_CMD.

#[export] Instance ap_intf_priority_t_eq_dec : EqDecision ap_intf_priority_t.
Proof. solve_decision. Defined.

Definition priority_val (p : ap_intf_priority_t) : Z :=
  match p with APINTF_LOW => 0 | APINTF_MED => 1 | APINTF_HI => 2 | APINTF_CMD => 3 end.

Record ap_intf_sendhdr_t : Set := mkSendHdr {
  sh_priority : ap_intf_priority_t;
  sh_isTxDoneRequested : bool;
  sh_txDoneId : Z;
  sh_isLinkInfoSpecified : bool;
  sh_frId : Z;
  sh_slot : Z;
  sh_offset : Z;
  sh_dst : Z
}.

Inductive ap_intf_txstatus_t : Set := APINTF_TXDONE_OK | APINTF_TXDONE_ERR.

Record ap_intf_txdone_t : Set := mkTxDone {
  txd_txDoneId : Z;
  txd_status : ap_intf_txstatus_t
}.

Record ap_time_map_t : Set := mkTimeMap {
  tm_timeSec : Z;
  tm_timeUsec : Z;
  tm_asn : Z;
  tm_asnOffset : Z
}.

Inductive ap_int_gpslockstat_t : Set := APINTF_GPS_LOCK | APINTF_GPS_NOLOCK.

#[export] Instance ap_int_gpslockstat_t_eq_dec : EqDecision ap_int_gpslockstat_t.
Proof. solve_decision. Defined.

Definition gpslock_val (g : ap_int_gpslockstat_t) : Z :=
  match g with APINTF_GPS_LOCK => 0 | APINTF_GPS_NOLOCK => 1 end.

Inductive EAPClockSource : Set := INTERNAL | NETWORK | PPS | MNGRSET.

#[export] Instance EAPClockSource_eq_dec : EqDecision EAPClockSource.
Proof. solve_decision. Defined.
