(* ===== verification/ApcSerializer.v ===== *)
(** Message serializer of the Manager-APC connection (APInterface/APCSerializer.cpp).

    [prepMsg] builds a message in a caller's buffer, [dataReceived] cuts the TCP
    byte stream back into messages.  The handler behind [ISerRxHandler] is a
    parameter of the receiving side: a state [H] and a function that returns
    the error code of [messageReceived].  A write outside the input buffer is
    [None]; the invariant [ser_wf] rules it out. *)
From stdpp Require Import base numbers list option strings.
From Stdlib Require Import ZArith Lia.
From S2P Require Import Prelude Common ApcProto.

Local Open Scope Z_scope.

(** ** Conversion between host and network order *)

(** [bufferCast_p]: whether the payload holds the message type. *)
Definition bufferCast_p (l : layout) (size : nat) : bool := (sizeof l <=? size)%nat.

Definition conv_S (c : converttype_t) (l : layout) (f : string) (p : list Z) : list Z :=
  set_fld l f (CONVERT_S c (fld l f p)) p.
Definition conv_L (c : converttype_t) (l : layout) (f : string) (p : list Z) : list Z :=
  set_fld l f (CONVERT_L c (fld l f p)) p.
Definition conv_LL (c : converttype_t) (l : layout) (f : string) (p : list Z) : list Z :=
  set_fld l f (CONVERT_LL c (fld l f p)) p.

(** [payload] is the [size] bytes of the message after its header. *)
Definition convert (c : converttype_t) (msgType : Z) (payload : list Z) : apc_error_t * list Z :=
  let size := length payload in
  if msgType =? APC_NET_TX then
    if bufferCast_p apc_msg_net_tx_s size then
      let p := conv_S c apc_msg_net_tx_s "txDoneId" payload in
      let p := conv_L c apc_msg_net_tx_s "slot" p in
      let p := conv_S c apc_msg_net_tx_s "dst" p in
      (APC_OK, p)
    else (APC_ERR_SIZE, payload)
  else if msgType =? APC_NET_TXDONE then
    if bufferCast_p apc_msg_net_txdone_s size then
      (APC_OK, conv_S c apc_msg_net_txdone_s "txDoneId" payload)
    else (APC_ERR_SIZE, payload)
  else if msgType =? APC_TIME_MAP then
    if bufferCast_p apc_msg_timemap_s size then
      let p := conv_LL c apc_msg_timemap_s "utcSeconds" payload in
      let p := conv_L c apc_msg_timemap_s "utcMicroseconds" p in
      let p := conv_LL c apc_msg_timemap_s "asn" p in
      let p := conv_S c apc_msg_timemap_s "asnOffset" p in
      (APC_OK, p)
    else (APC_ERR_SIZE, payload)
  else if msgType =? APC_CONNECT then
    if bufferCast_p apc_msg_connect_s size then
      let p := conv_L c apc_msg_connect_s "flags" payload in
      let p := conv_L c apc_msg_connect_s "sesId" p in
      let p := conv_L c apc_msg_connect_s "netId" p in
      (APC_OK, p)
    else (APC_ERR_SIZE, payload)
  else (APC_OK, payload).

(** ** Transmit side *)

(** The header fields, written one by one over the front of the buffer. *)
Definition writeHdr (msg : list Z) (type flags mySeq yourSeq length : Z) : list Z :=
  let m := set_fld apc_hdr_s "cookie" APC_COOKIE msg in
  let m := set_fld apc_hdr_s "flags" flags m in
  let m := set_fld apc_hdr_s "type" type m in
  let m := set_fld apc_hdr_s "mySeq" (htonl mySeq) m in
  let m := set_fld apc_hdr_s "yourSeq" (htonl yourSeq) m in
  set_fld apc_hdr_s "length" (htons length) m.

Definition overwrite (off : nat) (bs m : list Z) : list Z :=
  take off m ++ bs ++ drop (off + length bs) m.

Definition prepMsg (msg : list Z) (maxSize : nat) (type flags mySeq yourSeq : Z)
    (payload1 payload2 : list Z) : apc_error_t * nat * list Z :=
  let fullSize := (length payload1 + length payload2)%nat in
  let msgSize := (fullSize + sizeof apc_hdr_s)%nat in
  if (maxSize <? msgSize)%nat then (APC_ERR_SIZE, msgSize, msg)
  else
    let m := writeHdr msg type flags mySeq yourSeq (u16 (Z.of_nat fullSize)) in
    let m := overwrite (sizeof apc_hdr_s) payload1 m in
    let m := overwrite (sizeof apc_hdr_s + length payload1) payload2 m in
    let '(res, p) := convert HOST_TO_NET type (take fullSize (drop (sizeof apc_hdr_s) m)) in
    (res, msgSize, overwrite (sizeof apc_hdr_s) p m).

(** ** Receive side *)
Record CAPCSerializer : Set := mkSerializer {
  m_inpBuf : list Z;
  m_inpNumReceived : nat;
  m_inpNumExpected : nat
}.

Definition newCAPCSerializer (maxMsgSize : nat) : CAPCSerializer :=
  mkSerializer (replicate maxMsgSize 0) 0 (sizeof apc_hdr_s).

(** A message as [messageReceived] gets it, in host byte order. *)
Record rxmsg : Set := mkRxMsg {
  rx_type : Z;
  rx_flags : Z;
  rx_mySeq : Z;
  rx_yourSeq : Z;
  rx_payload : list Z
}.

(** The [memcpy] into [m_inpBuf], and the number of bytes it took. *)
Definition fillInpBuf_p (s : CAPCSerializer) (data : list Z) : option (CAPCSerializer * nat) :=
  let len := (m_inpNumExpected s - m_inpNumReceived s)%nat in
  let len := if (length data <? len)%nat then length data else len in
  if (m_inpNumReceived s + len <=? length (m_inpBuf s))%nat
  then Some (mkSerializer (overwrite (m_inpNumReceived s) (take len data) (m_inpBuf s))
                          (m_inpNumReceived s + len) (m_inpNumExpected s), len)
  else None.

Definition set_expected (s : CAPCSerializer) (n : nat) : CAPCSerializer :=
  mkSerializer (m_inpBuf s) (m_inpNumReceived s) n.
Definition set_buf (s : CAPCSerializer) (b : list Z) : CAPCSerializer :=
  mkSerializer b (m_inpNumReceived s) (m_inpNumExpected s).
Definition next_msg (s : CAPCSerializer) : CAPCSerializer :=
  mkSerializer (m_inpBuf s) 0 (sizeof apc_hdr_s).

Section Receive.
Context {H : Type} (messageReceived : rxmsg -> H -> H * apc_error_t).

(** A complete message: convert its payload in place and hand it over. *)
Definition deliver (s : CAPCSerializer) (h : H) : CAPCSerializer * H * apc_error_t :=
  let buf := m_inpBuf s in
  let size := (m_inpNumReceived s - sizeof apc_hdr_s)%nat in
  let type := fld apc_hdr_s "type" buf in
  let '(res, p) := convert NET_TO_HOST type (take size (drop (sizeof apc_hdr_s) buf)) in
  let buf := overwrite (sizeof apc_hdr_s) p buf in
  let '(h, res) :=
    if decide (res = APC_OK) then
      messageReceived (mkRxMsg type (fld apc_hdr_s "flags" buf)
                               (ntohl (fld apc_hdr_s "mySeq" buf))
                               (ntohl (fld apc_hdr_s "yourSeq" buf)) p) h
    else (h, res) in
  (next_msg (set_buf s buf), h, res).

(** The check made when the header has just been completed. *)
Definition checkHdr (s : CAPCSerializer) : CAPCSerializer * apc_error_t :=
  let s := set_expected s (m_inpNumExpected s
             + Z.to_nat (ntohs (fld apc_hdr_s "length" (m_inpBuf s))))%nat in
  if negb (fld apc_hdr_s "cookie" (m_inpBuf s) =? APC_COOKIE) then (s, APC_ERR_PROTOCOL)
  else if (length (m_inpBuf s) <? m_inpNumExpected s)%nat then (s, APC_ERR_SIZE)
  else (s, APC_OK).

(** The [while] loop; [n] bounds the number of iterations. *)
Fixpoint rxLoop (n : nat) (s : CAPCSerializer) (h : H) (data : list Z) (res : apc_error_t)
  : option (CAPCSerializer * H * apc_error_t) :=
  if (0 <? length data)%nat && bool_decide (res = APC_OK) then
    match n with
    | O => None
    | S n' =>
        '(s, l1) ← fillInpBuf_p s data;
        let data := drop l1 data in
        let '(s, e) :=
          if (m_inpNumReceived s =? sizeof apc_hdr_s)%nat then checkHdr s else (s, APC_OK) in
        if decide (e = APC_OK) then
          '(s, data) ←
            (if negb (m_inpNumExpected s =? m_inpNumReceived s)%nat && (0 <? length data)%nat
             then '(s, l2) ← fillInpBuf_p s data; Some (s, drop l2 data)
             else Some (s, data));
          let '(s, h, res) :=
            if (m_inpNumExpected s =? m_inpNumReceived s)%nat then deliver s h
            else (s, h, res) in
          rxLoop n' s h data res
        else Some (s, h, e)
    end
  else Some (s, h, res).

Definition dataReceived (s : CAPCSerializer) (h : H) (data : list Z)
  : option (CAPCSerializer * H * apc_error_t) :=
  rxLoop (length data) s h data APC_OK.

(** Reads arriving one after another, until the first error (the connector
    closes the connection then). *)
Fixpoint readsReceived (s : CAPCSerializer) (h : H) (reads : list (list Z))
  : option (CAPCSerializer * H * apc_error_t) :=
  match reads with
  | [] => Some (s, h, APC_OK)
  | d :: r =>
      '(s, h, res) ← dataReceived s h d;
      if decide (res = APC_OK) then readsReceived s h r else Some (s, h, res)
  end.

(** ** Reference: one byte at a time *)
Definition rxByte (s : CAPCSerializer) (h : H) (b : Z) : CAPCSerializer * H * apc_error_t :=
  let s := mkSerializer (<[m_inpNumReceived s := b]> (m_inpBuf s))
                        (S (m_inpNumReceived s)) (m_inpNumExpected s) in
  let '(s, e) :=
    if (m_inpNumReceived s =? sizeof apc_hdr_s)%nat then checkHdr s else (s, APC_OK) in
  if decide (e = APC_OK) then
    if (m_inpNumExpected s =? m_inpNumReceived s)%nat then deliver s h else (s, h, APC_OK)
  else (s, h, e).

Fixpoint rxBytes (s : CAPCSerializer) (h : H) (data : list Z)
  : CAPCSerializer * H * apc_error_t :=
  match data with
  | [] => (s, h, APC_OK)
  | b :: r =>
      let '(s, h, res) := rxByte s h b in
      if decide (res = APC_OK) then rxBytes s h r else (s, h, res)
  end.
End Receive.

(** Between two messages or inside one, with room for what is expected. *)
Definition ser_wf (s : CAPCSerializer) : Prop :=
  (m_inpNumReceived s < m_inpNumExpected s <= length (m_inpBuf s))%nat /\
  ((m_inpNumReceived s < sizeof apc_hdr_s)%nat -> m_inpNumExpected s = sizeof apc_hdr_s).

(** The serializer after the bytes [d] were copied in. *)
Definition filled (s : CAPCSerializer) (d : list Z) : CAPCSerializer :=
  mkSerializer (overwrite (m_inpNumReceived s) d (m_inpBuf s))
               (m_inpNumReceived s + length d) (m_inpNumExpected s).

(** ** Buffers *)
Lemma length_overwrite off bs m :
  (off + length bs <= length m)%nat -> length (overwrite off bs m) = length m.
Proof. intros. unfold overwrite. rewrite !length_app, length_take, length_drop. lia. Qed.

Lemma overwrite_nil off m : overwrite off [] m = m.
Proof. unfold overwrite. simpl. by rewrite Nat.add_0_r, take_drop. Qed.

Lemma overwrite_cons off b bs m :
  (off < length m)%nat -> overwrite off (b :: bs) m = overwrite (S off) bs (<[off := b]> m).
Proof.
  intros. unfold overwrite. simpl. rewrite drop_insert_lt by lia.
  rewrite (take_S_r _ off b) by (apply list_lookup_insert_eq; lia).
  rewrite take_insert_ge by lia. rewrite <- app_assoc. simpl. by rewrite Nat.add_succ_r.
Qed.

Lemma set_fld_length l f v p :
  (offsetof l f + widthof l f <= sizeof l)%nat -> (sizeof l <= length p)%nat ->
  length (set_fld l f v p) = length p.
Proof. intros. apply set_get_length. lia. Qed.

Lemma convert_length c t p : length (snd (convert c t p)) = length p.
Proof.
  unfold convert, bufferCast_p, conv_S, conv_L, conv_LL.
  repeat case_match; try done; cbn [snd];
    match goal with H : (_ <=? _)%nat = true |- _ => apply Nat.leb_le in H end;
    rewrite ?set_fld_length by (rewrite ?set_fld_length by (rewrite ?set_fld_length by
      (rewrite ?set_fld_length by (simpl in *; lia); simpl in *; lia); simpl in *; lia); simpl in *; lia);
    done.
Qed.

Lemma filled_wf s d :
  ser_wf s -> (m_inpNumReceived s + length d <= m_inpNumExpected s)%nat ->
  length (m_inpBuf (filled s d)) = length (m_inpBuf s).
Proof. intros [? _] ?. simpl. apply length_overwrite. lia. Qed.

Lemma fill_spec s data :
  ser_wf s ->
  fillInpBuf_p s data =
    let k := Nat.min (length data) (m_inpNumExpected s - m_inpNumReceived s) in
    Some (filled s (take k data), k).
Proof.
  intros [Hlt _]. unfold fillInpBuf_p. cbv zeta. unfold filled. rewrite length_take.
  replace (if (length data <? m_inpNumExpected s - m_inpNumReceived s)%nat then length data
           else (m_inpNumExpected s - m_inpNumReceived s)%nat)
    with (Nat.min (length data) (m_inpNumExpected s - m_inpNumReceived s))
    by (destruct (Nat.ltb_spec (length data) (m_inpNumExpected s - m_inpNumReceived s)); lia).
  destruct (Nat.leb_spec (m_inpNumReceived s + Nat.min (length data) (m_inpNumExpected s - m_inpNumReceived s))
     (length (m_inpBuf s))); [|lia].
  rewrite (Nat.min_l (Nat.min _ _)) by lia. done.
Qed.

Section ReceiveLemmas.
Context {H : Type} (messageReceived : rxmsg -> H -> H * apc_error_t).
Local Notation rxBytes := (rxBytes messageReceived).
Local Notation rxByte := (rxByte messageReceived).
Local Notation deliver := (deliver messageReceived).

Lemma rxBytes_cons (s : CAPCSerializer) (h : H) (b : Z) (r : list Z) :
  rxBytes s h (b :: r) = let '(s, h, res) := rxByte s h b in
    if decide (res = APC_OK) then rxBytes s h r else (s, h, res).
Proof. done. Qed.

Lemma rxBytes_app s h a b :
  rxBytes s h (a ++ b) =
    let '(s, h, res) := rxBytes s h a in
    if decide (res = APC_OK) then rxBytes s h b else (s, h, res).
Proof.
  revert s h; induction a as [|x a IH]; intros s h; [done|].
  cbn [app]. rewrite !rxBytes_cons. destruct (rxByte s h x) as [[s1 h1] res].
  case_decide as He; [apply IH|]. by rewrite decide_False.
Qed.

(** Bytes that stay below the expected length are only stored. *)
Lemma rxBytes_store s h d rest :
  ser_wf s -> (m_inpNumReceived s + length d < m_inpNumExpected s)%nat ->
  rxBytes s h (d ++ rest) = rxBytes (filled s d) h rest.
Proof.
  revert s; induction d as [|b d IH]; intros s Hwf Hlt.
  - unfold filled. simpl. rewrite Nat.add_0_r, overwrite_nil. by destruct s.
  - destruct Hwf as [Hr Hh]. simpl length in Hlt. cbn [app]. rewrite rxBytes_cons.
    unfold rxByte. cbn [m_inpNumReceived m_inpNumExpected m_inpBuf].
    assert (Hne : S (m_inpNumReceived s) <> sizeof apc_hdr_s).
    { intros E. assert (m_inpNumReceived s < sizeof apc_hdr_s)%nat as H1 by lia.
      apply Hh in H1. lia. }
    apply Nat.eqb_neq in Hne as ->. cbv beta iota. rewrite decide_True by done.
    cbn [m_inpNumReceived m_inpNumExpected].
    destruct (Nat.eqb_spec (m_inpNumExpected s) (S (m_inpNumReceived s))); [lia|].
    cbv beta iota. rewrite decide_True by done. rewrite IH.
    + f_equal. unfold filled; simpl. rewrite overwrite_cons by lia. by rewrite Nat.add_succ_r.
    + split; cbn [m_inpNumReceived m_inpNumExpected m_inpBuf]; [rewrite length_insert; lia|]. intros; apply Hh; lia.
    + simpl. lia.
Qed.

(** The bytes that complete what is expected. *)
Lemma rxBytes_complete s h d rest :
  ser_wf s -> (m_inpNumReceived s + length d = m_inpNumExpected s)%nat ->
  rxBytes s h (d ++ rest) =
    let '(s, e) :=
      if (m_inpNumExpected s =? sizeof apc_hdr_s)%nat then checkHdr (filled s d)
      else (filled s d, APC_OK) in
    if decide (e = APC_OK) then
      if (m_inpNumExpected s =? m_inpNumReceived s)%nat then
        let '(s, h, res) := deliver s h in
        if decide (res = APC_OK) then rxBytes s h rest else (s, h, res)
      else rxBytes s h rest
    else (s, h, e).
Proof.
  intros Hwf Heq. destruct (Hwf) as [Hr Hh].
  destruct d as [|b0 d0] using rev_ind; [simpl in Heq; lia|]. clear IHd0.
  rewrite length_app in Heq. simpl in Heq. rewrite <- app_assoc.
  rewrite rxBytes_store by (done || lia). cbn [app]. rewrite rxBytes_cons.
  unfold rxByte. cbn [filled m_inpNumReceived m_inpNumExpected m_inpBuf].
  assert (filled s (d0 ++ [b0]) =
    mkSerializer (<[(m_inpNumReceived s + length d0)%nat := b0]>
                    (overwrite (m_inpNumReceived s) d0 (m_inpBuf s)))
                 (S (m_inpNumReceived s + length d0)) (m_inpNumExpected s)) as <-.
  { unfold filled. rewrite length_app. simpl. f_equal; [|lia].
    unfold overwrite. rewrite length_app; simpl. rewrite !app_assoc.
    rewrite insert_app_r_alt by (rewrite length_app, length_take; lia).
    rewrite length_app, length_take, Nat.min_l, Nat.sub_diag by lia.
    rewrite <- app_assoc. f_equal.
    destruct (drop (m_inpNumReceived s + length d0) (m_inpBuf s)) as [|x l] eqn:E.
    { apply (f_equal length) in E. rewrite length_drop in E. simpl in E. lia. }
    simpl. f_equal. rewrite Nat.add_assoc, <- drop_drop, E. done. }
  assert (S (m_inpNumReceived s + length d0) = m_inpNumExpected s) as -> by lia.
  destruct (m_inpNumExpected s =? sizeof apc_hdr_s)%nat.
  - destruct (checkHdr _) as [s2 e]. case_decide; [|by rewrite decide_False].
    destruct (_ =? _)%nat; [done|]. by rewrite decide_True.
  - cbv beta iota. rewrite !(decide_True (P := APC_OK = APC_OK)) by done.
    destruct (_ =? _)%nat; [done|]. by rewrite decide_True.
Qed.

Lemma deliver_next s h :
  (sizeof apc_hdr_s <= m_inpNumReceived s <= length (m_inpBuf s))%nat ->
  exists buf, fst (fst (deliver s h)) = mkSerializer buf 0 (sizeof apc_hdr_s) /\
    length buf = length (m_inpBuf s).
Proof.
  intros H1. unfold deliver.
  match goal with |- context[convert ?c ?t ?p] =>
    pose proof (convert_length c t p) as Hl; destruct (convert c t p) as [res p'] end.
  cbn [snd] in Hl.
  match goal with |- context[let '(h, res) := ?x in _] => destruct x as [h' res'] end.
  eexists; split; [reflexivity|].
  apply length_overwrite. rewrite Hl, length_take, length_drop. lia.
Qed.

Lemma deliver_wf s h :
  (sizeof apc_hdr_s <= m_inpNumReceived s <= length (m_inpBuf s))%nat ->
  ser_wf (fst (fst (deliver s h))).
Proof.
  intros H1. destruct (deliver_next s h H1) as (buf & -> & Hl).
  split; cbn [m_inpBuf m_inpNumReceived m_inpNumExpected]; [|done].
  rewrite Hl. change (sizeof apc_hdr_s) with 16%nat in *. lia.
Qed.

Lemma checkHdr_wf s s' :
  (m_inpNumReceived s = sizeof apc_hdr_s)%nat -> m_inpNumExpected s = sizeof apc_hdr_s ->
  checkHdr s = (s', APC_OK) ->
  m_inpBuf s' = m_inpBuf s /\ m_inpNumReceived s' = m_inpNumReceived s /\
  (sizeof apc_hdr_s <= m_inpNumExpected s' <= length (m_inpBuf s))%nat.
Proof.
  intros Hr He. unfold checkHdr. case_match; [done|]. case_match eqn:E; [done|].
  intros [= <-]. apply Nat.ltb_ge in E.
  cbn [set_expected m_inpBuf m_inpNumReceived m_inpNumExpected] in *. split_and!; (done || lia).
Qed.

Lemma rxLoop_err n s h data res :
  res <> APC_OK -> rxLoop messageReceived n s h data res = Some (s, h, res).
Proof. intros. destruct n; cbn [rxLoop]; by rewrite bool_decide_false, andb_false_r. Qed.

(** The tail of an iteration, given that the following iterations are right. *)
Lemma rxLoop_deliver n s h rest :
  (forall s h data, ser_wf s -> (length data <= n)%nat ->
     rxLoop messageReceived n s h data APC_OK = Some (rxBytes s h data)) ->
  (length rest <= n)%nat ->
  (sizeof apc_hdr_s <= m_inpNumReceived s <= length (m_inpBuf s))%nat ->
  (let '(s, h, res) := deliver s h in rxLoop messageReceived n s h rest res) =
  Some (let '(s, h, res) := deliver s h in
        if decide (res = APC_OK) then rxBytes s h rest else (s, h, res)).
Proof.
  intros IH Hn Hr. pose proof (deliver_wf s h Hr) as Hwf.
  destruct (deliver s h) as [[s1 h1] res]. case_decide as He.
  - subst res. by apply IH.
  - by apply rxLoop_err.
Qed.

Lemma rxLoop_second n s h rest :
  (forall s h data, ser_wf s -> (length data <= n)%nat ->
     rxLoop messageReceived n s h data APC_OK = Some (rxBytes s h data)) ->
  (length rest <= n)%nat -> ser_wf s -> (sizeof apc_hdr_s <= m_inpNumReceived s)%nat ->
  ('(s, data) ←
     (if negb (m_inpNumExpected s =? m_inpNumReceived s)%nat && (0 <? length rest)%nat
      then '(s, l2) ← fillInpBuf_p s rest; Some (s, drop l2 rest)
      else Some (s, rest));
   let '(s, h, res) :=
     if (m_inpNumExpected s =? m_inpNumReceived s)%nat then deliver s h else (s, h, APC_OK) in
   rxLoop messageReceived n s h data res) = Some (rxBytes s h rest).
Proof.
  intros IH Hn Hwf H16. pose proof Hwf as [Hr _].
  assert (Hne : (m_inpNumExpected s =? m_inpNumReceived s)%nat = false) by (apply Nat.eqb_neq; lia).
  rewrite Hne. cbn [negb andb]. destruct (Nat.ltb_spec 0 (length rest)) as [Hpos|Hz].
  2: { cbn [mbind option_bind]. rewrite Hne. by apply IH. }
  rewrite fill_spec by done. cbn [mbind option_bind].
  destruct (decide (length rest < m_inpNumExpected s - m_inpNumReceived s)%nat) as [Hlt|Hge].
  - rewrite Nat.min_l, firstn_all, drop_all by lia.
    cbn [filled m_inpNumReceived m_inpNumExpected].
    assert ((m_inpNumExpected s =? m_inpNumReceived s + length rest)%nat = false) as ->
      by (apply Nat.eqb_neq; lia).
    replace (rxBytes s h rest) with (rxBytes s h (rest ++ [])) by by rewrite app_nil_r.
    rewrite rxBytes_store by (done || lia). by destruct n.
  - rewrite Nat.min_r by lia.
    set (k := (m_inpNumExpected s - m_inpNumReceived s)%nat) in *.
    assert (Hk : length (take k rest) = k) by (rewrite length_take; lia).
    replace (rxBytes s h rest) with (rxBytes s h (take k rest ++ drop k rest)) by by rewrite take_drop.
    rewrite rxBytes_complete by (done || lia).
    assert ((m_inpNumExpected s =? sizeof apc_hdr_s)%nat = false) as ->
      by (apply Nat.eqb_neq; lia).
    rewrite decide_True by done.
    assert (Hc : m_inpNumReceived (filled s (take k rest)) = m_inpNumExpected s)
      by (cbn [filled m_inpNumReceived]; lia).
    rewrite Hc. cbn [filled m_inpNumExpected]. rewrite Nat.eqb_refl.
    apply rxLoop_deliver; [done|rewrite length_drop; lia|].
    rewrite Hc, filled_wf by (done || lia). lia.
Qed.

(** The loop of the code is the byte-at-a-time reader. *)
Lemma rxLoop_bytes n s h data :
  ser_wf s -> (length data <= n)%nat ->
  rxLoop messageReceived n s h data APC_OK = Some (rxBytes s h data).
Proof.
  revert s h data; induction n as [|n IH]; intros s h data Hwf Hn.
  { by destruct data; [|simpl in Hn; lia]. }
  destruct data as [|b data]; [done|]. set (dat := b :: data) in *.
  assert (Hd : (0 < length dat)%nat) by (simpl; lia). clearbody dat. clear b data.
  cbn [rxLoop]. apply Nat.ltb_lt in Hd as Hd'. rewrite Hd', bool_decide_true by done.
  rewrite fill_spec by done. cbn [andb mbind option_bind].
  pose proof Hwf as [Hr Hh].
  destruct (decide (length dat < m_inpNumExpected s - m_inpNumReceived s)%nat) as [Hlt|Hge].
  - rewrite Nat.min_l, firstn_all, drop_all by lia.
    assert (H17 : (m_inpNumReceived (filled s dat) =? sizeof apc_hdr_s)%nat = false).
    { apply Nat.eqb_neq. cbn [filled m_inpNumReceived]. intros E.
      destruct (decide (m_inpNumReceived s < sizeof apc_hdr_s)%nat) as [H1|H1];
        [apply Hh in H1|]; lia. }
    rewrite H17, decide_True, andb_false_r by done. cbn [mbind option_bind].
    assert (Hne : (m_inpNumExpected (filled s dat) =? m_inpNumReceived (filled s dat))%nat = false).
    { apply Nat.eqb_neq. cbn [filled m_inpNumReceived m_inpNumExpected]. lia. }
    rewrite Hne. replace (rxBytes s h dat) with (rxBytes s h (dat ++ [])) by by rewrite app_nil_r.
    rewrite rxBytes_store by (done || lia).
    by destruct n.
  - rewrite Nat.min_r by lia.
    set (k := (m_inpNumExpected s - m_inpNumReceived s)%nat) in *.
    assert (Hk : length (take k dat) = k) by (rewrite length_take; lia).
    replace (rxBytes s h dat) with (rxBytes s h (take k dat ++ drop k dat)) by by rewrite take_drop.
    rewrite rxBytes_complete by (done || lia).
    set (f := filled s (take k dat)).
    assert (Hfl : length (m_inpBuf f) = length (m_inpBuf s)) by (apply filled_wf; [done|lia]).
    assert (Hfr : m_inpNumReceived f = m_inpNumExpected s) by (cbn [f filled m_inpNumReceived]; lia).
    assert (Hfe : m_inpNumExpected f = m_inpNumExpected s) by done.
    rewrite Hfr. clearbody f. set (rest := drop k dat).
    assert (Hrest : (length rest <= n)%nat) by (unfold rest; rewrite length_drop; lia).
    clearbody rest.
    destruct (Nat.eqb_spec (m_inpNumExpected s) (sizeof apc_hdr_s)) as [He|He].
    + destruct (checkHdr f) as [f2 e] eqn:Hc. case_decide as Hok; [subst e|done].
      apply checkHdr_wf in Hc as (Hb & Hr2 & He2); [|congruence..].
      destruct (Nat.eqb_spec (m_inpNumExpected f2) (m_inpNumReceived f2)) as [E|E].
      * cbn [negb andb mbind option_bind]. rewrite E, Nat.eqb_refl. apply rxLoop_deliver; [done|done|]. rewrite Hb. lia.
      * pose proof (rxLoop_second n f2 h rest IH Hrest) as Hs.
        apply Nat.eqb_neq in E as E'. rewrite E' in Hs. apply Hs; [|lia].
        split; [rewrite Hb; lia|]. lia.
    + rewrite decide_True by done. rewrite Hfe, Hfr, Nat.eqb_refl.
      cbn [negb andb mbind option_bind]. rewrite Hfe, Hfr, Nat.eqb_refl.
      rewrite decide_True by done.
      apply rxLoop_deliver; [done|done|]. rewrite Hfr, Hfl.
      destruct (decide (m_inpNumReceived s < sizeof apc_hdr_s)%nat) as [H1|H1];
        [by apply Hh in H1|]. lia.
Qed.
End ReceiveLemmas.

(** ** Conversion as byte reversals *)

(** Multi-byte fields of the messages that are converted, with the message size. *)
Definition swapped (t : Z) : option (nat * list (nat * nat)) :=
  if t =? APC_NET_TX then Some (12, [(1, 2); (5, 4); (10, 2)])%nat
  else if t =? APC_NET_TXDONE then Some (3, [(0, 2)])%nat
  else if t =? APC_TIME_MAP then Some (22, [(0, 8); (8, 4); (12, 8); (20, 2)])%nat
  else if t =? APC_CONNECT then Some (126, [(1, 4); (37, 4); (42, 4)])%nat
  else None.

Definition rev_segs (l : list (nat * nat)) (p : list Z) : list Z :=
  foldl (fun p s => rev_seg (fst s) (snd s) p) p l.

(** The segments are disjoint, in increasing order, and end before [n]. *)
Fixpoint segs_ok (from n : nat) (l : list (nat * nat)) : bool :=
  match l with
  | [] => (from <=? n)%nat
  | (o, k) :: r => (from <=? o)%nat && segs_ok (o + k) n r
  end.

Lemma segs_ok_le from n l : segs_ok from n l = true -> (from <= n)%nat.
Proof.
  revert from; induction l as [|[o k] r IH]; intros from; simpl.
  - apply Nat.leb_le.
  - intros [H1%Nat.leb_le H2%IH]%andb_true_iff. lia.
Qed.

Lemma length_rev_segs l p : length (rev_segs l p) = length p.
Proof.
  revert p; induction l as [|[o k] r IH]; intros p; simpl; [done|]. by rewrite IH, length_rev_seg.
Qed.

Lemma rev_segs_comm from n o k l p :
  segs_ok from n l = true -> (o + k <= from)%nat -> (n <= length p)%nat ->
  rev_segs l (rev_seg o k p) = rev_seg o k (rev_segs l p).
Proof.
  revert from p; induction l as [|[o' k'] r IH]; intros from p; simpl; [done|].
  intros [H1%Nat.leb_le H2]%andb_true_iff Ho Hp. apply segs_ok_le in H2 as H3.
  rewrite (rev_seg_comm o' k') by lia.
  apply (IH (o' + k')%nat); [done|lia|]. rewrite length_rev_seg; lia.
Qed.

Lemma rev_segs_involutive from n l p :
  segs_ok from n l = true -> (n <= length p)%nat -> rev_segs l (rev_segs l p) = p.
Proof.
  revert from p; induction l as [|[o k] r IH]; intros from p; simpl; [done|].
  intros [H1%Nat.leb_le H2]%andb_true_iff Hp. apply segs_ok_le in H2 as H3.
  rewrite <- (rev_segs_comm (o + k) n o k r) by
    (done || lia || (rewrite ?length_rev_seg; lia)).
  rewrite rev_seg_involutive by lia. by apply (IH (o + k)%nat).
Qed.

Lemma rev_segs_bytes l p : Forall is_byte p -> Forall is_byte (rev_segs l p).
Proof.
  revert p; induction l; intros; simpl; [done|]. by apply IHl, rev_seg_bytes.
Qed.

Lemma conv_S_rev c l f o p :
  offsetof l f = o -> widthof l f = 2%nat -> Forall is_byte p -> (o + 2 <= length p)%nat ->
  conv_S c l f p = rev_seg o 2 p.
Proof.
  intros Ho Hw Hb Hl. unfold conv_S, set_fld, fld. rewrite Ho, Hw.
  rewrite <- set_bswap by done. by destruct c.
Qed.
Lemma conv_L_rev c l f o p :
  offsetof l f = o -> widthof l f = 4%nat -> Forall is_byte p -> (o + 4 <= length p)%nat ->
  conv_L c l f p = rev_seg o 4 p.
Proof.
  intros Ho Hw Hb Hl. unfold conv_L, set_fld, fld. rewrite Ho, Hw.
  rewrite <- set_bswap by done. by destruct c.
Qed.
Lemma conv_LL_rev c l f o p :
  offsetof l f = o -> widthof l f = 8%nat -> Forall is_byte p -> (o + 8 <= length p)%nat ->
  conv_LL c l f p = rev_seg o 8 p.
Proof.
  intros Ho Hw Hb Hl. unfold conv_LL, set_fld, fld. rewrite Ho, Hw.
  rewrite <- set_bswap by done. do 2 f_equal.
  unfold CONVERT_LL, ntohll. pose proof (get_field_range o 8 p Hb Hl) as Hr.
  destruct c; simpl decide; apply htonll_bswap; exact Hr.
Qed.

Ltac seg_side := rewrite ?length_rev_seg; first [done | lia | repeat apply rev_seg_bytes; done].

Lemma convert_swapped c t p :
  Forall is_byte p ->
  convert c t p =
    match swapped t with
    | Some (n, l) => if (n <=? length p)%nat then (APC_OK, rev_segs l p) else (APC_ERR_SIZE, p)
    | None => (APC_OK, p)
    end.
Proof.
  intros Hb. unfold convert, swapped, bufferCast_p.
  change (sizeof apc_msg_net_tx_s) with 12%nat. change (sizeof apc_msg_net_txdone_s) with 3%nat.
  change (sizeof apc_msg_timemap_s) with 22%nat. change (sizeof apc_msg_connect_s) with 126%nat.
  unfold rev_segs.
  destruct (t =? APC_NET_TX).
  { destruct (Nat.leb_spec 12 (length p)); [|done]. cbn [foldl fst snd].
    rewrite (conv_S_rev c _ "txDoneId" 1 p), (conv_L_rev c _ _ 5), (conv_S_rev c _ "dst" 10) by seg_side. done. }
  destruct (t =? APC_NET_TXDONE).
  { destruct (Nat.leb_spec 3 (length p)); [|done]. cbn [foldl fst snd].
    rewrite (conv_S_rev c _ _ 0 p) by seg_side. done. }
  destruct (t =? APC_TIME_MAP).
  { destruct (Nat.leb_spec 22 (length p)); [|done]. cbn [foldl fst snd].
    rewrite (conv_LL_rev c _ "utcSeconds" 0 p), (conv_L_rev c _ _ 8), (conv_LL_rev c _ "asn" 12),
      (conv_S_rev c _ _ 20) by seg_side. done. }
  destruct (t =? APC_CONNECT); [|done].
  destruct (Nat.leb_spec 126 (length p)); [|done]. cbn [foldl fst snd].
  rewrite (conv_L_rev c _ "flags" 1 p), (conv_L_rev c _ "sesId" 37), (conv_L_rev c _ "netId" 42)
    by seg_side. done.
Qed.

Lemma swapped_ok t n l : swapped t = Some (n, l) -> segs_ok 0 n l = true.
Proof. unfold swapped. repeat case_match; intros; simplify_eq; done. Qed.

Lemma convert_back c c' t p p' :
  Forall is_byte p -> convert c t p = (APC_OK, p') -> convert c' t p' = (APC_OK, p).
Proof.
  intros Hb. rewrite convert_swapped by done. intros Hc.
  destruct (swapped t) as [[n l]|] eqn:Es.
  - destruct (Nat.leb_spec n (length p)); [|done]. injection Hc as <-.
    rewrite convert_swapped, Es, length_rev_segs by auto using rev_segs_bytes.
    destruct (Nat.leb_spec n (length p)); [|lia].
    by rewrite (rev_segs_involutive 0 n) by eauto using swapped_ok.
  - injection Hc as <-. by rewrite convert_swapped, Es.
Qed.

(** ** The message built by [prepMsg] *)
Lemma overwrite_adjacent off a b m :
  (off + length a + length b <= length m)%nat ->
  overwrite (off + length a) b (overwrite off a m) = overwrite off (a ++ b) m.
Proof.
  intros Hl. unfold overwrite.
  rewrite (app_assoc (take off m)), take_app_length' by (rewrite length_app, length_take; lia).
  rewrite drop_app_ge by (rewrite length_app, length_take; lia).
  rewrite drop_drop, <- !app_assoc. do 3 f_equal. f_equal.
  rewrite !length_app, length_take. lia.
Qed.

Lemma overwrite_twice off a b m :
  length a = length b -> (off + length a <= length m)%nat ->
  overwrite off b (overwrite off a m) = overwrite off b m.
Proof.
  intros He Hl. unfold overwrite.
  rewrite take_app_length' by (rewrite length_take; lia). do 2 f_equal.
  rewrite app_assoc, drop_app_length'; [by rewrite He|]. rewrite length_app, length_take. lia.
Qed.

Lemma take_drop_overwrite off a m :
  (off + length a <= length m)%nat -> take (length a) (drop off (overwrite off a m)) = a.
Proof.
  intros Hl. unfold overwrite. rewrite drop_app_length' by (rewrite length_take; lia).
  by rewrite take_app_length.
Qed.

Lemma writeHdr_length msg t f ms ys l :
  (16 <= length msg)%nat -> length (writeHdr msg t f ms ys l) = length msg.
Proof.
  intros. unfold writeHdr. cbv zeta. unfold set_fld, apc_hdr_s, offsetof, widthof; simpl String.eqb.
  cbv iota. fieldlen.
Qed.

Lemma writeHdr_fields msg t f ms ys l :
  (16 <= length msg)%nat -> 0 <= t < 256 -> 0 <= f < 256 ->
  0 <= ms < 2 ^ 32 -> 0 <= ys < 2 ^ 32 -> 0 <= l < 2 ^ 16 ->
  let m := writeHdr msg t f ms ys l in
  fld apc_hdr_s "cookie" m = APC_COOKIE /\ fld apc_hdr_s "flags" m = f /\
  fld apc_hdr_s "type" m = t /\ fld apc_hdr_s "mySeq" m = htonl ms /\
  fld apc_hdr_s "yourSeq" m = htonl ys /\ fld apc_hdr_s "length" m = htons l.
Proof.
  intros Hm Ht Hf Hms Hys Hl m.
  pose proof (bswap_range 4 ms) as H1. pose proof (bswap_range 4 ys) as H2.
  pose proof (bswap_range 2 l) as H3. simpl Z.pow in H1, H2, H3.
  unfold m, writeHdr. cbv zeta. unfold fld, set_fld, apc_hdr_s, offsetof, widthof; simpl String.eqb.
  cbv iota. unfold htonl, htons.
  split_and!; repeat rewrite get_set_other by (lia || fieldlen);
    rewrite get_set_same by fieldlen; apply Z.mod_small; simpl Z.pow; unfold APC_COOKIE; lia.
Qed.

Lemma prepMsg_shape msg maxSize t f ms ys p1 p2 p' :
  (maxSize <= length msg)%nat -> (length p1 + length p2 + 16 <= maxSize)%nat ->
  convert HOST_TO_NET t (p1 ++ p2) = (APC_OK, p') ->
  exists hdr rest,
    hdr = take 16 (writeHdr msg t f ms ys (u16 (Z.of_nat (length p1 + length p2)))) /\
    prepMsg msg maxSize t f ms ys p1 p2 =
    (APC_OK, (length p1 + length p2 + 16)%nat, hdr ++ p' ++ rest) /\
    length rest = (length msg - (length p1 + length p2 + 16))%nat.
Proof.
  intros Hm Hn Hc. unfold prepMsg. cbv zeta. change (sizeof apc_hdr_s) with 16%nat.
  destruct (Nat.ltb_spec maxSize (length p1 + length p2 + 16)); [lia|].
  set (m0 := writeHdr _ _ _ _ _ _).
  assert (Hl : length m0 = length msg) by (apply writeHdr_length; lia). clearbody m0.
  rewrite overwrite_adjacent by lia. rewrite <- length_app, take_drop_overwrite by
    (rewrite length_app; lia).
  pose proof (convert_length HOST_TO_NET t (p1 ++ p2)) as Hl'. rewrite Hc in *. cbn [snd] in Hl'.
  rewrite overwrite_twice by (rewrite ?length_app in *; lia).
  do 2 eexists. unfold overwrite at 1. split; [reflexivity|]. split; [by rewrite length_app|].
  rewrite length_drop, Hl, Hl', length_app. lia.
Qed.

Section RoundTrip.
Context {H : Type} (messageReceived : rxmsg -> H -> H * apc_error_t).

(** A complete message in the buffer. *)
Lemma deliver_msg s h hdr p p' t f ms ys rest :
  m_inpBuf s = hdr ++ p' ++ rest -> length hdr = 16%nat ->
  m_inpNumReceived s = (16 + length p')%nat ->
  fld apc_hdr_s "type" hdr = t -> fld apc_hdr_s "flags" hdr = f ->
  ntohl (fld apc_hdr_s "mySeq" hdr) = ms -> ntohl (fld apc_hdr_s "yourSeq" hdr) = ys ->
  convert NET_TO_HOST t p' = (APC_OK, p) ->
  deliver messageReceived s h =
    (mkSerializer (hdr ++ p ++ rest) 0 16,
     fst (messageReceived (mkRxMsg t f ms ys p) h),
     snd (messageReceived (mkRxMsg t f ms ys p) h)).
Proof.
  intros Hb Hh Hr Ht Hf Hms Hys Hc.
  assert (Hfld : forall b fl, (offsetof apc_hdr_s fl + widthof apc_hdr_s fl <= 16)%nat ->
            fld apc_hdr_s fl (hdr ++ b) = fld apc_hdr_s fl hdr)
    by (intros; unfold fld; apply get_field_app; lia).
  unfold deliver. cbv zeta. change (sizeof apc_hdr_s) with 16%nat. rewrite Hb, Hr.
  rewrite (Hfld _ "type") by (simpl; lia). rewrite Ht.
  rewrite drop_app_length' by done. replace (16 + length p' - 16)%nat with (length p') by lia.
  rewrite take_app_length, Hc, decide_True by done.
  pose proof (convert_length NET_TO_HOST t p') as Hl. rewrite Hc in Hl. cbn [snd] in Hl.
  assert (overwrite 16 p (hdr ++ p' ++ rest) = hdr ++ p ++ rest) as ->.
  { unfold overwrite. rewrite take_app_length' by done. do 2 f_equal.
    rewrite app_assoc, drop_app_length'; [done|]. rewrite length_app. lia. }
  rewrite !Hfld by (simpl; lia). rewrite Hf, Hms, Hys.
  by destruct (messageReceived _ h).
Qed.

Lemma rxBytes_message s h hdr p p' t f ms ys :
  m_inpNumReceived s = 0%nat -> m_inpNumExpected s = 16%nat ->
  (16 + length p' <= length (m_inpBuf s))%nat -> length hdr = 16%nat ->
  fld apc_hdr_s "cookie" hdr = APC_COOKIE ->
  ntohs (fld apc_hdr_s "length" hdr) = Z.of_nat (length p') ->
  fld apc_hdr_s "type" hdr = t -> fld apc_hdr_s "flags" hdr = f ->
  ntohl (fld apc_hdr_s "mySeq" hdr) = ms -> ntohl (fld apc_hdr_s "yourSeq" hdr) = ys ->
  convert NET_TO_HOST t p' = (APC_OK, p) ->
  rxBytes messageReceived s h (hdr ++ p') =
    (mkSerializer (hdr ++ p ++ drop (16 + length p') (m_inpBuf s)) 0 16,
     fst (messageReceived (mkRxMsg t f ms ys p) h),
     snd (messageReceived (mkRxMsg t f ms ys p) h)).
Proof.
  intros Hr He Hcap Hh Hck Hlen Ht Hf Hms Hys Hc.
  assert (Hwf : ser_wf s) by (split; [lia|done]).
  rewrite rxBytes_complete by (done || lia). rewrite He. change (16 =? sizeof apc_hdr_s)%nat with true.
  cbv iota. set (s1 := filled s hdr).
  assert (Hb1 : m_inpBuf s1 = hdr ++ drop 16 (m_inpBuf s))
    by (cbn [s1 filled m_inpBuf]; unfold overwrite; by rewrite Hr, Hh).
  assert (Hr1 : m_inpNumReceived s1 = 16%nat) by (cbn [s1 filled m_inpNumReceived]; lia).
  assert (He1 : m_inpNumExpected s1 = 16%nat) by done. clearbody s1.
  assert (Hl1 : length (m_inpBuf s1) = length (m_inpBuf s))
    by (rewrite Hb1, length_app, length_drop; lia).
  unfold checkHdr. cbv zeta. cbn [set_expected m_inpBuf m_inpNumExpected].
  assert (Hfld : forall fl, (offsetof apc_hdr_s fl + widthof apc_hdr_s fl <= 16)%nat ->
            fld apc_hdr_s fl (m_inpBuf s1) = fld apc_hdr_s fl hdr)
    by (intros; rewrite Hb1; unfold fld; apply get_field_app; lia).
  rewrite !Hfld by (simpl; lia). rewrite Hck, Hlen, He1, Z.eqb_refl. cbn [negb].
  rewrite Nat2Z.id. destruct (Nat.ltb_spec (length (m_inpBuf s1)) (16 + length p')); [lia|].
  rewrite decide_True by done. cbn [set_expected m_inpNumExpected m_inpNumReceived]. rewrite Hr1.
  destruct p' as [|b r] eqn:Ep.
  - cbn [length Nat.add Nat.eqb].
    rewrite (deliver_msg _ h hdr p [] t f ms ys (drop 16 (m_inpBuf s)))
      by (cbn [set_expected m_inpBuf m_inpNumReceived length]; (done || lia)).
    by destruct (messageReceived _ h) as [h' []].
  - rewrite <- Ep in *. assert (0 < length p')%nat by (rewrite Ep; simpl; lia). clear Ep b r.
    destruct (Nat.eqb_spec (16 + length p') 16); [lia|].
    rewrite <- (app_nil_r p') at 2. 
    set (s2 := set_expected s1 (16 + length p')).
    assert (Hwf2 : ser_wf s2).
    { split; cbn [s2 set_expected m_inpNumReceived m_inpNumExpected m_inpBuf]; [lia|].
      rewrite Hr1. change (sizeof apc_hdr_s) with 16%nat. lia. }
    rewrite rxBytes_complete by
      (done || (cbn [s2 set_expected m_inpNumReceived m_inpNumExpected]; lia)).
    cbn [s2 set_expected m_inpNumExpected]. change (sizeof apc_hdr_s) with 16%nat.
    destruct (Nat.eqb_spec (16 + length p') 16); [lia|]. rewrite decide_True by done.
    assert (Hr3 : m_inpNumReceived (filled s2 p') = (16 + length p')%nat)
      by (cbn [filled s2 set_expected m_inpNumReceived]; lia).
    rewrite Hr3, Nat.eqb_refl.
    rewrite (deliver_msg _ h hdr p p' t f ms ys (drop (16 + length p') (m_inpBuf s))).
    + by destruct (messageReceived _ h) as [h' []].
    + cbn [filled s2 set_expected m_inpBuf m_inpNumReceived]. unfold overwrite.
      rewrite Hr1, Hb1, take_app_length' by done. do 2 f_equal.
      rewrite drop_app_ge, drop_drop by lia. f_equal. lia.
    + done.
    + cbn [filled s2 set_expected m_inpNumReceived]. lia.
    + done.
    + done.
    + done.
    + done.
    + done.
Qed.
End RoundTrip.

Section WellFormed.
Context {H : Type} (messageReceived : rxmsg -> H -> H * apc_error_t).

Lemma rxBytes_one_wf s h b s' h' :
  ser_wf s -> rxBytes messageReceived s h [b] = (s', h', APC_OK) ->
  ser_wf s' /\ length (m_inpBuf s') = length (m_inpBuf s).
Proof.
  intros Hwf. pose proof Hwf as [Hr Hh].
  assert (Hcases : (m_inpNumReceived s + length [b] < m_inpNumExpected s)%nat \/
                   (m_inpNumReceived s + length [b] = m_inpNumExpected s)%nat) by (simpl; lia).
  assert (Hfl : length (m_inpBuf (filled s [b])) = length (m_inpBuf s)) by (apply filled_wf; [done|lia]).
  rewrite <- (app_nil_r [b]).
  destruct Hcases as [Hlt|Heq].
  - rewrite rxBytes_store by done. intros [= <- <-]. split; [|done].
    split; [rewrite Hfl|]; cbn [filled m_inpNumReceived m_inpNumExpected]; [lia|].
    intros; apply Hh; lia.
  - rewrite rxBytes_complete by done.
    assert (Hfr : m_inpNumReceived (filled s [b]) = m_inpNumExpected s)
      by (cbn [filled m_inpNumReceived]; lia).
    assert (Hdel : forall f s' h', (sizeof apc_hdr_s <= m_inpNumReceived f <= length (m_inpBuf f))%nat ->
      (let '(s, h, res) := deliver messageReceived f h in
        if decide (res = APC_OK) then rxBytes messageReceived s h [] else (s, h, res))
        = (s', h', APC_OK) -> ser_wf s' /\ length (m_inpBuf s') = length (m_inpBuf f)).
    { intros f s1 h1 Hf. pose proof (deliver_wf messageReceived f h Hf) as Hw.
      destruct (deliver_next messageReceived f h Hf) as (buf & Hb & Hbl).
      destruct (deliver messageReceived f h) as [[s2 h2] res]. cbn [fst] in *.
      case_decide; intros [= <- <-]; [|done]. by subst s2. }
    destruct (Nat.eqb_spec (m_inpNumExpected s) (sizeof apc_hdr_s)) as [He|He].
    + destruct (checkHdr (filled s [b])) as [f2 e] eqn:Hc.
      case_decide as Hok; [subst e|by intros [= _ _ ?]].
      apply checkHdr_wf in Hc as (Hb & Hr2 & He2); [|congruence|done].
      destruct (Nat.eqb_spec (m_inpNumExpected f2) (m_inpNumReceived f2)) as [E|E].
      * intros Hd. rewrite <- Hfl, <- Hb. eapply Hdel; [|exact Hd]. rewrite Hb. lia.
      * intros [= <- <-]. rewrite Hb. split; [|done]. split; [rewrite Hb|]; lia.
    + rewrite decide_True by done.
      replace (m_inpNumExpected (filled s [b])) with (m_inpNumReceived (filled s [b])) by done.
      rewrite Nat.eqb_refl. intros Hd. rewrite <- Hfl. eapply Hdel; [|exact Hd].
      rewrite Hfr, Hfl.
      destruct (decide (m_inpNumReceived s < sizeof apc_hdr_s)%nat) as [H1|H1];
        [by apply Hh in H1|]. simpl length in *. lia.
Qed.

Lemma rxBytes_wf data s h s' h' :
  ser_wf s -> rxBytes messageReceived s h data = (s', h', APC_OK) ->
  ser_wf s' /\ length (m_inpBuf s') = length (m_inpBuf s).
Proof.
  revert s h; induction data as [|b r IH]; intros s h Hwf; [by intros [= <- <-]|].
  change (b :: r) with ([b] ++ r). rewrite rxBytes_app.
  destruct (rxBytes messageReceived s h [b]) as [[s1 h1] res] eqn:E.
  case_decide as Hok; [subst res|by intros [= _ _ ?]].
  apply rxBytes_one_wf in E as [Hw Hl]; [|done]. intros Hr.
  apply IH in Hr as [? ?]; [|done]. by split; [|congruence].
Qed.

Lemma readsReceived_bytes reads s h :
  ser_wf s -> readsReceived messageReceived s h reads = Some (rxBytes messageReceived s h (concat reads)).
Proof.
  revert s h; induction reads as [|d r IH]; intros s h Hwf; [done|].
  cbn [readsReceived concat]. rewrite rxBytes_app.
  assert (dataReceived messageReceived s h d = Some (rxBytes messageReceived s h d)) as ->
    by (by apply rxLoop_bytes).
  cbn [mbind option_bind].
  destruct (rxBytes messageReceived s h d) as [[s1 h1] res] eqn:E.
  case_decide as Hok; [subst res|done]. apply rxBytes_wf in E as [Hw _]; [|done].
  by apply IH.
Qed.
End WellFormed.

(** A property of the handler's state that every message keeps is kept. *)
Lemma deliver_handler {H} (mr : rxmsg -> H -> H * apc_error_t) (Q : H -> Prop) s h :
  (forall m h, Q h -> Q (fst (mr m h))) -> Q h -> Q (snd (fst (deliver mr s h))).
Proof.
  intros Hmr Hq. unfold deliver. destruct (convert _ _ _) as [res p]. case_decide; [|done].
  specialize (Hmr (mkRxMsg (fld apc_hdr_s "type" (m_inpBuf s))
    (fld apc_hdr_s "flags" (overwrite (sizeof apc_hdr_s) p (m_inpBuf s)))
    (ntohl (fld apc_hdr_s "mySeq" (overwrite (sizeof apc_hdr_s) p (m_inpBuf s))))
    (ntohl (fld apc_hdr_s "yourSeq" (overwrite (sizeof apc_hdr_s) p (m_inpBuf s)))) p) h Hq).
  by destruct (mr _ h).
Qed.

Lemma rxLoop_handler {H} (mr : rxmsg -> H -> H * apc_error_t) (Q : H -> Prop) n s h data res s' h' res' :
  (forall m h, Q h -> Q (fst (mr m h))) -> Q h ->
  rxLoop mr n s h data res = Some (s', h', res') -> Q h'.
Proof.
  intros Hmr. revert s h data res; induction n as [|n IH]; intros s h data res Hq; cbn [rxLoop];
    (destruct (_ && _); [|by intros [= _ <- _]]); [done|].
  destruct (fillInpBuf_p s data) as [[s1 l1]|]; [|done]. cbn [mbind option_bind].
  destruct (if (_ =? _)%nat then checkHdr s1 else _) as [s2 e].
  case_decide; [|by intros [= _ <- _]].
  match goal with |- (?x ≫= _) = _ -> _ => destruct x as [[s3 d3]|]; [|done] end.
  cbn [mbind option_bind]. destruct (_ =? _)%nat.
  - pose proof (deliver_handler mr Q s3 h Hmr Hq) as Hd.
    destruct (deliver mr s3 h) as [[s4 h4] r4]. by apply IH.
  - by apply IH.
Qed.

Lemma newCAPCSerializer_wf n : (16 <= n)%nat -> ser_wf (newCAPCSerializer n).
Proof. intros. split; cbn; [rewrite length_replicate|]; change (sizeof apc_hdr_s) with 16%nat; lia. Qed.

(** ** Properties *)

(** What [prepMsg] writes, [dataReceived] reads. *)
Lemma prepMsg_received {H} (mr : rxmsg -> H -> H * apc_error_t)
    s h msg maxSize t f ms ys p1 p2 n m :
  ser_wf s -> m_inpNumReceived s = 0%nat -> (maxSize <= length (m_inpBuf s))%nat ->
  (maxSize <= length msg)%nat -> Z.of_nat maxSize < 65536 ->
  is_byte t -> is_byte f -> 0 <= ms < 2 ^ 32 -> 0 <= ys < 2 ^ 32 ->
  Forall is_byte p1 -> Forall is_byte p2 ->
  prepMsg msg maxSize t f ms ys p1 p2 = (APC_OK, n, m) ->
  exists s', dataReceived mr s h (take n m) =
    Some (s', fst (mr (mkRxMsg t f ms ys (p1 ++ p2)) h), snd (mr (mkRxMsg t f ms ys (p1 ++ p2)) h)) /\
    m_inpNumReceived s' = 0%nat.
Proof.
  intros Hwf Hr Hcap Hmsg Hmax Ht Hf Hms Hys Hp1 Hp2 Hprep.
  assert (Hb : Forall is_byte (p1 ++ p2)) by by apply Forall_app.
  assert (Hfit : (length p1 + length p2 + 16 <= maxSize)%nat).
  { revert Hprep. unfold prepMsg. cbv zeta. change (sizeof apc_hdr_s) with 16%nat.
    destruct (Nat.ltb_spec maxSize (length p1 + length p2 + 16)); [by intros [= ? _ _]|lia]. }
  destruct (convert HOST_TO_NET t (p1 ++ p2)) as [e p'] eqn:Hc.
  assert (e = APC_OK) as ->.
  { revert Hprep. unfold prepMsg. cbv zeta. change (sizeof apc_hdr_s) with 16%nat.
    destruct (Nat.ltb_spec maxSize (length p1 + length p2 + 16)); [lia|].
    rewrite overwrite_adjacent by (rewrite writeHdr_length; lia).
    rewrite <- length_app, take_drop_overwrite by (rewrite writeHdr_length, length_app; lia).
    rewrite Hc. by intros [= ? _ _]. }
  destruct (prepMsg_shape msg maxSize t f ms ys p1 p2 p' Hmsg Hfit Hc) as (hdr & rest & Hh & Hp & _).
  rewrite Hp in Hprep. injection Hprep as <- <-.
  pose proof (convert_length HOST_TO_NET t (p1 ++ p2)) as Hl. rewrite Hc, length_app in Hl. cbn [snd] in Hl.
  set (l := u16 (Z.of_nat (length p1 + length p2))) in *. assert (Hlv : l = Z.of_nat (length p')) by (unfold l; rewrite u16_small; lia).
  pose proof (writeHdr_fields msg t f ms ys l) as Hw. cbv zeta in Hw.
  unfold is_byte in Ht, Hf.
  destruct Hw as (Hw1 & Hw2 & Hw3 & Hw4 & Hw5 & Hw6); try lia.
  pose proof (writeHdr_length msg t f ms ys l) as Hwl.
  set (m0 := writeHdr _ _ _ _ _ _) in *. clearbody l m0.
  assert (H16 : length hdr = 16%nat) by (rewrite Hh, length_take; lia).
  rewrite app_assoc, take_app_length' by (rewrite length_app; lia).
  assert (Hfld : forall fl, (offsetof apc_hdr_s fl + widthof apc_hdr_s fl <= 16)%nat ->
            fld apc_hdr_s fl hdr = fld apc_hdr_s fl m0).
  { intros. unfold fld. rewrite <- (take_drop 16 m0), <- Hh. by rewrite get_field_app by lia. }
  unfold dataReceived. rewrite rxLoop_bytes by done.
  rewrite (rxBytes_message mr s h hdr (p1 ++ p2) p' t f ms ys); rewrite ?Hfld by (simpl; lia).
  - eexists; split; [reflexivity|done].
  - done.
  - destruct Hwf as [_ Hh2]. rewrite Hh2; [done|]. rewrite Hr. simpl. lia.
  - lia.
  - done.
  - done.
  - rewrite Hw6, <- Hlv. apply (bswap_involutive 2). simpl. lia.
  - done.
  - done.
  - rewrite Hw4. apply (bswap_involutive 4). simpl Z.pow in *. lia.
  - rewrite Hw5. apply (bswap_involutive 4). simpl Z.pow in *. lia.
  - by eapply convert_back.
Qed.

(** C20: memory safety and termination of the receive loop. For any handler and
    any bytes, [dataReceived] on a well-formed serializer ends, never writes
    outside its buffer, and unless it reports an error (after which the connector
    closes) leaves a well-formed serializer with the same buffer size. *)
Theorem dataReceived_safe {H} (mr : rxmsg -> H -> H * apc_error_t) s h data :
  ser_wf s ->
  exists s' h' res, dataReceived mr s h data = Some (s', h', res) /\
    (res = APC_OK -> ser_wf s' /\ length (m_inpBuf s') = length (m_inpBuf s)).
Proof.
  intros Hwf. unfold dataReceived. rewrite rxLoop_bytes by done.
  destruct (rxBytes mr s h data) as [[s' h'] res] eqn:E. exists s', h', res. split; [done|].
  intros ->. by eapply rxBytes_wf.
Qed.

Definition collect (m : rxmsg) (h : list rxmsg) : list rxmsg * apc_error_t := (h ++ [m], APC_OK).

Lemma dataReceived_safe_witness :
  exists s' h' res, dataReceived collect (newCAPCSerializer 20) [] [0x7E; 0x7E; 0x7E; 0x7E; 0; 7]
      = Some (s', h', res) /\
    (res = APC_OK -> ser_wf s' /\ length (m_inpBuf s') = 20%nat).
Proof.
  apply (dataReceived_safe collect (newCAPCSerializer 20) []). apply newCAPCSerializer_wf. lia.
Defined.

(** C18: the way TCP cuts the stream is irrelevant. Two sequences of reads with
    the same bytes leave the same serializer, the same handler state (the same
    messages in the same order) and the same error code. *)
Theorem dataReceived_chunking {H} (mr : rxmsg -> H -> H * apc_error_t) s h reads reads' :
  ser_wf s -> concat reads = concat reads' ->
  readsReceived mr s h reads = readsReceived mr s h reads' /\
  readsReceived mr s h reads <> None.
Proof. intros Hwf E. rewrite !readsReceived_bytes, E by done. done. Qed.

Lemma dataReceived_chunking_witness :
  let a := [0x7E; 0x7E; 0x7E; 0x7E; 0; 0; 0; 0; 7; 0; 0; 0; 0; 9; 0; 2; 5; 6] in
  readsReceived collect (newCAPCSerializer 20) [] [a] =
  readsReceived collect (newCAPCSerializer 20) [] (map (fun b => [b]) a) /\
  option_map (fun r => (snd (fst r), snd r)) (readsReceived collect (newCAPCSerializer 20) [] [a])
  = Some ([mkRxMsg 9 0 7 0 [5; 6]], APC_OK).
Proof.
  intros a. split; [|reflexivity].
  apply (dataReceived_chunking collect (newCAPCSerializer 20) [] [a] (map (fun b => [b]) a));
    [apply newCAPCSerializer_wf; lia|reflexivity].
Defined.

(** C19: round trip. What [prepMsg] writes, another side reads back: if it
    succeeds, feeding exactly the [msgSize] bytes it produced to a serializer
    that is between two messages calls the handler once, with the same type,
    flags, sequence numbers and payload (both parts joined, in host order). *)
Theorem prepMsg_dataReceived {H} (mr : rxmsg -> H -> H * apc_error_t)
    s h msg maxSize t f ms ys p1 p2 n m :
  ser_wf s -> m_inpNumReceived s = 0%nat -> (maxSize <= length (m_inpBuf s))%nat ->
  (maxSize <= length msg)%nat -> Z.of_nat maxSize < 65536 ->
  is_byte t -> is_byte f -> 0 <= ms < 2 ^ 32 -> 0 <= ys < 2 ^ 32 ->
  Forall is_byte p1 -> Forall is_byte p2 ->
  prepMsg msg maxSize t f ms ys p1 p2 = (APC_OK, n, m) ->
  exists s', dataReceived mr s h (take n m) =
    Some (s', fst (mr (mkRxMsg t f ms ys (p1 ++ p2)) h), snd (mr (mkRxMsg t f ms ys (p1 ++ p2)) h)) /\
    m_inpNumReceived s' = 0%nat.
Proof. apply prepMsg_received. Qed.

Lemma prepMsg_dataReceived_witness :
  exists s', dataReceived collect (newCAPCSerializer 40) []
     (take 19 [126; 126; 126; 126; 0; 0; 0; 0; 5; 0; 0; 0; 4; 5; 0; 3; 1; 2; 9; 77; 77]) =
    Some (s', [mkRxMsg APC_NET_TXDONE 0 5 4 [2; 1; 9]], APC_OK) /\ m_inpNumReceived s' = 0%nat.
Proof.
  apply (prepMsg_dataReceived collect (newCAPCSerializer 40) [] (replicate 21 77) 20
           APC_NET_TXDONE 0 5 4 [2; 1] [9] 19); try (cbn; lia).
  - apply newCAPCSerializer_wf; lia.
  - unfold is_byte, APC_NET_TXDONE; lia.
  - unfold is_byte; lia.
  - repeat constructor; unfold is_byte; lia.
  - repeat constructor; unfold is_byte; lia.
  - reflexivity.
Defined.

(** [convert] is its own inverse between the two directions: it fails only
    with [APC_ERR_SIZE] on a payload shorter than its message, and when it
    succeeds converting the result back, in either direction, gives the payload. *)
Theorem convert_involutive c c' t p :
  Forall is_byte p ->
  (fst (convert c t p) = APC_OK ->
   convert c' t (snd (convert c t p)) = (APC_OK, p)) /\
  (fst (convert c t p) <> APC_OK ->
   convert c t p = (APC_ERR_SIZE, p) /\
   exists n l, swapped t = Some (n, l) /\ (length p < n)%nat).
Proof.
  intros Hb. split; intros Hc.
  - eapply convert_back; [done|]. rewrite <- Hc. apply surjective_pairing.
  - rewrite convert_swapped in * by done. destruct (swapped t) as [[n l]|]; [|done].
    destruct (Nat.leb_spec n (length p)); [done|]. eauto.
Qed.

Lemma convert_involutive_witness :
  convert NET_TO_HOST APC_NET_TXDONE (snd (convert HOST_TO_NET APC_NET_TXDONE [1; 2; 3]))
    = (APC_OK, [1; 2; 3]) /\ snd (convert HOST_TO_NET APC_NET_TXDONE [1; 2; 3]) = [2; 1; 3].
Proof.
  split; [|reflexivity].
  apply (convert_involutive HOST_TO_NET NET_TO_HOST APC_NET_TXDONE [1; 2; 3]); [|reflexivity].
  repeat constructor; unfold is_byte; lia.
Defined.
