(* ===== verification/ApcCache.v ===== *)
(** Cache of unconfirmed output packets (APInterface/APCCache.cpp, APCCache.h).

    A ring of packets that the client replays after a reconnection.  The
    abstract contract is a queue: [pending] is what was sent and not confirmed,
    oldest first.  The invariant [cache_inv] relates the ring to the complete
    history of packets. *)
From stdpp Require Import base numbers list option strings.
From Stdlib Require Import ZArith Lia.
From S2P Require Import Prelude Common ApcProto ApcSerializer.

Local Open Scope Z_scope.

(** ** Data *)
Record apc_cache_pkt_s : Set := mkPkt {
  m_seqNumb : Z;
  m_type : Z;
  m_size : Z;
  m_payload : list Z
}.

Record CAPCCache : Set := mkCache {
  m_outpkts : list apc_cache_pkt_s;
  m_lastSentSeqNum : Z;
  m_numPackets : Z;
  m_pos : Z;
  m_getNextSeqNum : Z
}.

Definition clear (c : CAPCCache) : CAPCCache := mkCache (m_outpkts c) 0 0 0 0.

Definition newCAPCCache (cacheSize : nat) : CAPCCache :=
  clear (mkCache (replicate cacheSize (mkPkt 0 0 0 (replicate APC_MAX_MSG_SIZE 0))) 0 0 0 0).

Definition getLastSent (c : CAPCCache) : Z := u32 (m_lastSentSeqNum c).
Definition getNumCachedPkts (c : CAPCCache) : Z := m_numPackets c.
Definition getCacheSize (c : CAPCCache) : Z := Z.of_nat (length (m_outpkts c)).

(** ** Operations *)

(** The result is the cache, the error code and what was written to [*pSeqNum]
    ([None]: left as it was).  [None] as a whole is an access outside the ring. *)
Definition addPacket (type : Z) (p1 p2 : list Z) (c : CAPCCache)
  : option (CAPCCache * apc_error_t * option Z) :=
  let s1 := Z.of_nat (length p1) in
  let s2 := Z.of_nat (length p2) in
  if Z.of_nat APC_MAX_MSG_SIZE <? u32 (s1 + s2) then Some (c, APC_ERR_SIZE, None)
  else
    pkt ← m_outpkts c !! Z.to_nat (m_pos c);
    let payload := overwrite 0 p1 (m_payload pkt) in
    let payload := overwrite (length p1) p2 payload in
    let last := u64 (m_lastSentSeqNum c + 1) in
    let seq := u32 (s32 last) in
    let pkt := mkPkt seq type (u32 (s1 + s2)) payload in
    let out := <[Z.to_nat (m_pos c) := pkt]> (m_outpkts c) in
    let pos := u32 (m_pos c + 1) in
    let pos := if Z.of_nat (length out) <=? pos then 0 else pos in
    let c := mkCache out last (m_numPackets c) pos (m_getNextSeqNum c) in
    if Z.of_nat (length out) <=? m_numPackets c then Some (c, APC_ERR_OUTBUFOVERFLOW, Some seq)
    else Some (mkCache out last (u32 (m_numPackets c + 1)) pos (m_getNextSeqNum c), APC_OK, Some seq).

Definition confirmedSeqNum (a_confirmedNum : Z) (isInit : bool) (c : CAPCCache)
  : CAPCCache * apc_error_t :=
  let last := m_lastSentSeqNum c in
  let size := Z.of_nat (length (m_outpkts c)) in
  let confirmedNum := Z.lor a_confirmedNum (Z.land last 0xFFFFFFFF00000000) in
  let confirmedNum :=
    if Z.land last 0xFFFFFFFF <? a_confirmedNum then u64 (confirmedNum - 0x100000000)
    else confirmedNum in
  if last <? confirmedNum then (c, APC_ERR_PROTOCOL)
  else
    let '(confirmedNum, res) :=
      if size <? u64 (last - confirmedNum) then (u64 (last - size), APC_ERR_OUTBUFOVERFLOW)
      else (confirmedNum, APC_OK) in
    let numPkt := u32 (last - confirmedNum) in
    let numPackets :=
      if (numPkt <? m_numPackets c) || isInit then numPkt else m_numPackets c in
    (mkCache (m_outpkts c) last numPackets (m_pos c) (m_getNextSeqNum c), res).

Definition prepForGet (c : CAPCCache) : CAPCCache :=
  mkCache (m_outpkts c) (m_lastSentSeqNum c) (m_numPackets c) (m_pos c)
          (u64 (m_lastSentSeqNum c - m_numPackets c)).

(** The packet is [None] when nothing was stored in [*pPkt]. *)
Definition getNextPacket (c : CAPCCache)
  : option (CAPCCache * apc_error_t * option apc_cache_pkt_s) :=
  if m_lastSentSeqNum c <=? m_getNextSeqNum c then Some (c, APC_ERR_NOTFOUND, None)
  else
    let offset := u64 (m_lastSentSeqNum c - m_getNextSeqNum c) in
    let '(offset, getNext, res) :=
      if m_numPackets c <? offset
      then (m_numPackets c, u64 (m_lastSentSeqNum c - m_numPackets c), APC_ERR_OUTBUFOVERFLOW)
      else (offset, m_getNextSeqNum c, APC_OK) in
    let pos := m_pos c in
    let pos := if m_pos c <? offset then u32 (pos + Z.of_nat (length (m_outpkts c))) else pos in
    let pos := u32 (pos - u32 offset) in
    pkt ← m_outpkts c !! Z.to_nat pos;
    Some (mkCache (m_outpkts c) (m_lastSentSeqNum c) (m_numPackets c) (m_pos c) (u64 (getNext + 1)),
          res, Some pkt).

(** Reading to the end, as the client does after a reconnection. *)
Fixpoint drain (n : nat) (c : CAPCCache) : option (CAPCCache * list apc_cache_pkt_s * apc_error_t) :=
  match n with
  | O => None
  | S n' =>
      '(c, e, p) ← getNextPacket c;
      match p with
      | Some pkt =>
          if decide (e = APC_OK) then
            '(c, l, e) ← drain n' c; Some (c, pkt :: l, e)
          else Some (c, [pkt], e)
      | None => Some (c, [], e)
      end
  end.

(** ** Abstract contract *)

(** A packet as the caller handed it over. *)
Definition sent : Type := Z * list Z.

(** The packet in the ring is the [i]-th one sent (from 0). *)
Definition holds (x : sent) (i : Z) (pkt : apc_cache_pkt_s) : Prop :=
  m_seqNumb pkt = u32 (i + 1) /\ m_type pkt = fst x /\
  m_size pkt = Z.of_nat (length (snd x)) /\ take (length (snd x)) (m_payload pkt) = snd x.

Definition capacity (c : CAPCCache) : Z := Z.of_nat (length (m_outpkts c)).

Record cache_inv (c : CAPCCache) (log : list sent) : Prop := {
  ci_cap : 0 < capacity c < 2 ^ 31;
  ci_last : m_lastSentSeqNum c = Z.of_nat (length log);
  ci_bound : m_lastSentSeqNum c < 2 ^ 64 - 1;
  ci_pos : m_pos c = m_lastSentSeqNum c mod capacity c;
  ci_num : 0 <= m_numPackets c <= Z.min (capacity c) (m_lastSentSeqNum c);
  ci_buf : Forall (fun p => length (m_payload p) = APC_MAX_MSG_SIZE) (m_outpkts c);
  ci_ring : forall i x, log !! i = Some x ->
    m_lastSentSeqNum c - capacity c <= Z.of_nat i ->
    exists pkt, m_outpkts c !! Z.to_nat (Z.of_nat i mod capacity c) = Some pkt /\
                holds x (Z.of_nat i) pkt
}.

(** Packets sent and not confirmed, oldest first. *)
Definition pending (c : CAPCCache) (log : list sent) : list sent :=
  drop (length log - Z.to_nat (m_numPackets c)) log.

(** ** Facts *)
Lemma newCAPCCache_inv n : (0 < n)%nat -> Z.of_nat n < 2 ^ 31 -> cache_inv (newCAPCCache n) [].
Proof.
  intros H1 H2. unfold newCAPCCache, clear.
  split; cbn [m_outpkts m_lastSentSeqNum m_numPackets m_pos]; unfold capacity; cbn [m_outpkts];
    rewrite ?length_replicate; try (cbn [length]; lia).
  - rewrite Z.mod_0_l; lia.
  - apply Forall_replicate. cbn [m_payload]. by rewrite length_replicate.
  - done.
Qed.

Lemma mod_succ a n : 0 < n -> (a + 1) mod n = if n <=? a mod n + 1 then 0 else a mod n + 1.
Proof.
  intros Hn. pose proof (Z.mod_pos_bound a n Hn). pose proof (Z.div_mod a n).
  destruct (Z.leb_spec n (a mod n + 1)).
  - symmetry. apply (Z.mod_unique _ _ (a / n + 1)); lia.
  - symmetry. apply (Z.mod_unique _ _ (a / n)); lia.
Qed.

Lemma mod_ne a b n : 0 < n -> a < b < a + n -> a mod n <> b mod n.
Proof.
  intros Hn Hab E. pose proof (Z.div_mod a n ltac:(lia)). pose proof (Z.div_mod b n ltac:(lia)).
  rewrite E in H. revert H H0. generalize (a / n) (b / n) (b mod n). intros x y r H1 H2.
  assert (y <= x \/ x + 1 <= y) as [Hyx|Hyx] by lia; nia.
Qed.

Lemma u32_s32 z : u32 (s32 z) = u32 z.
Proof. apply (swrap_mod 32). lia. Qed.

(** The ring after packet [log] (number [length log]) is stored at [m_pos]. *)
Definition stored (c : CAPCCache) (pkt : apc_cache_pkt_s) (num : Z) : CAPCCache :=
  mkCache (<[Z.to_nat (m_pos c) := pkt]> (m_outpkts c)) (m_lastSentSeqNum c + 1) num
          ((m_lastSentSeqNum c + 1) mod capacity c) (m_getNextSeqNum c).

Lemma addPacket_run c log t p1 p2 :
  cache_inv c log -> Z.of_nat (length p1 + length p2) <= Z.of_nat APC_MAX_MSG_SIZE ->
  exists pkt, holds (t, p1 ++ p2) (m_lastSentSeqNum c) pkt /\
    length (m_payload pkt) = APC_MAX_MSG_SIZE /\
    addPacket t p1 p2 c =
      Some (if capacity c <=? m_numPackets c
            then (stored c pkt (m_numPackets c), APC_ERR_OUTBUFOVERFLOW, Some (u32 (m_lastSentSeqNum c + 1)))
            else (stored c pkt (m_numPackets c + 1), APC_OK, Some (u32 (m_lastSentSeqNum c + 1)))).
Proof.
  intros [Hc Hl Hb Hp Hn Hbuf Hr] Hsz.
  assert (Hmax : Z.of_nat APC_MAX_MSG_SIZE = 1052) by reflexivity.
  pose proof (Z.mod_pos_bound (m_lastSentSeqNum c) (capacity c)) as Hpos.
  destruct (lookup_lt_is_Some_2 (m_outpkts c) (Z.to_nat (m_pos c))) as [pkt0 Hpkt0];
    [unfold capacity in *; lia|].
  unfold addPacket. cbv zeta. rewrite Hpkt0. cbn [mbind option_bind].
  assert (Hbuf0 : length (m_payload pkt0) = APC_MAX_MSG_SIZE)
    by (rewrite Forall_lookup in Hbuf; by eapply Hbuf).
  rewrite u32_small by lia.
  destruct (Z.ltb_spec (Z.of_nat APC_MAX_MSG_SIZE) (Z.of_nat (length p1) + Z.of_nat (length p2))); [lia|].
  rewrite (u64_small (m_lastSentSeqNum c + 1)), u32_s32 by lia.
  rewrite length_insert.
  set (pkt := mkPkt _ _ _ _). exists pkt.
  assert (Hpl : length (m_payload pkt) = APC_MAX_MSG_SIZE).
  { cbn [pkt m_payload]. rewrite !length_overwrite; [done|lia|]. rewrite length_overwrite; lia. }
  split; [|split; [done|]].
  - split_and!; cbn [pkt m_seqNumb m_type m_size m_payload fst snd]; [done|done|rewrite length_app; lia|].
    rewrite (overwrite_adjacent 0 p1 p2) by lia.
    rewrite <- (drop_0 (overwrite 0 (p1 ++ p2) (m_payload pkt0))).
    apply take_drop_overwrite. rewrite length_app. lia.
  - assert (Hpos' : (if Z.of_nat (length (m_outpkts c)) <=? u32 (m_pos c + 1) then 0
                     else u32 (m_pos c + 1)) = (m_lastSentSeqNum c + 1) mod capacity c).
    { unfold capacity in *. rewrite mod_succ, <- Hp by lia. by rewrite u32_small by lia. }
    rewrite Hpos'. fold (capacity c). cbn [m_numPackets m_getNextSeqNum]. destruct (Z.leb_spec (capacity c) (m_numPackets c)); [done|].
    by rewrite (u32_small (m_numPackets c + 1)) by lia.
Qed.

Lemma stored_inv c log x pkt num :
  cache_inv c log -> m_lastSentSeqNum c + 1 < 2 ^ 64 - 1 ->
  holds x (m_lastSentSeqNum c) pkt -> length (m_payload pkt) = APC_MAX_MSG_SIZE ->
  0 <= num <= Z.min (capacity c) (m_lastSentSeqNum c + 1) ->
  cache_inv (stored c pkt num) (log ++ [x]).
Proof.
  intros [Hc Hl Hb Hp Hn Hbuf Hr] Hb' Hh Hpl Hnum.
  assert (Hcap : capacity (stored c pkt num) = capacity c)
    by (unfold capacity; cbn [stored m_outpkts]; by rewrite length_insert).
  pose proof (Z.mod_pos_bound (m_lastSentSeqNum c) (capacity c)) as Hpos.
  split; rewrite ?Hcap; cbn [stored m_outpkts m_lastSentSeqNum m_numPackets m_pos]; try done.
  - rewrite length_app. simpl. lia.
  - by apply Forall_insert.
  - intros i y Hi Hge.
    assert (Hii : (i < length (log ++ [x]))%nat) by (by eapply lookup_lt_Some).
    rewrite length_app in Hii. simpl in Hii.
    destruct (decide (i = length log)) as [->|Hne].
    + rewrite lookup_app_r, Nat.sub_diag in Hi by lia. injection Hi as <-.
      rewrite <- Hl, <- Hp, list_lookup_insert_eq by (unfold capacity in *; lia). eauto.
    + rewrite lookup_app_l in Hi by lia.
      rewrite list_lookup_insert_ne; [apply Hr; [done|lia]|].
      pose proof (Z.mod_pos_bound (Z.of_nat i) (capacity c)).
      pose proof (mod_ne (Z.of_nat i) (m_lastSentSeqNum c) (capacity c)). lia.
Qed.

Lemma pending_stored c log x pkt num :
  cache_inv c log -> 0 <= num <= Z.of_nat (length log) + 1 ->
  pending (stored c pkt num) (log ++ [x]) = drop (length log + 1 - Z.to_nat num) (log ++ [x]).
Proof. intros. unfold pending. cbn [stored m_numPackets]. by rewrite length_app. Qed.

Lemma length_pending c log : cache_inv c log -> Z.of_nat (length (pending c log)) = m_numPackets c.
Proof. intros [? ? ? ? ? ? ?]. unfold pending. rewrite length_drop. lia. Qed.

(** ** Confirmation *)
Lemma land_low x : Z.land x 0xFFFFFFFF = x mod 2 ^ 32.
Proof. apply (Z.land_ones x 32). lia. Qed.

Lemma land_high x : 0 <= x < 2 ^ 64 -> Z.land x 0xFFFFFFFF00000000 = (x / 2 ^ 32) * 2 ^ 32.
Proof.
  intros Hx. change 0xFFFFFFFF00000000 with (Z.shiftl (Z.ones 32) 32).
  rewrite <- Z.shiftl_mul_pow2, <- Z.shiftr_div_pow2 by lia.
  apply Z.bits_inj'; intros n Hn. rewrite Z.land_spec, !Z.shiftl_spec by lia.
  destruct (Z.ltb_spec n 32).
  - rewrite !(Z.testbit_neg_r _ (n - 32)) by lia. apply andb_false_r.
  - rewrite Z.shiftr_spec, Z.testbit_ones_nonneg by lia.
    replace (n - 32 + 32) with n by lia. destruct (Z.ltb_spec (n - 32) 32); [apply andb_true_r|].
    rewrite andb_false_r. rewrite <- (Z.mod_small x (2 ^ 64)) by lia.
    by rewrite Z.mod_pow2_bits_high by lia.
Qed.

(** How many packets were sent after the one the peer confirms, from 32 bits. *)
Definition unconfirmed (last a : Z) : Z := (last - a) mod 2 ^ 32.

Lemma confirmed_num last a :
  0 <= last < 2 ^ 64 - 1 -> 0 <= a < 2 ^ 32 ->
  let k := Z.lor a (Z.land last 0xFFFFFFFF00000000) in
  (if Z.land last 0xFFFFFFFF <? a then u64 (k - 0x100000000) else k) =
  u64 (last - unconfirmed last a) /\
  (last < u64 (last - unconfirmed last a) <-> last < unconfirmed last a).
Proof.
  intros Hl Ha k. unfold k. rewrite land_low, land_high by lia.
  rewrite (lor_add_disjoint a _ 32) by lia. unfold unconfirmed.
  pose proof (Z.div_mod last (2 ^ 32) ltac:(lia)) as Hd.
  pose proof (Z.mod_pos_bound last (2 ^ 32) ltac:(lia)) as Hm.
  assert (Hq : 0 <= last / 2 ^ 32) by (apply Z.div_pos; lia).
  set (q := last / 2 ^ 32) in *. set (r := last mod 2 ^ 32) in *. clearbody q r. clear k.
  destruct (Z.ltb_spec r a).
  - assert ((last - a) mod 2 ^ 32 = r - a + 2 ^ 32) as ->
      by (symmetry; apply (Z.mod_unique _ _ (q - 1)); lia).
    split; [f_equal; lia|].
    destruct (Z.eq_dec q 0) as [->|Hq0].
    + unfold u64, wrap.
      replace (last - (r - a + 2 ^ 32)) with (2 ^ 64 - (2 ^ 32 - a) + (-1) * 2 ^ 64) by lia.
      rewrite Z.mod_add, Z.mod_small by lia. lia.
    + rewrite u64_small by lia. lia.
  - assert ((last - a) mod 2 ^ 32 = r - a) as ->
      by (symmetry; apply (Z.mod_unique _ _ q); lia).
    rewrite u64_small by lia. lia.
Qed.

Lemma confirm_run c log a isInit :
  cache_inv c log -> 0 <= a < 2 ^ 32 ->
  confirmedSeqNum a isInit c =
    let n := unconfirmed (m_lastSentSeqNum c) a in
    if m_lastSentSeqNum c <? n then (c, APC_ERR_PROTOCOL)
    else
      let k := Z.min n (capacity c) in
      (mkCache (m_outpkts c) (m_lastSentSeqNum c)
               (if isInit then k else Z.min k (m_numPackets c)) (m_pos c) (m_getNextSeqNum c),
       if capacity c <? n then APC_ERR_OUTBUFOVERFLOW else APC_OK).
Proof.
  intros [Hc Hl Hb Hp Hn Hbuf Hr] Ha. unfold confirmedSeqNum. cbv zeta.
  destruct (confirmed_num (m_lastSentSeqNum c) a) as [Hk Hlt]; [lia..|]. cbv zeta in Hk.
  rewrite Hk. pose proof (Z.mod_pos_bound (m_lastSentSeqNum c - a) (2 ^ 32) ltac:(lia)) as Hu.
  fold (unconfirmed (m_lastSentSeqNum c) a) in Hu.
  set (n := unconfirmed _ _) in *. clearbody n. fold (capacity c).
  destruct (Z.ltb_spec (m_lastSentSeqNum c) n).
  { destruct (Z.ltb_spec (m_lastSentSeqNum c) (u64 (m_lastSentSeqNum c - n))); [done|tauto || lia]. }
  rewrite (u64_small (m_lastSentSeqNum c - n)) by lia.
  destruct (Z.ltb_spec (m_lastSentSeqNum c) (m_lastSentSeqNum c - n)); [lia|].
  rewrite (u64_small (_ - (_ - _))) by lia.
  replace (m_lastSentSeqNum c - (m_lastSentSeqNum c - n)) with n by lia.
  destruct (Z.ltb_spec (capacity c) n).
  - rewrite (u64_small (m_lastSentSeqNum c - capacity c)) by lia.
    replace (m_lastSentSeqNum c - (m_lastSentSeqNum c - capacity c)) with (capacity c) by lia.
    rewrite u32_small by lia. do 2 f_equal. rewrite (Z.min_r n) by lia.
    destruct isInit; [by rewrite orb_true_r|]. rewrite orb_false_r.
    destruct (Z.ltb_spec (capacity c) (m_numPackets c)); lia.
  - replace (m_lastSentSeqNum c - (m_lastSentSeqNum c - n)) with n by lia.
    rewrite u32_small by lia. do 2 f_equal. rewrite (Z.min_l n) by lia.
    destruct isInit; [by rewrite orb_true_r|]. rewrite orb_false_r.
    destruct (Z.ltb_spec n (m_numPackets c)); lia.
Qed.

Lemma set_num_inv c log num :
  cache_inv c log -> 0 <= num <= Z.min (capacity c) (m_lastSentSeqNum c) ->
  cache_inv (mkCache (m_outpkts c) (m_lastSentSeqNum c) num (m_pos c) (m_getNextSeqNum c)) log.
Proof. intros [Hc Hl Hb Hp Hn Hbuf Hr] Hnum. by split. Qed.

(** The invariant and the capacity under every operation but [addPacket]. *)
Lemma clear_inv c log : cache_inv c log -> cache_inv (clear c) [] /\ capacity (clear c) = capacity c.
Proof.
  intros [Hc Hl Hb Hp Hn Hbuf Hr]. split; [|done].
  split; cbn [clear m_lastSentSeqNum m_numPackets m_pos m_outpkts]; unfold capacity in *;
    cbn [clear m_outpkts length]; try (done || lia).
Qed.

Lemma confirm_inv c log a isInit :
  cache_inv c log -> 0 <= a < 2 ^ 32 ->
  cache_inv (fst (confirmedSeqNum a isInit c)) log /\
  capacity (fst (confirmedSeqNum a isInit c)) = capacity c.
Proof.
  intros Hinv Ha. rewrite (confirm_run c log) by done. cbv zeta.
  pose proof Hinv as [Hc Hl Hb _ Hn _ _].
  pose proof (Z.mod_pos_bound (m_lastSentSeqNum c - a) (2 ^ 32) ltac:(lia)) as Hu.
  fold (unconfirmed (m_lastSentSeqNum c) a) in Hu.
  destruct (Z.ltb_spec (m_lastSentSeqNum c) (unconfirmed (m_lastSentSeqNum c) a)); [done|].
  cbn [fst]. split; [|done]. apply set_num_inv; [done|]. destruct isInit; lia.
Qed.

Lemma set_next_inv c log g :
  cache_inv c log ->
  cache_inv (mkCache (m_outpkts c) (m_lastSentSeqNum c) (m_numPackets c) (m_pos c) g) log.
Proof. intros [Hc Hl Hb Hp Hn Hbuf Hr]. by split. Qed.

Lemma getNextPacket_inv c log k e p :
  cache_inv c log -> getNextPacket c = Some (k, e, p) -> cache_inv k log /\ capacity k = capacity c.
Proof.
  intros Hinv. unfold getNextPacket. case_match; [by intros [= <- _ _]|].
  destruct (if m_numPackets c <? u64 (m_lastSentSeqNum c - m_getNextSeqNum c) then _ else _)
    as [[offset g] r].
  intros (pkt & _ & [= <- _ _])%bind_Some. split; [by apply set_next_inv|done].
Qed.

Lemma getNextPacket_elem c k e pkt :
  getNextPacket c = Some (k, e, Some pkt) -> pkt ∈ m_outpkts c.
Proof.
  unfold getNextPacket. case_match; [done|].
  destruct (if m_numPackets c <? u64 (m_lastSentSeqNum c - m_getNextSeqNum c) then _ else _)
    as [[offset g] r].
  intros (p & Hp & [= _ _ <-])%bind_Some. by eapply list_elem_of_lookup_2.
Qed.

(** ** Replay *)
Lemma getNext_step c log j :
  cache_inv c log -> 0 < j <= m_numPackets c -> m_getNextSeqNum c = m_lastSentSeqNum c - j ->
  exists x pkt, log !! Z.to_nat (m_lastSentSeqNum c - j) = Some x /\
    holds x (m_lastSentSeqNum c - j) pkt /\
    getNextPacket c =
      Some (mkCache (m_outpkts c) (m_lastSentSeqNum c) (m_numPackets c) (m_pos c)
                    (m_lastSentSeqNum c - (j - 1)), APC_OK, Some pkt).
Proof.
  intros [Hc Hl Hb Hp Hn Hbuf Hr] Hj Hg.
  pose proof (Z.mod_pos_bound (m_lastSentSeqNum c) (capacity c)) as Hpos.
  destruct (lookup_lt_is_Some_2 log (Z.to_nat (m_lastSentSeqNum c - j))) as [x Hx]; [lia|].
  destruct (Hr _ _ Hx) as (pkt & Hpkt & Hh); [lia|].
  rewrite Z2Nat.id in Hpkt, Hh by lia.
  exists x, pkt. split; [done|]. split; [done|].
  unfold getNextPacket. rewrite Hg.
  destruct (Z.leb_spec (m_lastSentSeqNum c) (m_lastSentSeqNum c - j)); [lia|]. cbv zeta.
  replace (m_lastSentSeqNum c - (m_lastSentSeqNum c - j)) with j by lia.
  rewrite (u64_small j) by lia. destruct (Z.ltb_spec (m_numPackets c) j); [lia|].
  rewrite (u32_small j) by lia.
  assert (Hidx : u32 ((if m_pos c <? j then u32 (m_pos c + Z.of_nat (length (m_outpkts c))) else m_pos c) - j)
                 = (m_lastSentSeqNum c - j) mod capacity c).
  { fold (capacity c). rewrite Hp in *.
    pose proof (Z.div_mod (m_lastSentSeqNum c) (capacity c) ltac:(lia)) as Hd.
    set (r := m_lastSentSeqNum c mod capacity c) in *. set (q := m_lastSentSeqNum c / capacity c) in *.
    destruct (Z.ltb_spec r j).
    - rewrite (u32_small (r + capacity c)), u32_small by lia.
      apply (Z.mod_unique _ _ (q - 1)); lia.
    - rewrite u32_small by lia. apply (Z.mod_unique _ _ q); lia. }
  rewrite Hidx, Hpkt. cbn [mbind option_bind]. do 3 f_equal. rewrite u64_small by lia. f_equal. lia.
Qed.

Lemma drain_run j c log :
  cache_inv c log -> Z.of_nat j <= m_numPackets c ->
  m_getNextSeqNum c = m_lastSentSeqNum c - Z.of_nat j ->
  exists pkts,
    drain (S j) c = Some (mkCache (m_outpkts c) (m_lastSentSeqNum c) (m_numPackets c) (m_pos c)
                                  (m_lastSentSeqNum c), pkts, APC_ERR_NOTFOUND) /\
    length pkts = j /\
    forall i pkt, pkts !! i = Some pkt -> exists x,
      log !! (length log - j + i)%nat = Some x /\
      holds x (Z.of_nat (length log - j + i)) pkt.
Proof.
  revert c; induction j as [|j IH]; intros c Hinv Hj Hg.
  - exists []. split; [|split; [done|intros i pkt; by rewrite lookup_nil]].
    cbn [drain]. unfold getNextPacket.
    destruct (Z.leb_spec (m_lastSentSeqNum c) (m_getNextSeqNum c)); [|lia].
    cbn [mbind option_bind]. do 3 f_equal. replace (m_lastSentSeqNum c) with (m_getNextSeqNum c) at 2 by lia.
    by destruct c.
  - destruct (getNext_step c log (Z.of_nat (S j)) Hinv) as (x & pkt & Hx & Hh & Hrun); [lia|done|].
    set (c1 := mkCache _ _ _ _ _) in Hrun.
    assert (Hinv1 : cache_inv c1 log) by (destruct Hinv; by split).
    destruct (IH c1 Hinv1) as (pkts & Hd & Hl & Hall);
      [cbn [c1 m_numPackets]; lia|cbn [c1 m_getNextSeqNum m_lastSentSeqNum]; lia|].
    exists (pkt :: pkts). change (drain (S (S j)) c) with
      ('(c, e, p) ← getNextPacket c;
       match p with
       | Some pkt => if decide (e = APC_OK) then '(c, l, e) ← drain (S j) c; Some (c, pkt :: l, e)
                     else Some (c, [pkt], e)
       | None => Some (c, [], e)
       end).
    rewrite Hrun. cbn [mbind option_bind]. rewrite decide_True, Hd by done. cbn [mbind option_bind].
    pose proof (ci_last _ _ Hinv) as HL. pose proof (ci_num _ _ Hinv) as HN.
    split; [done|]. split; [simpl; lia|].
    intros [|i] p; simpl.
    + intros [= <-]. exists x. rewrite Nat.add_0_r.
      replace (length log - S j)%nat with (Z.to_nat (m_lastSentSeqNum c - Z.of_nat (S j))) by lia.
      split; [done|]. by rewrite Z2Nat.id by lia.
    + intros Hp. replace (length log - S j + S i)%nat with (length log - j + i)%nat by lia. by apply Hall.
Qed.

Lemma drop_drop_app (log : list sent) x k :
  (k <= length log)%nat -> drop k (log ++ [x]) = drop k log ++ [x].
Proof. intros. by rewrite drop_app_le. Qed.

(** ** Properties *)

(** C37: [addPacket] on the ring is an enqueue on the abstract queue. A packet
    that does not fit a message is refused and changes nothing; otherwise it gets
    the next sequence number, and is appended to the unconfirmed packets, the oldest of
    which is dropped, with [APC_ERR_OUTBUFOVERFLOW], exactly when the ring is full. *)
Theorem addPacket_enqueues c log t p1 p2 :
  cache_inv c log -> m_lastSentSeqNum c + 1 < 2 ^ 64 - 1 ->
  Z.of_nat (length p1 + length p2) < 2 ^ 32 ->
  if decide (length p1 + length p2 <= APC_MAX_MSG_SIZE)%nat then
    exists c' e, addPacket t p1 p2 c = Some (c', e, Some (u32 (m_lastSentSeqNum c + 1))) /\
      cache_inv c' (log ++ [(t, p1 ++ p2)]) /\ capacity c' = capacity c /\
      if decide (m_numPackets c < capacity c)
      then e = APC_OK /\ pending c' (log ++ [(t, p1 ++ p2)]) = pending c log ++ [(t, p1 ++ p2)]
      else e = APC_ERR_OUTBUFOVERFLOW /\
           pending c' (log ++ [(t, p1 ++ p2)]) = drop 1 (pending c log ++ [(t, p1 ++ p2)])
  else addPacket t p1 p2 c = Some (c, APC_ERR_SIZE, None).
Proof.
  intros Hinv Hb Hsz. case_decide as Hfit.
  - destruct (addPacket_run c log t p1 p2 Hinv) as (pkt & Hh & Hpl & Hrun); [lia|].
    pose proof Hinv as [Hc Hl _ _ Hn _ _].
    rewrite Hrun. destruct (Z.leb_spec (capacity c) (m_numPackets c)); do 2 eexists;
      (split; [reflexivity|split; [apply stored_inv; (done || lia)|]]);
      (split; [unfold capacity; cbn [stored m_outpkts]; by rewrite length_insert|]);
      rewrite pending_stored by (done || lia).
    + rewrite decide_False by lia. split; [done|]. unfold pending.
      rewrite <- drop_drop_app, drop_drop by lia. f_equal. lia.
    + rewrite decide_True by lia. split; [done|]. unfold pending.
      rewrite <- drop_drop_app by lia. f_equal. lia.
  - unfold addPacket. cbv zeta.
    rewrite u32_small by lia.
    destruct (Z.ltb_spec (Z.of_nat APC_MAX_MSG_SIZE) (Z.of_nat (length p1) + Z.of_nat (length p2)));
      [done|lia].
Qed.

Lemma addPacket_enqueues_witness :
  exists c' e, addPacket 3 [1; 2] [3] (newCAPCCache 2) = Some (c', e, Some 1) /\
    cache_inv c' [(3, [1; 2; 3])] /\ capacity c' = 2 /\
    (e = APC_OK /\ pending c' [(3, [1; 2; 3])] = [(3, [1; 2; 3])]).
Proof.
  pose proof (addPacket_enqueues (newCAPCCache 2) [] 3 [1; 2] [3]) as H.
  apply H; [apply newCAPCCache_inv; lia|cbn; lia|cbn; lia].
Defined.

(** [confirmedSeqNum] rebuilds the 64-bit number from the 32 bits the peer
    sends, and dequeues. If the peer confirms packet number [k] (among the last
    2^32), exactly the pending packets up to [k] are removed; a packet that is not pending any
    more changes nothing; a confirmation more than the ring's size behind is
    reported as [APC_ERR_OUTBUFOVERFLOW]. At initialization the count is set
    instead: the packets after [k] that the ring still holds become pending. *)
Theorem confirmedSeqNum_dequeues c log k isInit :
  cache_inv c log -> 0 <= k <= m_lastSentSeqNum c -> m_lastSentSeqNum c - k < 2 ^ 32 ->
  exists c' e, confirmedSeqNum (u32 k) isInit c = (c', e) /\ cache_inv c' log /\
    e = (if decide (capacity c < m_lastSentSeqNum c - k) then APC_ERR_OUTBUFOVERFLOW else APC_OK) /\
    pending c' log =
      if isInit
      then drop (length log - Z.to_nat (Z.min (m_lastSentSeqNum c - k) (capacity c))) log
      else drop (length (pending c log) - Z.to_nat (m_lastSentSeqNum c - k)) (pending c log).
Proof.
  intros Hinv Hk Hd. pose proof Hinv as [Hc Hl Hb _ Hn _ _].
  rewrite (confirm_run c log) by (apply u32_range || done). cbv zeta.
  assert (Hu : unconfirmed (m_lastSentSeqNum c) (u32 k) = m_lastSentSeqNum c - k).
  { unfold unconfirmed, u32, wrap. rewrite Zminus_mod_idemp_r. apply Z.mod_small. lia. }
  rewrite Hu. destruct (Z.ltb_spec (m_lastSentSeqNum c) (m_lastSentSeqNum c - k)); [lia|].
  do 2 eexists. split; [reflexivity|]. split; [apply set_num_inv; [done|destruct isInit; lia]|].
  split.
  - destruct (Z.ltb_spec (capacity c) (m_lastSentSeqNum c - k)); by case_decide; try lia.
  - pose proof (length_pending c log Hinv) as Hp. unfold pending at 1 3. cbn [m_numPackets].
    destruct isInit; [done|]. rewrite drop_drop. f_equal. lia.
Qed.

Lemma confirmedSeqNum_dequeues_witness :
  option_map (fun r => let '(c, _, _) := r in confirmedSeqNum 1 false c)
    ('(c, _, _) ← addPacket 3 [1] [] (newCAPCCache 3); addPacket 4 [2] [] c) =
  option_map (fun r => let '(c, _, _) := r in
      (mkCache (m_outpkts c) 2 1 2 0, APC_OK))
    ('(c, _, _) ← addPacket 3 [1] [] (newCAPCCache 3); addPacket 4 [2] [] c) /\
  exists c' e, confirmedSeqNum (u32 0) false (newCAPCCache 3) = (c', e) /\ cache_inv c' [] /\
    e = APC_OK /\ pending c' [] = [].
Proof.
  split; [reflexivity|].
  apply (confirmedSeqNum_dequeues (newCAPCCache 3) [] 0 false);
    [apply newCAPCCache_inv; lia|cbn; lia|cbn; lia].
Defined.

(** A 32-bit confirmation of a packet that was never sent is a protocol
    error and changes nothing. *)
Theorem confirmedSeqNum_future c log a isInit :
  cache_inv c log -> m_lastSentSeqNum c < a < 2 ^ 32 ->
  confirmedSeqNum a isInit c = (c, APC_ERR_PROTOCOL).
Proof.
  intros Hinv Ha. pose proof Hinv as [Hc Hl Hb _ Hn _ _].
  rewrite (confirm_run c log) by (done || lia). cbv zeta.
  assert (unconfirmed (m_lastSentSeqNum c) a = m_lastSentSeqNum c - a + 2 ^ 32) as ->
    by (symmetry; apply (Z.mod_unique _ _ (-1)); lia).
  destruct (Z.ltb_spec (m_lastSentSeqNum c) (m_lastSentSeqNum c - a + 2 ^ 32)); [done|lia].
Qed.

Lemma confirmedSeqNum_future_witness :
  confirmedSeqNum 5 true (newCAPCCache 3) = (newCAPCCache 3, APC_ERR_PROTOCOL).
Proof. apply (confirmedSeqNum_future _ []); [apply newCAPCCache_inv; lia|cbn; lia]. Defined.

(** Replay. Reading the cache to the end after [prepForGet] ends with
    [APC_ERR_NOTFOUND] and yields exactly the pending packets, in the order they
    were sent, each with its type, size, bytes and the sequence number it was sent with. *)
Theorem replay_pending c log :
  cache_inv c log ->
  exists c' pkts,
    drain (S (length (pending c log))) (prepForGet c) = Some (c', pkts, APC_ERR_NOTFOUND) /\
    cache_inv c' log /\ pending c' log = pending c log /\
    length pkts = length (pending c log) /\
    forall i pkt, pkts !! i = Some pkt -> exists x, pending c log !! i = Some x /\
      holds x (m_lastSentSeqNum c - m_numPackets c + Z.of_nat i) pkt.
Proof.
  intros Hinv. pose proof Hinv as [Hc Hl Hb Hp Hn Hbuf Hr].
  pose proof (length_pending c log Hinv) as Hlen.
  destruct (drain_run (length (pending c log)) (prepForGet c) log) as (pkts & Hd & Hlp & Hall).
  - by split.
  - cbn [prepForGet m_numPackets]. lia.
  - cbn [prepForGet m_numPackets m_getNextSeqNum m_lastSentSeqNum]. rewrite u64_small; lia.
  - do 2 eexists. split; [exact Hd|]. split; [by split|]. split; [done|]. split; [done|].
    intros i pkt Hi. destruct (Hall i pkt Hi) as (x & Hx & Hh). exists x. unfold pending at 1.
    rewrite lookup_drop.
    replace (length log - Z.to_nat (m_numPackets c))%nat with (length log - length (pending c log))%nat by lia.
    split; [done|].
    replace (m_lastSentSeqNum c - m_numPackets c + Z.of_nat i)
      with (Z.of_nat (length log - length (pending c log) + i)) by lia. done.
Qed.

Lemma replay_pending_witness :
  exists c' pkts,
    drain 1 (prepForGet (newCAPCCache 3)) = Some (c', pkts, APC_ERR_NOTFOUND) /\
    cache_inv c' [] /\ pending c' [] = [] /\ length pkts = 0%nat /\
    forall i pkt, pkts !! i = Some pkt -> exists x, (@nil sent) !! i = Some x /\
      holds x (0 - 0 + Z.of_nat i) pkt.
Proof. apply (replay_pending (newCAPCCache 3) []). apply newCAPCCache_inv; lia. Defined.
