(* ===== verification/ApcConnector.v ===== *)
(** The TCP connector between the AP bridge and the Manager
    (APInterface/APCConnector.cpp, APCConnector.h).

    Keep-alive timers, the pool of output buffers, sending with sequence
    numbers, receiving, and shutting down.  What the code obtains from its
    environment during one call (the clock, exceptions of boost::asio, wake-ups
    of the condition variable while it waits with the lock released) is the
    argument [env]; what it asks of others (socket operations, timers,
    notifications to its owner) is the list of events. *)
From stdpp Require Import base numbers list option strings.
From Stdlib Require Import ZArith Lia.
From S2P Require Import Prelude Common ApcProto ApcSerializer.

Local Open Scope Z_scope.

Definition APC_NUM_OUT_BUFS : nat := 2.
Definition APC_NUM_OUT_BUFS_MASK : Z := Z.of_nat APC_NUM_OUT_BUFS - 1.
Definition APC_CONNECTOR_NAME_LENGTH : nat := 31.

(** ** C strings in fixed arrays *)
Fixpoint cstr (s : list Z) : list Z :=
  match s with
  | [] => []
  | c :: r => if c =? 0 then [] else c :: cstr r
  end.
(** [strncpy(dst, src, n)] into an array of [n], then a zero in its last cell. *)
Definition strncpy0 (n : nat) (src : list Z) : list Z :=
  <[(n - 1)%nat := 0]> (take n (cstr src ++ replicate n 0)).

(** ** Keep-alive timer *)
Record CAPCKATimer : Set := mkKATimer {
  m_kaTimeoutMsec : Z;
  m_timeLastActivity : Z;
  t_isWorking : bool;
  m_cbFun : bool     (** a callback is set *)
}.
#[export] Instance CAPCKATimer_eta : Eta CAPCKATimer :=
  fun t => mkKATimer (m_kaTimeoutMsec t) (m_timeLastActivity t) (t_isWorking t) (m_cbFun t).

Definition createKATimer (timeoutMsec : Z) : CAPCKATimer := mkKATimer timeoutMsec 0 false false.

(** [throws]: the asynchronous wait could not be scheduled. *)
Definition startTimer_p (throws : bool) : apc_error_t :=
  if throws then APC_ERR_ASYNC_OPERATION else APC_OK.

Definition startTimer (now : Z) (throws : bool) (t : CAPCKATimer) : CAPCKATimer * apc_error_t :=
  (t <| t_isWorking := true |> <| m_cbFun := true |> <| m_timeLastActivity := now |>,
   startTimer_p throws).
Definition stopTimer (t : CAPCKATimer) : CAPCKATimer :=
  t <| t_isWorking := false |> <| m_cbFun := false |>.
Definition recordActivity (now : Z) (t : CAPCKATimer) : CAPCKATimer :=
  t <| m_timeLastActivity := now |>.

(** Timer expiry: whether it is scheduled again, and the time handed to the
    callback if there is one.  The callback's result is not used. *)
Definition handle_timer_p (error : bool) (t : CAPCKATimer) : bool * option Z :=
  if error then (false, None)
  else
    let cbFun := t_isWorking t && m_cbFun t in
    (t_isWorking t, if cbFun then Some (m_timeLastActivity t) else None).

(** ** Notifications to the owner (IAPCConnectorNotif) *)
Record param_connected_s : Set := mkConnected {
  pc_ver : Z;
  pc_netId : Z;
  pc_apcId : Z;
  pc_name : list Z;
  pc_cmdFlags : Z;
  pc_hdrFlags : Z;
  pc_mySeq : Z;
  pc_yourSeq : Z;
  pc_version : list Z
}.

Inductive stopflags_t : Set := STOP_FL_OFFLINE | STOP_FL_DISCONNECT.

Record param_disconnected_s : Set := mkDisconnected {
  pd_flags : stopflags_t;
  pd_reason : apc_stop_reason_t;
  pd_maxAllocOutPkt : Z
}.

Record param_received_s : Set := mkReceived {
  pr_apcId : Z;
  pr_flags : Z;
  pr_mySeq : Z;
  pr_yourSeq : Z;
  pr_type : Z
}.

(** ** State *)
Record APCCStats : Set := mkAPCCStats {
  st_sendStat : CStatDelaysCalc;
  st_faultAllocTime : Z;
  st_numRcvPkt : Z
}.
#[export] Instance APCCStats_eta : Eta APCCStats :=
  fun s => mkAPCCStats (st_sendStat s) (st_faultAllocTime s) (st_numRcvPkt s).

Definition APCCStats_reset (s : APCCStats) : APCCStats :=
  mkAPCCStats (sd_clear (st_sendStat s)) 0 0.

Record init_param_t : Set := mkConnParam {
  ip_apcConnect : list Z;
  ip_kaTimeout : Z;
  ip_freeBufTimeout : Z;
  ip_unconfirmedInpPkt : Z;
  ip_swVersion : list Z;
  ip_pApcNotif : bool    (** a notification interface is given *)
}.

Record CAPCConnector : Set := mkConnector {
  m_apcName : list Z;
  m_swVersion : list Z;
  m_pApcNotif : bool;
  m_pSerializer : CAPCSerializer;
  m_intfId : Z;
  m_isWorking : bool;
  m_isConnected : bool;
  m_forceDisconnect : bool;
  m_kaTxTimer : option CAPCKATimer;
  m_kaRxTimer : option CAPCKATimer;
  m_unconfirmedInpPkt : Z;
  m_txTimeout : Z;          (** milliseconds *)
  m_rxTimeout : Z;          (** milliseconds *)
  m_outbufs : list (list Z);
  m_numFreeOutBuf : Z;
  m_minNumFreeOutBuf : Z;
  m_lastReceivedSeqNum : Z;
  m_lastReportedSeqNum : Z;
  m_curFreeBufIdx : Z;
  m_stats : APCCStats;
  m_socket_open : bool;
  m_peerIntfName : list Z;
  m_freeBufWait : Z         (** microseconds *)
}.
#[export] Instance CAPCConnector_eta : Eta CAPCConnector := fun c =>
  mkConnector (m_apcName c) (m_swVersion c) (m_pApcNotif c) (m_pSerializer c) (m_intfId c)
    (m_isWorking c) (m_isConnected c) (m_forceDisconnect c) (m_kaTxTimer c) (m_kaRxTimer c)
    (m_unconfirmedInpPkt c) (m_txTimeout c) (m_rxTimeout c) (m_outbufs c) (m_numFreeOutBuf c)
    (m_minNumFreeOutBuf c) (m_lastReceivedSeqNum c) (m_lastReportedSeqNum c) (m_curFreeBufIdx c)
    (m_stats c) (m_socket_open c) (m_peerIntfName c) (m_freeBufWait c).

Definition newStats : APCCStats :=
  mkAPCCStats (mkStatDelays 0 (map (fun d => mkNumThEvent d 0) DEFAULT_THRESHOLDS)
                            (mkNumThEvent 50000 0) 0) 0 0.

(** The constructor ([createConnection]); the integer products are 32-bit. *)
Definition createConnection (p : init_param_t) : CAPCConnector :=
  let timer := if 0 <? ip_kaTimeout p then Some (createKATimer (ip_kaTimeout p)) else None in
  mkConnector (ip_apcConnect p) (ip_swVersion p) (ip_pApcNotif p)
    (newCAPCSerializer APC_MAX_MSG_SIZE) 0 false false false timer timer (ip_unconfirmedInpPkt p)
    (ip_kaTimeout p / 4) (u32 (ip_kaTimeout p * 2))
    (replicate APC_NUM_OUT_BUFS (replicate APC_MAX_MSG_SIZE 0))
    (Z.of_nat APC_NUM_OUT_BUFS) (Z.of_nat APC_NUM_OUT_BUFS) 0 0 0 newStats true []
    (ip_freeBufTimeout p * 1000).

(** ** Events and environment *)
Inductive conn_event : Set :=
| EvStarted                                    (** apcStarted *)
| EvConnected (p : param_connected_s)          (** apcConnected *)
| EvDisconnected (p : param_disconnected_s)    (** apcDisconnected *)
| EvReceived (p : param_received_s) (payload : list Z)   (** messageReceived *)
| EvWrite (buf : Z) (bytes : list Z)           (** async_write from an output buffer *)
| EvRead                                       (** async_read_some *)
| EvTimer (tx : bool)                          (** a keep-alive timer was started *)
| EvCloseSocket
| EvOverread.                                  (** a string is read beyond the end of the message *)

(** What one call meets: the clock (microseconds), the time the call takes,
    which asynchronous operations throw, and the wake-ups while it waits for a
    buffer (what other threads did with the lock, time since the wait began). *)
Record Env : Type := mkEnv {
  e_now : Z;
  e_elapsed : Z;
  e_writeThrows : bool;
  e_readThrows : bool;
  e_timerThrows : bool;
  e_waits : list ((CAPCConnector -> CAPCConnector) * Z)
}.

Notation CM := (M CAPCConnector conn_event) (only parsing).

(** ** Output buffers *)
Definition incrNumFreeBuf_p : CM unit :=
  modify (fun c => if m_numFreeOutBuf c <? Z.of_nat APC_NUM_OUT_BUFS
                   then c <| m_numFreeOutBuf := u32 (m_numFreeOutBuf c + 1) |> else c).

Definition freeBuf_p : CM unit := incrNumFreeBuf_p.

Definition returnBuf_p : CM unit :=
  incrNumFreeBuf_p ;;
  modify (fun c =>
    let idx := if m_curFreeBufIdx c =? 0 then Z.of_nat APC_NUM_OUT_BUFS else m_curFreeBufIdx c in
    c <| m_curFreeBufIdx := u32 (idx - 1) |>).

(** The waiting loop; the list is finite because the waiting time is. *)
Fixpoint waitFree (ws : list ((CAPCConnector -> CAPCConnector) * Z)) (allow : bool)
    (c : CAPCConnector) : CAPCConnector :=
  if (m_numFreeOutBuf c =? 0) && (m_isWorking c || allow) then
    match ws with
    | [] => c
    | (others, elapsed) :: r =>
        let c := others c in
        if m_freeBufWait c <? elapsed then c else waitFree r allow c
    end
  else c.

Definition takeBuf (c : CAPCConnector) : CAPCConnector :=
  let free := u32 (m_numFreeOutBuf c - 1) in
  let c := c <| m_numFreeOutBuf := free |> in
  let c := if free <? m_minNumFreeOutBuf c then c <| m_minNumFreeOutBuf := free |> else c in
  c <| m_curFreeBufIdx := Z.land (u32 (m_curFreeBufIdx c + 1)) APC_NUM_OUT_BUFS_MASK |>.

(** The index of the buffer, or [None] for the null pointer. *)
Definition getFreeBuf_p (env : Env) (allow : bool) : CM (option Z) :=
  modify (waitFree (e_waits env) allow) ;;
  c ← get;
  if (m_numFreeOutBuf c =? 0) || (negb (m_isWorking c) && negb allow) then mret None
  else modify takeBuf ;; mret (Some (m_curFreeBufIdx c)).

(** ** Sending *)
Definition sendData (env : Env) (type flags mySeq : Z) (p1 p2 : list Z) : CM apc_error_t :=
  c ← get;
  if negb (m_isWorking c) ||
     (negb (m_isConnected c) && (negb (type =? APC_CONNECT) && negb (type =? APC_KA)))
  then mret APC_ERR_NOTCONNECT
  else
    pBuf ← getFreeBuf_p env false;
    match pBuf with
    | None =>
        modify (fun c => c <| m_stats := m_stats c <| st_faultAllocTime := u32 (e_elapsed env) |> |>) ;;
        mret APC_ERR_OUTBUFOVERFLOW
    | Some i =>
        c ← get;
        let '(res, msgSize, m) :=
          prepMsg (m_outbufs c !!! Z.to_nat i) APC_MAX_MSG_SIZE type flags mySeq
                  (m_lastReceivedSeqNum c) p1 p2 in
        modify (fun c => c <| m_outbufs := <[Z.to_nat i := m]> (m_outbufs c) |>) ;;
        if negb (bool_decide (res = APC_OK)) then
          returnBuf_p ;; mret APC_ERR_PKTSERIALIZATION
        else if e_writeThrows env then mret APC_ERR_ASYNC_OPERATION
        else
          emit (EvWrite i (take msgSize m)) ;;
          modify (fun c => c <| m_stats := m_stats c <| st_sendStat :=
                              sd_addEvent (e_elapsed env) (st_sendStat (m_stats c)) |> |>
                             <| m_lastReportedSeqNum := m_lastReceivedSeqNum c |>) ;;
          mret APC_OK
    end.

Definition send_ka_p (env : Env) : CM apc_error_t :=
  sendData env APC_KA APC_HDR_FLAGS_NOTRACK 0 [] [].

(** The bytes of [apc_msg_connect_s] in the memory of the host. *)
Definition connectMsg (c : CAPCConnector) (intfId gpsState netId flags : Z) : list Z :=
  le_bytes 1 APC_PROTO_VER ++ le_bytes 4 flags ++ strncpy0 32 (m_apcName c) ++ le_bytes 4 intfId ++
  le_bytes 1 gpsState ++ le_bytes 4 netId ++ strncpy0 SIZE_STR_VER (m_swVersion c).

Definition connect (env : Env) (intfId mySeq yourSeq gpsState netId flags : Z) : CM apc_error_t :=
  modify (fun c => c <| m_intfId := intfId |> <| m_lastReportedSeqNum := yourSeq |>
                     <| m_lastReceivedSeqNum := yourSeq |>) ;;
  c ← get;
  sendData env APC_CONNECT 0 mySeq (connectMsg c intfId gpsState netId flags) [].

(** ** Stopping *)

(** The wait for all output buffers: at most [n] successful allocations. *)
Fixpoint finishWriting (n : nat) (env : Env) : CM unit :=
  match n with
  | O => mret tt
  | S n' =>
      pBuf ← getFreeBuf_p env true;
      match pBuf with None => mret tt | Some _ => finishWriting n' env end
  end.

Definition stop (env : Env) (reason : apc_stop_reason_t) (stopFlags : stopflags_t)
    (isFinishWriting isSendNotif : bool) : CM unit :=
  c ← get;
  if negb (m_isWorking c) then mret tt
  else
    modify (fun c => c <| m_isWorking := false |>) ;;
    when isFinishWriting (finishWriting APC_NUM_OUT_BUFS env) ;;
    modify (fun c => c <| m_kaTxTimer := None |> <| m_kaRxTimer := None |>) ;;
    c ← get;
    when (m_socket_open c)
      (emit EvCloseSocket ;; modify (fun c => c <| m_socket_open := false |>)) ;;
    modify (fun c => c <| m_isConnected := false |>) ;;
    c ← get;
    when (isSendNotif && m_pApcNotif c)
      (emit (EvDisconnected (mkDisconnected
               (if m_forceDisconnect c then STOP_FL_DISCONNECT else stopFlags) reason
               (u32 (Z.of_nat APC_NUM_OUT_BUFS - m_minNumFreeOutBuf c))))).

Definition disconnect (env : Env) : CM unit :=
  modify (fun c => c <| m_forceDisconnect := true |>) ;;
  _ ← sendData env APC_DISCONNECT APC_HDR_FLAGS_NOTRACK 0 [] [];
  stop env APC_STOP_CLOSE STOP_FL_DISCONNECT true true.

(** ** Receiving *)
Definition async_read_p (env : Env) : CM apc_error_t :=
  if e_readThrows env then mret APC_ERR_ASYNC_OPERATION else emit EvRead ;; mret APC_OK.

Definition start (env : Env) : CM apc_error_t :=
  c ← get;
  when (m_pApcNotif c) (emit EvStarted) ;;
  modify (fun c => c <| m_isWorking := true |>) ;;
  res ←
    match m_kaRxTimer c with
    | None => mret APC_OK
    | Some t =>
        let '(t, res) := startTimer (e_now env) (e_timerThrows env) t in
        modify (fun c => c <| m_kaRxTimer := Some t |>) ;;
        when (bool_decide (res = APC_OK)) (emit (EvTimer false)) ;;
        mret res
    end;
  if negb (bool_decide (res = APC_OK)) then mret res else async_read_p env.

(** The fields of a received CONNECT message, already in host order. *)
Definition connectedParam (m : rxmsg) : param_connected_s :=
  let p := rx_payload m in
  let bytes f := take (widthof apc_msg_connect_s f) (drop (offsetof apc_msg_connect_s f) p) in
  mkConnected (fld apc_msg_connect_s "ver" p) (fld apc_msg_connect_s "netId" p)
    (fld apc_msg_connect_s "sesId" p)
    (strncpy0 (S APC_CONNECTOR_NAME_LENGTH) (bytes "identity"%string))
    (fld apc_msg_connect_s "flags" p) (rx_flags m) (rx_mySeq m) (rx_yourSeq m)
    (strncpy0 SIZE_STR_VER (bytes "version"%string)).

(** The identity as a C string: its end is sought beyond the field, too. *)
Definition peerIdentity (m : rxmsg) : list Z := drop (offsetof apc_msg_connect_s "identity") (rx_payload m).

Definition updateLastReceived (mySeq : Z) : CM unit :=
  modify (fun c => if m_lastReceivedSeqNum c <? mySeq then c <| m_lastReceivedSeqNum := mySeq |> else c).

Definition messageReceived (env : Env) (m : rxmsg) : CM apc_error_t :=
  c ← get;
  let type := rx_type m in
  if negb (m_isConnected c) && negb (type =? APC_CONNECT) && negb (type =? APC_DISCONNECT)
     && negb (type =? APC_KA)
  then mret APC_ERR_PROTOCOL
  else
    modify (fun c => c <| m_stats := m_stats c <| st_numRcvPkt := u32 (st_numRcvPkt (m_stats c) + 1) |> |>) ;;
    if type =? APC_CONNECT then
      modify (fun c => c <| m_isConnected := true |>) ;;
      when (m_pApcNotif c)
        (when (negb (existsb (Z.eqb 0) (peerIdentity m))) (emit EvOverread) ;;
         modify (fun c => c <| m_peerIntfName := cstr (peerIdentity m) |>) ;;
         emit (EvConnected (connectedParam m))) ;;
      res ←
        match m_kaTxTimer c with
        | None => mret APC_OK
        | Some t =>
            let '(t, res) := startTimer (e_now env) (e_timerThrows env) t in
            modify (fun c => c <| m_kaTxTimer := Some t |>) ;;
            when (bool_decide (res = APC_OK)) (emit (EvTimer true)) ;;
            mret res
        end;
      if negb (bool_decide (res = APC_OK)) then mret res
      else updateLastReceived (rx_mySeq m) ;; mret APC_OK
    else if type =? APC_DISCONNECT then
      updateLastReceived (rx_mySeq m) ;; mret APC_STOP_CONNECTOR
    else
      when (m_pApcNotif c)
        (emit (EvReceived (mkReceived (m_intfId c) (rx_flags m) (rx_mySeq m) (rx_yourSeq m) type)
                          (rx_payload m))) ;;
      updateLastReceived (rx_mySeq m) ;; mret APC_OK.

(** [messageReceived] as the handler of the serializer: its state is the
    connector and the events so far. *)
Definition rxHandler (env : Env) (m : rxmsg) (h : CAPCConnector * list conn_event)
  : (CAPCConnector * list conn_event) * apc_error_t :=
  let '(c, t, res) := messageReceived env m (fst h) in ((c, snd h ++ t), res).

(** [m_pSerializer->dataReceived]; [None] from the serializer (a write outside
    its buffer) is excluded by its invariant and has no continuation here. *)
Definition serializerReceive (env : Env) (data : list Z) : CM apc_error_t := fun c =>
  match dataReceived (rxHandler env) (m_pSerializer c) (c, []) data with
  | Some (s, (c', t), res) => (c' <| m_pSerializer := s |>, t, res)
  | None => (c, [], APC_ERR_SIZE)
  end.

Definition handle_read_p (env : Env) (error : bool) (data : list Z) : CM unit :=
  if error then stop env APC_STOP_READ STOP_FL_OFFLINE false true
  else
    go ←
      (if (0 <? length data)%nat then
         res ← serializerReceive env data;
         if negb (bool_decide (res = APC_OK)) then
           (if decide (res = APC_STOP_CONNECTOR)
            then stop env APC_DISCONNECT_MSG STOP_FL_DISCONNECT false true
            else stop env APC_STOP_PKTPARSE STOP_FL_OFFLINE false true) ;;
           mret false
         else
           c ← get;
           if negb (m_isWorking c) then mret false
           else
             modify (fun c => c <| m_kaRxTimer := option_map (recordActivity (e_now env)) (m_kaRxTimer c) |>) ;;
             mret true
       else mret true);
    if negb go then mret tt
    else
      res ← async_read_p env;
      c ← get;
      res ← (if bool_decide (res = APC_OK) &&
                (m_unconfirmedInpPkt c <? u32 (m_lastReceivedSeqNum c - m_lastReportedSeqNum c))
             then send_ka_p env else mret res);
      when (negb (bool_decide (res = APC_OK))) (stop env APC_STOP_READ STOP_FL_OFFLINE false true).

(** ** Completions and timers *)
Definition handle_write_p (env : Env) (error : bool) : CM unit :=
  if error then freeBuf_p
  else
    modify (fun c => c <| m_kaTxTimer := option_map (recordActivity (e_now env)) (m_kaTxTimer c) |>) ;;
    freeBuf_p.

(** Times are microseconds, the timeouts milliseconds. *)
Definition ka_timeout_rx_p (env : Env) (lastAction : Z) : CM bool :=
  c ← get;
  if m_rxTimeout c * 1000 <=? e_now env - lastAction
  then stop env APC_STOP_TIMEOUT STOP_FL_OFFLINE false true ;; mret false
  else mret true.

Definition ka_timeout_tx_p (env : Env) (lastAction : Z) : CM bool :=
  c ← get;
  if m_txTimeout c * 1000 <=? e_now env - lastAction then
    res ← send_ka_p env;
    if negb (bool_decide (res = APC_OK))
    then stop env APC_STOP_WRITE STOP_FL_OFFLINE false true ;; mret false
    else mret true
  else mret true.

(** ** Other operations *)
Definition clearIntfId : CM unit := modify (fun c => c <| m_intfId := 0 |>).
Definition clearStats : CM unit := modify (fun c => c <| m_stats := APCCStats_reset (m_stats c) |>).
Definition getAPCCStatistics (c : CAPCConnector) : CStatDelaysCalc * Z * Z :=
  (st_sendStat (m_stats c), st_faultAllocTime (m_stats c), st_numRcvPkt (m_stats c)).

Record property_t : Set := mkProperty {
  pp_isConnected : bool;
  pp_intfId : Z;
  pp_localName : list Z;
  pp_peerName : list Z;
  pp_curAllocOutBuf : Z;
  pp_maxAllocOutBuf : Z;
  pp_numReceivedPkt : Z;
  pp_sendStat : CStatDelaysCalc
}.

(** [isConnected] is set whatever the state; the addresses come from the socket. *)
Definition getProperty (c : CAPCConnector) : property_t :=
  mkProperty true (m_intfId c) (m_apcName c) (m_peerIntfName c)
    (u16 (Z.of_nat APC_NUM_OUT_BUFS - m_numFreeOutBuf c))
    (u16 (Z.of_nat APC_NUM_OUT_BUFS - m_minNumFreeOutBuf c))
    (st_numRcvPkt (m_stats c)) (st_sendStat (m_stats c)).

(** ** Invariants *)

(** The pool of output buffers. *)
Record bufs_ok (c : CAPCConnector) : Prop := {
  bo_free : 0 <= m_numFreeOutBuf c <= Z.of_nat APC_NUM_OUT_BUFS;
  bo_min : 0 <= m_minNumFreeOutBuf c <= m_numFreeOutBuf c;
  bo_idx : 0 <= m_curFreeBufIdx c < Z.of_nat APC_NUM_OUT_BUFS;
  bo_num : length (m_outbufs c) = APC_NUM_OUT_BUFS;
  bo_len : Forall (fun b => length b = APC_MAX_MSG_SIZE) (m_outbufs c)
}.

Definition ser_ok (c : CAPCConnector) : Prop :=
  ser_wf (m_pSerializer c) /\ length (m_inpBuf (m_pSerializer c)) = APC_MAX_MSG_SIZE.

(** The pool with the writes that are pending, oldest first.  Boost completes
    the writes of one socket in the order they were started. *)
Inductive pool_step : CAPCConnector * list Z -> CAPCConnector * list Z -> Prop :=
| ps_alloc c fl : m_numFreeOutBuf c <> 0 ->
    pool_step (c, fl) (takeBuf c, fl ++ [m_curFreeBufIdx c])
| ps_complete c i fl : pool_step (c, i :: fl) (st_of freeBuf_p c, fl)
| ps_return c i fl : pool_step (c, fl ++ [i]) (st_of returnBuf_p c, fl)
| ps_other c c' fl :     (** anything else the connector does *)
    m_numFreeOutBuf c' = m_numFreeOutBuf c -> m_curFreeBufIdx c' = m_curFreeBufIdx c ->
    pool_step (c, fl) (c', fl).

Inductive pool_reach (p : init_param_t) : CAPCConnector * list Z -> Prop :=
| pr_init : pool_reach p (createConnection p, [])
| pr_step x y : pool_reach p x -> pool_step x y -> pool_reach p y.

(** The pending writes are the last buffers given out, in turn. *)
Definition pool_inv (x : CAPCConnector * list Z) : Prop :=
  let '(c, fl) := x in
  (m_numFreeOutBuf c + Z.of_nat (length fl) = 2 /\ 0 <= m_numFreeOutBuf c) /\
  0 <= m_curFreeBufIdx c < 2 /\
  forall k i, fl !! k = Some i -> i = (m_curFreeBufIdx c - Z.of_nat (length fl) + Z.of_nat k) mod 2.

(** Other threads, while this one waits, keep the invariant as well. *)
Definition env_ok (env : Env) : Prop :=
  Forall (fun w => forall c, bufs_ok c -> bufs_ok (fst w c)) (e_waits env).

Definition any_event (e : conn_event) : Prop := True.

Lemma bufs_ok_upd c c' :
  bufs_ok c -> m_numFreeOutBuf c' = m_numFreeOutBuf c -> m_minNumFreeOutBuf c' = m_minNumFreeOutBuf c ->
  m_curFreeBufIdx c' = m_curFreeBufIdx c -> m_outbufs c' = m_outbufs c -> bufs_ok c'.
Proof. intros [H1 H2 H3 H4 H5] E1 E2 E3 E4. split; rewrite ?E1, ?E2, ?E3, ?E4; done. Qed.

Ltac bufs_upd := intros; eapply bufs_ok_upd; [eassumption|reflexivity..].

Lemma createConnection_ok p : bufs_ok (createConnection p) /\ ser_ok (createConnection p).
Proof.
  split.
  - split; cbn [createConnection m_numFreeOutBuf m_minNumFreeOutBuf m_curFreeBufIdx m_outbufs];
      unfold APC_NUM_OUT_BUFS; try lia; [done|].
    apply Forall_replicate, length_replicate.
  - split; [apply newCAPCSerializer_wf; unfold APC_MAX_MSG_SIZE; cbn; lia|].
    cbn [createConnection m_pSerializer newCAPCSerializer m_inpBuf]. apply length_replicate.
Qed.

Lemma incrNumFreeBuf_keeps : keeps bufs_ok any_event incrNumFreeBuf_p.
Proof.
  apply keeps_modify. intros c [H1 H2 H3 H4 H5].
  destruct (Z.ltb_spec (m_numFreeOutBuf c) (Z.of_nat APC_NUM_OUT_BUFS)); [|by split].
  split; unfold APC_NUM_OUT_BUFS in *;
    cbn [m_numFreeOutBuf m_minNumFreeOutBuf m_curFreeBufIdx m_outbufs upd];
    rewrite ?u32_small by lia; (done || lia).
Qed.

Lemma returnBuf_keeps : keeps bufs_ok any_event returnBuf_p.
Proof.
  unfold returnBuf_p. apply keeps_bind; [apply incrNumFreeBuf_keeps|intros _].
  apply keeps_modify. intros c [H1 H2 H3 H4 H5].
  split; cbn [m_numFreeOutBuf m_minNumFreeOutBuf m_curFreeBufIdx m_outbufs upd]; try done.
  unfold APC_NUM_OUT_BUFS in *.
  destruct (Z.eqb_spec (m_curFreeBufIdx c) 0); rewrite u32_small; lia.
Qed.

Lemma takeBuf_ok c : bufs_ok c -> 0 < m_numFreeOutBuf c -> bufs_ok (takeBuf c).
Proof.
  intros [H1 H2 H3 H4 H5] Hpos. unfold takeBuf. cbv zeta.
  assert (Hidx : 0 <= Z.land (u32 (m_curFreeBufIdx c + 1)) APC_NUM_OUT_BUFS_MASK < 2).
  { change APC_NUM_OUT_BUFS_MASK with (Z.ones 1). rewrite Z.land_ones by lia.
    apply Z.mod_pos_bound. lia. }
  unfold APC_NUM_OUT_BUFS in *. rewrite (u32_small (m_numFreeOutBuf c - 1)) by lia.
  destruct (Z.ltb_spec (m_numFreeOutBuf c - 1) (m_minNumFreeOutBuf (c <| m_numFreeOutBuf := m_numFreeOutBuf c - 1 |>))) as [Hlt|Hge];
    cbn [m_minNumFreeOutBuf upd] in *;
    split; unfold APC_NUM_OUT_BUFS in *;
    cbn [m_numFreeOutBuf m_minNumFreeOutBuf m_curFreeBufIdx m_outbufs upd]; (done || lia).
Qed.

Lemma waitFree_ok ws allow c :
  Forall (fun w => forall c, bufs_ok c -> bufs_ok (fst w c)) ws -> bufs_ok c -> bufs_ok (waitFree ws allow c).
Proof.
  intros Hws; revert c; induction Hws as [|[o el] ws Hw _ IH]; intros c Hc; cbn [waitFree];
    destruct (_ && _); try done.
  cbn [fst] in Hw. destruct (_ <? _); auto.
Qed.

Lemma getFreeBuf_keeps env allow : env_ok env -> keeps bufs_ok any_event (getFreeBuf_p env allow).
Proof.
  intros He. unfold getFreeBuf_p. apply keeps_bind.
  { apply keeps_modify. intros c Hc. by apply waitFree_ok. }
  intros _. apply keeps_read. intros c Hc.
  destruct (Z.eqb_spec (m_numFreeOutBuf c) 0) as [|Hne]; [by split|]. cbn [orb].
  destruct (negb (m_isWorking c) && negb allow); [by split|].
  apply keeps_at_bind; [|intros; apply keeps_ret]. apply keeps_at_modify.
  apply takeBuf_ok; [done|]. pose proof (bo_free _ Hc). lia.
Qed.

Lemma prepMsg_length msg maxSize t f ms ys p1 p2 :
  length msg = maxSize -> length (snd (prepMsg msg maxSize t f ms ys p1 p2)) = length msg.
Proof.
  intros Hm. unfold prepMsg. cbv zeta. change (sizeof apc_hdr_s) with 16%nat.
  destruct (Nat.ltb_spec maxSize (length p1 + length p2 + 16)); [done|].
  match goal with |- context[convert ?c ?t ?p] =>
    pose proof (convert_length c t p) as Hl; destruct (convert c t p) as [res p'] end.
  cbn [snd] in *.
  rewrite !length_overwrite; rewrite ?length_overwrite; rewrite ?writeHdr_length;
    rewrite ?Hl, ?length_take, ?length_drop, ?length_overwrite; rewrite ?length_overwrite;
    rewrite ?writeHdr_length; lia.
Qed.

#[export] Hint Resolve incrNumFreeBuf_keeps returnBuf_keeps getFreeBuf_keeps : apb_keeps.

Lemma store_ok c i m :
  bufs_ok c -> ((i < APC_NUM_OUT_BUFS)%nat -> length m = APC_MAX_MSG_SIZE) ->
  bufs_ok (c <| m_outbufs := <[i := m]> (m_outbufs c) |>).
Proof.
  intros [H1 H2 H3 H4 H5] Hm.
  split; cbn [m_numFreeOutBuf m_minNumFreeOutBuf m_curFreeBufIdx m_outbufs upd]; try done.
  - by rewrite length_insert.
  - destruct (decide (i < length (m_outbufs c))%nat).
    + apply Forall_insert; [done|]. apply Hm. lia.
    + by rewrite list_insert_ge by lia.
Qed.

Lemma sendData_keeps env type flags mySeq p1 p2 :
  env_ok env -> keeps bufs_ok any_event (sendData env type flags mySeq p1 p2).
Proof.
  intros He. unfold sendData. apply keeps_bind; [apply keeps_get|intros c].
  apply keeps_if; [apply keeps_ret|]. apply keeps_bind; [by apply getFreeBuf_keeps|intros [i|]].
  - apply keeps_read. intros s Hs.
    pose proof (prepMsg_length (m_outbufs s !!! Z.to_nat i) APC_MAX_MSG_SIZE type flags mySeq
                  (m_lastReceivedSeqNum s) p1 p2) as Hl.
    destruct (prepMsg _ _ _ _ _ _ _ _) as [[res n] m]. cbn [snd] in Hl.
    apply keeps_at_bind.
    + apply keeps_at_modify, store_ok; [done|]. intros Hi.
      destruct (lookup_lt_is_Some_2 (m_outbufs s) (Z.to_nat i)) as [b Hb]; [by rewrite (bo_num _ Hs)|].
      rewrite (list_lookup_total_correct _ _ _ Hb) in Hl.
      pose proof (bo_len _ Hs) as Hlen. rewrite Forall_lookup in Hlen.
      rewrite Hl; by eapply Hlen.
    + intros _. keeps_auto; try done. bufs_upd.
  - keeps_auto. bufs_upd.
Qed.
#[export] Hint Resolve sendData_keeps : apb_keeps.

Lemma finishWriting_keeps n env : env_ok env -> keeps bufs_ok any_event (finishWriting n env).
Proof. intros He. induction n; cbn [finishWriting]; keeps_auto. Qed.
#[export] Hint Resolve finishWriting_keeps : apb_keeps.

Lemma stop_keeps env r f w n : env_ok env -> keeps bufs_ok any_event (stop env r f w n).
Proof. intros He. unfold stop. keeps_auto; try done; bufs_upd. Qed.
#[export] Hint Resolve stop_keeps : apb_keeps.

Lemma messageReceived_keeps env m : keeps bufs_ok any_event (messageReceived env m).
Proof.
  unfold messageReceived, updateLastReceived, startTimer.
  keeps_auto; try done; try bufs_upd; intros s Hs; destruct (_ <? _); try done;
    (eapply bufs_ok_upd; [eassumption|reflexivity..]).
Qed.
#[export] Hint Resolve messageReceived_keeps : apb_keeps.

Lemma serializerReceive_keeps env data : keeps bufs_ok any_event (serializerReceive env data).
Proof.
  intros c Hc. unfold serializerReceive, st_of, out_of.
  destruct (dataReceived _ _ _ _) as [[[s [c' t]] res]|] eqn:E; [|by split].
  cbn [fst snd]. split; [|by apply Forall_true].
  assert (Hc' : bufs_ok c').
  { apply (rxLoop_handler _ (fun h => bufs_ok (fst h))) in E; [exact E| |exact Hc].
    intros m [c1 t1] H1. unfold rxHandler. cbn [fst snd] in *.
    pose proof (messageReceived_keeps env m c1 H1) as [H2 _]. unfold st_of in H2.
    by destruct (messageReceived env m c1) as [[c2 t2] r2]. }
  by eapply bufs_ok_upd.
Qed.
#[export] Hint Resolve serializerReceive_keeps : apb_keeps.

Lemma async_read_keeps (I : CAPCConnector -> Prop) env : keeps I any_event (async_read_p env).
Proof. unfold async_read_p. by keeps_auto. Qed.
#[export] Hint Resolve async_read_keeps : apb_keeps.

Lemma handle_read_keeps env error data : env_ok env -> keeps bufs_ok any_event (handle_read_p env error data).
Proof. intros He. unfold handle_read_p, send_ka_p. keeps_auto. bufs_upd. Qed.

Lemma handle_write_keeps env error : keeps bufs_ok any_event (handle_write_p env error).
Proof. unfold handle_write_p, freeBuf_p. keeps_auto. bufs_upd. Qed.

Lemma ka_rx_keeps env last : env_ok env -> keeps bufs_ok any_event (ka_timeout_rx_p env last).
Proof. intros He. unfold ka_timeout_rx_p. keeps_auto. Qed.
Lemma ka_tx_keeps env last : env_ok env -> keeps bufs_ok any_event (ka_timeout_tx_p env last).
Proof. intros He. unfold ka_timeout_tx_p, send_ka_p. keeps_auto. Qed.
Lemma start_keeps env : keeps bufs_ok any_event (start env).
Proof. unfold start, startTimer. keeps_auto; try done; bufs_upd. Qed.
Lemma connect_keeps env i m y g n f : env_ok env -> keeps bufs_ok any_event (connect env i m y g n f).
Proof. intros He. unfold connect. keeps_auto. bufs_upd. Qed.
Lemma disconnect_keeps env : env_ok env -> keeps bufs_ok any_event (disconnect env).
Proof. intros He. unfold disconnect. keeps_auto. bufs_upd. Qed.

(** ** The pool of buffers *)
Lemma idx_next i : 0 <= i < 2 -> Z.land (u32 (i + 1)) APC_NUM_OUT_BUFS_MASK = (i + 1) mod 2.
Proof.
  intros. rewrite u32_small by lia. change APC_NUM_OUT_BUFS_MASK with (Z.ones 1).
  by rewrite Z.land_ones by lia.
Qed.

Lemma pool_step_inv x y : pool_inv x -> pool_step x y -> pool_inv y.
Proof.
  intros Hx Hs; destruct Hs as [c fl Hne|c i fl|c i fl|c c' fl E1 E2]; cbn [pool_inv] in *;
    destruct Hx as (Hn & Hi & Hall).
  - assert (E1 : m_numFreeOutBuf (takeBuf c) = m_numFreeOutBuf c - 1).
    { unfold takeBuf. cbv zeta. destruct (_ <? _); cbn [m_numFreeOutBuf upd]; rewrite u32_small; lia. }
    assert (E2 : m_curFreeBufIdx (takeBuf c) = (m_curFreeBufIdx c + 1) mod 2).
    { unfold takeBuf. cbv zeta. destruct (_ <? _); cbn [m_curFreeBufIdx upd]; by apply idx_next. }
    rewrite E1, E2, length_app. cbn [length]. pose proof (Z.mod_pos_bound (m_curFreeBufIdx c + 1) 2).
    split; [lia|]. split; [lia|]. intros k j [Hk|[Hk Hj]]%lookup_app_Some.
    + rewrite (Hall k j Hk). dlia.
    + apply list_lookup_singleton_Some in Hj as [Hj <-]. dlia.
  - unfold freeBuf_p, incrNumFreeBuf_p, modify, st_of. cbn [fst].
    simpl length in Hn.
    destruct (Z.ltb_spec (m_numFreeOutBuf c) (Z.of_nat APC_NUM_OUT_BUFS));
      unfold APC_NUM_OUT_BUFS in *; [|lia].
    cbn [m_numFreeOutBuf m_curFreeBufIdx upd]. rewrite u32_small by lia.
    split; [lia|]. split; [done|]. intros k j Hk. rewrite (Hall (S k) j Hk). cbn [length]. f_equal. lia.
  - rewrite length_app in *. cbn [length] in *.
    unfold returnBuf_p. unfold st_of. rewrite run_bind. cbn [fst].
    unfold incrNumFreeBuf_p, modify, st_of, res_of. cbn [fst snd].
    destruct (Z.ltb_spec (m_numFreeOutBuf c) (Z.of_nat APC_NUM_OUT_BUFS));
      unfold APC_NUM_OUT_BUFS in *; [|lia].
    cbn [m_numFreeOutBuf m_curFreeBufIdx upd]. rewrite (u32_small (m_numFreeOutBuf c + 1)) by lia.
    split; [lia|].
    assert (Hk : forall k j, fl !! k = Some j ->
      j = (m_curFreeBufIdx c - Z.of_nat (length fl + 1) + Z.of_nat k) mod 2)
      by (intros k j Hk; apply (Hall k j); by apply lookup_app_l_Some).
    destruct (Z.eqb_spec (m_curFreeBufIdx c) 0); rewrite u32_small by lia;
      (split; [lia|]; intros k j Hkj; rewrite (Hk k j Hkj); dlia).
  - by rewrite E1, E2.
Qed.

Lemma pool_reach_inv p x : pool_reach p x -> pool_inv x.
Proof.
  induction 1 as [|x y _ IH Hs]; [|by eapply pool_step_inv].
  unfold pool_inv. cbn [createConnection m_numFreeOutBuf m_curFreeBufIdx length]. unfold APC_NUM_OUT_BUFS.
  split; [split; lia|]. split; [lia|]. intros k i. by rewrite lookup_nil.
Qed.

(** ** Running a command *)

Lemma waitFree_now ws allow c : m_numFreeOutBuf c <> 0 -> waitFree ws allow c = c.
Proof. intros H%Z.eqb_neq. destruct ws as [|[o e] ws]; cbn [waitFree]; by rewrite H. Qed.

Definition send_open (c : CAPCConnector) (type : Z) : bool :=
  m_isWorking c && (m_isConnected c || (type =? APC_CONNECT) || (type =? APC_KA)).

Lemma sendData_open env c type flags mySeq p1 p2 :
  send_open c type = true -> m_numFreeOutBuf c <> 0 ->
  let i := m_curFreeBufIdx c in
  let '(res, n, m) := prepMsg (m_outbufs c !!! Z.to_nat i) APC_MAX_MSG_SIZE type flags mySeq
                              (m_lastReceivedSeqNum c) p1 p2 in
  let c1 := takeBuf c <| m_outbufs := <[Z.to_nat i := m]> (m_outbufs c) |> in
  sendData env type flags mySeq p1 p2 c =
    if negb (bool_decide (res = APC_OK)) then (st_of returnBuf_p c1, [], APC_ERR_PKTSERIALIZATION)
    else if e_writeThrows env then (c1, [], APC_ERR_ASYNC_OPERATION)
    else (c1 <| m_stats := m_stats c <| st_sendStat := sd_addEvent (e_elapsed env) (st_sendStat (m_stats c)) |> |>
             <| m_lastReportedSeqNum := m_lastReceivedSeqNum c |>,
          [EvWrite i (take n m)], APC_OK).
Proof.
  intros Ho Hne i. unfold send_open in Ho.
  assert (Ht : m_outbufs (takeBuf c) = m_outbufs c /\ m_lastReceivedSeqNum (takeBuf c) = m_lastReceivedSeqNum c
               /\ m_stats (takeBuf c) = m_stats c)
    by (unfold takeBuf; cbv zeta; destruct (_ <? _); done).
  destruct Ht as (Ht1 & Ht2 & Ht3).
  destruct (prepMsg _ _ _ _ _ _ _ _) as [[res n] m] eqn:Hp.
  unfold sendData, getFreeBuf_p. runM.
  assert (negb (m_isWorking c) || negb (m_isConnected c) && (negb (type =? APC_CONNECT) && negb (type =? APC_KA)) = false) as ->
    by (destruct (m_isWorking c), (m_isConnected c), (type =? APC_CONNECT), (type =? APC_KA); done).
  rewrite waitFree_now by done. apply Z.eqb_neq in Hne as Hne'. rewrite Hne'. cbn [orb].
  assert (negb (m_isWorking c) && negb false = false) as ->
    by (destruct (m_isWorking c); [done|discriminate Ho]).
  cbv beta iota. rewrite Ht1, Ht2. fold i. rewrite Hp. cbv beta iota.
  destruct (negb (bool_decide (res = APC_OK))).
  - rewrite Ht1. reflexivity.
  - destruct (e_writeThrows env); rewrite Ht1; [done|]. cbn [app]. by rewrite <- Ht2, <- Ht3.
Qed.

Lemma finishWriting_quiet n env c0 :
  e_waits env = [] ->
  keeps (fun c => m_pApcNotif c = m_pApcNotif c0 /\ m_forceDisconnect c = m_forceDisconnect c0 /\
                  m_socket_open c = m_socket_open c0 /\ m_isWorking c = m_isWorking c0)
        (fun _ => False) (finishWriting n env).
Proof.
  intros Hw. induction n as [|n IH]; cbn [finishWriting]; [apply keeps_ret|].
  apply keeps_bind; [|intros [i|]; [exact IH|apply keeps_ret]].
  unfold getFreeBuf_p. rewrite Hw. keeps_auto; intros c Hc.
  - cbn [waitFree]. by destruct (_ && _).
  - unfold takeBuf. cbv zeta. by destruct (_ <? _).
Qed.

Lemma Forall_False_nil {A} (l : list A) : Forall (fun _ => False) l -> l = [].
Proof. destruct l; [done|]. by intros [[] _]%Forall_cons_1. Qed.

Definition stopped (c : CAPCConnector) : Prop :=
  m_isWorking c = false /\ m_isConnected c = false /\ m_kaTxTimer c = None /\
  m_kaRxTimer c = None /\ m_socket_open c = false.

Lemma stop_run env reason fl fin c :
  m_isWorking c = true -> m_pApcNotif c = true -> e_waits env = [] ->
  exists c' n, stop env reason fl fin true c =
    (c', (if m_socket_open c then [EvCloseSocket] else []) ++
         [EvDisconnected (mkDisconnected (if m_forceDisconnect c then STOP_FL_DISCONNECT else fl) reason n)],
     tt) /\ stopped c'.
Proof.
  intros Hw Hn He. unfold stop. runM. rewrite Hw. cbn [negb].
  set (c1 := c <| m_isWorking := false |>).
  assert (exists c2, (if fin return CM unit then finishWriting APC_NUM_OUT_BUFS env else mret tt) c1 = (c2, [], tt) /\
    m_pApcNotif c2 = m_pApcNotif c /\ m_forceDisconnect c2 = m_forceDisconnect c /\
    m_socket_open c2 = m_socket_open c /\ m_isWorking c2 = false) as (c2 & Hc2 & H1 & H2 & H3 & H4).
  { destruct fin; [|exists c1; done].
    destruct (finishWriting_quiet APC_NUM_OUT_BUFS env c1 He c1) as [H5 H6]; [done|].
    unfold st_of, out_of in *.
    destruct (finishWriting APC_NUM_OUT_BUFS env c1) as [[c2 t] []]. cbn [fst snd] in *.
    apply Forall_False_nil in H6 as ->. by exists c2. }
  unfold mret, M_ret in Hc2. rewrite Hc2.
  cbv beta iota. cbn [m_socket_open m_pApcNotif upd]. rewrite H3.
  destruct (m_socket_open c); cbn [app andb m_socket_open m_pApcNotif m_forceDisconnect m_minNumFreeOutBuf upd];
    rewrite H1, Hn, H2; cbn [app]; do 2 eexists; (split; [reflexivity|]);
    split_and!; try done; cbn [m_socket_open m_isWorking upd]; by rewrite ?H3.
Qed.

(** ** The serializer of a connector *)

(** Other threads do not touch the serializer and do not restart the connector. *)
Definition env_ser (env : Env) : Prop :=
  Forall (fun w => forall c, m_pSerializer (fst w c) = m_pSerializer c /\
                             m_isWorking (fst w c) = m_isWorking c) (e_waits env).

Lemma waitFree_ser ws allow c :
  Forall (fun w => forall c, m_pSerializer (fst w c) = m_pSerializer c /\
                             m_isWorking (fst w c) = m_isWorking c) ws ->
  m_pSerializer (waitFree ws allow c) = m_pSerializer c /\ m_isWorking (waitFree ws allow c) = m_isWorking c.
Proof.
  intros Hws; revert c; induction Hws as [|[o el] ws Hw _ IH]; intros c; cbn [waitFree];
    destruct (_ && _); try done.
  cbn [fst] in Hw. destruct (Hw c) as [E1 E2]. destruct (_ <? _); [done|].
  destruct (IH (o c)) as [E3 E4]. split; congruence.
Qed.

Definition not_read (e : conn_event) : Prop := e <> EvRead.

(** Any property of the serializer and the working flag survives a command that
    does not set them. *)
Definition ser_only (I : CAPCConnector -> Prop) : Prop :=
  forall c c', m_pSerializer c' = m_pSerializer c -> m_isWorking c' = m_isWorking c -> I c -> I c'.

Lemma getFreeBuf_ser I env allow : ser_only I -> env_ser env -> keeps I not_read (getFreeBuf_p env allow).
Proof.
  intros HI He. unfold getFreeBuf_p. keeps_auto; intros c Hc.
  - destruct (waitFree_ser (e_waits env) allow c He). eapply HI; [..|exact Hc]; done.
  - eapply HI; [..|exact Hc]; unfold takeBuf; cbv zeta; by destruct (_ <? _).
Qed.

Lemma incr_ser I : ser_only I -> keeps I not_read incrNumFreeBuf_p.
Proof.
  intros HI. apply keeps_modify. intros c Hc. eapply HI; [..|exact Hc]; by destruct (_ <? _).
Qed.

Lemma returnBuf_ser I : ser_only I -> keeps I not_read returnBuf_p.
Proof.
  intros HI. unfold returnBuf_p. apply keeps_bind; [by apply incr_ser|intros _].
  apply keeps_modify. intros c Hc. (eapply HI; [..|exact Hc]; done).
Qed.
#[local] Hint Resolve getFreeBuf_ser incr_ser returnBuf_ser : apb_keeps.

Lemma sendData_ser I env t f ms p1 p2 : ser_only I -> env_ser env -> keeps I not_read (sendData env t f ms p1 p2).
Proof.
  intros HI He. unfold sendData. keeps_auto; try done; intros c1 Hc; (eapply HI; [..|exact Hc]; done).
Qed.

Lemma finishWriting_ser I n env : ser_only I -> env_ser env -> keeps I not_read (finishWriting n env).
Proof. intros HI He. induction n; cbn [finishWriting]; keeps_auto. Qed.
#[local] Hint Resolve finishWriting_ser sendData_ser : apb_keeps.

Lemma stop_ser env r f w n : env_ser env -> keeps ser_ok not_read (stop env r f w n).
Proof.
  intros He. assert (HI : ser_only ser_ok) by (intros c c' E _; unfold ser_ok; by rewrite E).
  unfold stop. keeps_auto; try done; intros c1 Hc; (eapply HI; [..|exact Hc]; done).
Qed.

Lemma stop_not_working env r f w n c :
  env_ser env -> m_isWorking (st_of (stop env r f w n) c) = false /\ Forall not_read (out_of (stop env r f w n) c).
Proof.
  intros He.
  set (I := fun c => m_isWorking c = false).
  assert (HI : ser_only I) by (intros c1 c2 _ E H; unfold I in *; by rewrite E).
  change (keeps_at I not_read (stop env r f w n) c). unfold stop.
  destruct (m_isWorking c) eqn:Hw.
  - unfold keeps_at, st_of at 1, out_of at 1. rewrite run_bind. cbn [res_of get st_of out_of fst snd app].
    rewrite Hw. cbn [negb].
    change (keeps_at I not_read
      (modify (fun c => c <| m_isWorking := false |>) ;;
       when w (finishWriting APC_NUM_OUT_BUFS env) ;;
       modify (fun c => c <| m_kaTxTimer := None |> <| m_kaRxTimer := None |>) ;;
       c ← get;
       when (m_socket_open c)
         (emit EvCloseSocket ;; modify (fun c => c <| m_socket_open := false |>)) ;;
       modify (fun c => c <| m_isConnected := false |>) ;;
       c ← get;
       when (n && m_pApcNotif c)
         (emit (EvDisconnected (mkDisconnected
                  (if m_forceDisconnect c then STOP_FL_DISCONNECT else f) r
                  (u32 (Z.of_nat APC_NUM_OUT_BUFS - m_minNumFreeOutBuf c)))))) c).
    apply keeps_at_bind; [by apply keeps_at_modify|intros _].
    keeps_auto; try done; intros c1 Hc; (eapply HI; [..|exact Hc]; done).
  - unfold keeps_at, st_of at 1, out_of at 1. rewrite run_bind. cbn [res_of get st_of out_of fst snd app].
    rewrite Hw. cbn. by split.
Qed.

Lemma messageReceived_ser I env m : ser_only I -> keeps I not_read (messageReceived env m).
Proof.
  intros HI. unfold messageReceived, updateLastReceived, startTimer.
  keeps_auto; try done; intros c1 Hc; try ((eapply HI; [..|exact Hc]; done));
    destruct (_ <? _); try done; (eapply HI; [..|exact Hc]; done).
Qed.

Lemma serializerReceive_ser env data c :
  ser_ok c ->
  Forall not_read (out_of (serializerReceive env data) c) /\
  (res_of (serializerReceive env data) c = APC_OK -> ser_ok (st_of (serializerReceive env data) c)).
Proof.
  intros [Hwf Hl]. unfold serializerReceive, out_of, res_of, st_of, dataReceived.
  rewrite rxLoop_bytes by done.
  destruct (rxBytes (rxHandler env) (m_pSerializer c) (c, []) data) as [[s [c' t]] res] eqn:E.
  cbn [fst snd]. split.
  - assert (Hr : rxLoop (rxHandler env) (length data) (m_pSerializer c) (c, []) data APC_OK
                 = Some (s, (c', t), res)) by by rewrite rxLoop_bytes, E.
    apply (rxLoop_handler _ (fun h => Forall not_read (snd h))) in Hr; [exact Hr| |by constructor].
    intros m [c1 t1] H1. unfold rxHandler. cbn [fst snd] in *.
    destruct (messageReceived_ser (fun _ => True) env m ltac:(by intros ????) c1 I) as [_ H2].
    unfold out_of in H2. destruct (messageReceived env m c1) as [[c2 t2] r2]. cbn [fst snd] in *.
    by apply Forall_app.
  - intros ->. apply rxBytes_wf in E as [H1 H2]; [|done]. split; cbn [m_pSerializer upd]; [done|congruence].
Qed.

(** One round of [handle_read_p] ends well: the serializer is in order, or the
    connector has stopped and asks for no further read. *)
Definition read_end (c : CAPCConnector) (t : list conn_event) : Prop :=
  ser_ok c \/ (m_isWorking c = false /\ Forall not_read t).

Lemma ser_only_ok : ser_only ser_ok.
Proof. intros c c' E _. unfold ser_ok. by rewrite E. Qed.

(** The first half of [handle_read_p]: parse what was read. *)
Definition readData (env : Env) (data : list Z) : CM bool :=
  if (0 <? length data)%nat then
    res ← serializerReceive env data;
    if negb (bool_decide (res = APC_OK)) then
      (if decide (res = APC_STOP_CONNECTOR)
       then stop env APC_DISCONNECT_MSG STOP_FL_DISCONNECT false true
       else stop env APC_STOP_PKTPARSE STOP_FL_OFFLINE false true) ;;
      mret false
    else
      c ← get;
      if negb (m_isWorking c) then mret false
      else
        modify (fun c => c <| m_kaRxTimer := option_map (recordActivity (e_now env)) (m_kaRxTimer c) |>) ;;
        mret true
  else mret true.

Lemma readData_end env data c :
  env_ser env -> ser_ok c ->
  let '(c', t, go) := readData env data c in
  if go then ser_ok c' else read_end c' t.
Proof.
  intros He Hc. unfold readData. destruct (0 <? length data)%nat; [|done].
  rewrite run_bind. pose proof (serializerReceive_ser env data c Hc) as [Ht Hs].
  unfold st_of, out_of, res_of in *.
  destruct (serializerReceive env data c) as [[c1 t1] res]. cbn [fst snd] in *.
  destruct (bool_decide (res = APC_OK)) eqn:Hres; cbn [negb].
  - apply bool_decide_eq_true in Hres. specialize (Hs Hres). runM.
    destruct (m_isWorking c1); cbn [negb fst snd]; [by eapply ser_only_ok|by left].
  - set (m := if decide _ then _ else _).
    assert (Hm : m_isWorking (st_of m c1) = false /\ Forall not_read (out_of m c1))
      by (unfold m; destruct (decide (res = APC_STOP_CONNECTOR)); by apply stop_not_working).
    clearbody m. rewrite run_bind. cbn [fst snd]. right.
    unfold st_of, out_of, res_of in *. destruct (m c1) as [[c2 t2] []]. cbn in *.
    destruct Hm. split; [done|]. rewrite !Forall_app. by rewrite Forall_nil.
Qed.

Lemma handle_read_split env error data :
  handle_read_p env error data =
    if error then stop env APC_STOP_READ STOP_FL_OFFLINE false true
    else
      go ← readData env data;
      if negb go then mret tt
      else
        res ← async_read_p env;
        c ← get;
        res ← (if bool_decide (res = APC_OK) &&
                  (m_unconfirmedInpPkt c <? u32 (m_lastReceivedSeqNum c - m_lastReportedSeqNum c))
               then send_ka_p env else mret res);
        when (negb (bool_decide (res = APC_OK))) (stop env APC_STOP_READ STOP_FL_OFFLINE false true).
Proof. reflexivity. Qed.

Lemma keeps_weaken {S E A} (I : S -> Prop) (P P' : E -> Prop) (m : M S E A) :
  (forall e, P e -> P' e) -> keeps I P m -> keeps I P' m.
Proof.
  intros HP Hm s Hs. destruct (Hm s Hs) as [H1 H2]. split; [done|]. by eapply Forall_impl.
Qed.

Lemma handle_read_end env c error data :
  env_ser env -> ser_ok c ->
  read_end (st_of (handle_read_p env error data) c) (out_of (handle_read_p env error data) c).
Proof.
  intros He Hc. rewrite handle_read_split. destruct error; [right; by apply stop_not_working|].
  pose proof (readData_end env data c He Hc) as Hr.
  destruct (readData env data c) as [[c1 t1] go] eqn:E.
  unfold st_of, out_of. rewrite (bind_run _ _ _ _ _ _ E). cbn [fst snd]. destruct go; cbn [negb].
  - left.
    match goal with |- ser_ok (st_of ?m c1) => assert (Hk : keeps ser_ok any_event m) end; [|by apply Hk].
    unfold send_ka_p. keeps_auto.
    + apply (keeps_weaken _ not_read); [done|]. by apply sendData_ser; [apply ser_only_ok|].
    + apply (keeps_weaken _ not_read); [done|]. by apply stop_ser.
  - cbn. by rewrite app_nil_r.
Qed.

(** ** Properties *)

(** The receive path of the connector is memory safe and stops on a bad
    stream. From a state whose serializer is well formed, a read completion with any bytes
    leaves either a well-formed serializer or a connector that is not working, and
    a further read is requested only in the first case. *)
Theorem handle_read_safe env c error data :
  env_ser env -> ser_ok c ->
  let '(c', t, _) := handle_read_p env error data c in
  (m_isWorking c' = true -> ser_ok c') /\ (In EvRead t -> ser_ok c').
Proof.
  intros He Hc. pose proof (handle_read_end env c error data He Hc) as Hr.
  unfold st_of, out_of in Hr. destruct (handle_read_p env error data c) as [[c' t] []].
  cbn [fst snd] in Hr. destruct Hr as [Hs|[Hw Ht]]; [done|]. split.
  - by rewrite Hw.
  - intros Hin. exfalso. rewrite Forall_forall in Ht. by apply list_elem_of_In, Ht in Hin.
Qed.

Definition env0 : Env := mkEnv 0 0 false false false [].

Lemma handle_read_safe_witness :
  let c := createConnection (mkConnParam [] 1000 100 5 [] true) in
  let '(c', t, _) := handle_read_p env0 false [1; 2; 3] c in
  (m_isWorking c' = true -> ser_ok c') /\ (In EvRead t -> ser_ok c').
Proof.
  intros c. apply (handle_read_safe env0 c false [1; 2; 3]); [constructor|].
  apply createConnection_ok.
Defined.

(** [sendData] on every branch, when a buffer is free or nothing frees one
    while it waits. Before the handshake only CONNECT and keep-alive messages
    leave; without a buffer it fails and writes nothing; when serialization fails
    the pool is as before; on success exactly one write is started, from the
    current buffer, with the message of [prepMsg] that reports the last sequence number
    received, which is then the last one reported. When the socket call throws,
    the buffer stays allocated although no write is pending. *)
Theorem sendData_spec env c type flags mySeq p1 p2 :
  bufs_ok c -> (m_numFreeOutBuf c = 0 -> e_waits env = []) ->
  let '(c', t, res) := sendData env type flags mySeq p1 p2 c in
  let i := m_curFreeBufIdx c in
  let '(e, n, m) := prepMsg (m_outbufs c !!! Z.to_nat i) APC_MAX_MSG_SIZE type flags mySeq
                            (m_lastReceivedSeqNum c) p1 p2 in
  if negb (send_open c type) then c' = c /\ t = [] /\ res = APC_ERR_NOTCONNECT
  else if decide (m_numFreeOutBuf c = 0) then
    t = [] /\ res = APC_ERR_OUTBUFOVERFLOW /\ m_numFreeOutBuf c' = 0
  else if decide (e = APC_OK) then
    if e_writeThrows env then
      t = [] /\ res = APC_ERR_ASYNC_OPERATION /\ m_numFreeOutBuf c' = m_numFreeOutBuf c - 1
    else
      t = [EvWrite i (take n m)] /\ res = APC_OK /\ m_numFreeOutBuf c' = m_numFreeOutBuf c - 1 /\
      m_curFreeBufIdx c' = (i + 1) mod 2 /\
      m_lastReportedSeqNum c' = m_lastReceivedSeqNum c /\ m_lastReceivedSeqNum c' = m_lastReceivedSeqNum c
  else
    t = [] /\ res = APC_ERR_PKTSERIALIZATION /\ m_numFreeOutBuf c' = m_numFreeOutBuf c /\
    m_curFreeBufIdx c' = i.
Proof.
  intros Hb Hw. destruct (send_open c type) eqn:Ho.
  2: { unfold sendData. runM.
       assert (negb (m_isWorking c) || negb (m_isConnected c) && (negb (type =? APC_CONNECT) && negb (type =? APC_KA)) = true) as ->
         by (unfold send_open in Ho; destruct (m_isWorking c), (m_isConnected c), (type =? APC_CONNECT), (type =? APC_KA); done).
       by destruct (prepMsg _ _ _ _ _ _ _ _) as [[e n] m]. }
  cbn [negb]. destruct (decide (m_numFreeOutBuf c = 0)) as [Hz|Hnz].
  - unfold sendData, getFreeBuf_p. runM.
    assert (negb (m_isWorking c) || negb (m_isConnected c) && (negb (type =? APC_CONNECT) && negb (type =? APC_KA)) = false) as ->
      by (unfold send_open in Ho; destruct (m_isWorking c), (m_isConnected c), (type =? APC_CONNECT), (type =? APC_KA); done).
    rewrite (Hw Hz). assert (waitFree [] false c = c) as -> by (cbn [waitFree]; by destruct (_ && _)).
    rewrite Hz. cbn. by destruct (prepMsg _ _ _ _ _ _ _ _) as [[e n] m].
  - pose proof (sendData_open env c type flags mySeq p1 p2 Ho Hnz) as Hs. cbv zeta in Hs.
    destruct (prepMsg _ _ _ _ _ _ _ _) as [[e n] m]. rewrite Hs. clear Hs.
    destruct Hb as [Hf Hm Hi _ _]. unfold APC_NUM_OUT_BUFS in *.
    assert (E1 : m_numFreeOutBuf (takeBuf c) = m_numFreeOutBuf c - 1).
    { unfold takeBuf. cbv zeta. destruct (_ <? _); cbn [m_numFreeOutBuf upd]; rewrite u32_small; lia. }
    assert (E2 : m_curFreeBufIdx (takeBuf c) = (m_curFreeBufIdx c + 1) mod 2).
    { unfold takeBuf. cbv zeta. destruct (_ <? _); cbn [m_curFreeBufIdx upd]; by apply idx_next. }
    assert (E3 : m_lastReceivedSeqNum (takeBuf c) = m_lastReceivedSeqNum c)
      by (unfold takeBuf; cbv zeta; by destruct (_ <? _)).
    destruct (decide (e = APC_OK)) as [->|Hne].
    + rewrite bool_decide_true by done. cbn [negb]. destruct (e_writeThrows env); split_and!; done.
    + rewrite bool_decide_false by done. cbn [negb]. split; [done|]. split; [done|].
      unfold returnBuf_p, st_of. rewrite run_bind.
      unfold incrNumFreeBuf_p, modify, st_of, res_of. cbn [fst snd m_numFreeOutBuf m_curFreeBufIdx upd].
      rewrite E1. unfold APC_NUM_OUT_BUFS.
      destruct (Z.ltb_spec (m_numFreeOutBuf c - 1) (Z.of_nat 2)); [|lia].
      cbn [m_numFreeOutBuf m_curFreeBufIdx upd]. rewrite ?E1, E2, (u32_small (_ - 1 + 1)) by lia.
      split; [lia|].
      destruct (Z.eqb_spec ((m_curFreeBufIdx c + 1) mod 2) 0); rewrite u32_small; dlia.
Qed.

Definition demo : CAPCConnector :=
  createConnection (mkConnParam [65] 1000 100 5 [49] true) <| m_isWorking := true |>.

Lemma demo_ok : bufs_ok demo.
Proof.
  apply (bufs_ok_upd (createConnection (mkConnParam [65] 1000 100 5 [49] true)));
    [apply createConnection_ok|reflexivity..].
Qed.

Lemma sendData_spec_witness :
  out_of (sendData env0 APC_KA APC_HDR_FLAGS_NOTRACK 0 [] []) demo =
    [EvWrite 0 [126; 126; 126; 126; 1; 0; 0; 0; 0; 0; 0; 0; 0; 9; 0; 0]].
Proof.
  pose proof (sendData_spec env0 demo APC_KA APC_HDR_FLAGS_NOTRACK 0 [] [] demo_ok) as H.
  unfold out_of. destruct (sendData _ _ _ _ _ _ demo) as [[c' t] res].
  assert (E : t = [EvWrite 0 (take 16 (snd (prepMsg (m_outbufs demo !!! 0%nat) APC_MAX_MSG_SIZE APC_KA
      APC_HDR_FLAGS_NOTRACK 0 0 [] [])))])
    by (destruct H as (H & _); [discriminate|exact H]).
  rewrite E. vm_compute. reflexivity.
Defined.



(** Receiving a message. Before the handshake everything but CONNECT,
    DISCONNECT and keep-alive is a protocol error that changes nothing. A
    DISCONNECT asks the caller to stop and notifies nobody. Any other message but CONNECT is
    counted and passed on once, unchanged, and the last received number becomes
    the larger of the two: it never goes back, and 0 (untracked) is ignored. *)
Theorem messageReceived_spec env c m :
  m_pApcNotif c = true -> rx_type m <> APC_CONNECT -> 0 <= rx_mySeq m -> 0 <= m_lastReceivedSeqNum c ->
  let '(c', t, res) := messageReceived env m c in
  if negb (m_isConnected c) && negb (rx_type m =? APC_DISCONNECT) && negb (rx_type m =? APC_KA)
  then c' = c /\ t = [] /\ res = APC_ERR_PROTOCOL
  else
    m_lastReceivedSeqNum c' = Z.max (m_lastReceivedSeqNum c) (rx_mySeq m) /\
    st_numRcvPkt (m_stats c') = u32 (st_numRcvPkt (m_stats c) + 1) /\
    m_isConnected c' = m_isConnected c /\
    if rx_type m =? APC_DISCONNECT then t = [] /\ res = APC_STOP_CONNECTOR
    else res = APC_OK /\
         t = [EvReceived (mkReceived (m_intfId c) (rx_flags m) (rx_mySeq m) (rx_yourSeq m) (rx_type m))
                         (rx_payload m)].
Proof.
  intros Hn Hty%Z.eqb_neq H0 H1. unfold messageReceived, updateLastReceived. runM.
  rewrite Hty, Hn. cbn [negb andb]. rewrite andb_true_r.
  destruct (negb (m_isConnected c) && negb (rx_type m =? APC_DISCONNECT) && negb (rx_type m =? APC_KA)); [done|].
  destruct (rx_type m =? APC_DISCONNECT);
    cbn [m_lastReceivedSeqNum m_stats m_isConnected upd app];
    destruct (Z.ltb_spec (m_lastReceivedSeqNum c) (rx_mySeq m));
    cbn [m_lastReceivedSeqNum m_stats m_isConnected st_numRcvPkt upd]; split_and!; (done || lia).
Qed.

Lemma messageReceived_spec_witness :
  messageReceived env0 (mkRxMsg APC_NET_TX 0 7 3 [1]) demo = (demo, [], APC_ERR_PROTOCOL).
Proof.
  pose proof (messageReceived_spec env0 demo (mkRxMsg APC_NET_TX 0 7 3 [1]) eq_refl) as H.
  destruct (messageReceived env0 _ demo) as [[c' t] res].
  destruct H as (-> & -> & ->); [discriminate|cbn; lia|cbn; lia|reflexivity].
Defined.

(** Stopping happens once. Stopping a working connector closes the socket if
    it is open and sends exactly one disconnect notification, with the reason
    given and, after [disconnect], always as a disconnection; the timers are gone. From
    then on stopping again does nothing and nothing can be sent. *)
Theorem stop_once env env' reason reason' fl fl' fin fin' n' c type flags mySeq p1 p2 :
  m_isWorking c = true -> m_pApcNotif c = true -> e_waits env = [] ->
  exists c' n,
    stop env reason fl fin true c =
      (c', (if m_socket_open c then [EvCloseSocket] else []) ++
           [EvDisconnected (mkDisconnected (if m_forceDisconnect c then STOP_FL_DISCONNECT else fl) reason n)],
       tt) /\
    stopped c' /\ stop env' reason' fl' fin' n' c' = (c', [], tt) /\
    sendData env' type flags mySeq p1 p2 c' = (c', [], APC_ERR_NOTCONNECT).
Proof.
  intros Hw Hn He. destruct (stop_run env reason fl fin c Hw Hn He) as (c' & n & Hrun & Hst).
  exists c', n. split; [done|]. split; [done|]. destruct Hst as (Hw' & _).
  split; [unfold stop|unfold sendData]; runM; by rewrite Hw'.
Qed.

Lemma stop_once_witness :
  exists c' n,
    stop env0 APC_STOP_TIMEOUT STOP_FL_OFFLINE true true demo =
      (c', [EvCloseSocket; EvDisconnected (mkDisconnected STOP_FL_OFFLINE APC_STOP_TIMEOUT n)], tt) /\
    stopped c' /\ stop env0 APC_STOP_READ STOP_FL_OFFLINE false true c' = (c', [], tt) /\
    sendData env0 APC_KA 1 0 [] [] c' = (c', [], APC_ERR_NOTCONNECT).
Proof.
  apply (stop_once env0 env0 APC_STOP_TIMEOUT APC_STOP_READ STOP_FL_OFFLINE STOP_FL_OFFLINE true false true demo);
    reflexivity.
Defined.

(** Two messages in a row start two writes on the socket before the first completes: the
    pool has two buffers. *)
Fact writes_overlap :
  let c := createConnection (mkConnParam [] 1000 100 5 [] true) <| m_isWorking := true |> <| m_isConnected := true |> in
  let m := _ ← sendData env0 APC_NET_RX 0 1 [1] []; sendData env0 APC_NET_RX 0 2 [2] [] in
  res_of m c = APC_OK /\ map (fun e => match e with EvWrite buf _ => Some buf | _ => None end) (out_of m c) = [Some 0; Some 1].
Proof. by vm_compute. Qed.
