(* ===== verification/NotifThread.v ===== *)
(** Notification queue between the network threads and the client
    (APInterface/APCCntrlNotifThread.cpp, APCCntrlNotifThread.h).

    Connectors post notifications from the io threads; one thread takes them
    out and calls the client.  A step of the model is what happens inside one
    critical section, or one call of the client; producers, the thread and
    [stop] interleave freely.  Connectors are identified by a number. *)
From stdpp Require Import base numbers list option strings.
From Stdlib Require Import ZArith Lia.
From S2P Require Import Prelude Common ApcProto ApcSerializer ApcConnector.

Local Open Scope Z_scope.

(** ** Data *)
Inductive apc_notiftype_t : Set :=
| NT_NA
| NT_START
| NT_CONNECT
| NT_DISCONNECT
| NT_MSGRCVD
| NT_TERMINATE.

#[export] Instance apc_notiftype_t_eq_dec : EqDecision apc_notiftype_t.
Proof. solve_decision. Defined.

(** The union [m_param]. *)
Inductive notif_param : Set :=
| NoParam
| PConnect (p : param_connected_s)
| PDisconnect (p : param_disconnected_s)
| PMsg (p : param_received_s).

(** A list node; [m_payload] is a buffer that only grows and keeps old bytes. *)
Record apcnotif_t : Set := mkNotif {
  n_type : apc_notiftype_t;
  n_apc : option Z;
  n_payload : list Z;
  n_payloadSize : Z;
  n_param : notif_param
}.
#[export] Instance apcnotif_t_eta : Eta apcnotif_t :=
  fun n => mkNotif (n_type n) (n_apc n) (n_payload n) (n_payloadSize n) (n_param n).

Definition newNode : apcnotif_t := mkNotif NT_NA None [] 0 NoParam.

(** The queue from front to back; [m_current] is the node the thread has taken
    out and is processing. *)
Record CAPCCtrlNotifThread : Set := mkNotifThread {
  m_apcNotifQ : list apcnotif_t;
  m_freeApcNotif : list apcnotif_t;
  m_current : option apcnotif_t;
  m_isWork : bool;
  m_thread : bool      (** the thread exists *)
}.
#[export] Instance CAPCCtrlNotifThread_eta : Eta CAPCCtrlNotifThread := fun t =>
  mkNotifThread (m_apcNotifQ t) (m_freeApcNotif t) (m_current t) (m_isWork t) (m_thread t).

Definition newCAPCCtrlNotifThread : CAPCCtrlNotifThread := mkNotifThread [] [] None false false.

(** Calls made on the client. *)
Inductive client_call : Set :=
| CallStarted (apc : Z)
| CallConnected (apc : Z) (p : param_connected_s)
| CallDisconnected (apc : Z) (p : param_disconnected_s)
| CallMessage (p : param_received_s) (payload : list Z).

(** ** The pool of nodes *)
Definition newNotif_p (t : CAPCCtrlNotifThread) : apcnotif_t * CAPCCtrlNotifThread :=
  match last (m_freeApcNotif t) with
  | None => (newNode, t)
  | Some n => (n, t <| m_freeApcNotif := removelast (m_freeApcNotif t) |>)
  end.

Definition freeNotif_p (n : apcnotif_t) (t : CAPCCtrlNotifThread) : CAPCCtrlNotifThread :=
  let n := n <| n_apc := None |> <| n_type := NT_NA |> in
  t <| m_freeApcNotif := m_freeApcNotif t ++ [n] |>.

Definition insertNotif_p (n : apcnotif_t) (t : CAPCCtrlNotifThread) : CAPCCtrlNotifThread :=
  t <| m_apcNotifQ := n :: m_apcNotifQ t |>.

(** ** Producers *)
Definition apcStarted (apc : Z) (t : CAPCCtrlNotifThread) : CAPCCtrlNotifThread :=
  if negb (m_isWork t) then t
  else let '(n, t) := newNotif_p t in
       insertNotif_p (n <| n_type := NT_START |> <| n_apc := Some apc |>) t.

Definition apcConnected (apc : Z) (p : param_connected_s) (t : CAPCCtrlNotifThread)
  : CAPCCtrlNotifThread :=
  if negb (m_isWork t) then t
  else let '(n, t) := newNotif_p t in
       insertNotif_p (n <| n_type := NT_CONNECT |> <| n_apc := Some apc |>
                        <| n_param := PConnect p |>) t.

Definition apcDisconnected (apc : Z) (p : param_disconnected_s) (t : CAPCCtrlNotifThread)
  : CAPCCtrlNotifThread :=
  if negb (m_isWork t) then t
  else let '(n, t) := newNotif_p t in
       insertNotif_p (n <| n_type := NT_DISCONNECT |> <| n_apc := Some apc |>
                        <| n_param := PDisconnect p |>) t.

(** [resize] to [len] cells: the vector keeps its bytes and gets zeros. *)
Definition resize (len : nat) (v : list Z) : list Z := take len (v ++ replicate len 0).

(** [size] is a [uint16_t]; the node's buffer grows to a multiple of 32. *)
Definition storePayload (payload : list Z) (n : apcnotif_t) : apcnotif_t :=
  let size := Z.of_nat (length payload) in
  let n :=
    if 0 <? size then
      let buf :=
        if Z.of_nat (length (n_payload n)) <? size
        then resize (Z.to_nat (Z.land size (Z.lnot 0x1F) + 0x20)) (n_payload n)
        else n_payload n in
      n <| n_payload := overwrite 0 payload buf |>
    else n in
  n <| n_payloadSize := size |>.

Definition messageReceived (p : param_received_s) (payload : list Z) (t : CAPCCtrlNotifThread)
  : CAPCCtrlNotifThread :=
  if negb (m_isWork t) then t
  else let '(n, t) := newNotif_p t in
       insertNotif_p (storePayload payload (n <| n_type := NT_MSGRCVD |> <| n_param := PMsg p |>)) t.

Definition sendStopSignal_p (t : CAPCCtrlNotifThread) : CAPCCtrlNotifThread :=
  let '(n, t) := newNotif_p t in
  t <| m_apcNotifQ := m_apcNotifQ t ++ [n <| n_type := NT_TERMINATE |>] |>.

(** ** The thread *)

(** The call made for a node; nothing for a node of another type. *)
Definition callOf (n : apcnotif_t) : option client_call :=
  match n_type n, n_apc n, n_param n with
  | NT_START, Some a, _ => Some (CallStarted a)
  | NT_CONNECT, Some a, PConnect p => Some (CallConnected a p)
  | NT_DISCONNECT, Some a, PDisconnect p => Some (CallDisconnected a p)
  | NT_MSGRCVD, _, PMsg p => Some (CallMessage p (take (Z.to_nat (n_payloadSize n)) (n_payload n)))
  | _, _, _ => None
  end.

(** Taking a node out: [None] while the queue is empty and the thread waits. *)
Definition takeNotif (t : CAPCCtrlNotifThread) : option CAPCCtrlNotifThread :=
  match last (m_apcNotifQ t) with
  | None => None
  | Some n =>
      let t := t <| m_apcNotifQ := removelast (m_apcNotifQ t) |> in
      if decide (n_type n = NT_TERMINATE)
      then Some (freeNotif_p n (t <| m_isWork := false |>))
      else Some (t <| m_current := Some n |>)
  end.

(** Calling the client for the node taken out, then returning it to the pool. *)
Definition processNotif (t : CAPCCtrlNotifThread) : option (CAPCCtrlNotifThread * list client_call) :=
  match m_current t with
  | None => None
  | Some n => Some (freeNotif_p n (t <| m_current := None |>), option_list (callOf n))
  end.

(** ** Steps *)
Inductive action : Set :=
| AStart                                             (** the thread is created and runs *)
| AStarted (apc : Z)
| AConnected (apc : Z) (p : param_connected_s)
| ADisconnected (apc : Z) (p : param_disconnected_s)
| AMessage (p : param_received_s) (payload : list Z)
| ATake
| AProcess
| AStopSignal
| AJoined.                                           (** [stop] after [join] *)

(** The call an accepted notification asks for. *)
Definition asks (a : action) : option client_call :=
  match a with
  | AStarted apc => Some (CallStarted apc)
  | AConnected apc p => Some (CallConnected apc p)
  | ADisconnected apc p => Some (CallDisconnected apc p)
  | AMessage p payload => Some (CallMessage p payload)
  | _ => None
  end.

Definition exec (a : action) (t : CAPCCtrlNotifThread)
  : option (CAPCCtrlNotifThread * list client_call) :=
  match a with
  | AStart => if m_thread t then None
              else Some (t <| m_thread := true |> <| m_isWork := true |>, [])
  | AStarted apc => Some (apcStarted apc t, [])
  | AConnected apc p => Some (apcConnected apc p t, [])
  | ADisconnected apc p => Some (apcDisconnected apc p t, [])
  | AMessage p payload => Some (messageReceived p payload t, [])
  | ATake =>
      if m_thread t && m_isWork t && bool_decide (m_current t = None)
      then option_map (fun t => (t, [])) (takeNotif t) else None
  | AProcess => processNotif t
  | AStopSignal => if m_thread t then Some (sendStopSignal_p t, []) else None
  | AJoined =>
      if m_thread t && negb (m_isWork t) && bool_decide (m_current t = None)
      then Some (t <| m_apcNotifQ := [] |> <| m_freeApcNotif := [] |> <| m_thread := false |>, [])
      else None
  end.

Fixpoint run (l : list action) (t : CAPCCtrlNotifThread)
  : option (CAPCCtrlNotifThread * list client_call) :=
  match l with
  | [] => Some (t, [])
  | a :: r =>
      '(t, c1) ← exec a t;
      '(t, c2) ← run r t;
      Some (t, c1 ++ c2)
  end.

(** The calls asked for by the notifications of a run, in order. *)
Definition posted (l : list action) : list client_call := flat_map (fun a => option_list (asks a)) l.

(** The calls still to be made: the one in progress, then the queue from its back. *)
Definition waiting (t : CAPCCtrlNotifThread) : list client_call :=
  flat_map (fun n => option_list (callOf n)) (option_list (m_current t) ++ rev (m_apcNotifQ t)).

(** ** Facts *)
Lemma land_lnot31 n : 0 <= n -> n < Z.land n (Z.lnot 0x1F) + 0x20 <= n + 0x20.
Proof.
  intros Hn. rewrite <- Z.ldiff_land. change 0x1F with (Z.ones 5).
  rewrite Z.ldiff_ones_r, Z.shiftl_mul_pow2, Z.shiftr_div_pow2 by lia. change (2 ^ 5) with 32. dlia.
Qed.

Lemma length_resize len v : length (resize len v) = len.
Proof. unfold resize. rewrite length_take, length_app, length_replicate. lia. Qed.

Lemma storePayload_reads payload n :
  take (Z.to_nat (n_payloadSize (storePayload payload n))) (n_payload (storePayload payload n)) = payload.
Proof.
  unfold storePayload. cbv zeta. cbn [n_payloadSize upd]. rewrite Nat2Z.id.
  destruct (Z.ltb_spec 0 (Z.of_nat (length payload))) as [Hpos|Hz].
  - cbn [n_payload upd].
    set (buf := if _ <? _ then resize _ _ else _).
    assert (Hb : (length payload <= length buf)%nat).
    { unfold buf. destruct (Z.ltb_spec (Z.of_nat (length (n_payload n))) (Z.of_nat (length payload))); [|lia].
      rewrite length_resize. pose proof (land_lnot31 (Z.of_nat (length payload))). lia. }
    clearbody buf. rewrite <- (drop_0 (overwrite 0 payload buf)).
    by apply (take_drop_overwrite 0 payload buf).
  - destruct payload; [done|simpl in Hz; lia].
Qed.

(** What a post does, whatever the recycled node contains. *)
Lemma post_spec a t :
  asks a <> None -> m_isWork t = true ->
  exists n free, exec a t = Some (t <| m_apcNotifQ := n :: m_apcNotifQ t |> <| m_freeApcNotif := free |>, []) /\
    callOf n = asks a /\ n_type n <> NT_TERMINATE.
Proof.
  intros Ha Hw.
  assert (Hn : exists n free, newNotif_p t = (n, t <| m_freeApcNotif := free |>)).
  { unfold newNotif_p. destruct (last (m_freeApcNotif t)) as [n|]; [by eauto|].
    exists newNode, (m_freeApcNotif t). by destruct t. }
  destruct Hn as (n & free & Hn).
  destruct a; try done; cbn [exec]; unfold apcStarted, apcConnected, apcDisconnected, messageReceived;
    rewrite Hw, Hn; cbn [negb]; unfold insertNotif_p.
  1-3: do 2 eexists; split; [reflexivity|done].
  eexists (storePayload payload (n <| n_type := NT_MSGRCVD |> <| n_param := PMsg p |>)), free.
  split; [reflexivity|].
  assert (Hk : n_type (storePayload payload (n <| n_type := NT_MSGRCVD |> <| n_param := PMsg p |>)) = NT_MSGRCVD /\
               n_param (storePayload payload (n <| n_type := NT_MSGRCVD |> <| n_param := PMsg p |>)) = PMsg p).
  { unfold storePayload. cbv zeta. by destruct (0 <? _). }
  destruct Hk as [Hk1 Hk2]. split; [|by rewrite Hk1].
  unfold callOf. rewrite Hk1, Hk2, storePayload_reads.
  done.
Qed.

Lemma post_ignored a t : asks a <> None -> m_isWork t = false -> exec a t = Some (t, []).
Proof.
  intros Ha Hw. destruct a; try done; cbn [exec];
    unfold apcStarted, apcConnected, apcDisconnected, messageReceived; by rewrite Hw.
Qed.

Definition is_live (t : CAPCCtrlNotifThread) : Prop :=
  m_isWork t = true /\ Forall (fun n => n_type n <> NT_TERMINATE) (m_apcNotifQ t).

(** Actions of the normal operation: posting, taking, calling. *)
Definition ordinary (a : action) : Prop :=
  match a with AStart | AStopSignal | AJoined => False | _ => True end.

Lemma step_fifo a t t' c :
  ordinary a -> is_live t -> exec a t = Some (t', c) ->
  is_live t' /\ c ++ waiting t' = waiting t ++ option_list (asks a).
Proof.
  intros Ho [Hw Hq] He. destruct (asks a) as [call|] eqn:Ha.
  - destruct (post_spec a t) as (n & free & Hx & Hc & Hty); [by rewrite Ha|done|].
    rewrite Hx in He. injection He as <- <-. split.
    + split; [done|]. by constructor.
    + unfold waiting. cbn [m_current m_apcNotifQ upd rev]. rewrite app_assoc, (flat_map_app _ _ [n]).
      cbn [flat_map]. by rewrite Hc, Ha, app_nil_r.
  - rewrite app_nil_r. destruct a; try done; cbn [exec] in He.
    + destruct (m_thread t && m_isWork t && bool_decide (m_current t = None)) eqn:Hb; [|done].
      apply andb_true_iff in Hb as [_ Hcur%bool_decide_eq_true].
      unfold takeNotif in He. destruct (last (m_apcNotifQ t)) as [n|] eqn:Hl; [|done].
      apply last_removelast in Hl. rewrite Hl in Hq. apply Forall_app in Hq as [Hq [Hn _]%Forall_cons_1].
      rewrite decide_False in He by done. injection He as <- <-. split; [by split|].
      unfold waiting. rewrite Hcur. cbn [m_current m_apcNotifQ upd option_list app].
      rewrite Hl at 2. by rewrite rev_app_distr.
    + unfold processNotif in He. destruct (m_current t) as [n|] eqn:Hcur; [|done].
      injection He as <- <-. split; [by split|].
      unfold waiting, freeNotif_p. rewrite Hcur. done.
Qed.

Lemma run_fifo l t t' c :
  Forall ordinary l -> is_live t -> run l t = Some (t', c) ->
  is_live t' /\ c ++ waiting t' = waiting t ++ posted l.
Proof.
  intros Hl; revert t t' c; induction Hl as [|a l Ha _ IH]; intros t t' c Ht; cbn [run].
  - intros [= <- <-]. by rewrite app_nil_r.
  - destruct (exec a t) as [[t1 c1]|] eqn:E1; [|done]. cbn [mbind option_bind].
    destruct (run l t1) as [[t2 c2]|] eqn:E2; [|done]. cbn [mbind option_bind]. intros [= <- <-].
    destruct (step_fifo a t t1 c1 Ha Ht E1) as [H1 H2].
    destruct (IH t1 t2 c2 H1 E2) as [H3 H4]. split; [done|].
    unfold posted in *. cbn [flat_map]. by rewrite <- app_assoc, H4, app_assoc, H2, <- app_assoc.
Qed.

(** After the stop signal: the terminating node is next, or the thread is done. *)
Definition is_stopping (t : CAPCCtrlNotifThread) : Prop :=
  m_isWork t = false \/ exists n, last (m_apcNotifQ t) = Some n /\ n_type n = NT_TERMINATE.

Lemma stop_stopping t : is_stopping (sendStopSignal_p t) /\ m_current (sendStopSignal_p t) = m_current t.
Proof.
  unfold sendStopSignal_p, newNotif_p.
  destruct (last (m_freeApcNotif t)); (split; [|done]); right; eexists;
    cbn [m_apcNotifQ upd]; rewrite last_snoc; done.
Qed.

Lemma step_stopping a t t' c :
  a <> AStart -> is_stopping t -> exec a t = Some (t', c) ->
  is_stopping t' /\
  ((c = [] /\ m_current t' = m_current t) \/
   (c = option_list (m_current t ≫= callOf) /\ m_current t' = None)).
Proof.
  intros Hne Hs He. destruct (asks a) as [call|] eqn:Ha.
  - destruct (m_isWork t) eqn:Hw.
    + destruct (post_spec a t) as (n & free & Hx & _ & _); [by rewrite Ha|done|].
      rewrite Hx in He. injection He as <- <-. split; [|by left].
      destruct Hs as [Hs|(x & Hx1 & Hx2)]; [by left|]. right. exists x.
      cbn [m_apcNotifQ upd]. by destruct (m_apcNotifQ t).
    + rewrite post_ignored in He by (by rewrite ?Ha). injection He as <- <-. by split; [|left].
  - destruct a; try done; cbn [exec] in He.
    + destruct (m_thread t && m_isWork t && bool_decide (m_current t = None)) eqn:Hb; [|done].
      apply andb_true_iff in Hb as [[_ Hw]%andb_true_iff Hcur%bool_decide_eq_true].
      destruct Hs as [Hs|(x & Hx1 & Hx2)]; [congruence|].
      unfold takeNotif in He. rewrite Hx1, decide_True in He by done. injection He as <- <-.
      split; [by left|]. left. by rewrite Hcur.
    + unfold processNotif in He. destruct (m_current t) as [n|] eqn:Hcur; [|done].
      injection He as <- <-. split; [|by right]. destruct Hs as [Hs|Hs]; [by left|by right].
    + destruct (m_thread t); [|done]. injection He as <- <-. destruct (stop_stopping t). by split; [|left].
    + destruct (m_thread t && negb (m_isWork t) && bool_decide (m_current t = None)) eqn:Hb; [|done].
      apply andb_true_iff in Hb as [[_ Hw%negb_true_iff]%andb_true_iff _]. injection He as <- <-.
      split; [by left|by left].
Qed.

Lemma run_stopping l t t' c :
  Forall (fun a => a <> AStart) l -> is_stopping t -> run l t = Some (t', c) ->
  is_stopping t' /\
  ((c = [] /\ m_current t' = m_current t) \/
   (c = option_list (m_current t ≫= callOf) /\ m_current t' = None)).
Proof.
  intros Hl; revert t t' c; induction Hl as [|a l Ha _ IH]; intros t t' c Ht; cbn [run].
  - intros [= <- <-]. by split; [|left].
  - destruct (exec a t) as [[t1 c1]|] eqn:E1; [|done]. cbn [mbind option_bind].
    destruct (run l t1) as [[t2 c2]|] eqn:E2; [|done]. cbn [mbind option_bind]. intros [= <- <-].
    destruct (step_stopping a t t1 c1 Ha Ht E1) as [H1 H2].
    destruct (IH t1 t2 c2 H1 E2) as [H3 H4]. split; [done|].
    destruct H2 as [[-> E3]|[-> E3]], H4 as [[-> E4]|[-> E4]]; rewrite ?E3 in *; cbn; rewrite ?app_nil_r; auto.
Qed.

(** ** Properties *)

(** The queue is a FIFO that loses, duplicates and reorders nothing. In any
    interleaving of posts, takes and client calls, the calls made so far
    followed by those still waiting are exactly those that were waiting before
    followed by the notifications posted, in posting order; in particular a
    message reaches the client with its own bytes, although nodes and their
    buffers are recycled. *)
Theorem notif_fifo l t t' calls :
  Forall ordinary l -> is_live t -> run l t = Some (t', calls) ->
  calls ++ waiting t' = waiting t ++ posted l.
Proof. intros Hl Ht Hr. by eapply run_fifo. Qed.

Definition demo_msg (k : Z) : param_received_s := mkReceived 1 0 k 0 APC_NET_RX.

Definition demo_run : list action :=
  [AMessage (demo_msg 1) [1; 2; 3]; ATake; AProcess; AMessage (demo_msg 2) [9]; AStarted 7; ATake; AProcess].

Lemma notif_fifo_witness :
  exists t' calls,
    run demo_run (newCAPCCtrlNotifThread <| m_thread := true |> <| m_isWork := true |>) = Some (t', calls) /\
    calls ++ waiting t' =
      [CallMessage (demo_msg 1) [1; 2; 3]; CallMessage (demo_msg 2) [9]; CallStarted 7].
Proof.
  destruct (run demo_run (newCAPCCtrlNotifThread <| m_thread := true |> <| m_isWork := true |>))
    as [[t' calls]|] eqn:E; [|discriminate E].
  exists t', calls. split; [reflexivity|].
  assert (Hl : Forall ordinary demo_run) by repeat constructor.
  assert (Ht : is_live (newCAPCCtrlNotifThread <| m_thread := true |> <| m_isWork := true |>))
    by (split; [reflexivity|constructor]).
  rewrite (notif_fifo demo_run _ t' calls Hl Ht E).
  vm_compute. reflexivity.
Defined.

(** Stopping overtakes the queue. After the stop signal at most the call in
    progress is still made, whatever is posted or was queued; the thread ends at
    its next take. *)
Theorem notif_stop l t t' calls :
  Forall (fun a => a <> AStart) l -> run (AStopSignal :: l) t = Some (t', calls) ->
  (calls = [] \/ calls = option_list (m_current t ≫= callOf)) /\
  (forall t'' c, exec ATake t' = Some (t'', c) -> m_isWork t'' = false /\ c = []).
Proof.
  intros Hl. cbn [run exec]. destruct (m_thread t); [|done]. cbn [mbind option_bind].
  destruct (run l (sendStopSignal_p t)) as [[t2 c2]|] eqn:E2; [|done]. cbn [mbind option_bind].
  intros [= <- <-]. destruct (stop_stopping t) as [Hs Hc].
  destruct (run_stopping l _ _ _ Hl Hs E2) as [Hs' Hcalls]. rewrite Hc in Hcalls. split.
  - cbn [app]. destruct Hcalls as [[-> _]|[-> _]]; auto.
  - intros t'' c. cbn [exec].
    destruct (m_thread t2 && m_isWork t2 && bool_decide (m_current t2 = None)) eqn:Hb; [|done].
    apply andb_true_iff in Hb as [[_ Hw]%andb_true_iff _].
    destruct Hs' as [Hs'|(x & Hx1 & Hx2)]; [congruence|].
    unfold takeNotif. rewrite Hx1, decide_True by done. by intros [= <- <-].
Qed.

Definition demo_busy : CAPCCtrlNotifThread :=
  match run [AStart; AStarted 1; AStarted 2; ATake] newCAPCCtrlNotifThread with
  | Some (t, _) => t
  | None => newCAPCCtrlNotifThread
  end.

Lemma notif_stop_witness :
  option_map snd (run [AStopSignal; AStarted 3; AProcess; ATake; AJoined] demo_busy)
    = Some [CallStarted 1] /\
  ([CallStarted 1] = [] \/ [CallStarted 1] = option_list (m_current demo_busy ≫= callOf)).
Proof.
  split; [vm_compute; reflexivity|].
  assert (Hl : Forall (fun a => a <> AStart) [AStarted 3; AProcess; ATake; AJoined])
    by (repeat constructor; discriminate).
  destruct (run [AStopSignal; AStarted 3; AProcess; ATake; AJoined] demo_busy) as [[t' c]|] eqn:E;
    [|discriminate E].
  destruct (notif_stop [AStarted 3; AProcess; ATake; AJoined] demo_busy t' c Hl E) as [H _].
  vm_compute in E. injection E as <- <-. exact H.
Defined.
