(* ===== verification/IoSrvThread.v ===== *)
(** The thread that runs an io service (APInterface/IOSrvThread.cpp, IOSrvThread.h).

    [io_service::run] returns when nothing is pending; a timer that starts itself again
    every hour keeps it busy.  The steps are the calls of [startIOSrvThread], the two
    halves of [stopIOSrvThread], before and after the wait for the thread, and what the
    io service does in between. *)
From stdpp Require Import base numbers list option.
From Stdlib Require Import ZArith Lia.
From S2P Require Import Prelude Common ApcProto.

Local Open Scope Z_scope.

(** The wait of the timer: none, not yet expired, or its handler in the queue of the io
    service with an error or not. Cancelling has no effect on a handler in the queue. *)
Inductive timer_state : Set := TmNone | TmPending | TmQueued (error : bool).

Record CIOSrvThread : Set := mkIOSrvThread {
  m_pIOSrv : bool;
  m_liveTimer : bool;
  m_pThread : bool;
  m_pBarrier : bool;
  m_logName : list Z;
  io_timer : timer_state;
  io_running : bool;       (** the thread is in [run] *)
  io_stopping : bool       (** [stopIOSrvThread] waits for the thread *)
}.
#[export] Instance CIOSrvThread_eta : Eta CIOSrvThread := fun t =>
  mkIOSrvThread (m_pIOSrv t) (m_liveTimer t) (m_pThread t) (m_pBarrier t) (m_logName t) (io_timer t) (io_running t) (io_stopping t).

Inductive io_event : Set := IoLogTimerError | IoLogRunError | IoExpiresHours (n : Z).

Notation IOM := (M CIOSrvThread io_event).

Definition setLogName (logName : option (list Z)) : IOM unit :=
  modify (fun t => t <| m_logName := default [] logName |>).

Definition newCIOSrvThread (logName : list Z) : CIOSrvThread :=
  mkIOSrvThread false false false false logName TmNone false false.

Definition isRunning (t : CIOSrvThread) : bool := m_pIOSrv t.

(** [throws]: a call on the timer throws; it is logged only for a thread without a name. *)
Definition startLiveTimer_p (throws : bool) : IOM unit :=
  if throws then t ← get; when (bool_decide (m_logName t = [])) (emit IoLogTimerError)
  else emit (IoExpiresHours 1) ;; modify (fun t => t <| io_timer := TmPending |>).

Definition timerFun_p (throws error : bool) : IOM unit :=
  t ← get;
  if error || negb (m_liveTimer t) then mret tt else startLiveTimer_p throws.

Definition startIOSrvThread (throws : bool) : IOM apc_error_t :=
  t ← get;
  if m_pIOSrv t || m_liveTimer t || m_pBarrier t || m_pThread t then mret APC_ERR_INIT
  else
    modify (fun t => t <| m_pIOSrv := true |> <| m_liveTimer := true |>) ;;
    startLiveTimer_p throws ;;
    modify (fun t => t <| m_pBarrier := true |> <| m_pThread := true |> <| io_running := true |>) ;;
    mret APC_OK.

(** The thread's function returns; an exception of [run] is logged as above. *)
Definition threadFun_p (throws : bool) : IOM unit :=
  t ← get;
  when (throws && bool_decide (m_logName t = [])) (emit IoLogRunError) ;;
  modify (fun t => t <| io_running := false |>).

(** Up to the wait for the thread ... *)
Definition stop_begin : IOM unit :=
  modify (fun t => t <| m_pBarrier := false |>) ;;
  t ← get;
  when (m_liveTimer t) (modify (fun t => t <| io_timer :=
    match io_timer t with TmPending => TmQueued true | s => s end |>)) ;;
  when (m_pThread t) (modify (fun t => t <| io_stopping := true |>)).

(** ... and the rest. *)
Definition stop_end : IOM unit :=
  modify (fun t => t <| io_stopping := false |> <| m_pThread := false |> <| m_liveTimer := false |>
    <| io_timer := TmNone |> <| m_pIOSrv := false |>).

(** ** Steps *)
Inductive io_op : Set :=
| IoStart (throws : bool)
| IoStopBegin | IoStopEnd
| IoExpire                      (** the wait ends *)
| IoHandle (throws : bool)      (** the thread runs the timer's handler *)
| IoReturn (throws : bool).     (** [run] returns or throws *)

Definition exec (op : io_op) : IOM unit :=
  match op with
  | IoStart throws => _ ← startIOSrvThread throws; mret tt
  | IoStopBegin => stop_begin
  | IoStopEnd => stop_end
  | IoExpire => modify (fun t => t <| io_timer := TmQueued false |>)
  | IoHandle throws =>
      t ← get;
      match io_timer t with
      | TmQueued e => modify (fun t => t <| io_timer := TmNone |>) ;; timerFun_p throws e
      | _ => mret tt
      end
  | IoReturn throws => threadFun_p throws
  end.

Definition enabled (op : io_op) (t : CIOSrvThread) : bool :=
  match op with
  | IoStart _ | IoStopBegin => negb (io_stopping t)
  | IoStopEnd => if m_pThread t then io_stopping t && negb (io_running t) else true
  | IoExpire => match io_timer t with TmPending => true | _ => false end
  | IoHandle _ => io_running t && match io_timer t with TmQueued _ => true | _ => false end
  | IoReturn throws => io_running t && (throws || match io_timer t with TmNone => true | _ => false end)
  end.

(** Runs in which no call throws. *)
Definition quiet_op (op : io_op) : bool :=
  match op with IoStart b | IoHandle b | IoReturn b => negb b | _ => true end.

Inductive io_reach : CIOSrvThread -> Prop :=
| io_new name : io_reach (newCIOSrvThread name)
| io_step t op : io_reach t -> enabled op t = true -> quiet_op op = true -> io_reach (st_of (exec op) t).

(** All parts exist or none; while started and not being stopped the thread runs and a
    wait of the timer is on its way, so that [run] cannot return. *)
Record io_inv (t : CIOSrvThread) : Prop := {
  ii_srv : m_liveTimer t = m_pIOSrv t;
  ii_thread : m_pThread t = m_pIOSrv t;
  ii_barrier : m_pBarrier t = m_pIOSrv t && negb (io_stopping t);
  ii_stopping : io_stopping t = true -> m_pIOSrv t = true;
  ii_busy : m_pIOSrv t = true -> io_stopping t = false -> io_running t = true /\ (io_timer t = TmPending \/ io_timer t = TmQueued false);
  ii_idle : m_pIOSrv t = false -> io_timer t = TmNone /\ io_running t = false
}.

Lemma io_reach_inv t : io_reach t -> io_inv t.
Proof.
  induction 1 as [name|t op Hr IH Hen Hq]; [by split|].
  destruct IH as [H1 H2 H3 H4 H5 H6]. destruct t as [srv tm th ba name st run sp]. cbn in *. subst.
  destruct op as [b| | | |b|b]; cbn in Hq, Hen; try (destruct b; [done|]);
    unfold exec, startIOSrvThread, timerFun_p, startLiveTimer_p, stop_begin, stop_end, threadFun_p, st_of; runM.
  - destruct sp; [done|]. destruct srv; cbn; [by split|]. split; cbn; try done; auto.
  - destruct sp; [done|]. destruct srv, st; cbn; split; cbn; try done; auto.
  - split; cbn; try done. all: destruct srv, sp, run; try done; by destruct (H6 eq_refl).
  - destruct st; try done. destruct srv; [|by destruct (H6 eq_refl)].
    split; cbn; try done. intros _ Hs. split; [by apply H5|by right].
  - destruct run; [|done]. destruct st as [| |e]; try done. destruct srv; [|by destruct (H6 eq_refl)].
    destruct e; cbn; split; cbn; try done; intros _ ->; [by destruct (H5 eq_refl eq_refl) as [_ [?|?]]|split; [done|by left]].
  - destruct run; [|done]. destruct st; try done. destruct srv; [|by destruct (H6 eq_refl)].
    split; cbn; try done. intros _ ->. by destruct (H5 eq_refl eq_refl) as [_ [?|?]].
Qed.

(** While the thread is started and not being stopped, the io service's [run] cannot return. *)
Theorem io_thread_lives (t : CIOSrvThread) (Hr : io_reach t) (Hs : isRunning t = true) (Hn : io_stopping t = false) :
  io_running t = true /\ enabled (IoReturn false) t = false /\ enabled IoStopEnd t = false.
Proof.
  destruct (io_reach_inv t Hr) as [H1 H2 _ _ H5 _]. destruct (H5 Hs Hn) as [Hrun Ht]. unfold isRunning in Hs.
  unfold enabled. rewrite Hrun, H2, Hs, Hn. by destruct Ht as [-> | ->].
Qed.

Lemma io_thread_lives_witness : let t := st_of (exec (IoHandle false)) (st_of (exec IoExpire) (st_of (exec (IoStart false)) (newCIOSrvThread []))) in
  io_running t = true /\ enabled (IoReturn false) t = false /\ enabled IoStopEnd t = false.
Proof.
  apply io_thread_lives; [|reflexivity|reflexivity].
  apply io_step; [|reflexivity|reflexivity]. apply io_step; [|reflexivity|reflexivity].
  apply io_step; [apply io_new|reflexivity|reflexivity].
Defined.

(** [stopIOSrvThread] while the handler of an expired wait is in the queue: the handler
    starts the timer again, since only the end of [stopIOSrvThread] clears [m_liveTimer];
    from then on the thread stays, hour after hour, and the stop waits for it. *)
Fact stop_waits_for_timer :
  let run l := fold_left (fun t op => st_of (exec op) t) l (newCIOSrvThread [97]) in
  let hour := [IoExpire; IoHandle false] in
  let t := run [IoStart false; IoExpire; IoStopBegin; IoHandle false] in
  io_stopping t = true /\ enabled IoStopEnd t = false /\ enabled (IoReturn false) t = false /\
  fold_left (fun t op => st_of (exec op) t) hour t = t.
Proof. by vm_compute. Qed.
