(* ===== verification/RemoteLog.v ===== *)
(** Publishing log messages to other processes (logging/RemoteLogPublisher.cpp,
    RemoteLogPublisher.h; initPublisher and closePublisher of Logger.cpp).

    A log event is serialized into a message that is put into a queue; one thread takes
    messages out and sends them on a socket.  Messages are objects on the heap and have
    names; a step is a critical section or what happens between two of them. *)
From stdpp Require Import base numbers list option strings.
From Stdlib Require Import ZArith Lia.
From S2P Require Import Prelude Common Crash.

Local Open Scope Z_scope.

(** ** Levels *)

(** Levels of log4cxx; [LvOther] stands for those without a message, [OFF] and [ALL]. *)
Inductive Level : Set := LvFatal | LvError | LvWarn | LvInfo | LvDebug | LvTrace | LvOther.
Inductive LogLevel : Set := L_TRACE | L_DEBUG | L_INFO | L_WARN | L_ERROR | L_FATAL.

(** [None] as argument: no level is set; as result: the assertion. *)
Definition convertLogLevel (aLevel : option Level) : option LogLevel :=
  match aLevel with
  | Some LvFatal => Some L_FATAL
  | Some LvError => Some L_ERROR
  | Some LvWarn => Some L_WARN
  | Some LvInfo => Some L_INFO
  | Some LvDebug => Some L_DEBUG
  | Some LvTrace => Some L_TRACE
  | Some LvOther => None
  | None => Some L_DEBUG
  end.

Definition convertLogLevel_back (aLevel : LogLevel) : Level :=
  match aLevel with
  | L_FATAL => LvFatal | L_ERROR => LvError | L_WARN => LvWarn
  | L_INFO => LvInfo | L_DEBUG => LvDebug | L_TRACE => LvTrace
  end.

Lemma convertLogLevel_roundtrip l : convertLogLevel (Some (convertLogLevel_back l)) = Some l.
Proof. by destruct l. Qed.

(** ** The queue and its thread *)
Inductive rl_pc : Set :=
| RlBind                 (** opens the socket *)
| RlLoop
| RlSend (m : Z)         (** holds a message that it took out *)
| RlClean                (** has left the loop *)
| RlDone
| RlJoined.              (** [m_queueThread] is null *)

Inductive rl_event : Set :=
| RlNew (m : Z)          (** a message was created for a log event *)
| RlPut (m : Z)          (** ... and put into the queue *)
| RlSocket | RlCloseSocket
| RlSent (m : Z)
| RlDelete (m : Z).

Record RemoteLogger : Set := mkRemoteLogger {
  m_logMsgQueue : list Z;      (** from front to back *)
  m_queueRunning : bool;
  m_queueThread : rl_pc
}.
#[export] Instance RemoteLogger_eta : Eta RemoteLogger := fun r =>
  mkRemoteLogger (m_logMsgQueue r) (m_queueRunning r) (m_queueThread r).

Definition newRemoteLogger : RemoteLogger := mkRemoteLogger [] true RlBind.

Notation RLM := (M RemoteLogger rl_event).

(** [m]: the new message. *)
Definition append (m : Z) : RLM unit :=
  emit (RlNew m) ;;
  r ← get;
  if negb (m_queueRunning r) then emit (RlDelete m)
  else modify (fun r => r <| m_logMsgQueue := m :: m_logMsgQueue r |>) ;; emit (RlPut m).

(** [stopThread_p] up to the wait for the thread; [close] and the destructor call it. *)
Definition stopThread_signal : RLM unit := modify (fun r => r <| m_queueRunning := false |>).
Definition stopThread_join : RLM unit :=
  modify (fun r => r <| m_queueThread := RlJoined |>).

(** The thread: what it does next; where it waits for a message nothing happens. *)
Definition queueThreadFun_p : RLM unit :=
  r ← get;
  match m_queueThread r with
  | RlBind => emit RlSocket ;; modify (fun r => r <| m_queueThread := RlLoop |>)
  | RlLoop =>
      if negb (m_queueRunning r) then emit RlCloseSocket ;; modify (fun r => r <| m_queueThread := RlClean |>)
      else
        match last (m_logMsgQueue r) with
        | None => mret tt
        | Some m => modify (fun r => r <| m_logMsgQueue := removelast (m_logMsgQueue r) |> <| m_queueThread := RlSend m |>)
        end
  | RlSend m =>
      emit (RlSent m) ;; emit (RlDelete m) ;; modify (fun r => r <| m_queueThread := RlLoop |>)
  | RlClean =>
      each (fun m => emit (RlDelete m)) (m_logMsgQueue r) ;;
      modify (fun r => r <| m_logMsgQueue := [] |> <| m_queueThread := RlDone |>)
  | RlDone | RlJoined => mret tt
  end.

Inductive rl_op : Set := RlAppend (m : Z) | RlStop | RlJoin | RlThread.

Definition exec (op : rl_op) : RLM unit :=
  match op with
  | RlAppend m => append m
  | RlStop => stopThread_signal
  | RlJoin => stopThread_join
  | RlThread => queueThreadFun_p
  end.

Definition created (l : list rl_event) : list Z := omap (fun e => match e with RlNew m => Some m | _ => None end) l.
Definition accepted (l : list rl_event) : list Z := omap (fun e => match e with RlPut m => Some m | _ => None end) l.
Definition published (l : list rl_event) : list Z := omap (fun e => match e with RlSent m => Some m | _ => None end) l.
Definition deleted (l : list rl_event) : list Z := omap (fun e => match e with RlDelete m => Some m | _ => None end) l.

(** Interleavings: the join waits for the end of the thread, messages have fresh names. *)
Inductive rl_reach : list rl_event -> RemoteLogger -> Prop :=
| rl_new : rl_reach [] newRemoteLogger
| rl_step tr r op : rl_reach tr r ->
    (op = RlJoin -> m_queueThread r = RlDone \/ m_queueThread r = RlJoined) -> (forall m, op = RlAppend m -> m ∉ created tr) ->
    rl_reach (tr ++ out_of (exec op) r) (st_of (exec op) r).

Definition held (r : RemoteLogger) : list Z := match m_queueThread r with RlSend m => [m] | _ => [] end.
Definition ended (r : RemoteLogger) : bool := match m_queueThread r with RlDone | RlJoined => true | _ => false end.

Record rl_inv (tr : list rl_event) (r : RemoteLogger) : Prop := {
  ri_fifo : exists lost, accepted tr = published tr ++ held r ++ rev (m_logMsgQueue r) ++ lost /\ (ended r = false -> lost = []);
  ri_owned : created tr ≡ₚ deleted tr ++ held r ++ m_logMsgQueue r;
  ri_fresh : NoDup (created tr);
  ri_ended : ended r = true -> m_logMsgQueue r = [] /\ m_queueRunning r = false;
  ri_clean : m_queueThread r = RlClean -> m_queueRunning r = false
}.

Lemma each_delete l (r : RemoteLogger) : each (fun m => emit (RlDelete m)) l r = (r, map RlDelete l, tt).
Proof.
  induction l as [|m l IH]; [done|]. cbn [each map]. rewrite (bind_run _ _ _ r [RlDelete m] tt) by done.
  unfold st_of, out_of, res_of. by rewrite IH.
Qed.

Lemma deletes_only l : created (map RlDelete l) = [] /\ accepted (map RlDelete l) = [] /\ published (map RlDelete l) = [].
Proof. induction l as [|m l (H1 & H2 & H3)]; done. Qed.

Lemma deleted_deletes l : deleted (map RlDelete l) = l.
Proof. induction l as [|m l IH]; [done|]. unfold deleted in *. cbn. by rewrite IH. Qed.

Lemma created_app l1 l2 : created (l1 ++ l2) = created l1 ++ created l2.
Proof. apply omap_app. Qed.
Lemma accepted_app l1 l2 : accepted (l1 ++ l2) = accepted l1 ++ accepted l2.
Proof. apply omap_app. Qed.
Lemma published_app l1 l2 : published (l1 ++ l2) = published l1 ++ published l2.
Proof. apply omap_app. Qed.
Lemma deleted_app l1 l2 : deleted (l1 ++ l2) = deleted l1 ++ deleted l2.
Proof. apply omap_app. Qed.
Create HintDb rl.
#[local] Hint Rewrite created_app accepted_app published_app deleted_app app_nil_r : rl.

Ltac rl_inv_cases :=
  unfold st_of, out_of; runM; cbn; split; unfold held, ended in *; cbn in *; autorewrite with rl; cbn; autorewrite with rl; eauto; try done.

Lemma rl_append_inv tr r m : rl_inv tr r -> m ∉ created tr -> rl_inv (tr ++ out_of (append m) r) (st_of (append m) r).
Proof.
  intros [(lost & Hf & Hlost) Ho Hn He Hc] Hfresh. destruct r as [q run pc].
  assert (Hn' : NoDup (created tr ++ [m])).
  { apply list.NoDup_app. repeat split; [done| |apply NoDup_singleton]. intros x Hx ->%list_elem_of_singleton. done. }
  unfold append. destruct run; rl_inv_cases.
  - exists []. destruct (match pc with RlDone | RlJoined => true | _ => false end); [by destruct (He eq_refl)|].
    split; [|done]. rewrite Hf, (Hlost eq_refl). by autorewrite with rl; rewrite <-!app_assoc.
  - rewrite Ho. solve_Permutation.
  - intros Hend. by destruct (He Hend).
  - rewrite Ho. solve_Permutation.
Qed.

Lemma rl_thread_inv tr r : rl_inv tr r -> rl_inv (tr ++ out_of queueThreadFun_p r) (st_of queueThreadFun_p r).
Proof.
  intros [(lost & Hf & Hlost) Ho Hn He Hc]. destruct r as [q run pc]. unfold queueThreadFun_p. rewrite st_read, out_read.
  cbn [m_queueThread m_queueRunning m_logMsgQueue]. destruct pc as [| |m| | |].
  - rl_inv_cases.
  - destruct run; [|by rl_inv_cases]. destruct (last q) as [m|] eqn:Hl; [|rl_inv_cases].
    apply last_removelast in Hl. rl_inv_cases.
    + exists lost. rewrite Hf, Hl at 1. by rewrite rev_app_distr.
    + rewrite Ho, Hl at 1. solve_Permutation.
  - rl_inv_cases.
    + exists lost. by rewrite Hf, <-app_assoc.
    + rewrite Ho. solve_Permutation.
  - specialize (Hc eq_refl). cbn in Hc. subst run.
    assert (Hrun : forall k : unit -> RLM unit, (each (fun m => emit (RlDelete m)) q ≫= k) (mkRemoteLogger q false RlClean) =
      (let '(r', evs, a) := k tt (mkRemoteLogger q false RlClean) in (r', map RlDelete q ++ evs, a))).
    { intros k. unfold mbind, M_bind. by rewrite each_delete. }
    unfold st_of, out_of. rewrite !Hrun. rl_inv_cases.
    all: destruct (deletes_only q) as (H1 & H2 & H3); rewrite ?deleted_deletes, ?H1, ?H2, ?H3; autorewrite with rl; try done.
    by exists (rev q ++ lost).
  - rl_inv_cases.
  - rl_inv_cases.
Qed.

Lemma rl_reach_inv tr r : rl_reach tr r -> rl_inv tr r.
Proof.
  induction 1 as [|tr r op Hr IH Hj Hfresh].
  { split; try done; [by exists []|constructor]. }
  destruct op as [m| | |]; cbn [exec]; [by apply rl_append_inv; auto| | |by apply rl_thread_inv].
  all: destruct IH as [(lost & Hf & Hlost) Ho Hn He Hc]; destruct r as [q run pc];
    unfold stopThread_signal, stopThread_join; rl_inv_cases.
  - intros Hd. by destruct (He Hd).
  - by destruct (Hj eq_refl) as [Hpc|Hpc]; cbn in Hpc; subst pc; exists lost.
  - by destruct (Hj eq_refl) as [Hpc|Hpc]; cbn in Hpc; subst pc.
  - by destruct (Hj eq_refl) as [Hpc|Hpc]; cbn in Hpc; subst pc; intros _; apply He.
Qed.

(** C32: in every interleaving: messages are sent in the order in which they were put, none
    twice; until it is told to stop, the logger sends, holds or keeps all of them; no
    message is deleted twice, and when the thread has ended all that were ever created
    are deleted. *)
Theorem log_messages_owned (tr : list rl_event) (r : RemoteLogger) (Hr : rl_reach tr r) :
  published tr `prefix_of` accepted tr /\
  (m_queueRunning r = true -> accepted tr = published tr ++ held r ++ rev (m_logMsgQueue r)) /\
  NoDup (deleted tr) /\ (ended r = true -> deleted tr ≡ₚ created tr).
Proof.
  destruct (rl_reach_inv tr r Hr) as [(lost & Hf & Hlost) Ho Hn He Hc]. split_and!.
  - rewrite Hf. by apply prefix_app_r.
  - intros Hrun. destruct (ended r) eqn:Hend; [by destruct (He eq_refl) as [_ Hx]; rewrite Hrun in Hx|].
    by rewrite Hf, (Hlost eq_refl), app_nil_r.
  - rewrite Ho in Hn. by apply list.NoDup_app in Hn as [Hn _].
  - intros Hend. destruct (He Hend) as [Hq _]. rewrite Ho, Hq. unfold held, ended in *.
    by destruct (m_queueThread r); try done; rewrite !app_nil_r.
Qed.

Definition rl_enabled (op : rl_op) (x : list rl_event * RemoteLogger) : bool :=
  match op with
  | RlJoin => match m_queueThread x.2 with RlDone | RlJoined => true | _ => false end
  | RlAppend m => bool_decide (m ∉ created x.1)
  | _ => true
  end.

Definition rl_run (ops : list rl_op) : option (list rl_event * RemoteLogger) :=
  fold_left (fun x op => x ≫= fun x => if rl_enabled op x then Some (x.1 ++ out_of (exec op) x.2, st_of (exec op) x.2) else None)
    ops (Some ([], newRemoteLogger)).

Lemma rl_run_reach ops x : rl_run ops = Some x -> rl_reach x.1 x.2.
Proof.
  unfold rl_run. revert x. induction ops as [|op ops IH] using rev_ind; intros x; [intros [= <-]; apply rl_new|].
  rewrite fold_left_app. cbn. destruct (fold_left _ ops _) as [y|]; [|done]. cbn. specialize (IH y eq_refl).
  destruct (rl_enabled op y) eqn:Hen; [|done]. intros [= <-]. apply rl_step; [done| |].
  - intros ->. cbn in Hen. by destruct (m_queueThread y.2); auto.
  - intros m ->. by apply bool_decide_eq_true in Hen.
Qed.

Lemma log_messages_owned_witness :
  exists tr r, rl_run [RlThread; RlAppend 1; RlAppend 2; RlThread; RlThread; RlStop; RlAppend 3; RlThread; RlThread; RlJoin] = Some (tr, r) /\
  published tr = [1] /\ accepted tr = [1; 2] /\ deleted tr ≡ₚ created tr.
Proof.
  eexists _, _. split_and!; [by vm_compute|done..|].
  apply (log_messages_owned _ (mkRemoteLogger [] false RlJoined)); [|done].
  by apply (rl_run_reach [RlThread; RlAppend 1; RlAppend 2; RlThread; RlThread; RlStop; RlAppend 3; RlThread; RlThread; RlJoin] (_, _)); vm_compute.
Defined.

(** ** The one logger of the process

    [RemoteLogger::create] and [shutdown]; the root logger of log4cxx owns the object. *)
Record LogRoot : Set := mkLogRoot {
  remoteLogger : option Z;
  lr_appenders : list Z;     (** what the root logger owns: the live objects *)
  lr_next : Z                (** name of the next object *)
}.
#[export] Instance LogRoot_eta : Eta LogRoot := fun r => mkLogRoot (remoteLogger r) (lr_appenders r) (lr_next r).

Inductive lr_event : Set := LrNew (p : Z) | LrThreshold (p : Z) | LrDestroy (p : Z).
Notation LRM := (CM LogRoot lr_event).

Definition create : LRM Z :=
  r ← cget;
  match remoteLogger r with
  | Some p => mret p
  | None =>
      let p := lr_next r in
      cemit (LrNew p) ;;
      cmodify (fun r => r <| remoteLogger := Some p |> <| lr_appenders := p :: lr_appenders r |> <| lr_next := lr_next r + 1 |>) ;;
      mret p
  end.

Definition shutdown : LRM unit :=
  r ← cget;
  match remoteLogger r with
  | None => mret tt
  | Some p =>
      if bool_decide (p ∈ lr_appenders r) then
        cmodify (fun r => r <| lr_appenders := filter (fun q => q <> p) (lr_appenders r) |>) ;; cemit (LrDestroy p)
      else crashes Dangling
  end.

Definition initPublisher : LRM unit :=
  rl ← create;
  r ← cget;
  if bool_decide (rl ∈ lr_appenders r) then cemit (LrThreshold rl) else crashes Dangling.

Definition closePublisher : LRM unit := shutdown.

(** The pointer is not reset: a second [initPublisher] after [closePublisher] uses the
    destroyed object, and so does a second [closePublisher]. *)
Fact publisher_once :
  let none := mkLogRoot None [] 0 in
  (initPublisher ;; closePublisher) none = (mkLogRoot (Some 0) [] 1, [LrNew 0; LrThreshold 0; LrDestroy 0], inr tt) /\
  ((initPublisher ;; closePublisher ;; initPublisher) none).2 = inl Dangling /\
  ((initPublisher ;; closePublisher ;; closePublisher) none).2 = inl Dangling.
Proof. by vm_compute. Qed.
