(* ===== verification/ApcClient.v ===== *)
(** The APC client: session with the Manager over one connector at a time
    (APInterface/APCClient.cpp, APCClient.h, public/IAPCClient.h).

    The client keeps the session id, the cache of unconfirmed packets and the
    reconnection state.  Connectors live in a store and are referred to by
    number, as the shared pointers of the code refer to them; what a connector
    does when the client calls it is the model of ApcConnector. *)
From stdpp Require Import base numbers list option strings gmap.
From Stdlib Require Import ZArith Lia.
From S2P Require Import Prelude Common ApcProto ApcSerializer ApcCache ApcConnector.

Local Open Scope Z_scope.

(** ** Data *)
Inductive apcclient_state_t : Set :=
| APCCLIENT_STATE_INIT
| APCCLIENT_STATE_ONLINE
| APCCLIENT_STATE_OFFLINE
| APCCLIENT_STATE_DISCONNECT.

#[export] Instance apcclient_state_t_eq_dec : EqDecision apcclient_state_t.
Proof. solve_decision. Defined.

Definition APINTFID_EMPTY : Z := 0.
(** Times are microseconds of the steady clock. *)
Definition TIME_EMPTY : Z := 0.

Record start_param_t : Set := mkStartParam {
  sp_kaTimeout : Z;
  sp_freeBufTimeout : Z;
  sp_reconnectionDelayMsec : Z;
  sp_disconnectTimeoutMsec : Z
}.

Record CAPCClient : Set := mkClient {
  m_state : apcclient_state_t;
  m_intfId : Z;
  m_pConnector : option Z;
  m_cache : CAPCCache;
  m_lastRxSeqNum : Z;
  m_kaTimeout : Z;
  m_freeBufTimeout : Z;
  m_intfName : list Z;
  m_pInput : bool;                   (** a callback object is set *)
  m_ioRunning : bool;                (** the io service thread runs *)
  m_reconnectTimer : bool;           (** the timer object exists *)
  m_disconnectTime : Z;
  m_reconnectionDelayMsec : Z;
  m_disconnectTimeoutMsec : Z;
  m_currentGpsState : ap_int_gpslockstat_t;
  m_netId : Z;
  conns : gmap Z CAPCConnector;      (** the connector objects *)
  nextConn : Z                       (** the name of the next one *)
}.
#[export] Instance CAPCClient_eta : Eta CAPCClient := fun c =>
  mkClient (m_state c) (m_intfId c) (m_pConnector c) (m_cache c) (m_lastRxSeqNum c) (m_kaTimeout c)
    (m_freeBufTimeout c) (m_intfName c) (m_pInput c) (m_ioRunning c) (m_reconnectTimer c)
    (m_disconnectTime c) (m_reconnectionDelayMsec c) (m_disconnectTimeoutMsec c)
    (m_currentGpsState c) (m_netId c) (conns c) (nextConn c).

Definition newCAPCClient (cacheSize : nat) : CAPCClient :=
  mkClient APCCLIENT_STATE_INIT APINTFID_EMPTY None (newCAPCCache cacheSize) 0 0 0 [] false false false
           TIME_EMPTY 0 0 APINTF_GPS_NOLOCK 0 ∅ 0.

(** Calls on the owner (IAPCClientNotif). *)
Inductive input_call : Set :=
| InConnected (name : list Z) (flags : Z)
| InDisconnected (reason : apc_stop_reason_t)
| InDataRx (hdr : ap_intf_sendhdr_t) (payload : list Z)
| InResume
| InPause
| InOffline (reason : apc_stop_reason_t)
| InOnline
| InResetAP
| InDisconnectAP
| InGetTime.

Inductive client_event : Set :=
| EvInput (c : input_call)
| EvConn (id : Z) (e : conn_event)                 (** an event of a connector *)
| EvSent (id type seq : Z) (payload : list Z) (res : apc_error_t)   (** a sendData call *)
| EvReconnectTimer (delayMsec : Z)                 (** the timer was started *)
| EvNullConnector.                                 (** the null pointer [m_pConnector] is used: the process ends *)

Notation CLM := (M CAPCClient client_event) (only parsing).

(** What one call meets: the clock, the environment of connector calls, the
    outcome of the TCP connection and of the io thread, the version label, and
    the value an uninitialized variable holds. *)
Record ClEnv : Type := mkClEnv {
  ce_now : Z;
  ce_conn : Env;
  ce_ipConnects : bool;
  ce_ioStarts : bool;
  ce_version : list Z;
  ce_garbage : Z
}.

(** ** Calls on a connector *)
Definition withConn {A} (id : Z) (m : M CAPCConnector conn_event A) : CLM (option A) := fun c =>
  match conns c !! id with
  | Some k => let '(k, t, a) := m k in (c <| conns := <[id := k]> (conns c) |>, map (EvConn id) t, Some a)
  | None => (c, [], None)
  end.

(** The error code of a call; a missing object cannot happen ([client_wf]). *)
Definition callConn (id : Z) (m : M CAPCConnector conn_event apc_error_t) : CLM apc_error_t :=
  r ← withConn id m; mret (default APC_ERR_STATE r).

Definition stopConn (env : ClEnv) (id : Z) (reason : apc_stop_reason_t) (flags : stopflags_t) : CLM unit :=
  _ ← withConn id (ApcConnector.stop (ce_conn env) reason flags true true); mret tt.

Definition sendConn (env : ClEnv) (id type seq : Z) (p1 : list Z) : CLM apc_error_t :=
  res ← callConn id (ApcConnector.sendData (ce_conn env) type 0 seq p1 []);
  emit (EvSent id type seq p1 res) ;; mret res.

(** ** Timer *)
Definition startTimer_p : CLM unit :=
  modify (fun c => c <| m_reconnectTimer := true |>) ;;
  c ← get; emit (EvReconnectTimer (m_reconnectionDelayMsec c)).
Definition stopTimer_p : CLM unit := modify (fun c => c <| m_reconnectTimer := false |>).

(** ** Connecting *)
Definition ipConnect_p (env : ClEnv) : CLM (option Z) :=
  c ← get;
  if ce_ipConnects env then
    let id := nextConn c in
    let k := createConnection (mkConnParam (m_intfName c) (m_kaTimeout c) (m_freeBufTimeout c)
                                 (u32 (getCacheSize (m_cache c) * 3 / 4)) (ce_version env) true) in
    modify (fun c => c <| conns := <[id := k]> (conns c) |> <| nextConn := id + 1 |>) ;;
    mret (Some id)
  else mret None.

Definition open (name : list Z) : CLM unit :=
  modify (fun c => c <| m_pInput := true |> <| m_intfName := name |>).

Definition start (env : ClEnv) (p : start_param_t) : CLM apc_error_t :=
  c ← get;
  match m_pConnector c with
  | Some _ => mret APC_ERR_STATE
  | None =>
      if m_ioRunning c || negb (ce_ioStarts env) then mret APC_ERR_INIT
      else
        modify (fun c => c <| m_ioRunning := true |>
          <| m_kaTimeout := sp_kaTimeout p |> <| m_freeBufTimeout := sp_freeBufTimeout p |>
          <| m_reconnectionDelayMsec := sp_reconnectionDelayMsec p |>
          <| m_disconnectTimeoutMsec := sp_disconnectTimeoutMsec p |>
          <| m_state := APCCLIENT_STATE_INIT |> <| m_intfId := APINTFID_EMPTY |>
          <| m_lastRxSeqNum := 0 |> <| m_cache := clear (m_cache c) |>) ;;
        pAPC ← ipConnect_p env;
        match pAPC with
        | None => mret APC_ERR_INIT
        | Some id =>
            res ← callConn id (ApcConnector.start (ce_conn env));
            c ← get;
            res ← (if bool_decide (res = APC_OK)
                   then callConn id (connect (ce_conn env) (m_intfId c) 0 0
                                             (gpslock_val (m_currentGpsState c)) 0 0)
                   else mret res);
            when (negb (bool_decide (res = APC_OK))) (stopConn env id APC_STOP_CREATE STOP_FL_DISCONNECT) ;;
            mret res
        end
  end.

(** [waited]: what the notification thread does while [stop] waits. *)
Definition stop (env : ClEnv) (waited : CLM unit) : CLM unit :=
  stopTimer_p ;;
  modify (fun c => c <| m_disconnectTime := TIME_EMPTY |> <| m_state := APCCLIENT_STATE_DISCONNECT |>) ;;
  c ← get;
  match m_pConnector c with
  | Some id => _ ← withConn id (ApcConnector.disconnect (ce_conn env)); waited
  | None => mret tt
  end ;;
  modify (fun c => c <| m_pConnector := None |> <| m_ioRunning := false |>
                     <| m_cache := clear (m_cache c) |>).

(** ** Sending *)
Definition sendData_p (env : ClEnv) (type : Z) (payload1 : list Z) : CLM apc_error_t :=
  c ← get;
  match m_state c with
  | APCCLIENT_STATE_DISCONNECT => mret APC_ERR_DISCONNECT
  | APCCLIENT_STATE_OFFLINE => mret APC_ERR_OFFLINE
  | APCCLIENT_STATE_INIT => mret APC_ERR_NOTCONNECT
  | APCCLIENT_STATE_ONLINE =>
      match m_pConnector c with
      | None => mret APC_ERR_STATE
      | Some id =>
          seqNum ←
            match addPacket type payload1 [] (m_cache c) with
            | Some (k, _, seq) =>
                modify (fun c => c <| m_cache := k |>) ;; mret (default (ce_garbage env) seq)
            | None => mret (ce_garbage env)
            end;
          res ← sendConn env id type seqNum payload1;
          (if bool_decide (res = APC_ERR_PKTSERIALIZATION)
           then stopConn env id APC_STOP_WRITE STOP_FL_DISCONNECT
           else when (negb (bool_decide (res = APC_OK))) (stopConn env id APC_STOP_WRITE STOP_FL_OFFLINE)) ;;
          mret res
      end
  end.

(** [payloadLength] is a [uint32_t]; [sendData_p] takes a [uint16_t]. *)
Definition sendData (env : ClEnv) (payload : list Z) : CLM apc_error_t :=
  sendData_p env APC_NET_RX (take (Z.to_nat (u16 (Z.of_nat (length payload)))) payload).

Definition txstatus_val (s : ap_intf_txstatus_t) : Z :=
  match s with APINTF_TXDONE_OK => 0 | APINTF_TXDONE_ERR => 1 end.

Definition sendTxDone (env : ClEnv) (p : ap_intf_txdone_t) : CLM apc_error_t :=
  sendData_p env APC_NET_TXDONE (le_bytes 2 (txd_txDoneId p) ++ le_bytes 1 (txstatus_val (txd_status p))).

Definition sendTimeMap (env : ClEnv) (p : ap_time_map_t) : CLM apc_error_t :=
  sendData_p env APC_TIME_MAP
    (le_bytes 8 (tm_timeSec p) ++ le_bytes 4 (tm_timeUsec p) ++ le_bytes 8 (tm_asn p) ++
     le_bytes 2 (tm_asnOffset p)).

Definition sendApLost (env : ClEnv) : CLM apc_error_t := sendData_p env APC_AP_LOST [].
Definition sendResume (env : ClEnv) : CLM apc_error_t := sendData_p env APC_NET_TX_RESUME [].
Definition sendPause (env : ClEnv) : CLM apc_error_t := sendData_p env APC_NET_TX_PAUSE [].

Definition sendGpsLock (g : ap_int_gpslockstat_t) : CLM apc_error_t :=
  modify (fun c => c <| m_currentGpsState := g |>) ;; mret APC_OK.

(** ** Notifications of the connector *)
Definition priorityOf (v : Z) : ap_intf_priority_t :=
  if v =? 0 then APINTF_LOW else if v =? 1 then APINTF_MED else if v =? 2 then APINTF_HI
  else if v =? 3 then APINTF_CMD else APINTF_LOW.

(** The header of a NET_TX message, already in host order. *)
Definition sendHdrOf (p : list Z) : ap_intf_sendhdr_t :=
  let f n := fld apc_msg_net_tx_s n p in
  mkSendHdr (priorityOf (f "priority"%string))
    (negb (f "txDoneId"%string =? APC_NETTX_NOTXDONE)) (f "txDoneId"%string)
    (Z.land (f "flags"%string) APC_NETTX_FL_USETXINFO =? APC_NETTX_FL_USETXINFO)
    (f "frame"%string) (f "slot"%string) (f "offset"%string) (f "dst"%string).

Definition input (i : input_call) : CLM unit := emit (EvInput i).

Definition messageReceived (p : param_received_s) (payload : list Z) : CLM unit :=
  modify (fun c => c <| m_cache := fst (confirmedSeqNum (pr_yourSeq p) false (m_cache c)) |>) ;;
  when (Z.land (pr_flags p) APC_HDR_FLAGS_NOTRACK =? 0)
    (modify (fun c => c <| m_lastRxSeqNum := pr_mySeq p |>)) ;;
  c ← get;
  if negb (m_pInput c) then mret tt
  else
    let type := pr_type p in
    if type =? APC_NET_TX then input (InDataRx (sendHdrOf payload) (drop (sizeof apc_msg_net_tx_s) payload))
    else if type =? APC_NET_TX_PAUSE then input InPause
    else if type =? APC_NET_TX_RESUME then input InResume
    else if type =? APC_RESET_AP then input InResetAP
    else if type =? APC_DISCONNECT_AP then input InDisconnectAP
    else if type =? APC_GET_TIME then input InGetTime
    else mret tt.

Definition apcStarted (pAPC : Z) : CLM unit := modify (fun c => c <| m_pConnector := Some pAPC |>).

(** The loop that sends the cached packets again; [n] bounds their number.
    The first [size] bytes of the packet's buffer are sent.  Without a connector the code uses a null pointer
    ([EvNullConnector]; what follows the event has no meaning). *)
Fixpoint replay (env : ClEnv) (n : nat) (res : apc_error_t) : CLM apc_error_t :=
  if negb (bool_decide (res = APC_OK)) then mret res
  else
    match n with
    | O => mret res
    | S n' =>
        c ← get;
        match getNextPacket (m_cache c) with
        | Some (k, e, Some pkt) =>
            modify (fun c => c <| m_cache := k |>) ;;
            if bool_decide (e = APC_ERR_NOTFOUND) then mret res
            else
              res ←
                match m_pConnector c with
                | Some id => sendConn env id (m_type pkt) (m_seqNumb pkt)
                               (take (Z.to_nat (u16 (m_size pkt))) (m_payload pkt))
                | None => emit EvNullConnector ;; mret APC_ERR_STATE
                end;
              replay env n' res
        | _ => mret res
        end
    end.

Definition apcConnected (env : ClEnv) (pAPC : Z) (p : param_connected_s) : CLM unit :=
  c ← get;
  if negb (pc_ver p =? APC_PROTO_VER) then stopConn env pAPC APC_STOP_VER STOP_FL_DISCONNECT
  else if (pc_apcId p =? APINTFID_EMPTY) ||
          (negb (m_intfId c =? APINTFID_EMPTY) && negb (pc_apcId p =? m_intfId c))
  then stopConn env pAPC APC_STOP_RECONNECTION STOP_FL_DISCONNECT
  else
    let isNewConnection := m_intfId c =? APINTFID_EMPTY in
    stopTimer_p ;;
    modify (fun c => c <| m_disconnectTime := TIME_EMPTY |> <| m_intfId := pc_apcId p |>
                       <| m_netId := pc_netId p |>) ;;
    when (Z.land (pc_hdrFlags p) APC_HDR_FLAGS_NOTRACK =? 0)
      (modify (fun c => c <| m_lastRxSeqNum := pc_mySeq p |>)) ;;
    res ←
      (if isNewConnection then mret APC_OK
       else
         modify (fun c => c <| m_cache :=
           prepForGet (fst (confirmedSeqNum (pc_yourSeq p) true (m_cache c))) |>) ;;
         c ← get;
         replay env (S (length (m_outpkts (m_cache c)))) APC_OK);
    if bool_decide (res = APC_OK) then
      modify (fun c => c <| m_state := APCCLIENT_STATE_ONLINE |>) ;;
      c ← get;
      when (m_pInput c)
        (if isNewConnection then input (InConnected (pc_name p) (pc_cmdFlags p)) else input InOnline)
    else
      stopConn env pAPC APC_STOP_RECONNECTION
        (if bool_decide (res = APC_ERR_PKTSERIALIZATION) then STOP_FL_DISCONNECT else STOP_FL_OFFLINE).

Definition is_disconnect (f : stopflags_t) : bool :=
  match f with STOP_FL_DISCONNECT => true | STOP_FL_OFFLINE => false end.

Definition apcDisconnected (env : ClEnv) (p : param_disconnected_s) : CLM unit :=
  modify (fun c => c <| m_pConnector := None |>) ;;
  c ← get;
  let isImmediately :=
    is_disconnect (pd_flags p) || (m_intfId c =? APINTFID_EMPTY) || (m_disconnectTimeoutMsec c =? 0) in
  let isSendNotif := isImmediately || negb (bool_decide (m_state c = APCCLIENT_STATE_OFFLINE)) in
  modify (fun c => c <| m_state := if isImmediately then APCCLIENT_STATE_DISCONNECT
                                   else APCCLIENT_STATE_OFFLINE |>) ;;
  stopTimer_p ;;
  (if isImmediately then modify (fun c => c <| m_disconnectTime := TIME_EMPTY |>)
   else
     modify (fun c => if m_disconnectTime c =? TIME_EMPTY
       then c <| m_disconnectTime := ce_now env + m_disconnectTimeoutMsec c * 1000 |> else c) ;;
     startTimer_p) ;;
  c ← get;
  when (isSendNotif && m_pInput c)
    (if isImmediately then input (InDisconnected (pd_reason p)) else input (InOffline (pd_reason p))).

(** ** Reconnection *)
Definition reconnect_p (env : ClEnv) : CLM unit :=
  c ← get;
  match m_pConnector c with
  | Some _ => mret tt
  | None =>
      pAPC ← ipConnect_p env;
      match pAPC with
      | None => startTimer_p
      | Some id =>
          stopTimer_p ;;
          res ← callConn id (ApcConnector.start (ce_conn env));
          c ← get;
          res ← (if bool_decide (res = APC_OK)
                 then callConn id (connect (ce_conn env) (m_intfId c) (getLastSent (m_cache c))
                                     (m_lastRxSeqNum c) (gpslock_val (m_currentGpsState c)) 0 0)
                 else mret res);
          when (negb (bool_decide (res = APC_OK))) (stopConn env id APC_STOP_CREATE STOP_FL_OFFLINE)
      end
  end.

Definition disconnect_p (env : ClEnv) : CLM bool :=
  c ← get;
  match m_pConnector c with
  | Some id => stopConn env id APC_STOP_RECONNECTION STOP_FL_DISCONNECT ;; mret false
  | None =>
      modify (fun c => c <| m_state := APCCLIENT_STATE_DISCONNECT |>) ;;
      stopTimer_p ;;
      modify (fun c => c <| m_disconnectTime := TIME_EMPTY |>) ;;
      mret true
  end.

Definition reconnectTimerFun_p (env : ClEnv) (error : bool) : CLM unit :=
  if error then mret tt
  else
    c ← get;
    if bool_decide (m_state c = APCCLIENT_STATE_DISCONNECT) then mret tt
    else
      isSendNotif ←
        (if ce_now env <? m_disconnectTime c then reconnect_p env ;; mret false else disconnect_p env);
      c ← get;
      when (isSendNotif && m_pInput c) (input (InDisconnected APC_STOP_TIMEOUT)).

Definition isConnected (c : CAPCClient) : bool :=
  match m_pConnector c with
  | Some id => match conns c !! id with Some k => m_isWorking k | None => false end
  | None => false
  end.

Definition getCachedPkts (c : CAPCClient) : Z := getNumCachedPkts (m_cache c).

(** ** All operations, for reachability *)
Inductive client_op : Type :=
| COpen (name : list Z)
| CStart (p : start_param_t)
| CStop
| CSend (payload : list Z)
| CTxDone (p : ap_intf_txdone_t)
| CTimeMap (p : ap_time_map_t)
| CApLost
| CResume
| CPause
| CGpsLock (g : ap_int_gpslockstat_t)
| CStarted (pAPC : Z)
| CConnected (pAPC : Z) (p : param_connected_s)
| CDisconnected (p : param_disconnected_s)
| CReceived (p : param_received_s) (payload : list Z)
| CTimer (error : bool).

Definition exec (env : ClEnv) (op : client_op) : CLM unit :=
  match op with
  | COpen name => open name
  | CStart p => _ ← start env p; mret tt
  | CStop => stop env (mret tt)
  | CSend payload => _ ← sendData env payload; mret tt
  | CTxDone p => _ ← sendTxDone env p; mret tt
  | CTimeMap p => _ ← sendTimeMap env p; mret tt
  | CApLost => _ ← sendApLost env; mret tt
  | CResume => _ ← sendResume env; mret tt
  | CPause => _ ← sendPause env; mret tt
  | CGpsLock g => _ ← sendGpsLock g; mret tt
  | CStarted pAPC => apcStarted pAPC
  | CConnected pAPC p => apcConnected env pAPC p
  | CDisconnected p => apcDisconnected env p
  | CReceived p payload => messageReceived p payload
  | CTimer error => reconnectTimerFun_p env error
  end.

(** The session invariant: what the state says about the reconnection deadline
    and the session id. *)
Record client_inv (c : CAPCClient) : Prop := {
  cl_online : m_state c = APCCLIENT_STATE_ONLINE ->
    m_intfId c <> APINTFID_EMPTY /\ m_disconnectTime c = TIME_EMPTY /\ m_reconnectTimer c = false;
  cl_disconnect : m_state c = APCCLIENT_STATE_DISCONNECT ->
    m_disconnectTime c = TIME_EMPTY /\ m_reconnectTimer c = false;
  cl_offline : m_state c = APCCLIENT_STATE_OFFLINE -> m_intfId c <> APINTFID_EMPTY
}.

(** ** Facts *)
Definition any_client_event (e : client_event) : Prop := True.

(** A property of the session and the cache, not of the connector objects. *)
Definition conn_blind (I : CAPCClient -> Prop) : Prop := forall c x, I c -> I (c <| conns := x |>).

Lemma any_client_event_all e : any_client_event e.
Proof. done. Qed.

(** The events that calls on connectors give rise to. *)
Definition conn_events (P : client_event -> Prop) : Prop :=
  (forall id e, P (EvConn id e)) /\ (forall id t s p r, P (EvSent id t s p r)).

Lemma conn_events_any : conn_events any_client_event.
Proof. done. Qed.
#[export] Hint Resolve any_client_event_all conn_events_any : apb_keeps.

Lemma withConn_keeps {A} I P id (m : M CAPCConnector conn_event A) :
  conn_blind I -> conn_events P -> keeps I P (withConn id m).
Proof.
  intros HI [HP _] c Hc. unfold withConn, st_of, out_of.
  destruct (conns c !! id); [|by split; [|constructor]].
  destruct (m _) as [[k t] a]. cbn [fst snd]. split; [by apply HI|].
  apply Forall_forall. by intros e (x & -> & _)%list_elem_of_fmap.
Qed.

Lemma stopConn_keeps I P env id r f :
  conn_blind I -> conn_events P -> keeps I P (stopConn env id r f).
Proof. intros HI HP. apply keeps_bind; [by apply withConn_keeps|intros; apply keeps_ret]. Qed.

Lemma callConn_keeps I P id m : conn_blind I -> conn_events P -> keeps I P (callConn id m).
Proof. intros HI HP. apply keeps_bind; [by apply withConn_keeps|intros; apply keeps_ret]. Qed.

Lemma sendConn_keeps I P env id t s p :
  conn_blind I -> conn_events P -> keeps I P (sendConn env id t s p).
Proof.
  intros HI HP. apply keeps_bind; [by apply callConn_keeps|intros; keeps_auto; apply HP].
Qed.
#[export] Hint Resolve stopConn_keeps callConn_keeps sendConn_keeps withConn_keeps : apb_keeps.

(** What a client has after at most [k] packets: a consistent session and a
    consistent cache of the capacity it was created with. *)
Record client_ok (cap k : Z) (c : CAPCClient) : Prop := {
  co_session : client_inv c;
  co_timeout : 0 <= m_disconnectTimeoutMsec c;
  co_cache : exists log, cache_inv (m_cache c) log /\ capacity (m_cache c) = cap /\
                         Z.of_nat (length log) <= k
}.

Lemma client_ok_blind cap k : conn_blind (client_ok cap k).
Proof. intros c x [[H1 H2 H3] H4 H5]. by split. Qed.
#[export] Hint Resolve client_ok_blind : apb_keeps.

Lemma client_ok_upd cap k c c' :
  client_ok cap k c -> m_state c' = m_state c -> m_intfId c' = m_intfId c ->
  m_disconnectTime c' = m_disconnectTime c -> m_reconnectTimer c' = m_reconnectTimer c ->
  m_disconnectTimeoutMsec c' = m_disconnectTimeoutMsec c -> m_cache c' = m_cache c ->
  client_ok cap k c'.
Proof.
  intros [[H1 H2 H3] H4 H5] E1 E2 E3 E4 E5 E6.
  split; [split|..]; rewrite ?E1, ?E2, ?E3, ?E4, ?E5, ?E6; done.
Qed.

Lemma client_ok_cache cap k c q :
  client_ok cap k c -> (forall log, cache_inv (m_cache c) log -> cache_inv q log /\ capacity q = capacity (m_cache c)) ->
  client_ok cap k (c <| m_cache := q |>).
Proof.
  intros [[H1 H2 H3] H4 (log & H5 & H6 & H7)] Hq. split; [by split|done|].
  destruct (Hq _ H5) as [Hi Hcap]. exists log. cbn [m_cache upd]. by rewrite Hcap.
Qed.

(** A session in a state that promises nothing about the timer. *)
Definition idle_state (c : CAPCClient) : Prop :=
  m_state c = APCCLIENT_STATE_INIT \/ (m_state c = APCCLIENT_STATE_OFFLINE /\ m_intfId c <> APINTFID_EMPTY).

Lemma client_inv_idle c : idle_state c -> client_inv c.
Proof. intros [H|[H1 H2]]; split; intros; congruence || done. Qed.

(** A property that allows any change of the cache that keeps its contents. *)
Definition cache_blind (I : CAPCClient -> Prop) : Prop := forall c q, I c ->
  (forall log, cache_inv (m_cache c) log -> cache_inv q log /\ capacity q = capacity (m_cache c)) ->
  I (c <| m_cache := q |>).

Lemma replay_keeps I env n res :
  conn_blind I -> cache_blind I -> (forall c, I c -> exists log, cache_inv (m_cache c) log) ->
  keeps I any_client_event (replay env n res).
Proof.
  intros HI Hq Hl. revert res; induction n as [|n IH]; intros res; cbn [replay]; [keeps_auto|].
  apply keeps_if; [apply keeps_ret|]. apply keeps_read. intros c Hc.
  destruct (getNextPacket (m_cache c)) as [[[q e] [pkt|]]|] eqn:Hg;
    [|by apply keeps_to_at; [apply keeps_ret|]..].
  apply keeps_at_bind.
  { apply keeps_at_modify. apply Hq; [done|]. intros log Hlog.
    by apply (getNextPacket_inv _ _ _ _ _ Hlog Hg). }
  intros _. apply keeps_if; [apply keeps_ret|].
  apply keeps_bind; [|done]. destruct (m_pConnector c); [by apply sendConn_keeps|by keeps_auto].
Qed.

(** [m] keeps what the client promises. *)
Notation ok_keeps cap k m := (keeps (client_ok cap k) any_client_event m) (only parsing).

Lemma ok_blind_upd cap k (f : CAPCClient -> CAPCClient) :
  (forall c, m_state (f c) = m_state c) -> (forall c, m_intfId (f c) = m_intfId c) ->
  (forall c, m_disconnectTime (f c) = m_disconnectTime c) ->
  (forall c, m_reconnectTimer (f c) = m_reconnectTimer c) ->
  (forall c, m_disconnectTimeoutMsec (f c) = m_disconnectTimeoutMsec c) ->
  (forall c, m_cache (f c) = m_cache c) -> ok_keeps cap k (modify f).
Proof. intros. apply keeps_modify. intros c Hc. by eapply client_ok_upd. Qed.

Lemma ipConnect_keeps cap k env : ok_keeps cap k (ipConnect_p env).
Proof.
  unfold ipConnect_p. apply keeps_read. intros c Hc. apply keeps_to_at; [|done].
  apply keeps_if; [|apply keeps_ret]. cbv zeta.
  apply keeps_bind; [by apply ok_blind_upd|intros; apply keeps_ret].
Qed.

Lemma stopTimer_keeps cap k : ok_keeps cap k stopTimer_p.
Proof.
  apply keeps_modify. intros c [[H1 H2 H3] H4 H5].
  split; [split|done..]; cbn [m_state m_intfId m_disconnectTime m_reconnectTimer upd].
  - intros H. by destruct (H1 H) as (? & ? & ?).
  - intros H. by destruct (H2 H).
  - done.
Qed.

Lemma startTimer_keeps_at cap k c :
  client_ok cap k c -> idle_state c -> keeps_at (client_ok cap k) any_client_event startTimer_p c.
Proof.
  intros Hc Hi. unfold startTimer_p. apply keeps_at_bind; [|intros; keeps_auto; done].
  apply keeps_at_modify. destruct Hc as [_ H4 H5]. split; [|done..]. by apply client_inv_idle.
Qed.

(** The rest of [sendData_p] once the packet has its number. *)
Definition sendRest (env : ClEnv) (id type seq : Z) (p : list Z) : CLM apc_error_t :=
  res ← sendConn env id type seq p;
  (if bool_decide (res = APC_ERR_PKTSERIALIZATION)
   then stopConn env id APC_STOP_WRITE STOP_FL_DISCONNECT
   else when (negb (bool_decide (res = APC_OK))) (stopConn env id APC_STOP_WRITE STOP_FL_OFFLINE)) ;;
  mret res.

Lemma sendData_p_online env c type p id :
  m_state c = APCCLIENT_STATE_ONLINE -> m_pConnector c = Some id ->
  sendData_p env type p c =
    match addPacket type p [] (m_cache c) with
    | Some (q, _, seq) => sendRest env id type (default (ce_garbage env) seq) p (c <| m_cache := q |>)
    | None => sendRest env id type (ce_garbage env) p c
    end.
Proof.
  intros Hs Hc. unfold sendData_p, sendRest, get, modify, mret, M_ret.
  unfold mbind at 1, M_bind at 1. rewrite Hs, Hc. unfold mbind at 1, M_bind at 1.
  destruct (addPacket type p [] (m_cache c)) as [[[q e] seq]|];
    [unfold mbind at 1, M_bind at 1|]; cbv beta iota; cbn [app];
    match goal with |- _ = ?r =>
      generalize r; by intros [[? ?] ?] end.
Qed.

Lemma sendRest_keeps I env id type seq p :
  conn_blind I -> keeps I any_client_event (sendRest env id type seq p).
Proof. intros HI. unfold sendRest. keeps_auto. Qed.

Lemma sendData_p_offline env c type p :
  m_state c <> APCCLIENT_STATE_ONLINE \/ m_pConnector c = None ->
  sendData_p env type p c =
    (c, [], match m_state c with
            | APCCLIENT_STATE_DISCONNECT => APC_ERR_DISCONNECT
            | APCCLIENT_STATE_OFFLINE => APC_ERR_OFFLINE
            | APCCLIENT_STATE_INIT => APC_ERR_NOTCONNECT
            | APCCLIENT_STATE_ONLINE => APC_ERR_STATE
            end).
Proof.
  intros H. unfold sendData_p, get, mret, M_ret. unfold mbind at 1, M_bind at 1.
  destruct (m_state c); [done| |done..]. by destruct H as [H| ->].
Qed.

Lemma client_ok_mono cap k k' c : k <= k' -> client_ok cap k c -> client_ok cap k' c.
Proof.
  intros Hk [H1 H2 (log & H3 & H4 & H5)]. split; [done..|]. exists log. split_and!; (done || lia).
Qed.

(** The cache after [addPacket], whatever the size. *)
Lemma addPacket_ok c log t p :
  cache_inv c log -> m_lastSentSeqNum c + 1 < 2 ^ 64 - 1 -> Z.of_nat (length p) < 65536 ->
  exists q e seq, addPacket t p [] c = Some (q, e, seq) /\ capacity q = capacity c /\
    if decide (length p <= APC_MAX_MSG_SIZE)%nat
    then cache_inv q (log ++ [(t, p)]) /\ seq = Some (u32 (m_lastSentSeqNum c + 1))
    else q = c /\ seq = None.
Proof.
  intros Hinv Hb Hp. case_decide as Hfit.
  - destruct (addPacket_run c log t p [] Hinv) as (pkt & Hh & Hpl & Hrun); [cbn [length]; lia|].
    rewrite app_nil_r in Hh. pose proof Hinv as [Hc Hl _ _ Hn _ _]. rewrite Hrun.
    destruct (Z.leb_spec (capacity c) (m_numPackets c)); do 3 eexists; (split; [reflexivity|]);
      (split; [unfold capacity; cbn [stored m_outpkts]; by rewrite length_insert|]);
      (split; [|done]); apply stored_inv; (done || lia).
  - unfold addPacket. cbv zeta. cbn [length]. rewrite u32_small by lia.
    destruct (Z.ltb_spec (Z.of_nat APC_MAX_MSG_SIZE) (Z.of_nat (length p) + Z.of_nat 0)); [|lia]. by do 3 eexists.
Qed.

Lemma sendData_p_ok cap k env type p c :
  client_ok cap k c -> k + 1 < 2 ^ 64 - 1 -> Z.of_nat (length p) < 65536 ->
  client_ok cap (k + 1) (st_of (sendData_p env type p) c).
Proof.
  intros Hc Hk Hp.
  assert (Hc1 : client_ok cap (k + 1) c) by (by apply (client_ok_mono cap k); [lia|]).
  destruct (decide (m_state c = APCCLIENT_STATE_ONLINE /\ is_Some (m_pConnector c))) as [[Hs [id Hid]]|Hn].
  - unfold st_of. rewrite (sendData_p_online env c type p id Hs Hid).
    destruct Hc as [H1 H2 (log & H3 & H4 & H5)]. pose proof (ci_last _ _ H3) as Hl.
    destruct (addPacket_ok (m_cache c) log type p H3) as (q & e & seq & Hq & Hcap & Hcase); [lia|done|].
    rewrite Hq. apply (keeps_st _ any_client_event (sendRest _ _ _ _ _)); [apply sendRest_keeps, client_ok_blind|].
    destruct Hc1 as [H1' H2' _]. split; [by destruct H1; split|done|]. cbn [m_cache upd]. rewrite Hcap.
    case_decide; destruct Hcase as [Hcase Hseq].
    + exists (log ++ [(type, p)]). rewrite length_app. cbn [length]. split_and!; (done || lia).
    + subst q. exists log. split_and!; (done || lia).
  - unfold st_of. rewrite sendData_p_offline; [done|].
    destruct (decide (m_state c = APCCLIENT_STATE_ONLINE)); [right|by left].
    destruct (m_pConnector c); [|done]. exfalso; eauto.
Qed.

(** ** Every operation *)

(** What the interfaces guarantee about arguments: 32-bit fields of the peer,
    unsigned timeouts, a clock that has passed its origin. *)
Definition op_ok (op : client_op) : Prop :=
  match op with
  | CStart p => 0 <= sp_disconnectTimeoutMsec p
  | CReceived p _ => 0 <= pr_yourSeq p < 2 ^ 32
  | CConnected _ p => 0 <= pc_yourSeq p < 2 ^ 32
  | _ => True
  end.

Lemma set_state_ok cap k s :
  s = APCCLIENT_STATE_INIT -> ok_keeps cap k (modify (fun c => c <| m_state := s |>)).
Proof.
  intros ->. apply keeps_modify. intros c [H1 H2 H3]. split; [|done..]. by apply client_inv_idle; left.
Qed.

Lemma start_ok cap k env p : 0 <= sp_disconnectTimeoutMsec p -> ok_keeps cap k (start env p).
Proof.
  intros Hp. unfold start. apply keeps_read. intros c Hc. apply keeps_to_at; [|done].
  destruct (m_pConnector c); [apply keeps_ret|]. apply keeps_if; [apply keeps_ret|].
  apply keeps_bind.
  { apply keeps_modify. intros c' [H1 H2 (log & H3 & H4 & H5)].
    destruct (clear_inv _ _ H3) as [H6 H7].
    split; [by apply client_inv_idle; left|done|]. exists []. cbn [m_cache upd length].
    split_and!; [done|congruence|lia]. }
  intros _. apply keeps_bind; [apply ipConnect_keeps|intros [id|]]; [|apply keeps_ret].
  keeps_auto; auto with apb_keeps.
Qed.

Lemma stop_ok cap k env : trans (client_ok cap k) (client_ok cap k) (stop env (mret tt)).
Proof.
  unfold stop. apply (trans_bind (fun c => client_ok cap k c /\ m_reconnectTimer c = false)).
  { intros c Hc. split; [|done]. by apply (keeps_st _ any_client_event stopTimer_p); [apply stopTimer_keeps|]. }
  intros _. apply (trans_bind (client_ok cap k)).
  { apply trans_modify. intros c [[_ H2 H3] Ht]. split; [|done..]. by split. }
  intros _. apply trans_read. intros c Hc.
  refine (trans_bind (client_ok cap k) (client_ok cap k) _ _ _ _ _ c Hc).
  { apply (keeps_trans _ any_client_event). destruct (m_pConnector c); keeps_auto; auto with apb_keeps. }
  intros _. apply trans_modify. intros c' [[H2 H3 H4] H5 (log & H6 & H7 & H8)].
  destruct (clear_inv _ _ H6) as [H9 H10]. split; [by split|done|]. exists [].
  cbn [m_cache upd length]. split_and!; [done|congruence|lia].
Qed.

Lemma messageReceived_ok cap k p payload :
  0 <= pr_yourSeq p < 2 ^ 32 -> ok_keeps cap k (messageReceived p payload).
Proof.
  intros Hp. unfold messageReceived. apply keeps_bind.
  { apply keeps_modify. intros c Hc. apply client_ok_cache; [done|]. intros log Hl. by apply confirm_inv. }
  intros _. unfold input. keeps_auto; try done. intros c Hc. by eapply client_ok_upd.
Qed.

(** The session after a connection was accepted, before the replay. *)
Definition accepted (cap k : Z) (c : CAPCClient) : Prop :=
  client_ok cap k c /\ m_intfId c <> APINTFID_EMPTY /\
  m_disconnectTime c = TIME_EMPTY /\ m_reconnectTimer c = false.

Lemma accepted_blind cap k : conn_blind (accepted cap k) /\ cache_blind (accepted cap k) /\
  (forall c, accepted cap k c -> exists log, cache_inv (m_cache c) log).
Proof.
  split_and!.
  - intros c x [H H']. split; [by apply client_ok_blind|done].
  - intros c q [H H'] Hq. split; [by apply client_ok_cache|done].
  - intros c [[_ _ (log & H & _)] _]. by exists log.
Qed.

Lemma accept_keeps cap k env b p :
  0 <= pc_yourSeq p < 2 ^ 32 ->
  keeps (accepted cap k) any_client_event
    (if b : bool then mret APC_OK
     else
       modify (fun c => c <| m_cache :=
         prepForGet (fst (confirmedSeqNum (pc_yourSeq p) true (m_cache c))) |>) ;;
       c ← get; replay env (S (length (m_outpkts (m_cache c)))) APC_OK).
Proof.
  intros Hp. destruct (accepted_blind cap k) as (H1 & H2 & H3).
  apply keeps_if; [apply keeps_ret|]. apply keeps_bind; [|intros _; apply keeps_bind; [apply keeps_get|]].
  - apply keeps_modify. intros c Hc. apply H2; [done|]. intros log Hl.
    destruct (confirm_inv _ _ (pc_yourSeq p) true Hl Hp) as [H4 H5].
    split; [by apply set_next_inv|exact H5].
  - intros c. by apply replay_keeps.
Qed.

Lemma online_keeps cap k :
  keeps (accepted cap k) any_client_event (modify (fun c => c <| m_state := APCCLIENT_STATE_ONLINE |>)).
Proof.
  apply keeps_modify. intros c [[H1 H2 H3] (H4 & H5 & H6)]. split; [|done]. split; [|done..]. by split.
Qed.

Lemma apcConnected_ok cap k env id p :
  0 <= pc_yourSeq p < 2 ^ 32 -> trans (client_ok cap k) (client_ok cap k) (apcConnected env id p).
Proof.
  intros Hp. unfold apcConnected. apply trans_read. intros c Hc.
  destruct (negb (pc_ver p =? APC_PROTO_VER)); [by apply (keeps_st _ any_client_event (stopConn _ _ _ _)); auto with apb_keeps|].
  destruct (Z.eqb_spec (pc_apcId p) APINTFID_EMPTY) as [|Hne];
    [by apply (keeps_st _ any_client_event (stopConn _ _ _ _)); auto with apb_keeps|].
  cbn [orb]. destruct (_ && _); [by apply (keeps_st _ any_client_event (stopConn _ _ _ _)); auto with apb_keeps|].
  cbv zeta. refine (trans_bind (fun c => client_ok cap k c /\ m_reconnectTimer c = false) _ _ _ _ _ _ c Hc).
  { intros c' Hc'. split; [|done]. by apply (keeps_st _ any_client_event stopTimer_p); [apply stopTimer_keeps|]. }
  intros _. apply (trans_bind (accepted cap k)).
  { apply trans_modify. intros c' [[[H1 H2 H3] H4 H5] Ht]. split; [|done]. split; [|done..]. by split. }
  intros _. apply (trans_weaken (accepted cap k) (accepted cap k)); [done|by intros ? []|].
  apply (keeps_trans _ any_client_event). pose proof (accepted_blind cap k) as (HJ & _).
  apply keeps_bind; [apply keeps_when, keeps_modify|intros _; apply keeps_bind; [by apply accept_keeps|]].
  - intros c' [H1 H2]. split; [|done]. by eapply client_ok_upd.
  - intros res. apply keeps_if; [|by apply stopConn_keeps].
    apply keeps_bind; [apply online_keeps|intros _]. unfold input. keeps_auto; done.
Qed.

(** What [apcDisconnected] decides: the session ends at once if that is asked
    for, if no session was established, or if reconnecting is off. *)
Definition immediately (c : CAPCClient) (p : param_disconnected_s) : bool :=
  is_disconnect (pd_flags p) || (m_intfId c =? APINTFID_EMPTY) || (m_disconnectTimeoutMsec c =? 0).

Lemma apcDisconnected_run env p c :
  apcDisconnected env p c =
    if immediately c p then
      (c <| m_pConnector := None |> <| m_state := APCCLIENT_STATE_DISCONNECT |>
         <| m_reconnectTimer := false |> <| m_disconnectTime := TIME_EMPTY |>,
       if m_pInput c then [EvInput (InDisconnected (pd_reason p))] else [], tt)
    else
      (c <| m_pConnector := None |> <| m_state := APCCLIENT_STATE_OFFLINE |>
         <| m_disconnectTime := if m_disconnectTime c =? TIME_EMPTY
              then ce_now env + m_disconnectTimeoutMsec c * 1000 else m_disconnectTime c |>
         <| m_reconnectTimer := true |>,
       EvReconnectTimer (m_reconnectionDelayMsec c) ::
         (if m_pInput c && negb (bool_decide (m_state c = APCCLIENT_STATE_OFFLINE))
          then [EvInput (InOffline (pd_reason p))] else []), tt).
Proof.
  unfold apcDisconnected, immediately, stopTimer_p, startTimer_p, input. runM. cbv zeta.
  cbn [m_state m_intfId m_disconnectTimeoutMsec m_disconnectTime m_pInput upd].
  destruct c as [s0 i0 con ca lr ka fb nm inp io rt dt rd dto gps ni cs nc].
  cbn [m_state m_intfId m_disconnectTimeoutMsec m_disconnectTime m_pInput upd].
  destruct (is_disconnect (pd_flags p) || (i0 =? APINTFID_EMPTY) || (dto =? 0)).
  - by destruct inp.
  - destruct (dt =? TIME_EMPTY) eqn:Hd, (bool_decide (s0 = APCCLIENT_STATE_OFFLINE)), inp;
      cbn -[Z.mul Z.add TIME_EMPTY Z.eqb]; by rewrite Hd.
Qed.

Lemma apcDisconnected_ok cap k env p : trans (client_ok cap k) (client_ok cap k) (apcDisconnected env p).
Proof.
  intros c [_ H2 H3]. unfold st_of. rewrite apcDisconnected_run. unfold immediately.
  destruct (_ || _) eqn:Hi; cbn [fst].
  - split; [|done..]. by split.
  - apply orb_false_iff in Hi as [[_ Hid]%orb_false_iff _]. apply Z.eqb_neq in Hid.
    split; [by split|done|exact H3].
Qed.

Lemma reconnect_ok cap k env :
  trans (fun c => client_ok cap k c /\ idle_state c) (client_ok cap k) (reconnect_p env).
Proof.
  unfold reconnect_p. apply trans_read. intros c [Hc Hi]. destruct (m_pConnector c); [done|].
  assert (Hip : idle_state (st_of (ipConnect_p env) c)).
  { unfold ipConnect_p, st_of. rewrite run_bind. cbn [get st_of fst res_of snd]. by destruct (ce_ipConnects env). }
  pose proof (keeps_st _ _ _ c (ipConnect_keeps cap k env) Hc) as Hok.
  unfold st_of at 1. rewrite run_bind. cbn [fst].
  destruct (res_of (ipConnect_p env) c) as [id|]; [|by apply startTimer_keeps_at].
  apply (keeps_st (client_ok cap k) any_client_event (stopTimer_p ;; _)); [|done].
  apply keeps_bind; [apply stopTimer_keeps|intros _]. keeps_auto; auto with apb_keeps.
Qed.

Lemma disconnect_ok cap k env : trans (client_ok cap k) (client_ok cap k) (disconnect_p env).
Proof.
  unfold disconnect_p. apply trans_read. intros c Hc.
  destruct (m_pConnector c) as [id|].
  - apply (keeps_st (client_ok cap k) any_client_event (stopConn _ _ _ _ ;; _)); [|done].
    keeps_auto; auto with apb_keeps.
  - destruct Hc as [_ H2 H3]. split; [|done..]. by split.
Qed.

Lemma input_keeps I b i : keeps I any_client_event (when b (input i)).
Proof. unfold input. keeps_auto; done. Qed.

(** A running session: what is known when the timer is not cancelled. *)
Lemma timer_ok cap k env error :
  0 <= ce_now env -> trans (client_ok cap k) (client_ok cap k) (reconnectTimerFun_p env error).
Proof.
  intros Hnow. unfold reconnectTimerFun_p. destruct error; [by apply trans_ret|].
  apply trans_read. intros c Hc. case_bool_decide as Hs; [done|].
  unfold st_of. rewrite run_bind. cbn [fst].
  match goal with |- client_ok _ _ (st_of _ ?s) => assert (H : client_ok cap k s) end.
  2: { apply (keeps_st (client_ok cap k) any_client_event (get ≫= _)); [|done].
       apply keeps_bind; [apply keeps_get|]. intros c'. apply input_keeps. }
  destruct (Z.ltb_spec (ce_now env) (m_disconnectTime c)) as [Hlt|].
  - unfold st_of. rewrite run_bind. cbn [fst]. apply reconnect_ok. split; [done|]. destruct Hc as [[H1 H2 H3] _ _].
    destruct (m_state c) eqn:E; [by left| |by right; auto|done].
    exfalso. destruct (H1 eq_refl) as (_ & H & _). unfold TIME_EMPTY in H. lia.
  - by apply disconnect_ok.
Qed.

Lemma exec_ok cap k env op c :
  op_ok op -> 0 <= ce_now env -> k + 1 < 2 ^ 64 - 1 ->
  client_ok cap k c -> client_ok cap (k + 1) (st_of (exec env op) c).
Proof.
  intros Hop Hnow Hk Hc.
  assert (Hstep : forall m : M CAPCClient client_event unit, trans (client_ok cap k) (client_ok cap k) m ->
    client_ok cap (k + 1) (st_of m c)).
  { intros m Hm. apply (client_ok_mono cap k); [lia|]. by apply Hm. }
  assert (Hkeep : forall m : M CAPCClient client_event unit, ok_keeps cap k m -> client_ok cap (k + 1) (st_of m c)).
  { intros m Hm. by apply Hstep, (keeps_trans _ any_client_event). }
  assert (Hsend : forall type p, Z.of_nat (length p) < 65536 ->
    client_ok cap (k + 1) (st_of (_ ← sendData_p env type p; mret tt) c)).
  { intros type p Hp. unfold st_of. rewrite run_bind. cbn [fst].
    apply (trans_ret (E := client_event) (client_ok cap (k + 1))); [done|]. by apply sendData_p_ok. }
  destruct op; cbn [exec]; try (apply Hsend; rewrite ?length_app, ?length_le_bytes; cbn; lia).
  - apply Hkeep. by apply ok_blind_upd.
  - apply Hkeep. apply keeps_bind; [by apply start_ok|intros; apply keeps_ret].
  - apply Hstep, stop_ok.
  - apply Hsend. rewrite length_take. pose proof (u16_range (Z.of_nat (length payload))). lia.
  - apply Hkeep. apply keeps_bind; [|intros; apply keeps_ret].
    apply keeps_bind; [by apply ok_blind_upd|intros; apply keeps_ret].
  - apply Hkeep. by apply ok_blind_upd.
  - by apply Hstep, apcConnected_ok.
  - by apply Hstep, apcDisconnected_ok.
  - apply Hkeep. by apply messageReceived_ok.
  - by apply Hstep, timer_ok.
Qed.

Lemma newCAPCClient_ok cap : 0 < cap < 2 ^ 31 -> client_ok cap 0 (newCAPCClient (Z.to_nat cap)).
Proof.
  intros Hcap. split; [by apply client_inv_idle; left|cbn; lia|]. exists [].
  cbn [newCAPCClient m_cache]. split_and!; [apply newCAPCCache_inv; lia| |cbn; lia].
  unfold capacity. cbn [newCAPCCache clear m_outpkts]. rewrite length_replicate. lia.
Qed.

(** A client after a sequence of operations. *)
Definition run_ops (ops : list (ClEnv * client_op)) (c : CAPCClient) : CAPCClient :=
  fold_left (fun c o => st_of (exec (fst o) (snd o)) c) ops c.

(** ** Properties *)

(** C8: the session invariant holds for every client, whatever operations,
    notifications and timer expirations it went through: an ONLINE client has a
    session id, no reconnection deadline and no timer; a DISCONNECTed one has no deadline and
    no timer; an OFFLINE one still has the session it will resume; and its cache
    is a consistent ring of the capacity it was created with. *)
Theorem client_reachable cap ops :
  0 < cap < 2 ^ 31 -> Z.of_nat (length ops) < 2 ^ 64 - 2 ->
  Forall (fun o => 0 <= ce_now (fst o) /\ op_ok (snd o)) ops ->
  let c := run_ops ops (newCAPCClient (Z.to_nat cap)) in
  client_inv c /\ exists log, cache_inv (m_cache c) log /\ capacity (m_cache c) = cap.
Proof.
  intros Hcap Hlen Hops c.
  assert (H : forall k c0, client_ok cap k c0 -> k + Z.of_nat (length ops) < 2 ^ 64 - 2 ->
    client_ok cap (k + Z.of_nat (length ops)) (run_ops ops c0)).
  { clear Hlen c. induction Hops as [|o ops [H1 H2] _ IH]; intros k c0 Hc0 Hl; cbn [run_ops fold_left].
    - by replace (k + _) with k by (cbn; lia).
    - cbn [length] in Hl |- *. replace (k + Z.of_nat (S (length ops))) with (k + 1 + Z.of_nat (length ops)) by lia.
      apply IH; [|lia]. apply exec_ok; (done || lia). }
  specialize (H 0 _ (newCAPCClient_ok cap Hcap) ltac:(lia)). fold c in H.
  destruct H as [H1 _ (log & H2 & H3 & _)]. eauto.
Qed.

Definition clenv0 (now : Z) (up : bool) : ClEnv := mkClEnv now env0 up true [49] 0.

Definition demo_ops : list (ClEnv * client_op) :=
  [(clenv0 1 true, COpen [65]);
   (clenv0 1 true, CStart (mkStartParam 1000 100 500 5000));
   (clenv0 2 true, CStarted 0);
   (clenv0 2 true, CConnected 0 (mkConnected APC_PROTO_VER 7 9 [77] 0 0 1 0 []));
   (clenv0 3 true, CSend [1; 2; 3])].

Lemma client_reachable_witness :
  let c := run_ops demo_ops (newCAPCClient 4) in
  m_state c = APCCLIENT_STATE_ONLINE /\ getCachedPkts c = 1 /\
  client_inv c /\ exists log, cache_inv (m_cache c) log /\ capacity (m_cache c) = 4.
Proof.
  split; [by vm_compute|]. split; [by vm_compute|].
  apply (client_reachable 4 demo_ops); [lia|cbn; lia|].
  repeat constructor; cbn; lia.
Defined.

(** C9: sending. Only an ONLINE client with a connector accepts data; otherwise
    nothing changes and the result names the state. When it is accepted the
    packet enters the cache of unconfirmed packets first, the connector sends it under the very
    number the cache gave it, and a failure to send stops that connector: for good if the
    packet cannot be serialized, going offline otherwise. *)
Theorem sendData_p_spec env c type p log :
  cache_inv (m_cache c) log -> m_lastSentSeqNum (m_cache c) + 1 < 2 ^ 64 - 1 ->
  Z.of_nat (length p) <= Z.of_nat APC_MAX_MSG_SIZE ->
  let '(c', t, res) := sendData_p env type p c in
  match m_state c, m_pConnector c with
  | APCCLIENT_STATE_DISCONNECT, _ => c' = c /\ t = [] /\ res = APC_ERR_DISCONNECT
  | APCCLIENT_STATE_OFFLINE, _ => c' = c /\ t = [] /\ res = APC_ERR_OFFLINE
  | APCCLIENT_STATE_INIT, _ => c' = c /\ t = [] /\ res = APC_ERR_NOTCONNECT
  | APCCLIENT_STATE_ONLINE, None => c' = c /\ t = [] /\ res = APC_ERR_STATE
  | APCCLIENT_STATE_ONLINE, Some id => forall k, conns c !! id = Some k ->
      let seq := u32 (m_lastSentSeqNum (m_cache c) + 1) in
      let '(k1, t1, res1) := ApcConnector.sendData (ce_conn env) type 0 seq p [] k in
      let fl := if decide (res1 = APC_ERR_PKTSERIALIZATION) then STOP_FL_DISCONNECT else STOP_FL_OFFLINE in
      let '(k2, t2, _) := if decide (res1 = APC_OK) then (k1, [], tt)
                          else ApcConnector.stop (ce_conn env) APC_STOP_WRITE fl true true k1 in
      res = res1 /\ m_state c' = APCCLIENT_STATE_ONLINE /\
      t = map (EvConn id) t1 ++ EvSent id type seq p res :: map (EvConn id) t2 /\
      conns c' = <[id := k2]> (conns c) /\
      cache_inv (m_cache c') (log ++ [(type, p)])
  end.
Proof.
  intros Hinv Hb Hp. destruct (m_state c) eqn:Hs; try (rewrite sendData_p_offline, Hs by (left; congruence); by destruct (m_pConnector c)).
  destruct (m_pConnector c) as [id|] eqn:Hid; [|by rewrite sendData_p_offline, Hs by (by right)].
  rewrite (sendData_p_online _ _ _ _ id) by done.
  destruct (addPacket_ok (m_cache c) log type p Hinv) as (q & e & seq & Hq & Hcap & Hcase);
    [lia|change (Z.of_nat APC_MAX_MSG_SIZE) with 1052 in Hp; lia|].
  rewrite decide_True in Hcase by lia. destruct Hcase as [Hq' ->]. rewrite Hq. cbn [default].
  destruct (sendRest _ _ _ _ _ _) as [[c' t] res] eqn:Hrun. intros k Hk. cbv zeta.
  revert Hrun. unfold sendRest, sendConn, stopConn, callConn. runM. unfold withConn at 1.
  cbn [conns upd]. rewrite Hk. cbv beta iota.
  destruct (ApcConnector.sendData _ _ _ _ _ _ k) as [[k1 t1] res1]. cbn [default from_option].
  assert (Hk1 : conns (c <| m_cache := q |> <| conns := <[id := k1]> (conns c) |>) !! id = Some k1)
    by (cbn [conns upd]; apply lookup_insert_eq).
  destruct (decide (res1 = APC_OK)) as [->|Hne].
  - rewrite bool_decide_false, bool_decide_true by done. cbn [negb]. rewrite !app_nil_r.
    intros [= <- <- <-]. cbn [conns m_cache m_state upd app map]. split_and!; done.
  - case_bool_decide as He.
    + rewrite decide_True by done. unfold withConn. cbn [conns upd]. rewrite lookup_insert_eq.
      destruct (ApcConnector.stop _ _ _ _ _ k1) as [[k2 t2] []]. cbv beta iota.
      rewrite !app_nil_r. intros [= <- <- <-]. cbn [conns m_cache m_state upd].
      rewrite insert_insert_eq, <- app_assoc. done.
    + rewrite decide_False, bool_decide_false by done. cbn [negb]. unfold withConn. cbn [conns upd].
      rewrite lookup_insert_eq.
      destruct (ApcConnector.stop _ _ _ _ _ k1) as [[k2 t2] []]. cbv beta iota.
      rewrite !app_nil_r. intros [= <- <- <-]. cbn [conns m_cache m_state upd].
      rewrite insert_insert_eq, <- app_assoc. done.
Qed.

(** An ONLINE client whose connector works. *)
Definition online_demo : CAPCClient :=
  mkClient APCCLIENT_STATE_ONLINE 7 (Some 0) (newCAPCCache 4) 1 1000 100 [65] true true false
           TIME_EMPTY 500 5000 APINTF_GPS_NOLOCK 9 {[0 := demo <| m_isConnected := true |>]} 1.

Lemma online_demo_cache : cache_inv (m_cache online_demo) [].
Proof. apply newCAPCCache_inv; lia. Qed.

Lemma sendData_p_spec_witness :
  exists t1, out_of (sendData_p (clenv0 4 true) APC_NET_RX [5]) online_demo =
             map (EvConn 0) t1 ++ [EvSent 0 APC_NET_RX 1 [5] APC_OK].
Proof.
  pose proof (sendData_p_spec (clenv0 4 true) online_demo APC_NET_RX [5] []) as H.
  specialize (H online_demo_cache ltac:(by vm_compute) ltac:(by vm_compute)). unfold out_of.
  destruct (sendData_p _ _ _ online_demo) as [[c' t] res]. cbn [fst snd].
  specialize (H _ (lookup_singleton_eq 0 (demo <| m_isConnected := true |>))). cbv zeta in H.
  assert (E : snd (ApcConnector.sendData (ce_conn (clenv0 4 true)) APC_NET_RX 0
     (u32 (m_lastSentSeqNum (m_cache online_demo) + 1)) [5] [] (demo <| m_isConnected := true |>)) = APC_OK)
    by (vm_compute; reflexivity).
  destruct (ApcConnector.sendData _ _ _ _ _ _ _) as [[k1 t1] res1]. cbn [snd] in E. subst res1.
  rewrite decide_True in H by done. destruct H as (-> & _ & -> & _). by exists t1.
Defined.

(** ** Being offline *)
Fixpoint exec_all (ops : list (ClEnv * client_op)) : CLM unit :=
  match ops with
  | [] => mret tt
  | (env, op) :: ops => exec env op ;; exec_all ops
  end.

(** What the owner is told. *)
Definition inputs (t : list client_event) : list input_call :=
  omap (fun e => match e with EvInput i => Some i | _ => None end) t.

(** What happens to a client without a connection: attempts to reconnect, their
    failures, and the owner's attempts to send. *)
Definition offline_op (op : client_op) : Prop :=
  match op with
  | CTimer _ | CStarted _ | CSend _ | CTxDone _ | CTimeMap _ | CApLost | CResume | CPause | CGpsLock _ => True
  | CDisconnected p => pd_flags p = STOP_FL_OFFLINE
  | _ => False
  end.

(** Waiting for a reconnection of session [i] until [d]. *)
Definition waiting (i d : Z) (c : CAPCClient) : Prop :=
  m_state c = APCCLIENT_STATE_OFFLINE /\ m_disconnectTime c = d /\ m_intfId c = i /\
  0 < m_disconnectTimeoutMsec c.

Definition silent (e : client_event) : Prop := match e with EvInput _ => False | _ => True end.

Lemma silent_inputs t : Forall silent t -> inputs t = [].
Proof. induction 1 as [|[] t He _ IH]; done. Qed.

Lemma inputs_app t1 t2 : inputs (t1 ++ t2) = inputs t1 ++ inputs t2.
Proof. apply omap_app. Qed.

Lemma conn_events_silent : conn_events silent.
Proof. done. Qed.

Lemma waiting_blind i d : conn_blind (waiting i d).
Proof. by intros c x H. Qed.

Lemma keeps_bind_ret {B C} I P (m : CLM unit) (b : B) (k : B -> CLM C) :
  keeps I P m -> keeps I P (k b) -> keeps I P ((m ;; mret b) ≫= k).
Proof.
  intros Hm Hk s Hs. destruct (Hm s Hs) as [H1 H2].
  destruct (Hk (st_of m s) H1) as [H3 H4]. revert H1 H2 H3 H4.
  unfold st_of, out_of, mbind, M_bind, mret, M_ret. destruct (m s) as [[s1 t1] []]. cbn [fst snd].
  destruct (k b s1) as [[s2 t2] x]. cbn [fst snd]. rewrite app_nil_r. intros.
  split; [done|by apply Forall_app].
Qed.

Lemma reconnect_waiting i d env : keeps (waiting i d) silent (reconnect_p env).
Proof.
  unfold reconnect_p, ipConnect_p, startTimer_p, stopTimer_p.
  keeps_auto; try done; eauto using waiting_blind, conn_events_silent, stopConn_keeps, callConn_keeps.
Qed.

Lemma send_waiting i d env type p : keeps (waiting i d) silent (_ ← sendData_p env type p; mret tt).
Proof.
  apply keeps_bind; [|intros; apply keeps_ret]. intros c Hc. unfold st_of, out_of.
  rewrite sendData_p_offline by (left; destruct Hc as [-> _]; done). done.
Qed.

Lemma offline_step i d env op :
  i <> APINTFID_EMPTY -> d <> TIME_EMPTY -> ce_now env < d -> offline_op op ->
  keeps (waiting i d) silent (exec env op).
Proof.
  intros Hi Hd Hnow Hop. destruct op; cbn [offline_op] in Hop; try contradiction; cbn [exec].
  1-6: unfold sendData, sendTxDone, sendTimeMap, sendApLost, sendResume, sendPause; apply send_waiting.
  - unfold sendGpsLock. keeps_auto; done.
  - by apply keeps_modify.
  - intros c (H1 & H2 & H3 & H4). unfold st_of, out_of.
    rewrite apcDisconnected_run. unfold immediately. rewrite Hop, H1, H2, H3. cbn [is_disconnect orb].
    rewrite (proj2 (Z.eqb_neq i _) Hi), (proj2 (Z.eqb_neq _ 0)) by lia.
    rewrite (proj2 (Z.eqb_neq d _) Hd), andb_false_r. cbn [orb fst snd].
    split; [done|by repeat constructor].
  - unfold reconnectTimerFun_p. destruct error; [apply keeps_ret|].
    apply keeps_read. intros c Hc. destruct (Hc) as (H1 & H2 & H3 & H4). rewrite H1, H2.
    rewrite bool_decide_false by done. rewrite (proj2 (Z.ltb_lt _ _) Hnow).
    apply keeps_to_at; [|done]. apply keeps_bind_ret; [apply reconnect_waiting|].
    apply keeps_bind; [apply keeps_get|intros; apply keeps_ret].
Qed.

Lemma offline_steps i d ops :
  i <> APINTFID_EMPTY -> d <> TIME_EMPTY ->
  Forall (fun o => ce_now (fst o) < d /\ offline_op (snd o)) ops ->
  keeps (waiting i d) silent (exec_all ops).
Proof.
  intros Hi Hd. induction 1 as [|[env op] ops [H1 H2] _ IH]; cbn [exec_all]; [apply keeps_ret|].
  apply keeps_bind; [by apply offline_step|done].
Qed.

(** C7: a lost connection. An ONLINE client whose connection goes offline tells
    its owner so once, and keeps the session until the configured timeout has
    passed: until then it may try to reconnect and fail any number of times, and the owner may
    try to send, without another notification and without moving the deadline.
    The first timer after the deadline, when no connection is up, ends the session: exactly
    one disconnection is reported, and the timer is off. *)
Theorem offline_until_deadline c p env ops :
  client_inv c -> m_state c = APCCLIENT_STATE_ONLINE -> m_pInput c = true ->
  0 < m_disconnectTimeoutMsec c -> pd_flags p = STOP_FL_OFFLINE -> 0 <= ce_now env ->
  let d := ce_now env + m_disconnectTimeoutMsec c * 1000 in
  Forall (fun o => ce_now (fst o) < d /\ offline_op (snd o)) ops ->
  let run := exec env (CDisconnected p) ;; exec_all ops in
  let c' := st_of run c in
  inputs (out_of run c) = [InOffline (pd_reason p)] /\
  m_state c' = APCCLIENT_STATE_OFFLINE /\ m_disconnectTime c' = d /\ m_intfId c' = m_intfId c /\
  forall env', d <= ce_now env' -> m_pConnector c' = None -> m_pInput c' = true ->
    let '(c'', t, _) := exec env' (CTimer false) c' in
    t = [EvInput (InDisconnected APC_STOP_TIMEOUT)] /\
    m_state c'' = APCCLIENT_STATE_DISCONNECT /\ m_reconnectTimer c'' = false.
Proof.
  intros [Hinv _ _] Hs Hin Hto Hfl Hnow d Hops run c'. destruct (Hinv Hs) as (Hid & Hdt & _).
  assert (Hrun : exec env (CDisconnected p) c =
    (c <| m_pConnector := None |> <| m_state := APCCLIENT_STATE_OFFLINE |>
       <| m_disconnectTime := d |> <| m_reconnectTimer := true |>,
     [EvReconnectTimer (m_reconnectionDelayMsec c); EvInput (InOffline (pd_reason p))], tt)).
  { cbn [exec]. rewrite apcDisconnected_run. unfold immediately. rewrite Hfl, Hdt, Hin, Hs.
    rewrite (proj2 (Z.eqb_neq (m_intfId c) _) Hid), (proj2 (Z.eqb_neq _ 0)) by lia. done. }
  assert (Hd : d <> TIME_EMPTY) by (unfold d, TIME_EMPTY; lia).
  set (c1 := c <| m_pConnector := None |> <| m_state := APCCLIENT_STATE_OFFLINE |>
               <| m_disconnectTime := d |> <| m_reconnectTimer := true |>) in Hrun.
  assert (Hw : waiting (m_intfId c) d c1) by done.
  destruct (offline_steps _ d ops Hid Hd Hops c1 Hw) as [Hw' Ht].
  assert (Hc' : c' = st_of (exec_all ops) c1 /\
    out_of run c = [EvReconnectTimer (m_reconnectionDelayMsec c); EvInput (InOffline (pd_reason p))] ++
                   out_of (exec_all ops) c1).
  { unfold c', run, st_of at 1, out_of at 1. by rewrite (bind_run _ _ _ _ _ _ Hrun). }
  destruct Hc' as [Hc' Hout]. rewrite Hout, inputs_app, (silent_inputs _ Ht). rewrite <- Hc' in Hw'.
  clearbody c'. destruct Hw' as (H1 & H2 & H3 & H4). split_and!; try done.
  intros env' Hlate Hnone Hin'. cbn [exec]. unfold reconnectTimerFun_p, disconnect_p, stopTimer_p. runM.
  rewrite H1, bool_decide_false by done. rewrite H2, (proj2 (Z.ltb_ge _ _) Hlate), Hnone.
  cbv beta iota. cbn [andb m_pInput upd]. rewrite Hin'. done.
Qed.

Lemma offline_until_deadline_witness :
  let ops := [(clenv0 100 false, CTimer false); (clenv0 200 false, CSend [1]);
              (clenv0 300 false, CDisconnected (mkDisconnected STOP_FL_OFFLINE APC_STOP_READ 0))] in
  let run := exec (clenv0 5 false) (CDisconnected (mkDisconnected STOP_FL_OFFLINE APC_STOP_WRITE 0)) ;;
             exec_all ops in
  inputs (out_of run online_demo) = [InOffline APC_STOP_WRITE] /\
  m_disconnectTime (st_of run online_demo) = 5000005.
Proof.
  intros ops run.
  destruct (offline_until_deadline online_demo (mkDisconnected STOP_FL_OFFLINE APC_STOP_WRITE 0)
              (clenv0 5 false) ops) as (H1 & _ & H2 & _); try done.
  repeat constructor; cbn; lia.
Defined.

(** ** Resuming a session *)

(** What was handed to the connector: type, number, payload and result. *)
Definition sends (t : list client_event) : list (Z * Z * list Z * apc_error_t) :=
  omap (fun e => match e with EvSent _ ty seq p res => Some (ty, seq, p, res) | _ => None end) t.

(** Packets with their sequence numbers, when the first is number [s] (from 0). *)
Fixpoint numbered (s : Z) (l : list sent) : list (Z * Z * list Z) :=
  match l with
  | [] => []
  | x :: l => (fst x, u32 (s + 1), snd x) :: numbered (s + 1) l
  end.

(** The packets [l] were sent in order, up to the first failure if there is one. *)
Inductive sent_upto : list (Z * Z * list Z) -> list (Z * Z * list Z * apc_error_t) -> apc_error_t -> Prop :=
| su_done : sent_upto [] [] APC_OK
| su_next x l s e : sent_upto l s e -> sent_upto (x :: l) ((x, APC_OK) :: s) e
| su_fail x l e : e <> APC_OK -> sent_upto (x :: l) [(x, e)] e.

Lemma sends_conn id t : sends (map (EvConn id) t) = [].
Proof. by induction t. Qed.

Lemma inputs_conn id t : inputs (map (EvConn id) t) = [].
Proof. by induction t. Qed.

Lemma sends_app t1 t2 : sends (t1 ++ t2) = sends t1 ++ sends t2.
Proof. apply omap_app. Qed.

Lemma sendConn_run env id ty seq p c :
  exists cs t res, sendConn env id ty seq p c = (c <| conns := cs |>, map (EvConn id) t ++ [EvSent id ty seq p res], res).
Proof.
  unfold sendConn, callConn, withConn. runM. destruct (conns c !! id) as [k|] eqn:Hk.
  - destruct (ApcConnector.sendData _ _ _ _ _ _ k) as [[k' t] res]. cbv beta iota. cbn [default from_option].
    rewrite !app_nil_r. by do 3 eexists.
  - exists (conns c), [], APC_ERR_STATE. by destruct c.
Qed.

Lemma stopConn_run env id r f c :
  exists cs t, stopConn env id r f c = (c <| conns := cs |>, map (EvConn id) t, tt).
Proof.
  unfold stopConn, withConn. runM. destruct (conns c !! id) as [k|].
  - destruct (ApcConnector.stop _ _ _ _ _ k) as [[k' t] []]. cbv beta iota. rewrite app_nil_r. by do 2 eexists.
  - exists (conns c), []. by destruct c.
Qed.

Lemma replay_stop env n res c : res <> APC_OK -> replay env n res c = (c, [], res).
Proof. intros H. destruct n; cbn [replay]; by rewrite bool_decide_false by done. Qed.

Lemma replay_run env id log j n c :
  (j <= n)%nat -> cache_inv (m_cache c) log -> m_pConnector c = Some id -> Z.of_nat j <= m_numPackets (m_cache c) ->
  m_getNextSeqNum (m_cache c) = m_lastSentSeqNum (m_cache c) - Z.of_nat j ->
  exists c' t e, replay env (S n) APC_OK c = (c', t, e) /\ m_state c' = m_state c /\
    m_pInput c' = m_pInput c /\ inputs t = [] /\ cache_inv (m_cache c') log /\
    sent_upto (numbered (m_lastSentSeqNum (m_cache c) - Z.of_nat j) (drop (length log - j) log)) (sends t) e.
Proof.
  revert n c; induction j as [|j IH]; intros n c Hjn Hinv Hid Hj Hg.
  - pose proof (ci_last _ _ Hinv) as Hl. exists c, [], APC_OK. split.
    + cbn [replay]. rewrite bool_decide_true by done. cbn [negb]. runM.
      unfold getNextPacket. destruct (Z.leb_spec (m_lastSentSeqNum (m_cache c)) (m_getNextSeqNum (m_cache c))); [done|lia].
    + rewrite Nat.sub_0_r, drop_all. split_and!; (done || constructor).
  - destruct n as [|n]; [lia|].
    destruct (getNext_step _ log (Z.of_nat (S j)) Hinv) as (x & pkt & Hx & Hh & Hrun); [lia|done|].
    pose proof (ci_last _ _ Hinv) as Hl. pose proof (ci_num _ _ Hinv) as Hn.
    set (q := mkCache _ _ _ _ _) in Hrun.
    assert (Hq : cache_inv q log) by (by apply (getNextPacket_inv _ _ _ _ _ Hinv Hrun)).
    destruct Hh as (Hseq & Hty & Hsz & Hpay).
    assert (Hlen : (length (snd x) <= APC_MAX_MSG_SIZE)%nat).
    { rewrite <- Hpay, length_take. pose proof (getNextPacket_elem _ _ _ _ Hrun) as He.
      pose proof (ci_buf _ _ Hinv) as Hb. rewrite Forall_forall in Hb. rewrite (Hb _ He). lia. }
    assert (Hdrop : drop (length log - S j) log = x :: drop (length log - j) log).
    { replace (Z.to_nat (m_lastSentSeqNum (m_cache c) - Z.of_nat (S j))) with (length log - S j)%nat in Hx by lia.
      rewrite (drop_S log x) by done. do 2 f_equal. lia. }
    rewrite Hdrop. cbn [numbered]. rewrite <- Hseq, <- Hty.
    change (replay env (S (S n)) APC_OK) with
      (c ← get;
       match getNextPacket (m_cache c) with
       | Some (k, e, Some pkt) =>
           modify (fun c => c <| m_cache := k |>) ;;
           if bool_decide (e = APC_ERR_NOTFOUND) then mret APC_OK
           else
             res ←
               match m_pConnector c with
               | Some id => sendConn env id (m_type pkt) (m_seqNumb pkt)
                              (take (Z.to_nat (u16 (m_size pkt))) (m_payload pkt))
               | None => emit EvNullConnector ;; mret APC_ERR_STATE
               end;
             replay env (S n) res
       | _ => mret APC_OK
       end : CLM apc_error_t).
    unfold get at 1, mbind at 1, M_bind at 1. cbv beta iota. rewrite Hrun, Hid.
    rewrite bool_decide_false by done. unfold modify at 1, mbind at 1, M_bind at 1. cbv beta iota.
    rewrite Hsz, u16_small by (change APC_MAX_MSG_SIZE with (Z.to_nat 1052) in Hlen; lia).
    rewrite Nat2Z.id, Hpay.
    destruct (sendConn_run env id (m_type pkt) (m_seqNumb pkt) (snd x) (c <| m_cache := q |>))
      as (cs & t & res & Hsend).
    unfold mbind at 1, M_bind at 1. rewrite Hsend. cbv beta iota.
    destruct (decide (res = APC_OK)) as [->|Hne].
    + destruct (IH n (c <| m_cache := q |> <| conns := cs |>)) as (c' & t' & e & Hr & H1 & H2 & H3 & H4 & H5);
        [lia|done|done|cbn; lia|cbn; lia|].
      rewrite Hr. do 3 eexists. split; [reflexivity|]. split; [done|]. split; [done|].
      rewrite !inputs_app, !sends_app, inputs_conn, sends_conn, H3. split; [done|]. split; [done|].
      cbn [app sends omap list_omap]. constructor.
      replace (_ - Z.of_nat (S j) + 1) with (m_lastSentSeqNum (m_cache c) - Z.of_nat j) by lia. exact H5.
    + rewrite replay_stop by done. do 3 eexists. split; [reflexivity|]. split; [done|]. split; [done|].
      rewrite !inputs_app, !sends_app, inputs_conn, sends_conn. split; [done|]. split; [done|].
      cbn [app sends omap list_omap]. by constructor.
Qed.

(** Accepting the session again: the replay, and what follows from its result. *)
Lemma apcConnected_again env c pAPC p id log k :
  cache_inv (m_cache c) log -> m_pConnector c = Some id ->
  pc_ver p = APC_PROTO_VER -> pc_apcId p = m_intfId c -> m_intfId c <> APINTFID_EMPTY ->
  pc_yourSeq p = u32 k ->
  let last := m_lastSentSeqNum (m_cache c) in
  0 <= k <= last -> last - k < 2 ^ 32 ->
  let n := Z.min (last - k) (capacity (m_cache c)) in
  exists c2 t e, sent_upto (numbered (last - n) (drop (length log - Z.to_nat n) log)) (sends t) e /\
    inputs t = [] /\ m_state c2 = m_state c /\
    (exists c1 m, replay env m APC_OK c1 = (c2, t, e) /\ m_pConnector c1 = Some id /\
       conns c1 = conns c /\ nextConn c1 = nextConn c) /\
    apcConnected env pAPC p c =
      if bool_decide (e = APC_OK)
      then (c2 <| m_state := APCCLIENT_STATE_ONLINE |>, t ++ (if m_pInput c then [EvInput InOnline] else []), tt)
      else let m := stopConn env pAPC APC_STOP_RECONNECTION
                      (if bool_decide (e = APC_ERR_PKTSERIALIZATION) then STOP_FL_DISCONNECT else STOP_FL_OFFLINE) in
           (st_of m c2, t ++ out_of m c2, tt).
Proof.
  intros Hinv Hid Hver Happ Hne Hseq last Hk Hd n.
  pose proof Hinv as [Hc Hl Hb _ Hn _ _].
  assert (Hconf : fst (confirmedSeqNum (pc_yourSeq p) true (m_cache c)) =
    mkCache (m_outpkts (m_cache c)) last n (m_pos (m_cache c)) (m_getNextSeqNum (m_cache c))).
  { rewrite Hseq, (confirm_run _ log) by (apply u32_range || done). cbv zeta.
    assert (Hu : unconfirmed last (u32 k) = last - k).
    { unfold unconfirmed, u32, wrap. rewrite Zminus_mod_idemp_r. apply Z.mod_small. lia. }
    fold last. rewrite Hu. destruct (Z.ltb_spec last (last - k)); [lia|done]. }
  assert (Hq : cache_inv (prepForGet (fst (confirmedSeqNum (pc_yourSeq p) true (m_cache c)))) log).
  { rewrite Hconf. apply (set_next_inv (mkCache _ _ _ _ _)), set_num_inv; [done|]. fold last. lia. }
  unfold apcConnected, stopTimer_p, input. runM.
  rewrite Hver, Z.eqb_refl, Happ, (proj2 (Z.eqb_neq (m_intfId c) _) Hne), Z.eqb_refl.
  cbn [negb orb andb]. cbv beta iota.
  destruct (Z.land (pc_hdrFlags p) APC_HDR_FLAGS_NOTRACK =? 0); cbv beta iota; cbn [m_cache upd];
    (match goal with |- context [replay env _ APC_OK ?s] =>
      destruct (replay_run env id log (Z.to_nat n) (length (m_outpkts (m_cache s))) s)
        as (c2 & t & e & Hr & H1 & H2 & H3 & H4 & H5);
        [cbn [m_cache upd]; rewrite Hconf; cbn [prepForGet m_outpkts]; unfold capacity in n; lia
        |done|done|cbn [m_cache upd]; rewrite Hconf; cbn [prepForGet m_numPackets]; lia
        |cbn [m_cache upd]; rewrite Hconf;
         cbn [prepForGet m_numPackets m_getNextSeqNum m_lastSentSeqNum]; rewrite u64_small; lia|] end;
     cbn [m_cache upd] in Hr, H5; rewrite Hr; clear Hq;
     rewrite Hconf in H5; cbn [prepForGet m_lastSentSeqNum] in H5; rewrite Z2Nat.id in H5 by lia;
     cbn [m_state m_pInput upd] in H1, H2;
     exists c2, t, e; split; [done|]; split; [done|]; split; [done|]; split; [by do 2 eexists|]; clear Hr;
     case_bool_decide as He;
       [cbn [m_pInput upd]; rewrite H2; by destruct (m_pInput c)
       |unfold st_of, out_of;
        match goal with |- context [stopConn env pAPC ?r ?f ?x] => destruct (stopConn env pAPC r f x) as [[c3 t3] []] end;
        by rewrite ?app_nil_r]).
Qed.

(** C6: resuming a session. When the manager accepts the session again and says
    which packet it received last (the [k]-th), the client sends exactly the
    packets after it that the cache still holds, in order and under their old numbers. If all
    are sent it is ONLINE and tells its owner so; at the first failure it stops
    sending, tells the owner nothing and stays as it was, for the connector is being stopped. *)
Theorem apcConnected_resumes env c pAPC p id log k :
  cache_inv (m_cache c) log -> m_pConnector c = Some id -> m_pInput c = true ->
  pc_ver p = APC_PROTO_VER -> pc_apcId p = m_intfId c -> m_intfId c <> APINTFID_EMPTY ->
  pc_yourSeq p = u32 k ->
  let last := m_lastSentSeqNum (m_cache c) in
  0 <= k <= last -> last - k < 2 ^ 32 ->
  let n := Z.min (last - k) (capacity (m_cache c)) in
  exists e, sent_upto (numbered (last - n) (drop (length log - Z.to_nat n) log))
                      (sends (out_of (apcConnected env pAPC p) c)) e /\
    let c' := st_of (apcConnected env pAPC p) c in
    let told := inputs (out_of (apcConnected env pAPC p) c) in
    if decide (e = APC_OK) then m_state c' = APCCLIENT_STATE_ONLINE /\ told = [InOnline]
    else m_state c' = m_state c /\ told = [].
Proof.
  intros Hinv Hid Hin Hver Happ Hne Hseq last Hk Hd n.
  destruct (apcConnected_again env c pAPC p id log k Hinv Hid Hver Happ Hne Hseq Hk Hd)
    as (c2 & t & e & Hup & Ht & Hs & _ & Hrun).
  exists e. unfold out_of, st_of. rewrite Hrun, Hin. case_bool_decide as He.
  - rewrite decide_True by done. cbn [fst snd]. rewrite sends_app, inputs_app, Ht, app_nil_r. done.
  - rewrite decide_False by done. cbv zeta.
    set (m := stopConn env pAPC _ _). destruct (stopConn_run env pAPC APC_STOP_RECONNECTION
      (if bool_decide (e = APC_ERR_PKTSERIALIZATION) then STOP_FL_DISCONNECT else STOP_FL_OFFLINE) c2) as (cs & t' & Hst).
    fold m in Hst. unfold st_of, out_of. rewrite Hst. cbn [fst snd].
    rewrite sends_app, inputs_app, Ht, sends_conn, inputs_conn, app_nil_r. done.
Qed.

Lemma apcConnected_resumes_witness :
  exists q a s, addPacket APC_NET_RX [5] [] (newCAPCCache 4) = Some (q, a, s) /\
  let c := online_demo <| m_cache := q |> <| m_state := APCCLIENT_STATE_OFFLINE |> in
  let p := mkConnected APC_PROTO_VER 9 7 [77] 0 0 1 0 [] in
  exists e, sent_upto [(APC_NET_RX, 1, [5])] (sends (out_of (apcConnected (clenv0 9 true) 0 p) c)) e.
Proof.
  assert (H0 : cache_inv (newCAPCCache 4) []) by (apply newCAPCCache_inv; lia).
  destruct (addPacket_ok (newCAPCCache 4) [] APC_NET_RX [5] H0) as (q & a & s & Hq & Hcap & Hcase);
    [by vm_compute..|].
  exists q, a, s. split; [done|]. intros c p.
  rewrite decide_True in Hcase by (apply leb_complete; vm_compute; reflexivity).
  destruct Hcase as [Hi _]. pose proof (ci_last _ _ Hi) as Hl. cbn [length app] in Hl.
  assert (Hcap4 : capacity q = 4) by (rewrite Hcap; reflexivity).
  destruct (apcConnected_resumes (clenv0 9 true) c 0 p 0 ([] ++ [(APC_NET_RX, [5])]) 0) as (e & He & _);
    try done; unfold c; cbn [m_cache upd]; rewrite ?Hl; try lia.
  exists e. revert He. unfold c. cbn [m_cache upd]. rewrite Hl, Hcap4. done.
Defined.
