(* ===== verification/ApcHistory.v ===== *)
(** What the client's cache holds after a run of the client: the packets it accepted,
    in order, whatever connections came and went meanwhile. *)
From stdpp Require Import base numbers list option strings gmap.
From Stdlib Require Import ZArith Lia.
From S2P Require Import Prelude Common ApcProto ApcSerializer ApcCache ApcConnector ApcClient.

Local Open Scope Z_scope.

(** The type and payload an operation asks to send. *)
Definition packet_of (op : client_op) : option (Z * list Z) :=
  match op with
  | CSend payload => Some (APC_NET_RX, take (Z.to_nat (u16 (Z.of_nat (length payload)))) payload)
  | CTxDone p => Some (APC_NET_TXDONE, le_bytes 2 (txd_txDoneId p) ++ le_bytes 1 (txstatus_val (txd_status p)))
  | CTimeMap p =>
      Some (APC_TIME_MAP, le_bytes 8 (tm_timeSec p) ++ le_bytes 4 (tm_timeUsec p) ++ le_bytes 8 (tm_asn p) ++
                          le_bytes 2 (tm_asnOffset p))
  | CApLost => Some (APC_AP_LOST, [])
  | CResume => Some (APC_NET_TX_RESUME, [])
  | CPause => Some (APC_NET_TX_PAUSE, [])
  | _ => None
  end.

(** The client accepts packets: it is ONLINE and has a connector. *)
Definition accepts (c : CAPCClient) : bool :=
  bool_decide (m_state c = APCCLIENT_STATE_ONLINE) && bool_decide (is_Some (m_pConnector c)).

Definition accepted_packets (op : client_op) (c : CAPCClient) : list (Z * list Z) :=
  match packet_of op with
  | Some (t, p) => if accepts c && (length p <=? APC_MAX_MSG_SIZE)%nat then [(t, p)] else []
  | None => []
  end.

(** All packets accepted in a run. *)
Fixpoint history (l : list (ClEnv * client_op)) (c : CAPCClient) : list (Z * list Z) :=
  match l with
  | [] => []
  | (env, op) :: r => accepted_packets op c ++ history r (st_of (exec env op) c)
  end.

(** Operations of a session: starting and stopping the client empty the cache. *)
Definition in_session (op : client_op) : bool := match op with CStart _ | CStop => false | _ => true end.

(** ** The cache during one operation *)
Section Holds.
Context (log : list sent).
Notation holds := (fun c => cache_inv (m_cache c) log).

Lemma holds_blind : conn_blind holds /\ cache_blind holds.
Proof. split; [by intros c x H|]. intros c q Hc Hq. exact (proj1 (Hq log Hc)). Qed.

Lemma holds_upd f : (forall c, m_cache (f c) = m_cache c) -> keeps holds any_client_event (modify f).
Proof. intros Hf. apply keeps_modify. intros c Hc. by rewrite Hf. Qed.

Lemma ipConnect_holds env : keeps holds any_client_event (ipConnect_p env).
Proof.
  unfold ipConnect_p. apply keeps_read. intros c Hc. apply keeps_to_at; [|done].
  apply keeps_if; [|apply keeps_ret]. cbv zeta. apply keeps_bind; [by apply holds_upd|intros; apply keeps_ret].
Qed.

Lemma received_holds p payload : 0 <= pr_yourSeq p < 2 ^ 32 -> keeps holds any_client_event (messageReceived p payload).
Proof.
  intros Hp. unfold messageReceived. apply keeps_bind.
  { apply keeps_modify. intros c Hc. cbn [m_cache upd]. by apply confirm_inv. }
  intros _. unfold input. keeps_auto; done.
Qed.

Lemma connected_holds env id p : 0 <= pc_yourSeq p < 2 ^ 32 -> keeps holds any_client_event (apcConnected env id p).
Proof.
  intros Hp. destruct holds_blind as [H1 H2].
  assert (Hstop : forall r f, keeps holds any_client_event (stopConn env id r f)) by (intros; by apply stopConn_keeps).
  unfold apcConnected. apply keeps_bind; [apply keeps_get|intros c].
  apply keeps_if; [done|]. apply keeps_if; [done|]. cbv zeta.
  apply keeps_bind; [by apply holds_upd|intros _]. apply keeps_bind; [by apply holds_upd|intros _].
  apply keeps_bind; [by apply keeps_when, holds_upd|intros _]. apply keeps_bind.
  - apply keeps_if; [apply keeps_ret|]. apply keeps_bind.
    { apply keeps_modify. intros c' Hc'. cbn [m_cache upd]. by apply set_next_inv, confirm_inv. }
    intros _. apply keeps_bind; [apply keeps_get|intros c'].
    apply replay_keeps; [done|done|]. intros c2 Hc2. by exists log.
  - intros res. apply keeps_if; [|done]. unfold input. keeps_auto; done.
Qed.

Lemma disconnected_holds env p : keeps holds any_client_event (apcDisconnected env p).
Proof. unfold apcDisconnected, stopTimer_p, startTimer_p, input. keeps_auto; try done. intros c Hc. by case_match. Qed.

Lemma timer_holds env error : keeps holds any_client_event (reconnectTimerFun_p env error).
Proof.
  destruct holds_blind as [H1 H2]. unfold reconnectTimerFun_p. apply keeps_if; [apply keeps_ret|].
  apply keeps_bind; [apply keeps_get|intros c]. apply keeps_if; [apply keeps_ret|].
  apply keeps_bind; [|intros b; unfold input; keeps_auto; done].
  apply keeps_if; [|unfold disconnect_p, stopTimer_p; keeps_auto; auto with apb_keeps; done].
  apply keeps_bind; [|intros; apply keeps_ret]. unfold reconnect_p, stopTimer_p, startTimer_p.
  apply keeps_bind; [apply keeps_get|intros c']. destruct (m_pConnector c'); [apply keeps_ret|].
  apply keeps_bind; [apply ipConnect_holds|intros [x|]]; keeps_auto; auto with apb_keeps; done.
Qed.

Lemma send_holds env type p : Z.of_nat (length p) < 65536 -> forall c, m_lastSentSeqNum (m_cache c) + 1 < 2 ^ 64 - 1 ->
  holds c -> cache_inv (m_cache (st_of (_ ← sendData_p env type p; mret tt) c))
    (log ++ (if accepts c && (length p <=? APC_MAX_MSG_SIZE)%nat then [(type, p)] else [])).
Proof.
  intros Hp c Hb Hc. unfold st_of. rewrite run_bind. cbn [fst mret M_ret st_of]. unfold accepts.
  destruct (decide (m_state c = APCCLIENT_STATE_ONLINE)) as [Hs|Hs].
  2: { rewrite bool_decide_false by done. cbn [andb]. rewrite app_nil_r. unfold st_of.
       by rewrite sendData_p_offline by by left. }
  destruct (m_pConnector c) as [id|] eqn:Hid.
  2: { rewrite (bool_decide_false (is_Some None)) by by intros []. rewrite andb_false_r, app_nil_r. unfold st_of.
       by rewrite sendData_p_offline by by right. }
  rewrite !bool_decide_true by eauto. cbn [andb]. unfold st_of. rewrite (sendData_p_online env c type p id Hs Hid).
  destruct (addPacket_ok (m_cache c) log type p Hc Hb Hp) as (q & e & seq & Hq & _ & Hcase). rewrite Hq.
  match goal with |- cache_inv _ ?l => apply (keeps_st (fun c => cache_inv (m_cache c) l) any_client_event (sendRest _ _ _ _ _)) end;
    [apply sendRest_keeps; by intros ? ?|].
  cbn [m_cache upd]. destruct (Nat.leb_spec (length p) APC_MAX_MSG_SIZE), (decide (length p <= APC_MAX_MSG_SIZE)%nat); try lia.
  - apply Hcase.
  - rewrite app_nil_r. by destruct Hcase as [-> _].
Qed.
End Holds.

Lemma exec_history env op c log :
  op_ok op -> in_session op = true -> m_lastSentSeqNum (m_cache c) + 1 < 2 ^ 64 - 1 -> cache_inv (m_cache c) log ->
  cache_inv (m_cache (st_of (exec env op) c)) (log ++ accepted_packets op c).
Proof.
  intros Hop Hses Hb Hc.
  assert (Hkeep : forall m : M CAPCClient client_event unit, keeps (fun c => cache_inv (m_cache c) log) any_client_event m ->
    cache_inv (m_cache (st_of m c)) (log ++ [])).
  { intros m Hm. rewrite app_nil_r. by apply (keeps_st _ _ m c Hm). }
  assert (Hsend : forall t p, Z.of_nat (length p) < 65536 ->
    cache_inv (m_cache (st_of (_ ← sendData_p env t p; mret tt) c))
      (log ++ (if accepts c && (length p <=? APC_MAX_MSG_SIZE)%nat then [(t, p)] else []))).
  { intros t p Hp. by apply send_holds. }
  unfold accepted_packets.
  destruct op as [name|p| |payload|p|p| | | |g|i|i p|p|p payload|error]; cbn [packet_of exec].
  - apply Hkeep. by apply holds_upd.
  - discriminate Hses.
  - discriminate Hses.
  - apply Hsend. rewrite length_take. pose proof (u16_range (Z.of_nat (length payload))). lia.
  - apply Hsend. by rewrite length_app, !length_le_bytes.
  - apply Hsend. by rewrite !length_app, !length_le_bytes.
  - by apply Hsend.
  - by apply Hsend.
  - by apply Hsend.
  - apply Hkeep. unfold sendGpsLock. apply keeps_bind; [|intros; apply keeps_ret].
    apply keeps_bind; [by apply holds_upd|intros; apply keeps_ret].
  - apply Hkeep. by apply holds_upd.
  - apply Hkeep. by apply connected_holds.
  - apply Hkeep, disconnected_holds.
  - apply Hkeep. by apply received_holds.
  - apply Hkeep, timer_holds.
Qed.

Lemma history_length l : forall c, (length (history l c) <= length l)%nat.
Proof.
  induction l as [|[env op] l IH]; intros c; [done|]. cbn [history length]. rewrite length_app.
  specialize (IH (st_of (exec env op) c)). unfold accepted_packets.
  destruct (packet_of op) as [[t p]|]; [destruct (_ && _)|]; cbn [length]; lia.
Qed.

(** The cache of a client whose session lasts holds exactly what was accepted. *)
Lemma run_history l : forall c log,
  Forall (fun o => op_ok (snd o) /\ in_session (snd o) = true) l -> cache_inv (m_cache c) log ->
  Z.of_nat (length log + length l) < 2 ^ 64 - 2 -> cache_inv (m_cache (run_ops l c)) (log ++ history l c).
Proof.
  induction l as [|[env op] l IH]; intros c log Hl Hc Hb; [by rewrite app_nil_r|].
  inversion Hl as [|? ? [H1 H2] Hl']; subst. cbn [run_ops fold_left fst snd history length] in *.
  pose proof (ci_last _ _ Hc) as Hlast. pose proof (history_length [(env, op)] c) as Hlen.
  cbn [history length] in Hlen. rewrite app_nil_r in Hlen.
  rewrite app_assoc. apply IH; [done|apply exec_history; [done|done| |done]|].
  - lia.
  - unfold sent in *. rewrite length_app. lia.
Qed.

Lemma run_history_new l c q h :
  Forall (fun o => op_ok (snd o) /\ in_session (snd o) = true) l -> m_cache c = q -> cache_inv q [] ->
  Z.of_nat (length l) < 2 ^ 64 - 2 -> history l c = h -> cache_inv (m_cache (run_ops l c)) h.
Proof. intros Hl <- Hc Hb <-. by apply (run_history l c []). Qed.
