(* ===== verification/ApcOrder.v ===== *)
(** What the manager may have received of the packets that the client accepted: a
    selection in the order of their numbers.  A number has 32 bits; the position behind the last
    packet received is followed modulo 2^32. *)
From stdpp Require Import base numbers list option.
From Stdlib Require Import ZArith Lia.
From S2P Require Import Prelude Common ApcProto ApcSerializer ApcCache ApcConnector ApcClient.

Local Open Scope Z_scope.

(** A message of the client: type, sequence number, payload. *)
Notation packet := (Z * Z * list Z)%type (only parsing).

(** The messages of a log. *)
Definition messages (log : list sent) : list packet := numbered 0 log.

(** The last number received, which the manager reports; 0 before the first. *)
Definition lastSeq (l : list packet) : Z := match list.last l with Some (_, seq, _) => seq | None => 0 end.

(** How far in the log the packets [l] reach, from their numbers. *)
Definition advance (a : Z) (x : packet) : Z := let '(_, seq, _) := x in a + u32 (seq - a).
Definition position (l : list packet) : Z := fold_left advance l 0.

(** [l] is a selection of the packets [all], in order; the last one is at the index before [i].
    Fewer than 2^32 packets are skipped at a time. *)
Inductive picked (all : list packet) : list packet -> Z -> Prop :=
| pk_nil : picked all [] 0
| pk_snoc l i j x :
    picked all l i -> i <= j < i + 2 ^ 32 - 1 -> all !! Z.to_nat j = Some x -> picked all (l ++ [x]) (j + 1).

(** ** Numbered packets *)
Lemma length_numbered s l : length (numbered s l) = length l.
Proof. revert s; induction l as [|x l IH]; intros s; cbn; [done|]. by rewrite IH. Qed.

Lemma numbered_app s l1 l2 : numbered s (l1 ++ l2) = numbered s l1 ++ numbered (s + Z.of_nat (length l1)) l2.
Proof.
  revert s; induction l1 as [|x l1 IH]; intros s; cbn [numbered app length]; [by rewrite Z.add_0_r|].
  rewrite IH. do 2 f_equal. f_equal. lia.
Qed.

Lemma drop_numbered k s l : drop k (numbered s l) = numbered (s + Z.of_nat k) (drop k l).
Proof.
  revert s l; induction k as [|k IH]; intros s l; [by rewrite !drop_0, Z.add_0_r|].
  destruct l as [|x l]; [done|]. cbn [numbered]. rewrite !skipn_cons, IH. f_equal. lia.
Qed.

Lemma messages_snoc log x : messages (log ++ [x]) = messages log ++ [(fst x, u32 (Z.of_nat (length log) + 1), snd x)].
Proof. unfold messages. rewrite numbered_app. cbn [numbered]. by rewrite Z.add_0_l. Qed.

Lemma length_messages log : length (messages log) = length log.
Proof. apply length_numbered. Qed.

Lemma messages_lookup log j x : messages log !! j = Some x -> snd (fst x) = u32 (Z.of_nat j + 1).
Proof.
  intros H.
  assert (Hd : head (drop j (messages log)) = Some x) by (rewrite <- H, head_lookup, lookup_drop; f_equal; lia).
  unfold messages in Hd. rewrite drop_numbered in Hd. destruct (drop j log) as [|y l]; [done|].
  injection Hd as <-. done.
Qed.

(** ** Selections *)
Lemma picked_bounds all l i : picked all l i -> Z.of_nat (length l) <= i <= Z.of_nat (length all).
Proof.
  induction 1 as [|l i j x _ IH Hj Hx]; [cbn; lia|]. rewrite length_app. cbn [length].
  apply lookup_lt_Some in Hx. lia.
Qed.

Lemma lastSeq_snoc l x : lastSeq (l ++ [x]) = snd (fst x).
Proof. unfold lastSeq. rewrite last_snoc. by destruct x as [[t s] p]. Qed.

Lemma position_snoc l x : position (l ++ [x]) = advance (position l) x.
Proof. unfold position. by rewrite fold_left_app. Qed.

(** The numbers tell the position. *)
Lemma picked_position log l i : picked (messages log) l i -> position l = i /\ lastSeq l = u32 i.
Proof.
  induction 1 as [|l i j x H [IH _] Hj Hx]; [done|]. apply picked_bounds in H as Hb.
  apply messages_lookup in Hx. rewrite position_snoc, lastSeq_snoc, IH, Hx.
  destruct x as [[t s] p]. cbn [fst snd] in Hx. subst s. cbn [advance]. rewrite Z2Nat.id by lia. split; [|done].
  replace (u32 (u32 (j + 1) - i)) with (j + 1 - i); [lia|].
  unfold u32, wrap. rewrite Zminus_mod_idemp_l. rewrite Z.mod_small; lia.
Qed.

Lemma picked_more all all' l i : picked all l i -> picked (all ++ all') l i.
Proof.
  induction 1 as [|l i j x _ IH Hj Hx]; [constructor|]. econstructor; [exact IH|done|]. by apply lookup_app_l_Some.
Qed.

(** A beginning of a selection skips no more than the whole. *)
Lemma picked_prefix all l1 l2 i : picked all (l1 ++ l2) i ->
  exists i1, picked all l1 i1 /\ i1 + Z.of_nat (length l2) <= i.
Proof.
  revert i; induction l2 as [|y l2 IH] using rev_ind; intros i; [rewrite app_nil_r; intros H; exists i; cbn; split; [done|lia]|].
  rewrite app_assoc. intros H. inversion H as [E|l i0 j x H1 H2 H3 E]; [by destruct (l1 ++ l2)|].
  apply app_inj_tail in E as [-> ->]. destruct (IH _ H1) as (i1 & Hp & Hi). exists i1. split; [done|].
  rewrite length_app. cbn [length]. lia.
Qed.

(** Going on without a gap, from index [j]. *)
Lemma picked_run all l i j pre rest :
  picked all l i -> i <= j < i + 2 ^ 32 - 1 -> drop (Z.to_nat j) all = pre ++ rest ->
  exists i', picked all (l ++ pre) i' /\ i' - Z.of_nat (length (l ++ pre)) <= j - Z.of_nat (length l) /\
    (pre = [] -> i' = i) /\ (pre <> [] -> i' = j + Z.of_nat (length pre)).
Proof.
  intros Hp Hj. pose proof (picked_bounds _ _ _ Hp) as Hb.
  revert rest; induction pre as [|y pre IH] using rev_ind; intros rest Hd.
  { exists i. rewrite app_nil_r. split_and!; try done. lia. }
  rewrite <- app_assoc in Hd. destruct (IH _ Hd) as (i' & H1 & H2 & H3 & H4).
  exists (j + Z.of_nat (length pre) + 1). rewrite app_assoc, (length_app (l ++ pre)). cbn [length]. split_and!.
  - econstructor; [exact H1| |].
    + destruct pre as [|z pre]; [rewrite H3 by done; cbn; lia|rewrite H4 by done; lia].
    + apply (f_equal (fun l => l !! length pre)) in Hd. rewrite lookup_drop in Hd.
      rewrite lookup_app_r, Nat.sub_diag in Hd by lia. cbn in Hd. rewrite <- Hd. f_equal. lia.
  - rewrite length_app. lia.
  - by destruct pre.
  - intros _. rewrite length_app. cbn. lia.
Qed.

(** The longest sublist. *)
Lemma sublist_same {A} (l1 l2 : list A) : l1 `sublist_of` l2 -> (length l2 <= length l1)%nat -> l1 = l2.
Proof.
  induction 1 as [|x l1 l2 _ IH|x l1 l2 H _]; cbn [length]; intros Hl; [done|rewrite IH by lia; done|].
  apply sublist_length in H. lia.
Qed.

(** A selection keeps the order and repeats nothing. *)
Lemma picked_sublist all l i : picked all l i -> l `sublist_of` take (Z.to_nat i) all.
Proof.
  induction 1 as [|l i j x H IH Hj Hx]; [apply sublist_nil_l|]. pose proof (picked_bounds _ _ _ H) as Hb.
  replace (Z.to_nat (j + 1)) with (S (Z.to_nat j)) by lia. rewrite (take_S_r _ _ x) by done.
  apply sublist_app; [|done]. etrans; [exact IH|].
  replace (Z.to_nat i) with (Z.to_nat i `min` Z.to_nat j)%nat by lia. rewrite <- take_take. apply sublist_take.
Qed.

(** Without a gap it is a beginning. *)
Lemma picked_all all l i : picked all l i -> Z.of_nat (length l) = i -> exists rest, all = l ++ rest.
Proof.
  intros H Hl. pose proof (picked_bounds _ _ _ H) as Hb. exists (drop (Z.to_nat i) all).
  assert (l = take (Z.to_nat i) all) as ->; [|by rewrite take_drop].
  apply sublist_same; [by apply picked_sublist|]. rewrite length_take. lia.
Qed.
