(* ===== verification/ApcSession.v ===== *)
(** The session with the manager put together: the client (ApcClient) with its
    connectors (ApcConnector) and cache (ApcCache), the thread that takes their
    notifications to the client (NotifThread), and the manager at the other end of
    the TCP connections.  Connections are lost and made again any number of times;
    the theorem is about what the manager receives over all of them.

    What a connector sends on the connection the manager reads arrives in order,
    up to some packet; the bytes of a packet in flight are not modelled here. *)
From stdpp Require Import base numbers list option strings gmap.
From Stdlib Require Import ZArith Lia.
From S2P Require Import Prelude Common ApcProto ApcSerializer ApcCache ApcConnector NotifThread ApcClient ApcHistory ApcOrder.

Local Open Scope Z_scope.

(** ** The network *)

Record Net : Type := mkNet {
  n_client : CAPCClient;
  n_thread : CAPCCtrlNotifThread;
  n_live : option Z;        (** the connection the manager reads *)
  n_answered : Z;           (** the manager has answered the connections below *)
  n_wire : list packet;     (** in flight on the live connection *)
  n_rx : list packet;       (** received by the manager *)
  n_log : list sent;        (** accepted by the client *)
  n_skipped : Z             (** were no longer in the cache when the manager asked for them *)
}.
#[export] Instance Net_eta : Eta Net := fun n =>
  mkNet (n_client n) (n_thread n) (n_live n) (n_answered n) (n_wire n) (n_rx n) (n_log n) (n_skipped n).

(** The notifications of a connector are calls on the notification thread. *)
Definition postOf (e : client_event) : option action :=
  match e with
  | EvConn id EvStarted => Some (AStarted id)
  | EvConn id (EvConnected p) => Some (AConnected id p)
  | EvConn id (EvDisconnected p) => Some (ADisconnected id p)
  | EvConn id (EvReceived p payload) => Some (AMessage p payload)
  | _ => None
  end.
Definition posts (t : list client_event) : list action := omap postOf t.

Definition post (th : CAPCCtrlNotifThread) (a : action) : CAPCCtrlNotifThread :=
  match NotifThread.exec a th with Some (th', _) => th' | None => th end.

(** What reaches the connection [live]. *)
Definition on_wire (live : option Z) (t : list client_event) : list packet :=
  omap (fun e => match e with
                 | EvSent id ty seq p res =>
                     if bool_decide (live = Some id) && bool_decide (res = APC_OK) then Some (ty, seq, p) else None
                 | _ => None
                 end) t.

Definition absorb (t : list client_event) (n : Net) : Net :=
  n <| n_thread := fold_left post (posts t) (n_thread n) |>
    <| n_wire := n_wire n ++ on_wire (n_live n) t |>.

(** A call on the client, or on one of its connectors. *)
Definition clientRun (m : M CAPCClient client_event unit) (n : Net) : Net :=
  absorb (out_of m (n_client n)) (n <| n_client := st_of m (n_client n) |>).

Definition isWorkingConn (c : CAPCClient) (id : Z) : bool :=
  match conns c !! id with Some k => m_isWorking k | None => false end.

(** What the manager said in the bytes that were read. *)
Definition answers (t : list client_event) : list param_connected_s :=
  omap (fun e => match e with EvConn _ (EvConnected p) => Some p | _ => None end) t.
Definition is_u32 (z : Z) : bool := (0 <=? z) && (z <? 2 ^ 32).
Definition fields_ok (t : list client_event) : bool :=
  forallb (fun e => match e with EvConn _ (EvReceived p _) => is_u32 (pr_yourSeq p) | _ => true end) t.

(** How many packets the manager is still without, those aside that it skipped. *)
Definition missing (n : Net) : Z := Z.of_nat (length (n_log n)) - position (n_rx n).

(** Those of them that newer ones have overwritten in the cache. *)
Definition overwritten (n : Net) : Z := Z.max 0 (missing n - getCacheSize (m_cache (n_client n))).

(** The manager's answer to a new connection tells the last number that it has received; 32
    bits tell which packet that was.  From then on it reads this connection. *)
Definition honest (p : param_connected_s) (id : Z) (n : Net) : bool :=
  (n_answered n <=? id) && (pc_yourSeq p =? lastSeq (n_rx n)) && (missing n <? 2 ^ 32).

Definition connRun {A} (id : Z) (m : M CAPCConnector conn_event A) : M CAPCClient client_event unit :=
  _ ← withConn id m; mret tt.

(** The client's call for a notification. *)
Definition opOf (c : client_call) : client_op :=
  match c with
  | CallStarted id => CStarted id
  | CallConnected id p => CConnected id p
  | CallDisconnected _ p => CDisconnected p
  | CallMessage p payload => CReceived p payload
  end.

Inductive net_op : Type :=
| NUp (env : ClEnv) (op : client_op)      (** the owner of the client sends *)
| NTimer (env : ClEnv)                    (** the reconnection timer expires *)
| NTake                                   (** the notification thread *)
| NProcess (env : ClEnv)
| NRead (env : Env) (id : Z) (error : bool) (data : list Z)   (** completions and timers of a connector *)
| NWritten (env : Env) (id : Z) (error : bool)
| NKaRx (env : Env) (id lastAction : Z)
| NKaTx (env : Env) (id lastAction : Z)
| NDeliver                                (** the manager gets the next packet *)
| NBreak.                                 (** the manager loses the connection *)

(** One step; [None] if it cannot happen. *)
Definition net_exec (o : net_op) (n : Net) : option Net :=
  match o with
  | NUp env op =>
      Some (clientRun (exec env op) n <| n_log := n_log n ++ accepted_packets op (n_client n) |>)
  | NTimer env =>
      if m_reconnectTimer (n_client n) then Some (clientRun (exec env (CTimer false)) n) else None
  | NTake => '(th, _) ← NotifThread.exec ATake (n_thread n); Some (n <| n_thread := th |>)
  | NProcess env =>
      '(th, calls) ← NotifThread.exec AProcess (n_thread n);
      Some (fold_left (fun n c => clientRun (exec env (opOf c)) n) calls (n <| n_thread := th |>))
  | NRead env id error data =>
      let m := connRun id (handle_read_p env error data) in
      let t := out_of m (n_client n) in
      if isWorkingConn (n_client n) id && fields_ok t then
        match answers t with
        | [] => Some (clientRun m n)
        | [p] => if honest p id n
                 then Some (clientRun m (n <| n_live := Some id |> <| n_answered := id + 1 |> <| n_wire := [] |>
                                         <| n_skipped := n_skipped n + overwritten n |>))
                 else None
        | _ => None
        end
      else None
  | NWritten env id error => Some (clientRun (connRun id (handle_write_p env error)) n)
  | NKaRx env id last => Some (clientRun (connRun id (ka_timeout_rx_p env last)) n)
  | NKaTx env id last => Some (clientRun (connRun id (ka_timeout_tx_p env last)) n)
  | NDeliver =>
      match n_wire n with
      | x :: w => Some (n <| n_rx := n_rx n ++ [x] |> <| n_wire := w |>)
      | [] => None
      end
  | NBreak => Some (n <| n_live := None |> <| n_wire := [] |>)
  end.

Fixpoint net_run (l : list net_op) (n : Net) : option Net :=
  match l with
  | [] => Some n
  | o :: l => n ← net_exec o n; net_run l n
  end.

(** While a call waits for a buffer, others neither stop nor restart the connector. *)
Definition quiet_waits (env : Env) : Prop :=
  Forall (fun w => forall c, m_isWorking (fst w c) = m_isWorking c /\ m_pApcNotif (fst w c) = m_pApcNotif c)
         (e_waits env).
Definition env_quiet (env : ClEnv) : Prop := quiet_waits (ce_conn env) /\ 0 <= ce_now env.

Definition is_upper (op : client_op) : bool :=
  match op with CGpsLock _ => true | _ => bool_decide (is_Some (packet_of op)) end.

Definition net_op_ok (o : net_op) : Prop :=
  match o with
  | NUp env op => env_quiet env /\ is_upper op = true
  | NTimer env | NProcess env => env_quiet env
  | NRead env _ _ _ | NWritten env _ _ | NKaRx env _ _ | NKaTx env _ _ => quiet_waits env
  | _ => True
  end.

(** A client that was opened and started, and a manager that knows nothing of it. *)
Definition net0 (cap : nat) (name : list Z) (env : ClEnv) (p : start_param_t) : Net :=
  clientRun (exec env (COpen name) ;; exec env (CStart p))
    (mkNet (newCAPCClient cap) (mkNotifThread [] [] None true true) None 0 [] [] [] 0).

(** ** How a connector ends *)

(** The notifications of a connector. *)
Definition is_notice (e : conn_event) : bool :=
  match e with EvStarted | EvConnected _ | EvDisconnected _ | EvReceived _ _ => true | _ => false end.
Definition notices (t : list conn_event) : list conn_event := filter (fun e => is_notice e = true) t.

(** From [k] to [k'], told by [t]: a working connector either goes on or reports its end, once. *)
Definition ends_once (k k' : CAPCConnector) (t : list conn_event) : Prop :=
  m_pApcNotif k' = true /\ (m_isWorking k' = true -> m_isWorking k = true) /\
  if m_isWorking k && negb (m_isWorking k') then exists d, notices t = [EvDisconnected d] else notices t = [].

Definition lives {A} (m : M CAPCConnector conn_event A) : Prop :=
  forall k, m_pApcNotif k = true -> ends_once k (st_of m k) (out_of m k).

Lemma notices_app t1 t2 : notices (t1 ++ t2) = notices t1 ++ notices t2.
Proof. apply filter_app. Qed.

Lemma ends_once_trans k1 k2 k3 t1 t2 : ends_once k1 k2 t1 -> ends_once k2 k3 t2 -> ends_once k1 k3 (t1 ++ t2).
Proof.
  intros (_ & H1 & H2) (H3 & H4 & H5). split; [done|]. split; [auto|]. rewrite notices_app.
  destruct (m_isWorking k1), (m_isWorking k2), (m_isWorking k3); cbn [andb negb] in *;
    try (by rewrite H2, H5); try (by specialize (H1 eq_refl)); try (by specialize (H4 eq_refl)).
  - rewrite H2. done.
  - destruct H2 as [d ->]. rewrite H5. by exists d.
Qed.

Lemma lives_quiet {A} (m : M CAPCConnector conn_event A) :
  (forall k0, keeps (fun k => m_isWorking k = m_isWorking k0 /\ m_pApcNotif k = m_pApcNotif k0)
                    (fun e => is_notice e = false) m) -> lives m.
Proof.
  intros H k Hk. destruct (H k k) as [[H1 H2] H3]; [done|]. split; [congruence|]. rewrite H1.
  split; [done|]. rewrite andb_negb_r. unfold notices.
  induction H3 as [|e t He _ IH]; [done|]. by rewrite filter_cons_False by (by rewrite He).
Qed.

Lemma lives_ret {A} (a : A) : lives (mret a).
Proof. apply lives_quiet. intros. apply keeps_ret. Qed.

Lemma lives_bind {A B} (m : M CAPCConnector conn_event A) (f : A -> M CAPCConnector conn_event B) :
  lives m -> (forall a, lives (f a)) -> lives (m ≫= f).
Proof.
  intros Hm Hf k Hk. rewrite st_bind, out_bind. pose proof (Hm k Hk) as H1.
  eapply ends_once_trans; [exact H1|]. apply Hf, H1.
Qed.

Lemma lives_get : lives get.
Proof. apply lives_quiet. intros. apply keeps_get. Qed.

Lemma lives_modify f :
  (forall k, m_isWorking (f k) = m_isWorking k) -> (forall k, m_pApcNotif (f k) = m_pApcNotif k) -> lives (modify f).
Proof. intros H1 H2. apply lives_quiet. intros k0. apply keeps_modify. intros k. by rewrite H1, H2. Qed.

Lemma lives_emit e : is_notice e = false -> lives (emit e).
Proof. intros He. apply lives_quiet. intros k0. by apply keeps_emit. Qed.

Lemma lives_when b (m : M CAPCConnector conn_event unit) : lives m -> lives (when b m).
Proof. intros Hm. destruct b; [done|apply lives_ret]. Qed.

Create HintDb apb_lives.
#[export] Hint Resolve lives_ret lives_get lives_emit : apb_lives.

Ltac lives_step :=
  match goal with
  | |- lives (_ ≫= _) => apply lives_bind; [|intros ?]
  | |- lives (modify _) => apply lives_modify; [by intros|by intros]
  | |- lives (when _ _) => apply lives_when
  | |- lives (if decide _ then _ else _) => case_decide
  | |- lives (if ?b then _ else _) => destruct b
  | |- lives (match ?x with _ => _ end) => destruct x
  | |- lives _ => solve [eauto with apb_lives]
  end.
Ltac lives_auto := repeat (cbv zeta; lives_step).

Section Quiet.
Context (env : Env) (Hquiet : quiet_waits env).

Lemma waitFree_quiet ws allow k :
  Forall (fun w => forall c, m_isWorking (fst w c) = m_isWorking c /\ m_pApcNotif (fst w c) = m_pApcNotif c) ws ->
  m_isWorking (waitFree ws allow k) = m_isWorking k /\ m_pApcNotif (waitFree ws allow k) = m_pApcNotif k.
Proof.
  intros Hws; revert k; induction Hws as [|[o el] ws Hw _ IH]; intros k; cbn [waitFree];
    destruct (_ && _); try done.
  cbn [fst] in Hw. destruct (Hw k) as [E1 E2]. destruct (_ <? _); [done|].
  destruct (IH (o k)). split; congruence.
Qed.

Lemma takeBuf_quiet k : m_isWorking (takeBuf k) = m_isWorking k /\ m_pApcNotif (takeBuf k) = m_pApcNotif k.
Proof. unfold takeBuf. cbv zeta. by destruct (_ <? _). Qed.

Lemma getFreeBuf_lives allow : lives (getFreeBuf_p env allow).
Proof.
  unfold getFreeBuf_p. lives_auto.
  - apply lives_modify; intros k; by apply waitFree_quiet.
  - apply lives_modify; intros k; by apply takeBuf_quiet.
Qed.
#[local] Hint Resolve getFreeBuf_lives : apb_lives.

Lemma incr_lives : lives incrNumFreeBuf_p.
Proof. apply lives_modify; intros k; by destruct (_ <? _). Qed.

Lemma returnBuf_lives : lives returnBuf_p.
Proof. unfold returnBuf_p. lives_auto. apply incr_lives. Qed.
#[local] Hint Resolve incr_lives returnBuf_lives : apb_lives.

Lemma sendData_lives ty fl ms p1 p2 : lives (ApcConnector.sendData env ty fl ms p1 p2).
Proof. unfold ApcConnector.sendData. lives_auto. Qed.

Lemma finishWriting_lives n : lives (finishWriting n env).
Proof. induction n; cbn [finishWriting]; lives_auto. Qed.
#[local] Hint Resolve sendData_lives finishWriting_lives : apb_lives.

Lemma notices_silent t : Forall (fun e => is_notice e = false) t -> notices t = [].
Proof. unfold notices. induction 1 as [|e t He _ IH]; [done|]. by rewrite filter_cons_False by (by rewrite He). Qed.

(** Stopping: the connector does not work afterwards, and says so if it did. *)
Lemma stop_ends r f fin k :
  m_pApcNotif k = true ->
  m_isWorking (st_of (ApcConnector.stop env r f fin true) k) = false /\
  ends_once k (st_of (ApcConnector.stop env r f fin true) k) (out_of (ApcConnector.stop env r f fin true) k).
Proof.
  intros Hn. unfold ApcConnector.stop. rewrite st_bind, out_bind. cbn [get res_of st_of out_of fst snd app].
  destruct (m_isWorking k) eqn:Hw; cbn [negb].
  2: { split; [done|]. split; [done|]. split; [done|]. by cbn; rewrite Hw. }
  set (k1 := k <| m_isWorking := false |>). set (fin_m := when fin (finishWriting APC_NUM_OUT_BUFS env)).
  destruct (lives_when fin _ (finishWriting_lives APC_NUM_OUT_BUFS) k1 Hn) as (H1 & H2 & H3).
  fold fin_m in H1, H2, H3. cbn [k1 m_isWorking upd] in H3. cbn [andb] in H3.
  assert (H4 : m_isWorking (st_of fin_m k1) = false) by (by destruct (m_isWorking (st_of fin_m k1)); [discriminate H2|]).
  rewrite !st_bind, !out_bind. cbn [get modify res_of st_of out_of fst snd app]. fold k1.
  set (k2 := st_of fin_m k1) in *. set (t2 := out_of fin_m k1) in *. clearbody k2 t2. clear fin_m.
  runM. unfold st_of, out_of. cbn [m_socket_open upd].
  destruct (m_socket_open k2); cbn [fst snd m_pApcNotif m_isWorking upd andb app]; rewrite H1; cbn [fst snd app];
    unfold ends_once; cbn [m_pApcNotif m_isWorking upd]; rewrite Hw, H4; (split; [done|]);
    (split; [done|]); (split; [done|]); cbn [andb negb]; rewrite notices_app, H3; by eexists.
Qed.

Lemma stop_lives r f fin : lives (ApcConnector.stop env r f fin true).
Proof. intros k Hk. by apply stop_ends. Qed.
#[local] Hint Resolve stop_lives : apb_lives.

Lemma send_ka_lives : lives (send_ka_p env).
Proof. apply sendData_lives. Qed.
#[local] Hint Resolve send_ka_lives : apb_lives.

Lemma write_lives error : lives (handle_write_p env error).
Proof. unfold handle_write_p, freeBuf_p. lives_auto. Qed.

Lemma ka_rx_lives last : lives (ka_timeout_rx_p env last).
Proof. unfold ka_timeout_rx_p. lives_auto. Qed.

Lemma ka_tx_lives last : lives (ka_timeout_tx_p env last).
Proof. unfold ka_timeout_tx_p. lives_auto. Qed.

Lemma connect_lives i ms ys g n f : lives (connect env i ms ys g n f).
Proof. unfold connect. lives_auto. Qed.

Definition heard (e : conn_event) : Prop := match e with EvConnected _ | EvReceived _ _ => True | _ => False end.

(** A round of reading: the messages of the manager in it, then perhaps the end. *)
Definition reads {A} (m : M CAPCConnector conn_event A) : Prop :=
  forall k, m_pApcNotif k = true -> exists ps t,
    notices (out_of m k) = ps ++ t /\ Forall heard ps /\
    m_pApcNotif (st_of m k) = true /\ (m_isWorking (st_of m k) = true -> m_isWorking k = true) /\
    if m_isWorking k && negb (m_isWorking (st_of m k)) then exists d, t = [EvDisconnected d] else t = [].

Lemma reads_lives {A} (m : M CAPCConnector conn_event A) : lives m -> reads m.
Proof. intros Hm k Hk. destruct (Hm k Hk) as (H1 & H2 & H3). by exists [], (notices (out_of m k)). Qed.

Lemma reads_bind {A B} (m : M CAPCConnector conn_event A) (f : A -> M CAPCConnector conn_event B) :
  reads m -> (forall a, lives (f a)) -> reads (m ≫= f).
Proof.
  intros Hm Hf k Hk. destruct (Hm k Hk) as (ps & t & H1 & Hps & H2 & H3 & H4).
  destruct (Hf (res_of m k) (st_of m k) H2) as (H5 & H6 & H7).
  rewrite st_bind, out_bind, notices_app, H1, <- app_assoc. eexists ps, _. split; [reflexivity|]. split; [done|].
  split; [done|]. split; [auto|].
  destruct (m_isWorking k), (m_isWorking (st_of m k)), (m_isWorking (st_of (f _) _));
    cbn [andb negb] in *; try (by rewrite H4, H7); try (by specialize (H3 eq_refl)); try (by specialize (H6 eq_refl)).
  - by rewrite H4.
  - destruct H4 as [d ->]. rewrite H7. by exists d.
Qed.

Definition tells_only (e : conn_event) : Prop := is_notice e = false \/ heard e.

Lemma notices_heard t : Forall tells_only t -> Forall heard (notices t).
Proof.
  unfold notices. induction 1 as [|e t [He|He] _ IH]; [by constructor|..].
  - by rewrite filter_cons_False by (by rewrite He).
  - rewrite filter_cons_True by (by destruct e). by constructor.
Qed.

Lemma serializerReceive_reads data : reads (serializerReceive env data).
Proof.
  intros k Hk. unfold serializerReceive, st_of, out_of.
  destruct (dataReceived _ _ _ _) as [[[s [k' t]] res]|] eqn:E.
  2: { exists [], []. cbn [fst snd]. rewrite andb_negb_r. by repeat constructor. }
  apply (rxLoop_handler _ (fun h => Forall tells_only (snd h) /\ m_pApcNotif (fst h) = m_pApcNotif k /\
                                    m_isWorking (fst h) = m_isWorking k)) in E; [| |done].
  - cbn [fst snd m_pApcNotif m_isWorking upd] in *. destruct E as (H1 & H2 & H3).
    exists (notices t), []. rewrite app_nil_r, H2, H3, andb_negb_r. split; [done|]. split; [by apply notices_heard|done].
  - intros m [k1 t1] (H1 & H2 & H3). unfold rxHandler. cbn [fst snd] in *.
    assert (Hm : keeps (fun k1 => m_pApcNotif k1 = m_pApcNotif k /\ m_isWorking k1 = m_isWorking k) tells_only
                       (ApcConnector.messageReceived env m)).
    { unfold ApcConnector.messageReceived, updateLastReceived, startTimer.
      keeps_auto; try done; try (by left); try (by right); intros s0 Hs0; by destruct (_ <? _). }
    destruct (Hm k1) as [[H4 H5] H6]; [done|]. unfold st_of, out_of in *.
    destruct (ApcConnector.messageReceived env m k1) as [[k2 t2] r2]. cbn [fst snd] in *.
    split; [by apply Forall_app|done].
Qed.

Lemma async_read_lives : lives (async_read_p env).
Proof. unfold async_read_p. lives_auto. Qed.
#[local] Hint Resolve async_read_lives : apb_lives.

Lemma handle_read_reads error data : reads (handle_read_p env error data).
Proof.
  rewrite handle_read_split. destruct error; [apply reads_lives, stop_lives|].
  apply reads_bind; [|intros; lives_auto]. unfold readData.
  destruct (0 <? length data)%nat; [|apply reads_lives, lives_ret].
  apply reads_bind; [apply serializerReceive_reads|intros; lives_auto].
Qed.

(** Sending succeeds only on a working connector. *)
Lemma sendData_works ty fl ms p1 p2 k :
  let m := ApcConnector.sendData env ty fl ms p1 p2 in
  res_of m k = APC_OK ->
  m_isWorking k = true /\ m_isWorking (st_of m k) = true /\ (length p1 + length p2 <= APC_MAX_MSG_SIZE)%nat.
Proof.
  cbv zeta. unfold ApcConnector.sendData, getFreeBuf_p, res_of, st_of. runM.
  destruct (m_isWorking k) eqn:Hw; [|done]. cbn [negb orb]. destruct (_ && _); [done|].
  destruct (waitFree_quiet (e_waits env) false k Hquiet) as [Hk _]. rewrite Hw in Hk.
  destruct ((m_numFreeOutBuf _ =? 0) || _); [done|]. cbv beta iota.
  destruct (takeBuf_quiet (waitFree (e_waits env) false k)) as [Ht _].
  destruct (prepMsg _ _ _ _ _ _ _ _) as [[res n] m] eqn:Hp. cbv beta iota.
  destruct (decide (res = APC_OK)) as [->|Hne]; [|by rewrite bool_decide_false by done].
  rewrite bool_decide_true by done. cbn [negb]. destruct (e_writeThrows env); [done|]. cbn.
  intros _. split; [done|]. split;
    [by transitivity (m_isWorking (takeBuf (waitFree (e_waits env) false k))); [|congruence]|].
  unfold prepMsg in Hp. cbv zeta in Hp. destruct (Nat.ltb_spec APC_MAX_MSG_SIZE (length p1 + length p2 + sizeof apc_hdr_s));
    [discriminate Hp|eapply Nat.le_trans; [apply Nat.le_add_r|eassumption]].
Qed.

(** Starting: the connection is announced, and the connector works. *)
Lemma start_runs k :
  m_pApcNotif k = true ->
  let m := ApcConnector.start env in
  notices (out_of m k) = [EvStarted] /\ m_isWorking (st_of m k) = true /\ m_pApcNotif (st_of m k) = true.
Proof.
  intros Hn m. unfold m, ApcConnector.start, async_read_p, st_of, out_of. runM. rewrite Hn. cbv beta iota.
  cbn [m_kaRxTimer upd]. destruct (m_kaRxTimer k) as [t|]; cbv beta iota.
  - unfold startTimer, startTimer_p. by destruct (e_timerThrows env), (e_readThrows env).
  - by destruct (e_readThrows env).
Qed.
End Quiet.

(** ** What a call of the client does to its connectors *)

(** The calls that the events of a run ask for, and those about connections. *)
Definition calls_of (t : list client_event) : list client_call := omap (fun e => postOf e ≫= asks) t.
Definition is_control (c : client_call) : bool := match c with CallMessage _ _ => false | _ => true end.
Definition control (l : list client_call) : list client_call := filter (fun c => is_control c = true) l.

Lemma calls_app t1 t2 : calls_of (t1 ++ t2) = calls_of t1 ++ calls_of t2.
Proof. apply omap_app. Qed.
Lemma control_app l1 l2 : control (l1 ++ l2) = control l1 ++ control l2.
Proof. apply filter_app. Qed.

Definition callOfNotice (id : Z) (e : conn_event) : client_call :=
  match e with
  | EvConnected p => CallConnected id p
  | EvDisconnected d => CallDisconnected id d
  | EvReceived p payload => CallMessage p payload
  | _ => CallStarted id
  end.

Lemma calls_conn id t : calls_of (map (EvConn id) t) = map (callOfNotice id) (notices t).
Proof.
  unfold calls_of, notices. induction t as [|e t IH]; [done|].
  destruct e; cbn [map omap list_omap postOf asks mbind option_bind]; rewrite ?filter_cons_False, ?filter_cons_True by done;
    cbn [map callOfNotice]; congruence || exact IH.
Qed.

(** The connectors report to the thread, and new names are new. *)
Definition store_ok (c : CAPCClient) : Prop :=
  forall id k, conns c !! id = Some k -> m_pApcNotif k = true /\ id < nextConn c.

(** A call that works on connector [id], and asks for the calls [l]: the others do not change, the client
    refers to the same one, and [id] goes on or ends. *)
Record effect (id : Z) (c c' : CAPCClient) (l : list client_call) : Prop := {
  ef_next : nextConn c' = nextConn c;
  ef_pconn : m_pConnector c' = m_pConnector c;
  ef_timer : m_reconnectTimer c' = true -> m_reconnectTimer c = true;
  ef_store : store_ok c';
  ef_others : forall j, j <> id -> isWorkingConn c' j = isWorkingConn c j;
  ef_works : isWorkingConn c' id = true -> isWorkingConn c id = true;
  ef_calls : if isWorkingConn c id && negb (isWorkingConn c' id)
             then exists d, l = [CallDisconnected id d] else l = []
}.

Definition effects {A} (pc : option Z) (id : Z) (m : M CAPCClient client_event A) : Prop :=
  forall c, store_ok c -> m_pConnector c = pc -> effect id c (st_of m c) (calls_of (out_of m c)).

Lemma effect_refl id c : store_ok c -> effect id c c [].
Proof.
  intros Hc. split; try done. by rewrite andb_negb_r.
Qed.

Lemma effect_trans id c1 c2 c3 l1 l2 : effect id c1 c2 l1 -> effect id c2 c3 l2 -> effect id c1 c3 (l1 ++ l2).
Proof.
  intros [E1 E2 E3 _ A2 A3 A4] [E4 E5 E6 B1 B2 B3 B4]. split; [congruence|congruence|auto|done|..].
  - intros j Hj. by rewrite B2, A2.
  - auto.
  - destruct (isWorkingConn c1 id), (isWorkingConn c2 id), (isWorkingConn c3 id); cbn [andb negb] in *;
      try (by rewrite A4, B4); try (by specialize (A3 eq_refl)); try (by specialize (B3 eq_refl)).
    + by rewrite A4.
    + destruct A4 as [d ->]. rewrite B4. by exists d.
Qed.

Lemma effects_ret {A} pc id (a : A) : effects pc id (mret a).
Proof. intros c Hc _. by apply effect_refl. Qed.

Lemma effects_bind {A B} pc id (m : M CAPCClient client_event A) (f : A -> M CAPCClient client_event B) :
  effects pc id m -> (forall a, effects pc id (f a)) -> effects pc id (m ≫= f).
Proof.
  intros Hm Hf c Hc Hp. rewrite st_bind, out_bind, calls_app. pose proof (Hm c Hc Hp) as H1.
  eapply effect_trans; [exact H1|]. apply Hf; [apply H1|]. by rewrite (ef_pconn _ _ _ _ H1).
Qed.

Lemma effects_read {A} pc id (f : CAPCClient -> M CAPCClient client_event A) :
  (forall c, store_ok c -> m_pConnector c = pc -> effect id c (st_of (f c) c) (calls_of (out_of (f c) c))) -> effects pc id (get ≫= f).
Proof. intros Hf c Hc Hp. rewrite st_bind, out_bind. by apply Hf. Qed.

Lemma effects_get pc id : effects pc id get.
Proof. intros c Hc _. by apply effect_refl. Qed.

Lemma effects_if {A} pc id (b : bool) (m1 m2 : M CAPCClient client_event A) :
  effects pc id m1 -> effects pc id m2 -> effects pc id (if b then m1 else m2).
Proof. by destruct b. Qed.

Lemma effects_when pc id b m : effects pc id m -> effects pc id (when b m).
Proof. intros Hm. destruct b; [done|apply effects_ret]. Qed.

Lemma effects_emit pc id e : calls_of [e] = [] -> effects pc id (emit e).
Proof.
  intros He c Hc _. unfold st_of, out_of, emit. cbn [fst snd].
  destruct (effect_refl id c Hc) as [E1 E2 E3 H1 H2 H3 H4]. split; try done. rewrite He. exact H4.
Qed.

Lemma effects_modify pc id f :
  (forall c, nextConn (f c) = nextConn c) -> (forall c, m_pConnector (f c) = m_pConnector c) ->
  (forall c, conns (f c) = conns c) -> (forall c, m_reconnectTimer (f c) = true -> m_reconnectTimer c = true) ->
  effects pc id (modify f).
Proof.
  intros H1 H2 H3 H4 c Hc _. unfold st_of, out_of, modify. cbn [fst snd].
  assert (Hw : forall j, isWorkingConn (f c) j = isWorkingConn c j) by (intros j; unfold isWorkingConn; by rewrite H3).
  split; rewrite ?Hw, ?andb_negb_r; auto. intros j k. rewrite H3, H1. apply Hc.
Qed.
Create HintDb apb_effects.
#[export] Hint Resolve effects_ret effects_get : apb_effects.

Ltac effects_step :=
  match goal with
  | |- effects _ _ (_ ≫= _) => apply effects_bind; [|intros ?]
  | |- effects _ _ (modify _) => apply effects_modify; [by intros|by intros|by intros|by intros]
  | |- effects _ _ (emit _) => by apply effects_emit
  | |- effects _ _ (when _ _) => apply effects_when
  | |- effects _ _ (if _ then _ else _) => apply effects_if
  | |- effects _ _ (match ?x with _ => _ end) => destruct x
  | |- effects _ _ _ => solve [eauto with apb_effects]
  end.
Ltac effects_auto := repeat (cbv zeta; effects_step).

Lemma isWorking_insert c id k j :
  isWorkingConn (c <| conns := <[id := k]> (conns c) |>) j = if decide (j = id) then m_isWorking k else isWorkingConn c j.
Proof.
  unfold isWorkingConn. cbn [conns upd]. case_decide as Hj.
  - subst j. by rewrite lookup_insert_eq.
  - by rewrite lookup_insert_ne.
Qed.

Lemma store_insert c id k k' :
  store_ok c -> conns c !! id = Some k -> m_pApcNotif k' = true -> store_ok (c <| conns := <[id := k']> (conns c) |>).
Proof.
  intros Hc Hk Hn j x. cbn [conns nextConn upd]. intros [[<- <-]|[_ Hx]]%lookup_insert_Some; [|by apply Hc].
  split; [done|]. by eapply Hc.
Qed.

Lemma withConn_effects {A} pc id (m : M CAPCConnector conn_event A) : lives m -> effects pc id (withConn id m).
Proof.
  intros Hm c Hc _. unfold withConn, st_of, out_of. destruct (conns c !! id) as [k|] eqn:Hk; [|by apply effect_refl].
  destruct (Hm k) as (H1 & H2 & H3); [by eapply Hc|]. unfold st_of, out_of in *.
  destruct (m k) as [[k' t] a]. cbn [fst snd] in *.
  assert (Hw : isWorkingConn c id = m_isWorking k) by (unfold isWorkingConn; by rewrite Hk).
  split; [done..| | | |].
  - by eapply store_insert.
  - intros j Hj. by rewrite isWorking_insert, decide_False.
  - by rewrite isWorking_insert, decide_True, Hw.
  - rewrite isWorking_insert, decide_True, Hw, calls_conn by done.
    destruct (_ && _); [|by rewrite H3]. destruct H3 as [d ->]. by exists d.
Qed.

Lemma callConn_effects pc id m : lives m -> effects pc id (callConn id m).
Proof. intros Hm. apply effects_bind; [by apply withConn_effects|intros; apply effects_ret]. Qed.

Lemma connRun_effects {A} pc id (m : M CAPCConnector conn_event A) : lives m -> effects pc id (connRun id m).
Proof. intros Hm. apply effects_bind; [by apply withConn_effects|intros; apply effects_ret]. Qed.

Section Env.
Context (env : ClEnv) (Hquiet : quiet_waits (ce_conn env)).

Lemma stopConn_effects pc id r f : effects pc id (stopConn env id r f).
Proof. apply connRun_effects, stop_lives, Hquiet. Qed.

Lemma stopConn_stops id r f c : store_ok c -> isWorkingConn (st_of (stopConn env id r f) c) id = false.
Proof.
  intros Hc. unfold stopConn. rewrite st_bind. unfold withConn, st_of, mret, M_ret. cbn [fst].
  destruct (conns c !! id) as [k|] eqn:Hk; [|cbn [fst]; unfold isWorkingConn; by rewrite Hk].
  destruct (stop_ends (ce_conn env) Hquiet r f true k) as [H _]; [by eapply Hc|]. unfold st_of in H.
  destruct (ApcConnector.stop _ _ _ _ _ k) as [[k' t] []]. cbn [fst snd] in *.
  by rewrite isWorking_insert, decide_True.
Qed.

Lemma sendConn_effects pc id ty s p : effects pc id (sendConn env id ty s p).
Proof.
  apply effects_bind; [apply callConn_effects, sendData_lives, Hquiet|intros res].
  apply effects_bind; [by apply effects_emit|intros; apply effects_ret].
Qed.

(** One packet: it is on the connection exactly if the result says so. *)
Lemma sendConn_sends id ty s p c :
  store_ok c ->
  let res := res_of (sendConn env id ty s p) c in
  (forall live, on_wire live (out_of (sendConn env id ty s p) c) =
     if bool_decide (live = Some id) && bool_decide (res = APC_OK) then [(ty, s, p)] else []) /\
  (res = APC_OK -> isWorkingConn (st_of (sendConn env id ty s p) c) id = true /\ (length p <= APC_MAX_MSG_SIZE)%nat).
Proof.
  intros Hc. cbv zeta. unfold sendConn, callConn, res_of, st_of, out_of. runM. unfold withConn.
  destruct (conns c !! id) as [k|] eqn:Hk.
  - pose proof (sendData_works (ce_conn env) Hquiet ty 0 s p [] k) as Hs. unfold res_of, st_of in Hs.
    destruct (ApcConnector.sendData _ _ _ _ _ _ k) as [[k' t] res]. cbv beta iota. cbn [default from_option Datatypes.id fst snd] in *.
    rewrite !app_nil_r. split.
    + intros live. unfold on_wire. rewrite omap_app.
      assert (Ht : omap (fun e => match e with
          | EvSent id ty seq p res => if bool_decide (live = Some id) && bool_decide (res = APC_OK) then Some (ty, seq, p) else None
          | _ => None end) (map (EvConn id) t) = []) by (clear; by induction t).
      rewrite Ht. cbn. by destruct (_ && _).
    + intros ->. destruct (Hs eq_refl) as (_ & H1 & H2). cbn [length] in H2.
      rewrite isWorking_insert, decide_True by done. split; [done|lia].
  - cbn [default fst snd app]. split; [|done]. intros live. cbn. rewrite (bool_decide_false (APC_ERR_STATE = APC_OK)) by done.
    by rewrite andb_false_r.
Qed.

#[local] Hint Resolve stopConn_effects sendConn_effects : apb_effects.

(** All packets of a run go to connector [id]. *)
Definition sent_on (id : Z) (e : client_event) : Prop := match e with EvSent j _ _ _ _ => j = id | _ => True end.

Lemma stopConn_sent_on (I : CAPCClient -> Prop) id j r f : conn_blind I -> keeps I (sent_on j) (stopConn env id r f).
Proof.
  intros HI c Hc. destruct (stopConn_run env id r f c) as (cs & t & Hs). unfold st_of, out_of. rewrite Hs. cbn [fst snd].
  split; [by apply HI|]. clear Hs. by induction t; constructor.
Qed.

Lemma sendConn_sent_on (I : CAPCClient -> Prop) id ty s p : conn_blind I -> keeps I (sent_on id) (sendConn env id ty s p).
Proof.
  intros HI c Hc. destruct (sendConn_run env id ty s p c) as (cs & t & res & Hs). unfold st_of, out_of. rewrite Hs.
  cbn [fst snd]. split; [by apply HI|]. clear Hs. apply Forall_app. split; [by induction t; constructor|by repeat constructor].
Qed.

Lemma on_wire_app live t1 t2 : on_wire live (t1 ++ t2) = on_wire live t1 ++ on_wire live t2.
Proof. apply omap_app. Qed.

Lemma on_wire_other live id t : Forall (sent_on id) t -> live <> Some id -> on_wire live t = [].
Proof.
  intros Ht Hne. induction Ht as [|[] t He _ IH]; [done|exact IH..| |exact IH|exact IH].
  cbn in He. subst. cbn. by rewrite bool_decide_false.
Qed.

Lemma on_wire_sends id t :
  Forall (sent_on id) t ->
  on_wire (Some id) t = omap (fun x => if bool_decide (snd x = APC_OK) then Some (fst x) else None) (sends t).
Proof.
  induction 1 as [|[] t He _ IH]; [done|exact IH..| |exact IH|exact IH].
  cbn in He. subst. cbn. rewrite bool_decide_true by done. cbn [andb].
  destruct (bool_decide _); cbn; [f_equal|]; exact IH.
Qed.

Lemma sent_upto_wire l s e :
  sent_upto l s e -> exists rest,
    l = omap (fun x => if bool_decide (snd x = APC_OK) then Some (fst x) else None) s ++ rest /\ (e = APC_OK -> rest = []).
Proof.
  induction 1 as [|x l s e _ [rest [-> IH]]|x l e He].
  - by exists [].
  - exists rest. cbn. by split.
  - exists (x :: l). cbn. by rewrite bool_decide_false by done.
Qed.

Lemma sendRest_effects pc id ty s p : effects pc id (sendRest env id ty s p).
Proof. unfold sendRest. effects_auto. Qed.

Lemma replay_effects id n res : effects (Some id) id (replay env n res).
Proof.
  revert res; induction n as [|n IH]; intros res; cbn [replay]; [effects_auto|].
  apply effects_if; [apply effects_ret|]. apply effects_read. intros c Hc Hp. rewrite Hp.
  match goal with |- effect _ _ (st_of ?m _) _ => enough (H : effects (Some id) id m) by (by apply H) end.
  destruct (getNextPacket (m_cache c)) as [[[q e] [pkt|]]|]; effects_auto.
Qed.

Lemma replay_sent_on id n res : keeps (fun c => m_pConnector c = Some id) (sent_on id) (replay env n res).
Proof.
  revert res; induction n as [|n IH]; intros res; cbn [replay]; [keeps_auto|].
  apply keeps_if; [apply keeps_ret|]. apply keeps_read. intros c Hc. rewrite Hc.
  match goal with |- keeps_at _ _ ?m _ => enough (H : keeps (fun c => m_pConnector c = Some id) (sent_on id) m) by (by apply H) end.
  destruct (getNextPacket (m_cache c)) as [[[q e] [pkt|]]|]; [|keeps_auto..].
  apply keeps_bind; [by apply keeps_modify|intros _]. apply keeps_if; [apply keeps_ret|].
  apply keeps_bind; [apply sendConn_sent_on; by intros c0 x Hx|done].
Qed.
End Env.

(** ** Sending, resuming, connecting *)

(** No packet is sent. *)
Definition unsent {A} (m : M CAPCClient client_event A) : Prop := forall c live, on_wire live (out_of m c) = [].

Lemma unsent_ret {A} (a : A) : unsent (mret a).
Proof. done. Qed.
Lemma unsent_get : unsent get.
Proof. done. Qed.
Lemma unsent_modify f : unsent (modify f).
Proof. done. Qed.
Lemma unsent_bind {A B} (m : M CAPCClient client_event A) (f : A -> M CAPCClient client_event B) :
  unsent m -> (forall a, unsent (f a)) -> unsent (m ≫= f).
Proof. intros Hm Hf c live. by rewrite out_bind, on_wire_app, Hm, Hf. Qed.
Lemma unsent_emit e : match e with EvSent _ _ _ _ _ => False | _ => True end -> unsent (emit e).
Proof. by destruct e. Qed.
Lemma unsent_when b m : unsent m -> unsent (when b m).
Proof. by destruct b. Qed.
Lemma unsent_withConn {A} id (m : M CAPCConnector conn_event A) : unsent (withConn id m).
Proof.
  intros c live. unfold withConn, out_of. destruct (conns c !! id) as [k|]; [|done].
  destruct (m k) as [[k' t] a]. cbn [fst snd]. by induction t.
Qed.
Lemma unsent_callConn id m : unsent (callConn id m).
Proof. apply unsent_bind; [apply unsent_withConn|done]. Qed.
Create HintDb apb_unsent.
#[export] Hint Resolve unsent_ret unsent_get unsent_modify unsent_withConn unsent_callConn : apb_unsent.

Ltac unsent_step :=
  match goal with
  | |- unsent (_ ≫= _) => apply unsent_bind; [|intros ?]
  | |- unsent (when _ _) => apply unsent_when
  | |- unsent (emit _) => by apply unsent_emit
  | |- unsent (if ?b then _ else _) => destruct b
  | |- unsent (match ?x with _ => _ end) => destruct x
  | |- unsent _ => solve [eauto with apb_unsent]
  end.
Ltac unsent_auto := repeat (cbv zeta; unsent_step).

Section Client.
Context (env : ClEnv) (Hquiet : quiet_waits (ce_conn env)).

Lemma state_blind s : conn_blind (fun c => m_state c = s).
Proof. by intros c x H. Qed.

Lemma stopConn_wire live id r f c : on_wire live (out_of (stopConn env id r f) c) = [].
Proof.
  destruct (stopConn_run env id r f c) as (cs & t & Ht). unfold out_of. rewrite Ht. cbn [fst snd].
  clear Ht. by induction t.
Qed.

Lemma sendData_p_effects id ty p : effects (Some id) id (sendData_p env ty p).
Proof.
  unfold sendData_p. apply effects_read. intros c Hc Hp. rewrite Hp.
  match goal with |- effect _ _ (st_of ?m _) _ => enough (H : effects (Some id) id m) by (by apply H) end.
  destruct (m_state c); [effects_auto| |effects_auto..].
  apply effects_bind; [|intros; by apply sendRest_effects].
  destruct (addPacket ty p [] (m_cache c)) as [[[q e] seq]|]; effects_auto.
Qed.

(** One packet: it is on the connection, or the connector has ended. *)
Lemma sendRest_sends id ty seq p c :
  store_ok c -> exists ok : bool,
    (forall live, on_wire live (out_of (sendRest env id ty seq p) c) =
       if bool_decide (live = Some id) && ok then [(ty, seq, p)] else []) /\
    isWorkingConn (st_of (sendRest env id ty seq p) c) id = ok /\ (ok = true -> (length p <= APC_MAX_MSG_SIZE)%nat).
Proof.
  intros Hc. unfold sendRest. rewrite st_bind, out_bind.
  destruct (sendConn_sends env Hquiet id ty seq p c Hc) as [Hw Hok].
  assert (Hstore : store_ok (st_of (sendConn env id ty seq p) c))
    by (by eapply (ef_store id c), (sendConn_effects env Hquiet (m_pConnector c))).
  set (res := res_of (sendConn env id ty seq p) c) in *. set (c2 := st_of (sendConn env id ty seq p) c) in *.
  exists (bool_decide (res = APC_OK)). case_bool_decide as He.
  - destruct (Hok He) as [Hwk Hl]. rewrite He, (bool_decide_false (APC_OK = _)) by done.
    split; [|done]. intros live. rewrite on_wire_app, Hw. cbn [negb bool_decide]. by rewrite app_nil_r.
  - destruct (bool_decide (res = APC_ERR_PKTSERIALIZATION)); cbn [negb when];
      rewrite st_bind, out_bind; change (out_of (mret ?x) ?s) with (@nil client_event); rewrite app_nil_r; (split; [|split; [by apply stopConn_stops|done]]);
      intros live; by rewrite on_wire_app, Hw, stopConn_wire, andb_false_r.
Qed.

(** An online client sends: the packet is on the connection under its number, or the connector ends. *)
Lemma sendData_p_sends c ty p id log :
  store_ok c -> m_state c = APCCLIENT_STATE_ONLINE -> m_pConnector c = Some id -> cache_inv (m_cache c) log ->
  m_lastSentSeqNum (m_cache c) + 1 < 2 ^ 64 - 1 -> Z.of_nat (length p) < 65536 ->
  let m := sendData_p env ty p in
  m_state (st_of m c) = APCCLIENT_STATE_ONLINE /\
  exists ok : bool,
    (forall live, on_wire live (out_of m c) =
       if bool_decide (live = Some id) && ok then [(ty, u32 (Z.of_nat (length log) + 1), p)] else []) /\
    isWorkingConn (st_of m c) id = ok /\ (ok = true -> (length p <= APC_MAX_MSG_SIZE)%nat).
Proof.
  intros Hc Hs Hid Hinv Hb Hp m. unfold m, st_of, out_of. rewrite (sendData_p_online _ _ _ _ id) by done.
  destruct (addPacket_ok (m_cache c) log ty p Hinv Hb Hp) as (q & e & seq & Hq & _ & Hcase). rewrite Hq.
  set (c1 := c <| m_cache := q |>). set (s1 := default (ce_garbage env) seq).
  split.
  { apply (keeps_st (fun c => m_state c = APCCLIENT_STATE_ONLINE) any_client_event (sendRest env id ty s1 p) c1);
      [apply sendRest_keeps, state_blind|done]. }
  destruct (sendRest_sends id ty s1 p c1) as (ok & H1 & H2); [done|].
  exists ok. split; [|done]. intros live. rewrite H1. destruct ok; [|by rewrite !andb_false_r].
  rewrite decide_True in Hcase by (by apply H2). destruct Hcase as [_ Hseq]. unfold s1. rewrite Hseq.
  cbn [default from_option]. by rewrite (ci_last _ _ Hinv).
Qed.

Lemma stopConn_state r f id c : m_state (st_of (stopConn env id r f) c) = m_state c.
Proof. destruct (stopConn_run env id r f c) as (cs & t & Ht). unfold st_of. by rewrite Ht. Qed.

#[local] Hint Resolve stopConn_effects replay_effects : apb_effects.

Lemma apcConnected_effects id p : effects (Some id) id (apcConnected env id p).
Proof. unfold apcConnected, stopTimer_p, input. effects_auto. Qed.

(** A new session, or one that is refused. *)
Lemma apcConnected_first id p c :
  store_ok c -> m_intfId c = APINTFID_EMPTY \/ pc_apcId p <> m_intfId c \/ pc_ver p <> APC_PROTO_VER ->
  let m := apcConnected env id p in
  (forall live, on_wire live (out_of m c) = []) /\
  if m_intfId c =? APINTFID_EMPTY then m_state (st_of m c) = APCCLIENT_STATE_ONLINE \/
                                       m_state (st_of m c) = m_state c /\ isWorkingConn (st_of m c) id = false
  else m_state (st_of m c) = m_state c /\ isWorkingConn (st_of m c) id = false.
Proof.
  intros Hc Hnew m. unfold m.
  assert (Hstop : forall r f, (forall live, on_wire live (out_of (stopConn env id r f) c) = []) /\
    m_state (st_of (stopConn env id r f) c) = m_state c /\ isWorkingConn (st_of (stopConn env id r f) c) id = false).
  { intros r f. split; [intros; apply stopConn_wire|]. split; [apply stopConn_state|by apply stopConn_stops]. }
  unfold apcConnected. rewrite st_read, out_read.
  destruct (Z.eqb_spec (pc_ver p) APC_PROTO_VER) as [Hv|Hv]; cbn [negb].
  2: { destruct (Hstop APC_STOP_VER STOP_FL_DISCONNECT). split; [done|]. case_match; auto. }
  destruct (Z.eqb_spec (m_intfId c) APINTFID_EMPTY) as [Hi|Hi].
  - cbn [negb andb]. rewrite orb_false_r.
    destruct (Z.eqb_spec (pc_apcId p) APINTFID_EMPTY); [destruct (Hstop APC_STOP_RECONNECTION STOP_FL_DISCONNECT); auto|].
    cbv zeta. unfold stopTimer_p, input, st_of, out_of. runM.
    rewrite bool_decide_true by done.
    destruct (Z.land (pc_hdrFlags p) APC_HDR_FLAGS_NOTRACK =? 0); cbv beta iota; cbn [m_pInput upd];
      destruct (m_pInput c); (split; [done|by left]).
  - destruct (Z.eqb_spec (pc_apcId p) (m_intfId c)) as [Ha|Ha]; [by destruct Hnew as [?|[?|?]]|].
    cbn [negb andb]. rewrite orb_true_r. apply Hstop.
Qed.

(** The client hears that a connection is accepted: the manager gets what it has not
    received, up to some packet; all of it, and the client is online, or the connector ends. *)
Lemma apcConnected_sends id p c log k :
  store_ok c -> m_pConnector c = Some id -> cache_inv (m_cache c) log ->
  (m_intfId c = APINTFID_EMPTY -> log = []) ->
  pc_yourSeq p = u32 (Z.of_nat k) -> (k <= length log)%nat -> Z.of_nat (length log - k) < 2 ^ 32 ->
  let from := Nat.max k (length log - Z.to_nat (capacity (m_cache c))) in
  let m := apcConnected env id p in
  exists pre rest, drop from (messages log) = pre ++ rest /\
    (forall live, on_wire live (out_of m c) = if bool_decide (live = Some id) then pre else []) /\
    (m_state (st_of m c) = APCCLIENT_STATE_ONLINE /\ rest = [] \/
     m_state (st_of m c) = m_state c /\ isWorkingConn (st_of m c) id = false).
Proof.
  intros Hc Hid Hinv Hnew Hseq Hk Hcap from m. unfold m.
  destruct (decide (m_intfId c = APINTFID_EMPTY \/ pc_apcId p <> m_intfId c \/ pc_ver p <> APC_PROTO_VER)) as [Hf|Hf].
  { destruct (apcConnected_first id p c Hc Hf) as [Hw Hs].
    exists [], (drop from (messages log)). split; [done|]. split; [intros live; rewrite Hw; by case_bool_decide|].
    destruct (Z.eqb_spec (m_intfId c) APINTFID_EMPTY) as [Hi|Hi]; [|by right].
    destruct Hs as [Hs|Hs]; [left|by right]. split; [done|]. rewrite (Hnew Hi). by destruct from. }
  destruct (decide (m_intfId c = APINTFID_EMPTY)) as [?|Hi]; [tauto|].
  destruct (decide (pc_apcId p = m_intfId c)) as [Ha|?]; [|tauto].
  destruct (decide (pc_ver p = APC_PROTO_VER)) as [Hv|?]; [|tauto].
  pose proof Hinv as [Hcp Hl _ _ _ _ _].
  destruct (apcConnected_again env c id p id log (Z.of_nat k) Hinv Hid Hv Ha Hi Hseq)
    as (c2 & t & e & Hup & Ht & Hs & (c1 & n & Hrep & Hp1 & Hcs & Hnx) & Hrun); [lia|lia|].
  assert (Hstore : store_ok c2 /\ Forall (sent_on id) t).
  { assert (Hc1 : store_ok c1) by (intros j x; rewrite Hcs, Hnx; apply Hc).
    pose proof (ef_store _ _ _ _ (replay_effects env Hquiet id n APC_OK c1 Hc1 Hp1)) as H1.
    destruct (replay_sent_on env id n APC_OK c1 Hp1) as [_ H2].
    unfold st_of, out_of in H1, H2. by rewrite Hrep in H1, H2. }
  destruct Hstore as [Hst Hon]. set (w := Z.min _ _) in Hup.
  assert (Hd : drop from (messages log) = numbered (m_lastSentSeqNum (m_cache c) - w) (drop (length log - Z.to_nat w) log)).
  { unfold messages, from, w. rewrite drop_numbered. f_equal; [lia|]. f_equal. lia. }
  rewrite <- Hd in Hup. destruct (sent_upto_wire _ _ _ Hup) as (rest & Hpre & Hrest).
  rewrite <- (on_wire_sends id) in Hpre by done.
  exists (on_wire (Some id) t), rest. split; [done|].
  assert (Hlive : forall live t', on_wire live t' = [] -> on_wire live (t ++ t') = if bool_decide (live = Some id) then on_wire (Some id) t else []).
  { intros live t' Ht'. rewrite on_wire_app, Ht', app_nil_r. destruct (decide (live = Some id)) as [->|Hl'];
      [by rewrite bool_decide_true|by rewrite bool_decide_false, (on_wire_other _ id)]. }
  case_bool_decide as He.
  - unfold st_of, out_of. rewrite Hrun. cbn [fst snd].
    split; [intros live; apply Hlive; by destruct (m_pInput c)|]. left. by auto.
  - cbv zeta in Hrun. set (r := stopConn env id _ _) in Hrun.
    assert (Hr : m_state (st_of r c2) = m_state c2 /\ isWorkingConn (st_of r c2) id = false /\
      forall live, on_wire live (out_of r c2) = []).
    { split; [apply stopConn_state|]. split; [by apply stopConn_stops|]. intros live. apply stopConn_wire. }
    clearbody r. destruct Hr as (H1 & H2 & H3). unfold st_of at 1 2 3, out_of at 1. rewrite Hrun. cbn [fst snd].
    split; [intros live; by apply Hlive|]. right. by rewrite H1.
Qed.

Lemma unsent_stopConn id r f : unsent (stopConn env id r f).
Proof. intros c live. apply stopConn_wire. Qed.
#[local] Hint Resolve unsent_stopConn : apb_unsent.

(** An attempt to connect: nothing, or a new connection that is announced and goes on or ends. *)
Record attempt (c c' : CAPCClient) (t : list client_event) : Prop := {
  at_pconn : m_pConnector c' = m_pConnector c;
  at_store : store_ok c';
  at_next :
    nextConn c' = nextConn c /\ calls_of t = [] /\ (forall j, isWorkingConn c' j = isWorkingConn c j) \/
    nextConn c' = nextConn c + 1 /\ m_reconnectTimer c' = false /\
    (forall j, j <> nextConn c -> isWorkingConn c' j = isWorkingConn c j) /\
    exists d, calls_of t =
      CallStarted (nextConn c) :: (if isWorkingConn c' (nextConn c) then [] else [CallDisconnected (nextConn c) d])
}.

Lemma opens {A} pc id (rest : apc_error_t -> M CAPCClient client_event A) c k :
  store_ok c -> m_pConnector c = pc -> conns c !! id = Some k -> (forall res, effects pc id (rest res)) ->
  let m := res ← callConn id (ApcConnector.start (ce_conn env)); rest res in
  nextConn (st_of m c) = nextConn c /\ m_pConnector (st_of m c) = pc /\ store_ok (st_of m c) /\
  (m_reconnectTimer (st_of m c) = true -> m_reconnectTimer c = true) /\
  (forall j, j <> id -> isWorkingConn (st_of m c) j = isWorkingConn c j) /\
  exists d, calls_of (out_of m c) =
    CallStarted id :: (if isWorkingConn (st_of m c) id then [] else [CallDisconnected id d]).
Proof.
  intros Hc Hp Hk Hrest m. unfold m. rewrite st_bind, out_bind.
  assert (Hn : m_pApcNotif k = true) by (by eapply Hc).
  destruct (start_runs (ce_conn env) k Hn) as (H1 & H2 & H3).
  set (x := callConn id (ApcConnector.start (ce_conn env))).
  assert (Hx : st_of x c = c <| conns := <[id := st_of (ApcConnector.start (ce_conn env)) k]> (conns c) |> /\
               out_of x c = map (EvConn id) (out_of (ApcConnector.start (ce_conn env)) k)).
  { unfold x, callConn, withConn, st_of, out_of. runM. rewrite Hk.
    destruct (ApcConnector.start _ k) as [[k' t] r]. cbn [fst snd]. by rewrite app_nil_r. }
  destruct Hx as [-> ->]. set (c1 := c <| conns := _ |>).
  assert (Hc1 : store_ok c1) by (by eapply store_insert).
  destruct (Hrest (res_of x c) c1 Hc1 Hp) as [E1 E2 E3 E4 E5 E6 E7].
  assert (Hw1 : isWorkingConn c1 id = true) by (unfold c1; by rewrite isWorking_insert, decide_True).
  split; [done|]. split; [by rewrite E2|]. split; [done|]. split; [done|]. split.
  - intros j Hj. rewrite E5 by done. unfold c1. by rewrite isWorking_insert, decide_False.
  - rewrite calls_app, calls_conn, H1. cbn [map callOfNotice app]. rewrite Hw1 in E7.
    destruct (isWorkingConn _ id); cbn [andb negb] in E7.
    + rewrite E7. by exists (mkDisconnected STOP_FL_OFFLINE APC_STOP_CLOSE 0).
    + destruct E7 as [d ->]. by exists d.
Qed.

Lemma attempt_none c : store_ok c -> attempt c c [].
Proof. intros Hc. split; [done..|]. by left. Qed.

(** The connector made by [ipConnect_p]. *)
Lemma attempt_opens {A} (before : M CAPCClient client_event unit) (rest : apc_error_t -> M CAPCClient client_event A) id c c0 k :
  store_ok c0 -> m_pApcNotif k = true -> m_isWorking k = false ->
  id = nextConn c0 -> c = c0 <| conns := <[id := k]> (conns c0) |> <| nextConn := id + 1 |> ->
  (exists f, before = modify f /\ conns (f c) = conns c /\ nextConn (f c) = nextConn c /\
     m_pConnector (f c) = m_pConnector c /\ m_reconnectTimer (f c) = false) ->
  (forall res, effects (m_pConnector c0) id (rest res)) ->
  let m := before ;; res ← callConn id (ApcConnector.start (ce_conn env)); rest res in
  attempt c0 (st_of m c) (out_of m c).
Proof.
  intros Hc Hn Hw -> -> (f & -> & F1 & F2 & F3 & F4) Hrest m. unfold m. rewrite st_bind, out_bind.
  set (c1 := c0 <| conns := _ |> <| nextConn := _ |>) in *. change (st_of (modify f) c1) with (f c1).
  change (out_of (modify f) c1) with (@nil client_event). cbn [app res_of].
  assert (Hc1 : store_ok (f c1)).
  { intros j x. rewrite F1, F2. cbn [c1 conns nextConn upd]. intros [[<- <-]|[_ Hx]]%lookup_insert_Some; [split; [done|lia]|].
    destruct (Hc _ _ Hx). split; [done|lia]. }
  destruct (opens (m_pConnector c0) (nextConn c0) rest (f c1) k) as (O1 & O2 & O3 & O4 & O5 & O6); [done|done| |done|].
  { rewrite F1. cbn [c1 conns upd]. apply lookup_insert_eq. }
  split; [done|done|]. right. rewrite O1, F2. split; [done|]. split.
  { destruct (m_reconnectTimer (st_of _ _)); [|done]. rewrite F4 in O4. by symmetry; apply O4. }
  split; [|done]. intros j Hj. rewrite O5 by done. unfold isWorkingConn. rewrite F1. cbn [c1 conns upd]. by rewrite lookup_insert_ne.
Qed.

#[local] Hint Resolve callConn_effects connect_lives : apb_effects.

(** The connector made by [ipConnect_p]. *)
Definition freshConn (c : CAPCClient) : CAPCConnector :=
  createConnection (mkConnParam (m_intfName c) (m_kaTimeout c) (m_freeBufTimeout c)
                      (u32 (getCacheSize (m_cache c) * 3 / 4)) (ce_version env) true).

Lemma ipConnect_run c :
  let ok := ce_ipConnects env in
  st_of (ipConnect_p env) c =
    (if ok then c <| conns := <[nextConn c := freshConn c]> (conns c) |> <| nextConn := nextConn c + 1 |> else c) /\
  out_of (ipConnect_p env) c = [] /\ res_of (ipConnect_p env) c = if ok then Some (nextConn c) else None.
Proof. unfold ipConnect_p, st_of, out_of, res_of. runM. by destruct (ce_ipConnects env). Qed.

Lemma reconnect_attempt c :
  store_ok c -> m_pConnector c = None -> attempt c (st_of (reconnect_p env) c) (out_of (reconnect_p env) c).
Proof.
  intros Hc Hp. unfold reconnect_p. rewrite st_read, out_read, Hp, st_bind, out_bind.
  destruct (ipConnect_run c) as (-> & -> & ->). cbn [app]. destruct (ce_ipConnects env).
  - eapply attempt_opens; [done| | |reflexivity|reflexivity|
      exists (fun c => c <| m_reconnectTimer := false |>); done|]; [done..|].
    intros res. effects_auto.
  - split; [done|done|]. by left.
Qed.

(** The timer of a client without a connection. *)
Lemma timer_attempt c :
  store_ok c -> m_pConnector c = None -> m_state c <> APCCLIENT_STATE_ONLINE ->
  let m := reconnectTimerFun_p env false in
  attempt c (st_of m c) (out_of m c) /\ m_state (st_of m c) <> APCCLIENT_STATE_ONLINE /\
  forall live, on_wire live (out_of m c) = [].
Proof.
  intros Hc Hp Hs m. unfold m. split_and!.
  - unfold reconnectTimerFun_p. rewrite st_read, out_read. case_bool_decide; [by apply attempt_none|].
    rewrite st_bind, out_bind. destruct (ce_now env <? m_disconnectTime c).
    + pose proof (reconnect_attempt c Hc Hp) as Hr. unfold st_of, out_of, res_of in *. runM.
      destruct (reconnect_p env c) as [[c1 t1] []]. cbn [fst snd andb] in *. by rewrite !app_nil_r.
    + assert (Hd : disconnect_p env c = (c <| m_state := APCCLIENT_STATE_DISCONNECT |>
          <| m_reconnectTimer := false |> <| m_disconnectTime := TIME_EMPTY |>, [], true))
        by (unfold disconnect_p, stopTimer_p; runM; by rewrite Hp).
      unfold st_of, out_of, res_of, input. runM. rewrite Hd. cbn [fst snd andb m_pInput upd].
      destruct (m_pInput c); (split; [done|exact Hc|by left]).
  - apply (keeps_st (fun c => m_state c <> APCCLIENT_STATE_ONLINE) any_client_event); [|done].
    assert (Hb : conn_blind (fun c => m_state c <> APCCLIENT_STATE_ONLINE)) by (by intros c0 x H).
    unfold reconnectTimerFun_p, reconnect_p, disconnect_p, ipConnect_p, startTimer_p, stopTimer_p, input.
    keeps_auto; try done; eauto with apb_keeps.
  - assert (Hu : unsent (reconnectTimerFun_p env false)).
    { unfold reconnectTimerFun_p, reconnect_p, disconnect_p, ipConnect_p, startTimer_p, stopTimer_p, input. unsent_auto. }
    apply Hu.
Qed.

Lemma attempt_upd c c1 c' t :
  m_pConnector c1 = m_pConnector c -> nextConn c1 = nextConn c -> conns c1 = conns c -> attempt c1 c' t -> attempt c c' t.
Proof.
  intros H1 H2 H3 [A1 A2 A3]. assert (Hw : forall j, isWorkingConn c1 j = isWorkingConn c j)
    by (intros j; unfold isWorkingConn; by rewrite H3).
  split; [congruence|done|]. rewrite <- H2.
  destruct A3 as [(B1 & B2 & B3)|(B1 & B2 & B3 & B4)]; [left|right]; split_and!; try done; intros; rewrite <- Hw; auto.
Qed.

(** Starting a new client. *)
Lemma start_attempt name p cap :
  let m := exec env (COpen name) ;; exec env (CStart p) in
  let c := newCAPCClient cap in
  attempt c (st_of m c) (out_of m c) /\ m_state (st_of m c) <> APCCLIENT_STATE_ONLINE /\
  forall live, on_wire live (out_of m c) = [].
Proof.
  intros m c. unfold m. cbn [exec]. split_and!.
  - rewrite st_bind, out_bind. set (c1 := st_of (open name) c). change (out_of (open name) c) with (@nil client_event).
    change (res_of (open name) c) with tt. rewrite st_bind, out_bind. cbn [app]. rewrite app_nil_r.
    change (st_of (mret tt) ?s) with s. apply (attempt_upd c c1); [done..|].
    assert (Hc1 : store_ok c1) by (intros j x Hx; change (conns c1) with (∅ : gmap Z CAPCConnector) in Hx; by rewrite lookup_empty in Hx).
    unfold start. rewrite st_read, out_read. change (m_pConnector c1) with (@None Z). cbv iota.
    change (m_ioRunning c1) with false. cbn [orb]. destruct (ce_ioStarts env); cbn [negb]; [|by apply attempt_none].
    rewrite st_bind, out_bind. set (f := fun c => _ : CAPCClient). change (st_of (modify f) c1) with (f c1).
    change (out_of (modify f) c1) with (@nil client_event). cbn [app].
    apply (attempt_upd _ (f c1)); [done..|]. rewrite st_bind, out_bind.
    destruct (ipConnect_run (f c1)) as (-> & -> & ->). cbn [app]. destruct (ce_ipConnects env).
    + match goal with |- attempt _ (st_of ?m ?s) _ =>
        assert (st_of (modify (fun c => c) ;; m) s = st_of m s /\ out_of (modify (fun c => c) ;; m) s = out_of m s) as [<- <-]
          by (by rewrite st_bind, out_bind) end.
      eapply attempt_opens; [done| | |reflexivity|reflexivity|by exists (fun c => c)|]; [done..|].
      intros res. effects_auto.
    + by apply attempt_none.
  - apply (keeps_st (fun c => m_state c <> APCCLIENT_STATE_ONLINE) any_client_event); [|done].
    assert (Hb : conn_blind (fun c => m_state c <> APCCLIENT_STATE_ONLINE)) by (by intros c0 x H).
    unfold open, start, ipConnect_p. keeps_auto; try done; eauto with apb_keeps.
  - assert (Hu : unsent (open name ;; _ ← start env p; mret tt)) by (unfold open, start, ipConnect_p; unsent_auto).
    apply Hu.
Qed.
End Client.

(** ** The invariant *)
Notation pending_calls n := (NotifThread.waiting (n_thread n)) (only parsing).

Definition call_ok (c : client_call) : Prop :=
  match c with
  | CallMessage p _ => 0 <= pr_yourSeq p < 2 ^ 32
  | CallConnected _ p => 0 <= pc_yourSeq p < 2 ^ 32
  | _ => True
  end.

(** The end of a connector is still to be heard of. *)
Definition ending (n : Net) (id : Z) (d : param_disconnected_s) : list client_call :=
  if isWorkingConn (n_client n) id then [] else [CallDisconnected id d].

Definition caught_up (n : Net) : Prop := position (n_rx n ++ n_wire n) = Z.of_nat (length (n_log n)).

(** How far the connection [id] has come; [a] is the manager's answer if the
    client has still to hear it. *)
Inductive stage (n : Net) (id : Z) : bool -> list client_call -> Prop :=
| st_asked heard :
    n_answered n <= id -> m_state (n_client n) <> APCCLIENT_STATE_ONLINE -> stage n id heard []
| st_answered heard p :
    n_answered n = id + 1 -> m_state (n_client n) <> APCCLIENT_STATE_ONLINE ->
    pc_yourSeq p = lastSeq (n_rx n) -> n_wire n = [] -> missing n < 2 ^ 32 ->
    position (n_rx n) - Z.of_nat (length (n_rx n)) + overwritten n <= n_skipped n ->
    stage n id heard [CallConnected id p]
| st_resumed :
    n_answered n = id + 1 ->
    (m_state (n_client n) = APCCLIENT_STATE_ONLINE ->
       isWorkingConn (n_client n) id = true -> n_live n = Some id -> caught_up n) ->
    (m_state (n_client n) <> APCCLIENT_STATE_ONLINE -> isWorkingConn (n_client n) id = false) ->
    stage n id true [].

(** There is one connection, [id]; [heard]: the client has heard of its start. *)
Record connection (n : Net) (id : Z) (heard : bool) : Prop := {
  cn_next : nextConn (n_client n) = id + 1;
  cn_timer : m_reconnectTimer (n_client n) = false;
  cn_others : forall j, j <> id -> isWorkingConn (n_client n) j = false;
  cn_pconn : m_pConnector (n_client n) = if heard then Some id else None;
  cn_queue : exists a d, stage n id heard a /\
    control (pending_calls n) = (if heard then [] else [CallStarted id]) ++ a ++ ending n id d
}.

Record idle (n : Net) : Prop := {
  id_pconn : m_pConnector (n_client n) = None;
  id_queue : control (pending_calls n) = [];
  id_works : forall j, isWorkingConn (n_client n) j = false;
  id_state : m_state (n_client n) <> APCCLIENT_STATE_ONLINE
}.

(** The client's side: a consistent cache of what was accepted. *)
Record session_ok (cap k : Z) (c : CAPCClient) (log : list sent) : Prop := {
  so_ok : client_ok cap k c;
  so_cache : cache_inv (m_cache c) log;
  so_len : Z.of_nat (length log) <= k;
  so_new : m_intfId c = APINTFID_EMPTY -> log = []
}.

(** What is queued and in flight. *)
Record transit_ok (n : Net) : Prop := {
  tr_thread : is_live (n_thread n);
  tr_calls : Forall call_ok (pending_calls n);
  tr_picked : exists i, picked (messages (n_log n)) (n_rx n ++ n_wire n) i /\
    i - Z.of_nat (length (n_rx n ++ n_wire n)) <= n_skipped n;
  tr_dead : n_live n = None -> n_wire n = [];
  tr_live : forall j, n_live n = Some j -> j < n_answered n;
  tr_answered : n_answered n <= nextConn (n_client n)
}.

Record net_inv (cap k : Z) (n : Net) : Prop := {
  ni_session : session_ok cap k (n_client n) (n_log n);
  ni_store : store_ok (n_client n);
  ni_transit : transit_ok n;
  ni_phase : idle n \/ exists id heard, connection n id heard
}.

(** ** Steps *)

(** Posting appends to the queue. *)
Lemma post_waiting a th :
  asks a <> None -> is_live th ->
  is_live (post th a) /\ NotifThread.waiting (post th a) = NotifThread.waiting th ++ option_list (asks a).
Proof.
  intros Ha Hl. destruct (post_spec a th Ha (proj1 Hl)) as (x & free & He & _ & _).
  assert (Hord : ordinary a) by (by destruct a).
  destruct (step_fifo a th _ _ Hord Hl He) as [H1 H2]. unfold post. rewrite He. by split.
Qed.

Lemma posts_asks t : Forall (fun a => asks a <> None) (posts t) /\ flat_map (fun a => option_list (asks a)) (posts t) = calls_of t.
Proof.
  unfold posts, calls_of. induction t as [|e t [IH1 IH2]]; [done|].
  destruct e as [|id e| | |]; [done| |done..].
  destruct e; try done; cbn; (split; [by constructor|by rewrite <- IH2]).
Qed.

Lemma posts_waiting t th :
  is_live th ->
  is_live (fold_left post (posts t) th) /\
  NotifThread.waiting (fold_left post (posts t) th) = NotifThread.waiting th ++ calls_of t.
Proof.
  intros Hl. destruct (posts_asks t) as [Hp <-]. generalize dependent th.
  induction Hp as [|a l Ha _ IH]; intros th Hl; cbn [fold_left flat_map]; [by rewrite app_nil_r|].
  destruct (post_waiting a th Ha Hl) as [H1 H2]. destruct (IH _ H1) as [H3 H4]. split; [done|].
  by rewrite H4, H2, <- app_assoc.
Qed.

(** What a call on the client leaves as it was. *)
Lemma clientRun_fields m n :
  let n' := clientRun m n in
  n_client n' = st_of m (n_client n) /\ n_live n' = n_live n /\ n_answered n' = n_answered n /\ n_rx n' = n_rx n /\
  n_log n' = n_log n /\ n_wire n' = n_wire n ++ on_wire (n_live n) (out_of m (n_client n)) /\ n_skipped n' = n_skipped n.
Proof. done. Qed.

Lemma clientRun_queue m n :
  is_live (n_thread n) ->
  is_live (n_thread (clientRun m n)) /\ pending_calls (clientRun m n) = pending_calls n ++ calls_of (out_of m (n_client n)).
Proof. intros Hl. by apply posts_waiting. Qed.

(** *** The session *)
Definition has_session (c : CAPCClient) : Prop := m_intfId c <> APINTFID_EMPTY.

Lemma has_session_blind : conn_blind has_session.
Proof. by intros c x H. Qed.
#[local] Hint Resolve has_session_blind : apb_keeps.

Lemma exec_has_session env op : in_session op = true -> keeps has_session any_client_event (exec env op).
Proof.
  intros Hop.
  assert (Hsend : forall ty p, keeps has_session any_client_event (_ ← sendData_p env ty p; mret tt)).
  { intros ty p. apply keeps_bind; [|intros; apply keeps_ret]. unfold sendData_p. keeps_auto; auto with apb_keeps; done. }
  destruct op; try discriminate Hop; cbn [exec]; try apply Hsend.
  - by apply keeps_modify.
  - unfold sendGpsLock. keeps_auto; done.
  - by apply keeps_modify.
  - unfold apcConnected, stopTimer_p, input. apply keeps_read. intros c Hc. apply keeps_to_at; [|done].
    apply keeps_if; [auto with apb_keeps|].
    destruct (Z.eqb_spec (pc_apcId p) APINTFID_EMPTY) as [|Hne]; cbn [orb]; [auto with apb_keeps|].
    apply keeps_if; [auto with apb_keeps|]. cbv zeta.
    apply keeps_bind; [by apply keeps_modify|intros _]. apply keeps_bind; [by apply keeps_modify|intros _].
    apply keeps_bind; [by apply keeps_when, keeps_modify|intros _]. apply keeps_bind.
    + apply keeps_if; [apply keeps_ret|]. apply keeps_bind; [by apply keeps_modify|intros _].
      apply keeps_bind; [apply keeps_get|intros c2]. generalize APC_OK, (S (length (m_outpkts (m_cache c2)))).
      intros r m. revert r. induction m as [|m IH]; intros r; cbn [replay]; [keeps_auto|].
      keeps_auto; auto with apb_keeps; done.
    + intros res. keeps_auto; auto with apb_keeps; done.
  - unfold apcDisconnected, stopTimer_p, startTimer_p, input. keeps_auto; try done. intros c Hc. by case_match.
  - unfold messageReceived, input. keeps_auto; done.
  - unfold reconnectTimerFun_p, reconnect_p, disconnect_p, ipConnect_p, startTimer_p, stopTimer_p, input.
    keeps_auto; auto with apb_keeps; done.
Qed.

Lemma session_exec cap k env op c log :
  session_ok cap k c log -> env_quiet env -> op_ok op -> in_session op = true -> k + 1 < 2 ^ 64 - 1 ->
  session_ok cap (k + 1) (st_of (exec env op) c) (log ++ accepted_packets op c).
Proof.
  intros [H1 H2 H3 H4] [_ Hnow] Hop Hin Hk. pose proof (ci_last _ _ H2) as Hl.
  assert (Hlen : (length (accepted_packets op c) <= 1)%nat).
  { unfold accepted_packets. destruct (packet_of op) as [[t p]|]; [destruct (_ && _)|]; cbn [length]; lia. }
  split.
  - by apply exec_ok.
  - apply exec_history; [done|done|lia|done].
  - unfold sent in *. rewrite length_app. lia.
  - intros Hi. destruct (decide (m_intfId c = APINTFID_EMPTY)) as [He|Hne].
    + rewrite (H4 He). unfold accepted_packets, accepts.
      destruct (packet_of op) as [[t p]|]; [|done].
      rewrite (bool_decide_false (m_state c = _)); [done|]. intros Hon. destruct H1 as [[Hs _ _] _ _]. by apply Hs in Hon as [Hon _].
    + destruct (exec_has_session env op Hin c Hne) as [Hs _]. done.
Qed.

Lemma session_conn {A} cap k id (m : M CAPCConnector conn_event A) c log :
  session_ok cap k c log -> session_ok cap (k + 1) (st_of (connRun id m) c) log.
Proof.
  assert (Hb : conn_blind (fun c => session_ok cap (k + 1) c log)).
  { intros c0 x [H1 H2 H3 H4]. split; try done. by apply client_ok_blind. }
  intros [H1 H2 H3 H4]. apply (keeps_st (fun c => session_ok cap (k + 1) c log) any_client_event).
  - apply keeps_bind; [by apply withConn_keeps; auto with apb_keeps|intros; apply keeps_ret].
  - split; try done; [apply (client_ok_mono cap k); [lia|done]|lia].
Qed.

(** *** Steps that leave the packets where they are *)
Definition same_packets (n n' : Net) : Prop :=
  n_live n' = n_live n /\ n_answered n' = n_answered n /\ n_rx n' = n_rx n /\ n_log n' = n_log n /\ n_wire n' = n_wire n /\
  n_skipped n' = n_skipped n.

Lemma same_packets_run m n : unsent m -> same_packets n (clientRun m n).
Proof.
  intros Hm. unfold same_packets. destruct (clientRun_fields m n) as (_ & -> & -> & -> & -> & -> & ->).
  by rewrite Hm, app_nil_r.
Qed.

Lemma transit_same n n' :
  transit_ok n -> same_packets n n' -> is_live (n_thread n') -> Forall call_ok (pending_calls n') ->
  nextConn (n_client n) <= nextConn (n_client n') -> transit_ok n'.
Proof.
  intros [H1 H2 H3 H4 H5 H6] (E1 & E2 & E3 & E4 & E5 & E0) Hl Hc Hn.
  split; rewrite ?E1, ?E2, ?E3, ?E4, ?E5, ?E0; try done. lia.
Qed.

(** What was received, without what is in flight. *)
Lemma picked_received n : transit_ok n ->
  exists i, picked (messages (n_log n)) (n_rx n) i /\ i - Z.of_nat (length (n_rx n)) <= n_skipped n.
Proof.
  intros [_ _ (i & H1 & H2) _ _ _]. destruct (picked_prefix _ _ _ _ H1) as (i1 & H3 & H4). exists i1. split; [done|].
  rewrite length_app in H2. lia.
Qed.

Lemma effect_calls id c c' l : effect id c c' l -> control l = l /\ Forall call_ok l.
Proof.
  intros [_ _ _ _ _ _ H]. destruct (_ && _); [destruct H as [d ->]|rewrite H]; by repeat constructor.
Qed.

Lemma ending_effect n n' id l d :
  effect id (n_client n) (n_client n') l -> exists d', ending n id d ++ l = ending n' id d'.
Proof.
  intros [_ _ _ _ _ H1 H2]. unfold ending.
  destruct (isWorkingConn (n_client n) id), (isWorkingConn (n_client n') id); cbn [andb negb app] in *;
    try (by specialize (H1 eq_refl)); try (rewrite H2; by exists d).
  exact H2.
Qed.

(** The stage of a connection depends on little. *)
Lemma stage_same n n' id h a :
  stage n id h a -> same_packets n n' -> m_state (n_client n') = m_state (n_client n) ->
  getCacheSize (m_cache (n_client n')) = getCacheSize (m_cache (n_client n)) ->
  (isWorkingConn (n_client n') id = true -> isWorkingConn (n_client n) id = true) -> stage n' id h a.
Proof.
  intros Hs (E1 & E2 & E3 & E4 & E5 & E0) E6 E7 Hw.
  destruct Hs as [h H1 H2|h p H1 H2 H3 H4 H5 H6|H1 H2 H3].
  - apply st_asked; by rewrite ?E2, ?E6.
  - apply st_answered; unfold overwritten, missing in *; by rewrite ?E0, ?E2, ?E3, ?E4, ?E5, ?E6, ?E7.
  - apply st_resumed; [by rewrite E2|..].
    + unfold caught_up in *. rewrite E1, E3, E4, E5, E6. auto.
    + rewrite E6. intros Hne. specialize (H3 Hne). destruct (isWorkingConn (n_client n') id); [|done].
      by specialize (Hw eq_refl); congruence.
Qed.

Lemma connection_effect n n' id h j l :
  connection n id h -> effect j (n_client n) (n_client n') l -> same_packets n n' ->
  m_state (n_client n') = m_state (n_client n) ->
  getCacheSize (m_cache (n_client n')) = getCacheSize (m_cache (n_client n)) ->
  control (pending_calls n') = control (pending_calls n) ++ l -> connection n' id h.
Proof.
  intros [H1 H2 H3 H4 (a & d & H5 & H6)] He Hsame Hst Hcap Hq.
  pose proof He as [E1 E2 E3 E4 E5 E6 E7].
  assert (Hself : forall i, isWorkingConn (n_client n') i = true -> isWorkingConn (n_client n) i = true).
  { intros i. destruct (decide (i = j)) as [->|Hne]; [done|by rewrite E5]. }
  assert (Hend : exists d', ending n id d ++ l = ending n' id d').
  { destruct (decide (id = j)) as [->|Hne]; [by eapply ending_effect|].
    exists d. unfold ending. rewrite (E5 id) by done.
    rewrite (H3 j) in E7 by done. cbn [andb] in E7. by rewrite E7, app_nil_r. }
  destruct Hend as [d' Hd]. split.
  - congruence.
  - destruct (m_reconnectTimer (n_client n')); [by specialize (E3 eq_refl); congruence|done].
  - intros i Hi. specialize (H3 i Hi). specialize (Hself i). destruct (isWorkingConn (n_client n') i); [|done].
    specialize (Hself eq_refl). congruence.
  - congruence.
  - exists a, d'. split; [eapply stage_same; try done; apply Hself|]. by rewrite Hq, H6, <- !app_assoc, Hd.
Qed.

Lemma idle_effect n n' j l :
  idle n -> effect j (n_client n) (n_client n') l -> m_state (n_client n') = m_state (n_client n) ->
  control (pending_calls n') = control (pending_calls n) ++ l -> idle n'.
Proof.
  intros [H1 H2 H3 H4] [E1 E2 E3 E4 E5 E6 E7] Hst Hq. rewrite H3 in E6, E7. cbn [andb] in E7. split.
  - congruence.
  - by rewrite Hq, H2, E7.
  - intros i. destruct (decide (i = j)) as [->|Hne]; [|by rewrite E5].
    destruct (isWorkingConn (n_client n') j); [by specialize (E6 eq_refl)|done].
  - congruence.
Qed.

(** A run on one connector that says nothing to the manager keeps the invariant; the
    calls it asks for are messages, then perhaps the end of the connector. *)
Lemma quiet_step cap k k' n m j l :
  net_inv cap k n -> session_ok cap k' (st_of m (n_client n)) (n_log n) -> unsent m ->
  effect j (n_client n) (st_of m (n_client n)) l ->
  control (calls_of (out_of m (n_client n))) = l -> Forall call_ok (calls_of (out_of m (n_client n))) ->
  m_state (st_of m (n_client n)) = m_state (n_client n) -> net_inv cap k' (clientRun m n).
Proof.
  intros [H1 H2 H3 H4] Hs Hu He Hl Hc Hst.
  destruct (clientRun_queue m n (tr_thread _ H3)) as [Hli Hq].
  pose proof (same_packets_run m n Hu) as Hsame.
  assert (Hq' : control (pending_calls (clientRun m n)) = control (pending_calls n) ++ l)
    by (by rewrite Hq, control_app, Hl).
  split.
  - exact Hs.
  - apply He.
  - apply (transit_same n); [done|done|done| |].
    + rewrite Hq. apply Forall_app. split; [apply H3|done].
    + cbn [clientRun absorb n_client upd]. rewrite (ef_next _ _ _ _ He). done.
  - destruct H4 as [H4|(id & h & H4)]; [left|right; exists id, h].
    + by eapply idle_effect.
    + eapply connection_effect; try done. destruct Hs as [[_ _ (x & _ & Hc1 & _)] _ _ _], H1 as [[_ _ (x' & _ & Hc2 & _)] _ _ _].
      change (capacity (m_cache (st_of m (n_client n))) = capacity (m_cache (n_client n))). congruence.
Qed.

Lemma connRun_state {A} id (m : M CAPCConnector conn_event A) c : m_state (st_of (connRun id m) c) = m_state c.
Proof.
  apply (keeps_st (fun c1 => m_state c1 = m_state c) any_client_event); [|done].
  apply keeps_bind; [apply withConn_keeps; [by intros c1 x H|done]|intros; apply keeps_ret].
Qed.

Lemma connRun_unsent {A} id (m : M CAPCConnector conn_event A) : unsent (connRun id m).
Proof. apply unsent_bind; [apply unsent_withConn|done]. Qed.

(** Completions and timers of a connector. *)
Lemma conn_step {A} cap k n id (m : M CAPCConnector conn_event A) :
  net_inv cap k n -> lives m -> net_inv cap (k + 1) (clientRun (connRun id m) n).
Proof.
  intros Hn Hm. pose proof Hn as [H1 H2 _ _].
  pose proof (connRun_effects (m_pConnector (n_client n)) id m Hm (n_client n) H2 eq_refl) as He.
  destruct (effect_calls _ _ _ _ He) as [Hc1 Hc2].
  eapply quiet_step; [done|by apply session_conn|apply connRun_unsent|exact He|done|done|apply connRun_state].
Qed.

(** *** Reading *)
Definition answerOf (e : conn_event) : option param_connected_s := match e with EvConnected p => Some p | _ => None end.

Lemma answers_conn id t : answers (map (EvConn id) t) = omap answerOf (notices t).
Proof.
  unfold answers, notices. induction t as [|e t IH]; [done|].
  destruct e; cbn [map omap list_omap answerOf]; rewrite ?filter_cons_False, ?filter_cons_True by done;
    cbn [omap list_omap answerOf]; first [exact IH|f_equal; exact IH].
Qed.

Lemma fields_conn id t :
  fields_ok (map (EvConn id) t) = true ->
  Forall (fun e => match e with EvReceived p _ => 0 <= pr_yourSeq p < 2 ^ 32 | _ => True end) (notices t).
Proof.
  unfold fields_ok, notices. induction t as [|e t IH]; [by constructor|]. cbn [map forallb].
  intros [He Ht]%andb_true_iff. specialize (IH Ht).
  destruct e; rewrite ?filter_cons_False, ?filter_cons_True by done; try exact IH; constructor; try done.
  apply andb_true_iff in He as [?%Z.leb_le ?%Z.ltb_lt]. lia.
Qed.

Lemma heard_calls id ps :
  Forall heard ps -> control (map (callOfNotice id) ps) = map (CallConnected id) (omap answerOf ps).
Proof.
  unfold control. induction 1 as [|e ps He _ IH]; [done|].
  destruct e; try done; cbn [map callOfNotice]; rewrite ?filter_cons_False, ?filter_cons_True by done;
    cbn [omap list_omap answerOf map]; first [exact IH|f_equal; exact IH].
Qed.

Lemma read_calls {A} id (m : M CAPCConnector conn_event A) c :
  store_ok c -> reads m -> let t := out_of (connRun id m) c in
  fields_ok t = true -> Forall (fun p => 0 <= pc_yourSeq p < 2 ^ 32) (answers t) ->
  exists l, effect id c (st_of (connRun id m) c) l /\
    control (calls_of t) = map (CallConnected id) (answers t) ++ l /\ Forall call_ok (calls_of t).
Proof.
  intros Hc Hm t. unfold t, connRun. rewrite st_bind, out_bind.
  change (st_of (mret tt) ?s) with s. change (out_of (mret tt) ?s) with (@nil client_event). rewrite app_nil_r.
  clear t. unfold withConn, st_of, out_of. destruct (conns c !! id) as [k|] eqn:Hk.
  2: { intros _ _. exists []. split; [by apply effect_refl|]. by repeat constructor. }
  destruct (Hm k) as (ps & tl & H1 & H2 & H3 & H4 & H5); [by eapply Hc|]. unfold st_of, out_of in *.
  destruct (m k) as [[k' t] a]. cbn [fst snd] in *. rewrite answers_conn, calls_conn, H1. intros Hf Ha.
  assert (Hw : isWorkingConn c id = m_isWorking k) by (unfold isWorkingConn; by rewrite Hk).
  assert (Htl : control (map (callOfNotice id) tl) = map (callOfNotice id) tl /\ omap answerOf tl = [] /\
                Forall call_ok (map (callOfNotice id) tl)).
  { destruct (_ && _); [destruct H5 as [d ->]|rewrite H5]; by repeat constructor. }
  destruct Htl as (T1 & T2 & T3). exists (map (callOfNotice id) tl). split; [|split].
  - split; [done|done|done| | | |].
    + by eapply store_insert.
    + intros j Hj. by rewrite isWorking_insert, decide_False.
    + by rewrite isWorking_insert, decide_True, Hw.
    + rewrite isWorking_insert, decide_True, Hw by done.
      destruct (_ && _); [destruct H5 as [d ->]; by exists d|by rewrite H5].
  - by rewrite map_app, control_app, T1, omap_app, T2, app_nil_r, heard_calls.
  - rewrite map_app. apply Forall_app. split; [|done].
    apply fields_conn in Hf. rewrite H1 in Hf. apply Forall_app in Hf as [Hf _].
    rewrite omap_app, T2, app_nil_r in Ha. clear - H2 Hf Ha.
    induction H2 as [|e ps He _ IH]; [constructor|]. inversion Hf as [|? ? F1 F2]; subst.
    destruct e; try done; cbn [omap list_omap answerOf] in Ha.
    + inversion Ha; subst. constructor; [done|auto].
    + constructor; [done|auto].
Qed.

Lemma read_step cap k n n' env id error data :
  net_inv cap k n -> quiet_waits env -> net_exec (NRead env id error data) n = Some n' -> net_inv cap (k + 1) n'.
Proof.
  intros Hn Hq. cbn [net_exec]. set (m := handle_read_p env error data).
  destruct (isWorkingConn (n_client n) id) eqn:Hw; [|done]. cbn [andb].
  destruct (fields_ok _) eqn:Hf; [|done].
  pose proof Hn as [Hs Hst Htr Hph].
  assert (Hm : reads m) by (by apply handle_read_reads).
  pose proof (read_calls id m (n_client n) Hst Hm Hf) as Hcalls. cbv zeta in Hcalls.
  pose proof (session_conn cap k id m _ _ Hs) as Hs'. pose proof (connRun_state id m (n_client n)) as Hstate.
  pose proof (connRun_unsent id m) as Hu.
  destruct (answers (out_of (connRun id m) (n_client n))) as [|p [|p' ps]] eqn:Ha; [|destruct (honest p id n) eqn:Hh|]; try done;
    intros [= <-].
  - destruct Hcalls as (l & He & Hl & Hc); [constructor|]. by eapply quiet_step.
  - apply andb_true_iff in Hh as [[Hans%Z.leb_le Hyour%Z.eqb_eq]%andb_true_iff Hmiss%Z.ltb_lt].
    destruct (picked_received n Htr) as (i0 & Hrx & Hskip).
    destruct Hcalls as (l & He & Hl & Hc);
      [constructor; [rewrite Hyour, (proj2 (picked_position _ _ _ Hrx)); apply u32_range|done]|].
    destruct Hph as [[_ _ Hno _]|(i & h & [P1 P2 P3 P4 (a & d & P5 & P6)])]; [by rewrite Hno in Hw|].
    assert (i = id) as -> by (destruct (decide (id = i)); [done|]; by rewrite P3 in Hw).
    set (n1 := n <| n_live := Some id |> <| n_answered := id + 1 |> <| n_wire := [] |>
                 <| n_skipped := n_skipped n + overwritten n |>).
    destruct (clientRun_queue (connRun id m) n1 (tr_thread _ Htr)) as [Hli Hqu].
    destruct (same_packets_run (connRun id m) n1 Hu) as (S1 & S2 & S3 & S4 & S5 & S6).
    assert (Hcl : n_client (clientRun (connRun id m) n1) = st_of (connRun id m) (n_client n)) by done.
    set (n' := clientRun (connRun id m) n1) in *. clearbody n'.
    cbn [n1 n_client n_thread n_live n_answered n_rx n_log n_wire n_skipped upd] in *.
    destruct Htr as [_ T2 _ T4 T5 T6]. rewrite <- Hcl in Hs', Hstate, He.
    inversion P5 as [? Q1 Q2|? ? Q1|Q1]; subst; [|lia..].
    split.
    + by rewrite S4.
    + apply He.
    + split.
      * done.
      * rewrite Hqu. by apply Forall_app.
      * rewrite S3, S4, S5, S6, app_nil_r. exists i0. split; [done|]. unfold overwritten. lia.
      * done.
      * rewrite S1, S2. intros j [= <-]. lia.
      * rewrite S2, (ef_next _ _ _ _ He). lia.
    + right. exists id, h. destruct (ending_effect n n' id l d He) as [d' Hd].
      split; [by rewrite (ef_next _ _ _ _ He)| | |by rewrite (ef_pconn _ _ _ _ He)|].
      * pose proof (ef_timer _ _ _ _ He) as Ht. destruct (m_reconnectTimer (n_client n')); [|done].
        by specialize (Ht eq_refl); congruence.
      * intros j Hj. rewrite (ef_others _ _ _ _ He) by done. by apply P3.
      * exists [CallConnected id p], d'. split.
        -- destruct Hs' as [[_ _ (x & _ & Hc1 & _)] _ _ _], Hs as [[_ _ (x' & _ & Hc2 & _)] _ _ _].
           apply st_answered; unfold overwritten, missing in *; rewrite ?S2, ?S3, ?S4, ?S6, ?Hstate; try done.
           rewrite (proj1 (picked_position _ _ _ Hrx)).
           change (getCacheSize (m_cache (n_client n'))) with (capacity (m_cache (n_client n'))).
           change (getCacheSize (m_cache (n_client n))) with (capacity (m_cache (n_client n))). rewrite Hc1, Hc2. lia.
        -- rewrite Hqu, control_app, Hl, P6, <- Hd. unfold ending. rewrite Hw. cbn [map app].
           by rewrite app_nil_r, <- ?app_assoc.
Qed.

(** *** Sending *)
Lemma exec_packet env op ty p :
  packet_of op = Some (ty, p) ->
  exec env op = (_ ← sendData_p env ty p; mret tt) /\ Z.of_nat (length p) < 65536 /\ in_session op = true /\ op_ok op.
Proof.
  destruct op; try discriminate; cbn [packet_of]; intros [= <- <-]; (split; [reflexivity|]);
    (split; [|done]); rewrite ?length_app, ?length_le_bytes; try (cbn; lia).
  rewrite length_take. pose proof (u16_range (Z.of_nat (length payload))). lia.
Qed.

(** Without a connection, or while it is not accepted, nothing happens. *)
Lemma send_refused env ty p c :
  m_state c <> APCCLIENT_STATE_ONLINE -> st_of (_ ← sendData_p env ty p; mret tt) c = c /\
  out_of (_ ← sendData_p env ty p; mret tt) c = [].
Proof. intros Hs. unfold st_of, out_of. rewrite run_bind. unfold st_of, out_of, res_of. by rewrite sendData_p_offline by by left. Qed.

Lemma not_accepted op c : m_state c <> APCCLIENT_STATE_ONLINE -> accepted_packets op c = [].
Proof.
  intros Hs. unfold accepted_packets, accepts. destruct (packet_of op) as [[t p]|]; [|done].
  by rewrite bool_decide_false.
Qed.

Lemma absorb_nothing n : absorb [] n = n.
Proof. unfold absorb. cbn. rewrite app_nil_r. by destruct n. Qed.

Lemma net_inv_mono cap k k' n : k <= k' -> net_inv cap k n -> net_inv cap k' n.
Proof.
  intros Hk [[H1 H2 H3 H4] H5 H6 H7]. split; [split|..]; try done; [by apply (client_ok_mono cap k)|lia].
Qed.

(** The phase of a client that is online. *)
Lemma online_connection n :
  idle n \/ (exists id h, connection n id h) -> m_state (n_client n) = APCCLIENT_STATE_ONLINE ->
  exists id d, connection n id true /\ m_pConnector (n_client n) = Some id /\ n_answered n = id + 1 /\
    control (pending_calls n) = ending n id d /\
    (isWorkingConn (n_client n) id = true -> n_live n = Some id -> caught_up n).
Proof.
  intros [[_ _ _ H]|(id & h & Hc)] Hs; [done|]. pose proof Hc as [H1 H2 H3 H4 (a & d & H5 & H6)].
  inversion H5; subst; try done. exists id, d. split_and!; auto.
Qed.

Lemma send_step cap k n env op :
  net_inv cap k n -> env_quiet env -> is_Some (packet_of op) -> k + 1 < 2 ^ 64 - 1 ->
  net_inv cap (k + 1) (clientRun (exec env op) n <| n_log := n_log n ++ accepted_packets op (n_client n) |>).
Proof.
  intros Hn Henv [[ty p] Hop] Hk. destruct (exec_packet env op ty p Hop) as (Hrun & Hp & Hin & Hok).
  destruct (decide (m_state (n_client n) = APCCLIENT_STATE_ONLINE)) as [Hs|Hs].
  2: { rewrite not_accepted, app_nil_r by done. destruct (send_refused env ty p (n_client n) Hs) as [E1 E2].
       unfold clientRun. rewrite Hrun, E1, E2, absorb_nothing. apply (net_inv_mono cap k); [lia|]. by destruct n. }
  pose proof Hn as [Hse Hst Htr Hph].
  destruct (online_connection n Hph Hs) as (id & d & Hc & Hid & Hans & Hq & Hup).
  pose proof (session_exec cap k env op _ _ Hse Henv Hok Hin Hk) as Hse'.
  pose proof (ci_last _ _ (so_cache _ _ _ _ Hse)) as Hl. pose proof (so_len _ _ _ _ Hse) as Hlen.
  destruct (sendData_p_sends env (proj1 Henv) (n_client n) ty p id (n_log n)) as (Hs' & ok & Hw & Hwork & Hfit);
    [done..|apply Hse|lia|done|].
  pose proof (sendData_p_effects env (proj1 Henv) id ty p (n_client n) Hst Hid) as He.
  assert (E : st_of (exec env op) (n_client n) = st_of (sendData_p env ty p) (n_client n) /\
              out_of (exec env op) (n_client n) = out_of (sendData_p env ty p) (n_client n)).
  { rewrite Hrun, st_bind, out_bind. change (out_of (mret tt) ?s) with (@nil client_event). by rewrite app_nil_r. }
  destruct E as [E1 E2]. rewrite E1 in Hse'.
  set (acc := accepted_packets op (n_client n)) in *.
  assert (Hacc : ok = true -> acc = [(ty, p)]).
  { intros Ho. unfold acc, accepted_packets, accepts. rewrite Hop, Hs, Hid, !bool_decide_true by eauto.
    cbn [andb]. destruct (Nat.leb_spec (length p) APC_MAX_MSG_SIZE); [done|]. specialize (Hfit Ho). lia. }
  destruct (clientRun_queue (exec env op) n (tr_thread _ Htr)) as [Hli Hqu].
  destruct (clientRun_fields (exec env op) n) as (F1 & F2 & F3 & F4 & F5 & F6 & F7).
  rewrite E1 in F1. rewrite E2 in F6, Hqu. rewrite Hw in F6.
  set (n' := clientRun (exec env op) n <| n_log := n_log n ++ acc |>).
  set (n0 := clientRun (exec env op) n) in *.
  assert (Hmsg : exists i, picked (messages (n_log n ++ acc)) (n_rx n ++ n_wire n0) i /\
    i - Z.of_nat (length (n_rx n ++ n_wire n0)) <= n_skipped n /\
    (ok = true -> n_live n = Some id -> i = Z.of_nat (length (n_log n ++ acc)))).
  { rewrite F6. destruct (tr_picked _ Htr) as (i & Hi1 & Hi2).
    destruct (bool_decide (n_live n = Some id) && ok) eqn:Hb.
    - apply andb_true_iff in Hb as [Hlive%bool_decide_eq_true Ho]. rewrite (Hacc Ho), messages_snoc. cbn [fst snd].
      assert (i = Z.of_nat (length (n_log n))) as ->.
      { rewrite <- (proj1 (picked_position _ _ _ Hi1)). apply Hup; [|done]. apply (ef_works _ _ _ _ He). by rewrite Hwork. }
      exists (Z.of_nat (length (n_log n)) + 1). rewrite app_assoc. split_and!.
      + econstructor; [by apply picked_more|lia|]. rewrite Nat2Z.id, <- (length_messages (n_log n)). apply list_lookup_middle. done.
      + rewrite (length_app (_ ++ _)). cbn [length]. lia.
      + intros _ _. rewrite length_app. cbn [length]. lia.
    - exists i. unfold messages. rewrite numbered_app, app_nil_r. split_and!; [by apply picked_more|done|].
      intros Ho Hlive. by rewrite (bool_decide_true _ Hlive), Ho in Hb. }
  destruct Hmsg as (i & Hm1 & Hm2 & Hm3).
  destruct (effect_calls _ _ _ _ He) as [Hc1 Hc2].
  split.
  - cbn [n' n_client n_log upd]. by rewrite F1.
  - cbn [n' n_client upd]. rewrite F1. apply He.
  - destruct Htr as [T1 T2 T3 T4 T5 T6]. split; cbn [n' n_client n_thread n_live n_answered n_rx n_log n_wire n_skipped upd].
    + done.
    + rewrite Hqu. by apply Forall_app.
    + exists i. by rewrite F4, F7.
    + rewrite F2, F6. intros Hd. rewrite (T4 Hd), Hd, bool_decide_false by done. done.
    + rewrite F2, F3. done.
    + rewrite F1, F3, (ef_next _ _ _ _ He). done.
  - right. exists id, true. destruct Hc as [P1 P2 P3 P4 _].
    assert (He' : effect id (n_client n) (n_client n') (calls_of (out_of (sendData_p env ty p) (n_client n))))
      by (cbn [n' n_client upd]; by rewrite F1).
    destruct (ending_effect n n' id _ d He') as [d' Hd]. destruct He' as [E3 E4 E5 _ E6 E7 E8].
    split; [congruence| | |congruence|].
    + destruct (m_reconnectTimer (n_client n')); [by specialize (E5 eq_refl); congruence|done].
    + intros j Hj. by rewrite E6, P3.
    + exists [], d'. split.
      * apply st_resumed; [by cbn [n' n_answered upd]; rewrite F3| |].
        -- intros _ Hwk Hlive. unfold caught_up. cbn [n' n_client n_live n_rx n_log n_wire upd] in *.
           rewrite F1, Hwork in Hwk. rewrite F2 in Hlive. rewrite F4, (proj1 (picked_position _ _ _ Hm1)). by apply Hm3.
        -- cbn [n' n_client upd]. rewrite F1, Hs'. done.
      * change (pending_calls n') with (pending_calls n0). rewrite Hqu, control_app, Hc1, Hq. cbn [app]. exact Hd.
Qed.

Lemma upper_step cap k n env op :
  net_inv cap k n -> env_quiet env -> is_upper op = true -> k + 1 < 2 ^ 64 - 1 ->
  net_inv cap (k + 1) (clientRun (exec env op) n <| n_log := n_log n ++ accepted_packets op (n_client n) |>).
Proof.
  intros Hn Henv Hop Hk. destruct (packet_of op) as [x|] eqn:Hp; [apply send_step; by eauto|].
  destruct op; try (unfold is_upper in Hop; rewrite Hp, bool_decide_false in Hop by (by intros []); discriminate Hop).
  pose proof Hn as [Hs Hst Htr Hph].
  assert (Hq : net_inv cap (k + 1) (clientRun (exec env (CGpsLock g)) n)).
  { eapply (quiet_step _ k _ _ _ 0 []); [done| |done| |done|by constructor|done].
    - pose proof (session_exec cap k env (CGpsLock g) _ _ Hs Henv I eq_refl Hk) as Hx. by rewrite app_nil_r in Hx.
    - split; try done. by rewrite andb_negb_r. }
  change (accepted_packets (CGpsLock g) (n_client n)) with (@nil (Z * list Z)). rewrite app_nil_r.
  exact Hq.
Qed.

(** *** The timer *)

(** After an attempt to connect from an idle state. *)
Lemma attempt_step cap k k' n m :
  transit_ok n -> idle n -> (forall live, on_wire live (out_of m (n_client n)) = []) ->
  session_ok cap k' (st_of m (n_client n)) (n_log n) -> k <= k' ->
  attempt (n_client n) (st_of m (n_client n)) (out_of m (n_client n)) ->
  m_state (st_of m (n_client n)) <> APCCLIENT_STATE_ONLINE -> net_inv cap k' (clientRun m n).
Proof.
  intros Htr [I1 I2 I3 I4] Hw Hs Hk [A1 A2 A3] Hst.
  destruct (clientRun_queue m n (tr_thread _ Htr)) as [Hli Hqu].
  assert (Hsame : same_packets n (clientRun m n)).
  { unfold same_packets. destruct (clientRun_fields m n) as (_ & -> & -> & -> & -> & -> & ->). by rewrite Hw, app_nil_r. }
  assert (Hcl : n_client (clientRun m n) = st_of m (n_client n)) by done.
  pose proof Hsame as (S1 & S2 & S3 & S4 & S5 & S6).
  set (n' := clientRun m n) in *. clearbody n'. rewrite <- Hcl in *.
  assert (Hcalls : Forall call_ok (calls_of (out_of m (n_client n))) /\ nextConn (n_client n) <= nextConn (n_client n')).
  { destruct A3 as [(B1 & B2 & B3)|(B1 & B2 & B3 & d & B4)]; [rewrite B2; split; [by constructor|lia]|].
    rewrite B4. split; [|lia]. constructor; [done|]. destruct (isWorkingConn _ _); by repeat constructor. }
  destruct Hcalls as [Hc1 Hc2]. split.
  - by rewrite S4.
  - done.
  - apply (transit_same n); [done..| |done]. rewrite Hqu. apply Forall_app. split; [apply Htr|done].
  - destruct A3 as [(B1 & B2 & B3)|(B1 & B2 & B3 & d & B4)]; [left|right; exists (nextConn (n_client n)), false].
    + split; [congruence|by rewrite Hqu, control_app, I2, B2| |done]. intros j. by rewrite B3.
    + split; [done|done| |congruence|].
      * intros j Hj. by rewrite B3.
      * exists [], d. split; [apply st_asked; [rewrite S2; apply Htr|done]|].
        rewrite Hqu, control_app, I2, B4. unfold ending. by destruct (isWorkingConn _ _).
Qed.

Lemma timer_step cap k n env :
  net_inv cap k n -> env_quiet env -> k + 1 < 2 ^ 64 - 1 -> m_reconnectTimer (n_client n) = true ->
  net_inv cap (k + 1) (clientRun (exec env (CTimer false)) n).
Proof.
  intros [Hs Hst Htr Hph] Henv Hk Ht.
  destruct Hph as [Hi|(id & h & [_ P2 _ _ _])]; [|congruence].
  destruct (timer_attempt env (proj1 Henv) (n_client n) Hst) as (H1 & H2 & H3); [apply Hi..|].
  pose proof (session_exec cap k env (CTimer false) _ _ Hs Henv I eq_refl Hk) as Hs'.
  change (accepted_packets (CTimer false) (n_client n)) with (@nil (Z * list Z)) in Hs'. rewrite app_nil_r in Hs'.
  apply (attempt_step cap k); [done..|lia|done|done].
Qed.

(** *** The notification thread *)
Lemma take_step cap k n n' :
  net_inv cap k n -> net_exec NTake n = Some n' -> net_inv cap k n'.
Proof.
  intros [Hs Hst [T1 T2 T3 T4 T5 T6] Hph] Hx. apply bind_Some in Hx as ([th c] & He & Hx). injection Hx as <-.
  destruct (step_fifo ATake _ _ _ I T1 He) as [Hl Hw]. cbn [asks option_list] in Hw. rewrite app_nil_r in Hw.
  assert (c = []) as ->.
  { cbn [NotifThread.exec] in He. destruct (m_thread (n_thread n) && _ && _); [|done].
    destruct (takeNotif (n_thread n)); [|done]. by injection He as _ <-. }
  cbn [app] in Hw. split; [done|done|split; cbn [n_thread upd]; rewrite ?Hw; done|].
  destruct Hph as [[I1 I2 I3 I4]|(id & h & [P1 P2 P3 P4 (a & d & P5 & P6)])]; [left|right; exists id, h].
  - split; try done. cbn [n_thread upd]. by rewrite Hw.
  - split; try done. exists a, d. cbn [n_thread upd]. rewrite Hw. split; [|done].
    by eapply stage_same.
Qed.

(** The state before the client is called: the call is not in the queue any more. *)
Lemma process_split n th calls :
  is_live (n_thread n) -> NotifThread.exec AProcess (n_thread n) = Some (th, calls) ->
  is_live th /\ calls ++ NotifThread.waiting th = pending_calls n /\ (length calls <= 1)%nat.
Proof.
  intros Hl He. destruct (step_fifo AProcess _ _ _ I Hl He) as [H1 H2]. cbn [asks option_list] in H2.
  rewrite app_nil_r in H2. split; [done|]. split; [done|].
  cbn [NotifThread.exec] in He. unfold processNotif in He. destruct (m_current (n_thread n)); [|done].
  injection He as _ <-. destruct (callOf _); cbn; lia.
Qed.

(** A call about the connection: what the invariant says when it is taken from the queue. *)
Record called (n : Net) (c : client_call) (n1 : Net) : Prop := {
  ca_client : n_client n1 = n_client n;
  ca_same : same_packets n n1;
  ca_live : is_live (n_thread n1);
  ca_queue : pending_calls n = c :: pending_calls n1
}.

Lemma same_packets_trans n1 n2 n3 : same_packets n1 n2 -> same_packets n2 n3 -> same_packets n1 n3.
Proof.
  intros (A1 & A2 & A3 & A4 & A5 & A6) (B1 & B2 & B3 & B4 & B5 & B6). unfold same_packets.
  by rewrite B1, B2, B3, B4, B5, B6.
Qed.

(** What holds after the call for [c], whatever it does to the connections. *)
Lemma called_run cap k n c n1 env :
  net_inv cap k n -> called n c n1 -> env_quiet env -> k + 1 < 2 ^ 64 - 1 ->
  let m := exec env (opOf c) in let n' := clientRun m n1 in
  session_ok cap (k + 1) (n_client n') (n_log n') /\ is_live (n_thread n') /\
  pending_calls n' = pending_calls n1 ++ calls_of (out_of m (n_client n)) /\
  (Forall call_ok (calls_of (out_of m (n_client n))) -> Forall call_ok (pending_calls n')) /\ call_ok c /\
  n_client n' = st_of m (n_client n) /\ control (pending_calls n) = control [c] ++ control (pending_calls n1).
Proof.
  intros Hn [C1 C2 C3 C4] Henv Hk m n'. unfold n'. pose proof (tr_calls _ (ni_transit _ _ _ Hn)) as Hc.
  rewrite C4 in Hc. apply Forall_cons in Hc as [Hc1 Hc2].
  destruct (clientRun_queue m n1 C3) as [H1 H2]. destruct (clientRun_fields m n1) as (-> & _ & _ & _ & -> & _).
  destruct C2 as (_ & _ & _ & -> & _). rewrite C1 in *.
  assert (Hs : session_ok cap (k + 1) (st_of m (n_client n)) (n_log n)).
  { assert (Hacc : accepted_packets (opOf c) (n_client n) = [] /\ in_session (opOf c) = true /\ op_ok (opOf c))
      by (by destruct c). destruct Hacc as (Ha & Hi & Ho).
    pose proof (session_exec cap k env (opOf c) _ _ (ni_session _ _ _ Hn) Henv Ho Hi Hk) as Hs.
    by rewrite Ha, app_nil_r in Hs. }
  split_and!; try done.
  - intros Hl. rewrite H2. by apply Forall_app.
  - rewrite C4. apply (control_app [c]).
Qed.

Lemma message_step cap k n n1 env p payload :
  net_inv cap k n -> called n (CallMessage p payload) n1 -> env_quiet env -> k + 1 < 2 ^ 64 - 1 ->
  net_inv cap (k + 1) (clientRun (exec env (CReceived p payload)) n1).
Proof.
  intros Hn Hcalled Henv Hk.
  destruct (called_run cap k n _ n1 env Hn Hcalled Henv Hk) as (Hs & _ & _ & _ & _ & _ & Hctl).
  destruct Hcalled as [C1 C2 C3 C4].
  assert (Hn1 : net_inv cap k n1).
  { destruct Hn as [Hse Hst Htr Hph]. pose proof C2 as (S1 & S2 & S3 & S4 & S5 & S6). split; rewrite ?C1, ?S4; try done.
    - destruct Htr as [T1 T2 T3 T4 T5 T6]. split; rewrite ?S1, ?S2, ?S3, ?S4, ?S5, ?S6, ?C1; try done.
      rewrite C4 in T2. by apply Forall_cons in T2 as [_ T2].
    - change (control [CallMessage p payload]) with (@nil client_call) in Hctl. cbn [app] in Hctl.
      destruct Hph as [[I1 I2 I3 I4]|(id & h & [P1 P2 P3 P4 (a & d & P5 & P6)])]; [left|right; exists id, h].
      + split; rewrite ?C1, <- ?Hctl; done.
      + split; rewrite ?C1, <- ?Hctl; try done. exists a, d. unfold ending in *. rewrite C1. split; [|done].
        apply (stage_same n); rewrite ?C1; done. }
  assert (He : effects (m_pConnector (n_client n1)) 0 (messageReceived p payload))
    by (unfold messageReceived, input; effects_auto).
  specialize (He (n_client n1) (ni_store _ _ _ Hn1) eq_refl). destruct (effect_calls _ _ _ _ He) as [H1 H2].
  eapply (quiet_step cap k); [done| | |exact He|done|done|].
  - exact Hs.
  - cbn [exec]. unfold messageReceived, input. unsent_auto.
  - apply (keeps_st (fun c => m_state c = m_state (n_client n1)) any_client_event); [|done].
    cbn [exec]. unfold messageReceived, input. keeps_auto; done.
Qed.

(** The rest of the queue of a connection. *)
Lemma called_phase n c rest :
  idle n \/ (exists id h, connection n id h) -> control (pending_calls n) = c :: rest ->
  exists id h, connection n id h.
Proof. intros [[_ H _ _]|H] Hc; [by rewrite H in Hc|done]. Qed.

Lemma transit_called n c n1 m :
  transit_ok n -> called n c n1 -> unsent m -> is_live (n_thread (clientRun m n1)) ->
  Forall call_ok (pending_calls (clientRun m n1)) -> nextConn (n_client n) <= nextConn (st_of m (n_client n)) ->
  transit_ok (clientRun m n1) /\ same_packets n (clientRun m n1).
Proof.
  intros Htr [C1 C2 C3 C4] Hu Hl Hc Hn.
  assert (Hsame : same_packets n (clientRun m n1)) by (eapply same_packets_trans; [done|by apply same_packets_run]).
  split; [|done]. apply (transit_same n); try done.
  destruct (clientRun_fields m n1) as (-> & _). by rewrite C1.
Qed.

Lemma started_step cap k n n1 env j :
  net_inv cap k n -> called n (CallStarted j) n1 -> env_quiet env -> k + 1 < 2 ^ 64 - 1 ->
  net_inv cap (k + 1) (clientRun (exec env (CStarted j)) n1).
Proof.
  intros Hn Hcalled Henv Hk.
  destruct (called_run cap k n _ n1 env Hn Hcalled Henv Hk) as (Hs & Hl & Hq & Hc & _ & Hcl & Hctl).
  change (exec env (opOf (CallStarted j))) with (exec env (CStarted j)) in *.
  change (calls_of (out_of (exec env (CStarted j)) (n_client n))) with (@nil client_call) in *. rewrite app_nil_r in Hq.
  assert (Hcl' : st_of (exec env (CStarted j)) (n_client n) = n_client n <| m_pConnector := Some j |>) by done.
  rewrite Hcl' in Hcl. destruct Hn as [_ Hst Htr Hph].
  destruct (transit_called n _ n1 (exec env (CStarted j)) Htr Hcalled) as [Htr' Hsame];
    [done|done|by apply Hc|by rewrite Hcl'|].
  destruct (called_phase n _ _ Hph Hctl) as (id & h & [P1 P2 P3 P4 (a & d & P5 & P6)]).
  assert (Hj : h = false /\ j = id /\ control (pending_calls n1) = a ++ ending n id d).
  { rewrite P6 in Hctl. cbn [app] in Hctl. destruct h; [|by injection Hctl as <- <-].
    inversion P5; subst; cbn [app] in Hctl; try discriminate Hctl; unfold ending in Hctl; by destruct (isWorkingConn _ _). }
  destruct Hj as (-> & -> & Hrest).
  set (n' := clientRun _ n1) in *. clearbody n'.
  split; [done|by rewrite Hcl|done|]. right. exists id, true. split; rewrite ?Hcl; try done.
  exists a, d. unfold ending in *. rewrite Hcl. split; [|by rewrite Hq, Hrest].
  assert (Hstage : stage n id true a) by (inversion P5; subst; by constructor).
  apply (stage_same n); rewrite ?Hcl; done.
Qed.

Lemma disconnected_step cap k n n1 env j p :
  net_inv cap k n -> called n (CallDisconnected j p) n1 -> env_quiet env -> k + 1 < 2 ^ 64 - 1 ->
  net_inv cap (k + 1) (clientRun (exec env (CDisconnected p)) n1).
Proof.
  intros Hn Hcalled Henv Hk.
  destruct (called_run cap k n _ n1 env Hn Hcalled Henv Hk) as (Hs & Hl & Hq & Hc & _ & Hcl & Hctl).
  change (exec env (opOf (CallDisconnected j p))) with (exec env (CDisconnected p)) in *.
  set (m := exec env (CDisconnected p)) in *.
  assert (Hrun : m_pConnector (st_of m (n_client n)) = None /\ m_state (st_of m (n_client n)) <> APCCLIENT_STATE_ONLINE /\
    conns (st_of m (n_client n)) = conns (n_client n) /\ nextConn (st_of m (n_client n)) = nextConn (n_client n) /\
    calls_of (out_of m (n_client n)) = []).
  { unfold m, st_of, out_of. cbn [exec]. rewrite apcDisconnected_run. destruct (immediately (n_client n) p); cbn [fst snd].
    - by destruct (m_pInput (n_client n)).
    - by destruct (_ && _). }
  destruct Hrun as (R1 & R2 & R3 & R4 & R5). rewrite R5, ?app_nil_r in *.
  assert (Hu : unsent m) by (unfold m; cbn [exec]; unfold apcDisconnected, stopTimer_p, startTimer_p, input; unsent_auto).
  destruct Hn as [_ Hst Htr Hph].
  destruct (transit_called n _ n1 m Htr Hcalled) as [Htr' Hsame]; [done|done|by apply Hc|by rewrite R4|].
  destruct (called_phase n _ _ Hph Hctl) as (id & h & [P1 P2 P3 P4 (a & d & P5 & P6)]).
  assert (Hj : isWorkingConn (n_client n) id = false /\ control (pending_calls n1) = []).
  { rewrite P6 in Hctl. cbn [app] in Hctl. destruct h; [|by inversion Hctl].
    inversion P5; subst; cbn [app] in Hctl; try discriminate Hctl;
      unfold ending in Hctl; destruct (isWorkingConn _ _); try discriminate Hctl; by injection Hctl as _ <-. }
  destruct Hj as [Hw Hrest]. rewrite <- Hcl in *.
  set (n' := clientRun m n1) in *. clearbody n'.
  assert (Hwork : forall i, isWorkingConn (n_client n') i = isWorkingConn (n_client n) i)
    by (intros i; unfold isWorkingConn; by rewrite R3).
  split; [done|intros i x; rewrite R3, R4; apply Hst|done|]. left. split; try done; [by rewrite Hq|].
  intros i. rewrite Hwork. destruct (decide (i = id)) as [->|Hne]; [done|by apply P3].
Qed.

(** The client hears that the manager goes on with the session. *)
Lemma connected_step cap k n n1 env j p :
  net_inv cap k n -> called n (CallConnected j p) n1 -> env_quiet env -> k + 1 < 2 ^ 64 - 1 ->
  net_inv cap (k + 1) (clientRun (exec env (CConnected j p)) n1).
Proof.
  intros Hn Hcalled Henv Hk.
  destruct (called_run cap k n _ n1 env Hn Hcalled Henv Hk) as (Hs & Hl & Hq & Hc & _ & Hcl & Hctl).
  change (exec env (opOf (CallConnected j p))) with (exec env (CConnected j p)) in *. cbn [exec] in *.
  set (m := apcConnected env j p) in *.
  destruct Hn as [Hse Hst Htr Hph].
  destruct (called_phase n _ _ Hph Hctl) as (id & h & [P1 P2 P3 P4 (a & d & P5 & P6)]).
  assert (Hj : h = true /\ j = id /\ a = [CallConnected id p] /\ control (pending_calls n1) = ending n id d).
  { rewrite P6 in Hctl. cbn [app] in Hctl. destruct h; [|by inversion Hctl].
    inversion P5; subst; cbn [app] in Hctl; [|by injection Hctl as -> <-|];
      unfold ending in Hctl; by destruct (isWorkingConn _ _). }
  destruct Hj as (-> & -> & -> & Hrest). inversion P5 as [|? ? Q1 Q2 Q3 Q4 Q5 Q6|]; subst. clear P5 P6.
  pose proof (apcConnected_effects env (proj1 Henv) id p (n_client n) Hst P4) as He. fold m in He.
  destruct (effect_calls _ _ _ _ He) as [Hc1 Hc2].
  destruct (tr_picked _ Htr) as (i & Hrx & _). rewrite Q4, app_nil_r in Hrx.
  destruct (picked_position _ _ _ Hrx) as [Hpos Hseq]. pose proof (picked_bounds _ _ _ Hrx) as Hb.
  rewrite length_messages in Hb. unfold overwritten, missing in Q5, Q6. rewrite Hpos in Q5, Q6.
  pose proof (so_cache _ _ _ _ Hse) as Hca. pose proof (ci_cap _ _ Hca) as Hcap.
  change (getCacheSize (m_cache (n_client n))) with (capacity (m_cache (n_client n))) in Q6.
  destruct (apcConnected_sends env (proj1 Henv) id p (n_client n) (n_log n) (Z.to_nat i))
    as (pre & rest & Hd & Hw & Hend); [done|done|done|apply Hse|rewrite Q3, Hseq; f_equal; lia|lia|lia|]. fold m in Hw, Hend.
  set (j := Z.max i (Z.of_nat (length (n_log n)) - capacity (m_cache (n_client n)))).
  destruct (picked_run _ _ _ j pre rest Hrx) as (i' & Hp1 & Hp2 & Hp3 & Hp4);
    [unfold j; lia|etrans; [|exact Hd]; f_equal; unfold j; lia|].
  assert (Hi' : i' - Z.of_nat (length (n_rx n ++ pre)) <= n_skipped n) by (unfold j in Hp2; lia).
  assert (Hend' : rest = [] -> i' = Z.of_nat (length (n_log n))).
  { intros ->. apply (f_equal length) in Hd. rewrite length_drop, app_nil_r, length_messages in Hd.
    destruct pre as [|x pre]; [rewrite Hp3 by done; cbn in Hd; lia|rewrite Hp4, <- Hd by done; unfold j; lia]. }
  clear Hd.
  pose proof Hcalled as [C1 (S1 & S2 & S3 & S4 & S5 & S6) C3 C4].
  destruct (clientRun_fields m n1) as (F1 & F2 & F3 & F4 & F5 & F6 & F7). rewrite C1 in *.
  rewrite Hw, S1, S5, Q4 in F6. rewrite S1 in F2. rewrite S2 in F3. rewrite S3 in F4. rewrite S4 in F5. rewrite S6 in F7. cbn [app] in F6.
  set (n' := clientRun m n1) in *. clearbody n'. rewrite <- F1 in He, Hend.
  split; [done|apply He| |].
  - destruct Htr as [_ _ _ T4 T5 T6]. split; [done|by apply Hc| | | |].
    + rewrite F4, F5, F6, F7. case_bool_decide; [by exists i'|]. exists i. rewrite app_nil_r. split; [done|]. lia.
    + rewrite F2, F6. by intros ->.
    + rewrite F2, F3. done.
    + rewrite F3, (ef_next _ _ _ _ He). done.
  - right. exists id, true. destruct (ending_effect n n' id _ d He) as [d' Hd]. destruct He as [E1 E2 E3 E4 E5 E6 E7].
    split; [congruence| | |congruence|].
    + destruct (m_reconnectTimer (n_client n')); [by specialize (E3 eq_refl); congruence|done].
    + intros i0 Hi0. by rewrite E5, P3.
    + exists [], d'. split; [|by rewrite Hq, control_app, Hc1, Hrest, Hd].
      apply st_resumed; [by rewrite F3| |].
      * intros Hon Hwk Hlive. destruct Hend as [[_ ->]|[_ Hno]]; [|congruence].
        unfold caught_up. rewrite F4, F5, F6, <- F2, Hlive, bool_decide_true, (proj1 (picked_position _ _ _ Hp1)) by done. by apply Hend'.
      * intros Hoff. by destruct Hend as [[Hon _]|[_ Hno]].
Qed.

Lemma process_step cap k n n' env :
  net_inv cap k n -> env_quiet env -> k + 1 < 2 ^ 64 - 1 -> net_exec (NProcess env) n = Some n' ->
  net_inv cap (k + 1) n'.
Proof.
  intros Hn Henv Hk Hx. apply bind_Some in Hx as ([th calls] & He & Hx). injection Hx as <-.
  destruct (process_split n th calls (tr_thread _ (ni_transit _ _ _ Hn)) He) as (Hl & Hq & Hlen).
  set (n1 := n <| n_thread := th |>).
  assert (Hc : forall c, calls = [c] -> called n c n1) by (intros c ->; by split).
  destruct calls as [|c [|c' calls]]; [| |cbn in Hlen; lia]; cbn [fold_left].
  - apply (net_inv_mono cap k); [lia|]. destruct Hn as [Hs Hst [T1 T2 T3 T4 T5 T6] Hph]. cbn [app] in Hq.
    split; [done|done|split; cbn [n1 n_thread upd]; rewrite ?Hq; done|].
    destruct Hph as [[I1 I2 I3 I4]|(id & h & [P1 P2 P3 P4 (a & d & P5 & P6)])]; [left|right; exists id, h].
    + split; try done. cbn [n1 n_thread upd]. by rewrite Hq.
    + split; try done. exists a, d. cbn [n1 n_thread upd]. rewrite Hq. split; [|done]. by eapply stage_same.
  - specialize (Hc c eq_refl). destruct c as [j|j p|j p|p payload]; cbn [opOf].
    + by eapply started_step.
    + by eapply connected_step.
    + by eapply disconnected_step.
    + by eapply message_step.
Qed.

(** *** The manager *)
Lemma deliver_step cap k n n' : net_inv cap k n -> net_exec NDeliver n = Some n' -> net_inv cap k n'.
Proof.
  intros [Hs Hst [T1 T2 T3 T4 T5 T6] Hph]. cbn [net_exec]. destruct (n_wire n) as [|x w] eqn:Hw; [done|].
  intros [= <-].
  assert (Hmove : n_rx n ++ x :: w = (n_rx n ++ [x]) ++ w) by by rewrite <- app_assoc.
  split; [done|done| |].
  - split; try done.
    + cbn [n_log n_rx n_wire n_skipped upd]. by rewrite <- Hmove.
    + intros Hd. by specialize (T4 Hd).
  - destruct Hph as [[I1 I2 I3 I4]|(id & h & [P1 P2 P3 P4 (a & d & P5 & P6)])]; [by left|right; exists id, h].
    split; try done. exists a, d. split; [|done].
    inversion P5 as [|? ? Q1 Q2 Q3 Q4 Q5|Q1 Q2 Q3]; subst; [by apply st_asked|congruence|apply st_resumed; try done].
    intros Hon Hwk Hlive. specialize (Q2 Hon Hwk Hlive). unfold caught_up in *. rewrite Hw, Hmove in Q2.
    exact Q2.
Qed.

Lemma break_step cap k n : net_inv cap k n -> net_inv cap k (n <| n_live := None |> <| n_wire := [] |>).
Proof.
  intros [Hs Hst Htr Hph]. pose proof (picked_received n Htr) as Hrx. destruct Htr as [T1 T2 T3 T4 T5 T6].
  split; [done|done| |].
  - split; try done. cbn [n_log n_rx n_wire n_skipped upd]. by rewrite app_nil_r.
  - destruct Hph as [[I1 I2 I3 I4]|(id & h & [P1 P2 P3 P4 (a & d & P5 & P6)])]; [by left|right; exists id, h].
    split; try done. exists a, d. split; [|done].
    inversion P5; subst; [by apply st_asked|by apply st_answered|by apply st_resumed].
Qed.

Lemma net_step cap k n n' o :
  net_inv cap k n -> net_op_ok o -> k + 1 < 2 ^ 64 - 1 -> net_exec o n = Some n' -> net_inv cap (k + 1) n'.
Proof.
  intros Hn Ho Hk He.
  assert (Hmono : forall n1, net_inv cap k n1 -> net_inv cap (k + 1) n1) by (intros; apply (net_inv_mono cap k); [lia|done]).
  destruct o as [env op|env| |env|env id error data|env id error|env id last|env id last| |]; cbn [net_op_ok] in Ho.
  - destruct Ho as [H1 H2]. injection He as <-. by apply upper_step.
  - cbn [net_exec] in He. destruct (m_reconnectTimer (n_client n)) eqn:Ht; [|done]. injection He as <-. by apply timer_step.
  - by eapply Hmono, take_step.
  - by eapply process_step.
  - by eapply read_step.
  - injection He as <-. by apply conn_step, write_lives.
  - injection He as <-. by apply conn_step, ka_rx_lives.
  - injection He as <-. by apply conn_step, ka_tx_lives.
  - by eapply Hmono, deliver_step.
  - injection He as <-. by apply Hmono, break_step.
Qed.

Lemma net0_inv cap name env p :
  0 < cap < 2 ^ 31 -> env_quiet env -> 0 <= sp_disconnectTimeoutMsec p -> net_inv cap 2 (net0 (Z.to_nat cap) name env p).
Proof.
  intros Hcap [Hq Hnow] Hp.
  destruct (start_attempt env Hq name p (Z.to_nat cap)) as (H1 & H2 & H3).
  assert (Hwait : NotifThread.waiting (mkNotifThread [] [] None true true) = []) by done.
  apply (attempt_step cap 0); [| |exact H3| |lia|exact H1|exact H2].
  - split; [split; [done|constructor]|constructor|exists 0; split; [constructor|cbn; lia]|done|done|cbn; lia].
  - by split.
  - pose proof (newCAPCClient_ok cap Hcap) as H0.
    pose proof (exec_ok cap 0 env (COpen name) _ I Hnow ltac:(lia) H0) as Hok1.
    pose proof (exec_ok cap 1 env (CStart p) _ Hp Hnow ltac:(lia) Hok1) as Hok2.
    cbn [n_client n_log]. split; [by rewrite st_bind| |cbn; lia|done].
    apply (keeps_st (fun c => cache_inv (m_cache c) []) any_client_event); [|apply newCAPCCache_inv; lia].
    assert (Hb : conn_blind (fun c => cache_inv (m_cache c) [])) by by intros c x H.
    cbn [exec]. unfold open, start, ipConnect_p. keeps_auto; auto with apb_keeps; try done.
    intros c Hc. by apply (clear_inv _ []).
Qed.

Lemma net_run_inv cap l : forall k n n',
  net_inv cap k n -> Forall net_op_ok l -> k + Z.of_nat (length l) < 2 ^ 64 - 1 ->
  net_run l n = Some n' -> net_inv cap (k + Z.of_nat (length l)) n'.
Proof.
  induction l as [|o l IH]; intros k n n' Hn Hl Hk; cbn [net_run length].
  - intros [= <-]. by rewrite Z.add_0_r.
  - inversion Hl as [|? ? Ho Hl']; subst. intros (n1 & He & Hr)%bind_Some. cbn [length] in Hk.
    replace (k + Z.of_nat (S (length l))) with (k + 1 + Z.of_nat (length l)) by lia.
    eapply IH; [|done|lia|done]. eapply net_step; try done. lia.
Qed.

(** The invariant with the number of packets as its measure. *)
Definition side_inv (cap : Z) (n : Net) : Prop := net_inv cap (Z.of_nat (length (n_log n))) n.

Lemma side_inv_of cap k n : net_inv cap k n -> side_inv cap n.
Proof.
  intros [[[H1 H2 (l & H3 & H4 & H5)] H6 H7 H8] H9 H10 H11].
  pose proof (ci_last _ _ H3) as E1. pose proof (ci_last _ _ H6) as E2.
  split; [|done..]. split; [|done..]. split; [done|done|]. exists l. split; [done|]. split; [done|]. unfold sent in *. lia.
Qed.

Lemma side_step cap n n' o :
  side_inv cap n -> net_op_ok o -> Z.of_nat (length (n_log n)) < 2 ^ 64 - 4 -> net_exec o n = Some n' -> side_inv cap n'.
Proof. intros Hn Ho Hb He. eapply side_inv_of, net_step; [exact Hn|done| |exact He]. lia. Qed.

(** Only the owner's calls give the client packets. *)
Definition is_up (o : net_op) : bool := match o with NUp _ _ => true | _ => false end.

Lemma exec_log o n n' : is_up o = false -> net_exec o n = Some n' -> n_log n' = n_log n.
Proof.
  intros Ho He. destruct o as [env op|env| |env|env id error data|env id error|env id last|env id last| |]; try done; cbn [net_exec] in He.
  - destruct (m_reconnectTimer _); [|done]. by injection He as <-.
  - apply bind_Some in He as ([th c] & _ & He). by injection He as <-.
  - apply bind_Some in He as ([th calls] & _ & He). injection He as <-.
    change (n_log n) with (n_log (n <| n_thread := th |>)). generalize (n <| n_thread := th |>).
    induction calls as [|c calls IH]; intros n1; [done|]. cbn [fold_left]. by rewrite IH.
  - destruct (_ && _); [|done]. destruct (answers _) as [|q [|q' qs]]; [|destruct (honest _ _ _)|]; try done; by injection He as <-.
  - by injection He as <-.
  - by injection He as <-.
  - by injection He as <-.
  - destruct (n_wire n); [done|]. by injection He as <-.
  - by injection He as <-.
Qed.

(** What was received and what is in flight. *)
Lemma session_split cap k n : net_inv cap k n ->
  let got := n_rx n ++ n_wire n in
  picked (messages (n_log n)) got (position got) /\
  position got - Z.of_nat (length got) <= n_skipped n /\
  (m_state (n_client n) = APCCLIENT_STATE_ONLINE -> isConnected (n_client n) = true ->
   n_live n = m_pConnector (n_client n) -> position got = Z.of_nat (length (n_log n))).
Proof.
  intros [_ _ Htr Hph] got. destruct (tr_picked _ Htr) as (i & Hpick & Hskip). fold got in Hpick, Hskip.
  rewrite (proj1 (picked_position _ _ _ Hpick)). split; [done|]. split; [done|].
  intros Hon Hcon Hlive. destruct (online_connection n Hph Hon) as (id & d & _ & Hid & _ & _ & Hup).
  unfold isConnected in Hcon. rewrite Hid in Hcon, Hlive. rewrite <- (proj1 (picked_position _ _ _ Hpick)). by apply Hup.
Qed.

(** ** Properties *)


(** A session of two connections: the first is lost after the first packet. *)
Definition answerBytes (yourSeq : Z) : list Z :=
  let '(_, n, m) := prepMsg (replicate APC_MAX_MSG_SIZE 0) APC_MAX_MSG_SIZE APC_CONNECT 0 1 yourSeq
                            (connectMsg demo 7 0 9 0) [] in take n m.

Definition session_demo : list net_op :=
  let cl := clenv0 5 true in
  [NTake; NProcess cl; NRead env0 0 false (answerBytes 0); NTake; NProcess cl; NWritten env0 0 false;
   NUp cl (CSend [1]); NUp cl (CSend [2]); NDeliver; NBreak;
   NRead env0 0 true []; NUp cl (CSend [3]); NTake; NProcess cl;
   NTimer cl; NTake; NProcess cl; NWritten env0 1 false; NRead env0 1 false (answerBytes 1); NTake; NProcess cl].

Definition session_demo0 : Net := net0 4 [65] (clenv0 1 true) (mkStartParam 1000 100 500 5000).


(** A cache of two packets, and three that the manager misses: the first of them is lost. *)
Definition overflow_demo : list net_op :=
  let cl := clenv0 5 true in
  let send p := [NUp cl (CSend p); NWritten env0 0 false] in
  [NTake; NProcess cl; NRead env0 0 false (answerBytes 0); NTake; NProcess cl; NWritten env0 0 false] ++
  send [1] ++ [NDeliver; NBreak] ++ send [2] ++ send [3] ++ send [4] ++
  [NRead env0 0 true []; NTake; NProcess cl;
   NTimer cl; NTake; NProcess cl; NWritten env0 1 false; NRead env0 1 false (answerBytes 1); NTake; NProcess cl].

Fact session_overflow :
  option_map (fun n => (n_rx n ++ n_wire n, position (n_rx n ++ n_wire n), length (n_log n), n_skipped n))
    (net_run overflow_demo (net0 2 [65] (clenv0 1 true) (mkStartParam 1000 100 500 5000)))
  = Some ([(APC_NET_RX, 1, [1]); (APC_NET_RX, 3, [3]); (APC_NET_RX, 4, [4])], 4, 4%nat, 1).
Proof. by vm_compute. Qed.

(** [net_exec] lets only working connectors read. The code does not check this: an answer that
    was read before the connector stopped and is handled after it still reaches the client. Here
    the second connection of the session times out just as the manager's answer arrives:
    the client hears of the end, arms its timer, hears of the answer, disarms the timer,
    and stays offline for ever, without a connection and without a timer. *)
Definition late_answer : option Net :=
  let cl := clenv0 5 true in
  n ← net_run (take 17 session_demo) session_demo0;
  n ← net_run [NKaRx (mkEnv 2000000 0 false false false []) 1 0] n;
  net_run [NTake; NProcess cl; NTake; NProcess cl] (clientRun (connRun 1 (handle_read_p env0 false (answerBytes 1))) n).

Fact late_answer_strands :
  option_map (fun n => (m_state (n_client n), m_pConnector (n_client n), m_reconnectTimer (n_client n),
                        isWorkingConn (n_client n) 1, control (pending_calls n))) late_answer
  = Some (APCCLIENT_STATE_OFFLINE, None, false, false, []).
Proof. by vm_compute. Qed.
