(* ===== verification/ApcResume.v ===== *)
(** A session that waits for its reconnection is resumed: from every reachable state there
    is a way on that ends with the client online and nothing missing at the manager.

    The way on is a run of the composition of ApcSession: the notification thread works off
    its queue, the timer expires, the new connection is announced, the manager answers it
    with what it has received, the client sends the rest again, the manager reads it. *)
From stdpp Require Import base numbers list option strings gmap.
From Stdlib Require Import ZArith Lia.
From S2P Require Import Prelude Common ApcProto ApcSerializer ApcCache ApcConnector NotifThread ApcClient ApcHistory ApcOrder ApcSession.

Local Open Scope Z_scope.

(** ** The environment of the run *)

(** While a call waits for a buffer, a write completes. *)
Definition completed (k : CAPCConnector) : CAPCConnector := st_of (handle_write_p env0 false) k.
Definition helping : Env := mkEnv 0 0 false false false [(completed, 0)].
(** Nothing fails; the time is [now]. *)
Definition helpingAt (now : Z) : ClEnv := mkClEnv now helping true true [] 0.

Lemma completed_fields k :
  m_isWorking (completed k) = m_isWorking k /\ m_pApcNotif (completed k) = m_pApcNotif k /\
  m_isConnected (completed k) = m_isConnected k /\ m_pSerializer (completed k) = m_pSerializer k /\
  (m_numFreeOutBuf k = 0 -> m_numFreeOutBuf (completed k) <> 0).
Proof.
  unfold completed, handle_write_p, freeBuf_p, incrNumFreeBuf_p, st_of. runM. cbn [fst snd m_numFreeOutBuf upd].
  split_and!; [by case_match..|]. intros ->. by vm_compute.
Qed.

Lemma completed_ok k : bufs_ok k -> bufs_ok (completed k).
Proof. apply (keeps_st bufs_ok any_event), handle_write_keeps. Qed.

Lemma helping_quiet : quiet_waits helping.
Proof. constructor; [|constructor]. intros k. cbn [fst]. by destruct (completed_fields k) as (? & ? & _). Qed.

Lemma helping_ok : env_ok helping.
Proof. constructor; [|constructor]. exact completed_ok. Qed.

(** ** Sending on a connection that is open *)

(** The packet can be serialized. *)
Definition sendable (x : sent) : Prop :=
  (length (snd x) + 16 <= APC_MAX_MSG_SIZE)%nat /\ fst (convert HOST_TO_NET (fst x) (snd x)) = APC_OK.

Definition usable (k : CAPCConnector) : Prop := m_isWorking k = true /\ bufs_ok k.

Lemma prepMsg_sendable msg ty fl ms ys p : length msg = APC_MAX_MSG_SIZE -> sendable (ty, p) ->
  fst (fst (prepMsg msg APC_MAX_MSG_SIZE ty fl ms ys p [])) = APC_OK.
Proof.
  intros Hm [H1 H2]. cbn [fst snd] in *. destruct (convert HOST_TO_NET ty p) as [e p'] eqn:Hc. cbn [fst] in H2. subst e.
  destruct (prepMsg_shape msg APC_MAX_MSG_SIZE ty fl ms ys p [] p') as (hdr & rest & _ & -> & _); rewrite ?app_nil_r; cbn [length]; done || lia.
Qed.

Lemma wait_helping k : usable k ->
  let k' := waitFree (e_waits helping) false k in
  usable k' /\ m_numFreeOutBuf k' <> 0 /\ m_isConnected k' = m_isConnected k /\ m_pApcNotif k' = m_pApcNotif k /\
  m_pSerializer k' = m_pSerializer k.
Proof.
  intros [Hw Hb] k'. unfold k'. cbn [e_waits helping waitFree]. rewrite Hw. cbn [orb]. rewrite andb_true_r.
  destruct (Z.eqb_spec (m_numFreeOutBuf k) 0) as [H0|H0]; [|by split].
  destruct (completed_fields k) as (C1 & C2 & C3 & C5 & C4). specialize (C4 H0). pose proof (completed_ok k Hb) as Hb'.
  assert (usable (completed k)) by (split; [congruence|done]).
  cbv zeta. destruct (_ <? _); [done|]. apply Z.eqb_neq in C4 as C4'. by rewrite C4'.
Qed.

(** A packet that can be serialized is sent. *)
Lemma send_helping k ty fl ms p :
  usable k -> send_open k ty = true -> sendable (ty, p) ->
  exists k' t, ApcConnector.sendData helping ty fl ms p [] k = (k', t, APC_OK) /\ usable k' /\
    m_isConnected k' = m_isConnected k /\ m_pApcNotif k' = m_pApcNotif k /\ m_pSerializer k' = m_pSerializer k /\ notices t = [].
Proof.
  intros Hk Ho Hp. destruct (wait_helping k Hk) as (H1 & H2 & H3 & H4 & H5).
  set (k1 := waitFree (e_waits helping) false k) in *.
  assert (Ho1 : send_open k1 ty = true) by (unfold send_open in *; destruct Hk as [Hw _], H1 as [Hw1 _]; rewrite Hw in Ho; by rewrite Hw1, H3).
  assert (Hrun : ApcConnector.sendData helping ty fl ms p [] k = ApcConnector.sendData helping ty fl ms p [] k1).
  { assert (Hopen : forall q, send_open q ty = true ->
      negb (m_isWorking q) || negb (m_isConnected q) && (negb (ty =? APC_CONNECT) && negb (ty =? APC_KA)) = false)
      by (intros q; unfold send_open; by destruct (m_isWorking q), (m_isConnected q), (ty =? APC_CONNECT), (ty =? APC_KA)).
    unfold ApcConnector.sendData, getFreeBuf_p. runM. rewrite (Hopen k Ho), (Hopen k1 Ho1). cbv beta iota. fold k1.
    by rewrite (waitFree_now (e_waits helping) false k1). }
  pose proof (sendData_open helping k1 ty fl ms p [] Ho1 H2) as Hs. cbv zeta in Hs.
  pose proof (sendData_keeps helping ty fl ms p [] helping_ok k1 (proj2 H1)) as [Hb _].
  rewrite <- Hrun in Hs. unfold st_of in Hb. rewrite <- Hrun in Hb.
  assert (Hbuf : length (m_outbufs k1 !!! Z.to_nat (m_curFreeBufIdx k1)) = APC_MAX_MSG_SIZE).
  { destruct H1 as [_ [_ _ Hi Hn Hl]]. rewrite Forall_forall in Hl. apply Hl, list_elem_of_lookup_total_2. unfold APC_NUM_OUT_BUFS in *. lia. }
  pose proof (prepMsg_sendable _ ty fl ms (m_lastReceivedSeqNum k1) p Hbuf Hp) as Hprep.
  destruct (prepMsg _ _ _ _ _ _ _ _) as [[e n] m]. cbn [fst] in Hprep. subst e. cbn [negb bool_decide decide] in Hs.
  rewrite bool_decide_true in Hs by done. cbn [negb e_writeThrows helping] in Hs. rewrite Hs in Hb.
  do 2 eexists. split; [exact Hs|]. cbn [fst] in Hb. rewrite <- H3, <- H4, <- H5. destruct H1 as [H1 _].
  unfold usable. unfold takeBuf in *. cbv zeta in *. destruct (_ <? _); by split_and!.
Qed.

(** ** A connection is opened *)
Lemma start_helping k : m_pApcNotif k = true -> bufs_ok k ->
  exists k' t, ApcConnector.start helping k = (k', t, APC_OK) /\ usable k' /\
    m_pApcNotif k' = true /\ m_pSerializer k' = m_pSerializer k /\ notices t = [EvStarted].
Proof.
  intros Hn [B1 B2 B3 B4 B5]. unfold ApcConnector.start, async_read_p. runM. rewrite Hn. cbv beta iota. cbn [m_kaRxTimer upd].
  destruct (m_kaRxTimer k) as [t|]; do 2 eexists; (split; [reflexivity|]); by split_and!.
Qed.

Lemma length_strncpy0 n src : length (strncpy0 n src) = n.
Proof. unfold strncpy0. rewrite length_insert, length_take, length_app, length_replicate. lia. Qed.

Lemma connect_sendable p : length p = sizeof apc_msg_connect_s -> sendable (APC_CONNECT, p).
Proof.
  intros Hl. split; cbn [fst snd]; rewrite ?Hl; [by apply Nat.leb_le; vm_compute|].
  unfold convert. by rewrite Hl.
Qed.

Lemma connect_helping k i ms ys g ni fl : usable k ->
  exists k' t, connect helping i ms ys g ni fl k = (k', t, APC_OK) /\ usable k' /\
    m_pApcNotif k' = m_pApcNotif k /\ m_pSerializer k' = m_pSerializer k /\ notices t = [].
Proof.
  intros [Hw Hb]. unfold connect. runM. set (k1 := k <| ApcConnector.m_intfId := i |> <| m_lastReportedSeqNum := ys |> <| m_lastReceivedSeqNum := ys |>).
  assert (Hk1 : usable k1) by (split; [done|by destruct Hb]).
  destruct (send_helping k1 APC_CONNECT 0 ms (connectMsg k1 i g ni fl) Hk1) as (k' & t & -> & H1 & H2 & H3 & H4 & H5).
  - unfold send_open. destruct Hk1 as [-> _]. by rewrite orb_true_r.
  - apply connect_sendable. unfold connectMsg. by rewrite !length_app, !length_strncpy0, !length_le_bytes.
  - do 2 eexists. split; [reflexivity|]. by split_and!.
Qed.

(** ** The manager's answer *)
Definition answerMsg (sesId : Z) : list Z :=
  le_bytes 1 APC_PROTO_VER ++ le_bytes 4 0 ++ replicate 32 0 ++ le_bytes 4 sesId ++ le_bytes 1 0 ++ le_bytes 4 0 ++
  replicate SIZE_STR_VER 0.
Definition answerOn (sesId yourSeq : Z) : list Z :=
  let '(_, n, m) := prepMsg (replicate APC_MAX_MSG_SIZE 0) APC_MAX_MSG_SIZE APC_CONNECT 0 0 yourSeq (answerMsg sesId) [] in
  take n m.

Lemma answerMsg_bytes sesId : Forall is_byte (answerMsg sesId).
Proof.
  unfold answerMsg. rewrite !Forall_app. split_and!; try apply le_bytes_byte; apply Forall_replicate; unfold is_byte; lia.
Qed.

Lemma answer_fields sesId ys : 0 <= sesId < 2 ^ 32 ->
  let p := connectedParam (mkRxMsg APC_CONNECT 0 0 ys (answerMsg sesId)) in
  pc_ver p = APC_PROTO_VER /\ pc_apcId p = sesId /\ pc_yourSeq p = ys.
Proof.
  intros Hs p. split; [by vm_compute|]. split; [|done].
  change (pc_apcId p) with (le_val (le_bytes 4 sesId)). rewrite le_val_le_bytes. by apply Z.mod_small.
Qed.

Lemma answer_prepared sesId ys :
  exists n m, prepMsg (replicate APC_MAX_MSG_SIZE 0) APC_MAX_MSG_SIZE APC_CONNECT 0 0 ys (answerMsg sesId) [] = (APC_OK, n, m) /\
    answerOn sesId ys = take n m /\ (0 < length (take n m))%nat.
Proof.
  assert (Hs : sendable (APC_CONNECT, answerMsg sesId))
    by (apply connect_sendable; unfold answerMsg; by rewrite !length_app, !length_le_bytes, !length_replicate).
  pose proof (prepMsg_sendable (replicate APC_MAX_MSG_SIZE 0) APC_CONNECT 0 0 ys _ (length_replicate _ _) Hs) as He.
  unfold answerOn. destruct (convert HOST_TO_NET APC_CONNECT (answerMsg sesId)) as [e p'] eqn:Hc.
  destruct Hs as [Hl Hs]. cbn [fst snd] in *. rewrite Hc in Hs. cbn [fst] in Hs. subst e.
  destruct (prepMsg_shape (replicate APC_MAX_MSG_SIZE 0) APC_MAX_MSG_SIZE APC_CONNECT 0 0 ys (answerMsg sesId) [] p')
    as (hdr & rest & Hh & Hp & _); rewrite ?length_replicate, ?app_nil_r; cbn [length]; [lia|lia|done|].
  rewrite Hp. do 2 eexists. split; [reflexivity|]. split; [done|].
  rewrite length_take, !length_app. assert (length hdr = 16)%nat; [|cbn [length]; lia].
  rewrite Hh, length_take, writeHdr_length; rewrite length_replicate; [|by apply Nat.leb_le; vm_compute].
  by vm_compute.
Qed.

Lemma connect_received k ys sesId : usable k -> m_pApcNotif k = true ->
  let m := mkRxMsg APC_CONNECT 0 0 ys (answerMsg sesId) in
  exists k' t, ApcConnector.messageReceived helping m k = (k', t, APC_OK) /\ usable k' /\ m_isConnected k' = true /\
    m_pApcNotif k' = true /\ notices t = [EvConnected (connectedParam m)].
Proof.
  intros [Hw Hb] Hn m. unfold ApcConnector.messageReceived, updateLastReceived. runM.
  change (rx_type m) with APC_CONNECT. rewrite Z.eqb_refl. cbn [negb]. rewrite andb_false_r. cbv beta iota. cbn [andb]. cbv beta iota.
  cbn [m_pApcNotif upd]. rewrite Hn. cbv beta iota. cbn [m_kaTxTimer upd].
  destruct (m_kaTxTimer k) as [t|]; cbv beta iota;
    (do 2 eexists; split; [reflexivity|]; split; [|done || (case_match; done)]; split; [|destruct Hb]; by case_match).
Qed.

Lemma answer_parsed k ys sesId : usable k -> m_pApcNotif k = true -> m_pSerializer k = newCAPCSerializer APC_MAX_MSG_SIZE ->
  0 <= ys < 2 ^ 32 ->
  exists k' t, serializerReceive helping (answerOn sesId ys) k = (k', t, APC_OK) /\ usable k' /\ m_isConnected k' = true /\
    m_pApcNotif k' = true /\ notices t = [EvConnected (connectedParam (mkRxMsg APC_CONNECT 0 0 ys (answerMsg sesId)))].
Proof.
  intros Hk Hn Hs Hys. destruct (answer_prepared sesId ys) as (n & m & Hp & -> & _).
  destruct (connect_received k ys sesId Hk Hn) as (k' & t & Hm & [H1 H1'] & H2 & H3 & H4). cbv zeta in Hm, H4.
  destruct (prepMsg_received (rxHandler helping) (m_pSerializer k) (k, []) (replicate APC_MAX_MSG_SIZE 0) APC_MAX_MSG_SIZE
    APC_CONNECT 0 0 ys (answerMsg sesId) [] n m) as (s' & Hrun & _); rewrite ?Hs; try (cbn; lia); try done.
  - apply newCAPCSerializer_wf. by apply Nat.leb_le; vm_compute.
  - apply answerMsg_bytes.
  - unfold serializerReceive. rewrite Hs in *. rewrite Hrun, app_nil_r. unfold rxHandler. cbn [fst snd]. rewrite Hm. cbn [fst snd app].
    do 2 eexists. split; [reflexivity|]. split; [by split; [|destruct H1']|]. by split_and!.
Qed.

(** The answer arrives: the connector tells it, and goes on. *)
Lemma answer_read k ys sesId : usable k -> m_pApcNotif k = true -> m_pSerializer k = newCAPCSerializer APC_MAX_MSG_SIZE ->
  0 <= ys < 2 ^ 32 ->
  exists k' t, handle_read_p helping false (answerOn sesId ys) k = (k', t, tt) /\ usable k' /\ m_isConnected k' = true /\
    m_pApcNotif k' = true /\ notices t = [EvConnected (connectedParam (mkRxMsg APC_CONNECT 0 0 ys (answerMsg sesId)))].
Proof.
  intros Hk Hn Hs Hys. destruct (answer_parsed k ys sesId Hk Hn Hs Hys) as (k1 & t1 & Hp & [Hw Hb] & H2 & H3 & H4).
  destruct (answer_prepared sesId ys) as (n & m & _ & Ha & Hlen). rewrite <- Ha in Hlen.
  unfold handle_read_p, async_read_p, send_ka_p. runM. apply Nat.ltb_lt in Hlen as ->. cbv beta iota. rewrite Hp.
  rewrite bool_decide_true by done. cbn [negb]. cbv beta iota. rewrite Hw. cbn [negb]. cbv beta iota. cbn [e_readThrows helping].
  cbv beta iota. rewrite bool_decide_true by done. cbn [andb].
  set (k2 := k1 <| m_kaRxTimer := _ |>). assert (Hk2 : usable k2) by (split; [done|by destruct Hb]).
  destruct (m_unconfirmedInpPkt k2 <? _); cbv beta iota.
  - destruct (send_helping k2 APC_KA APC_HDR_FLAGS_NOTRACK 0 [] Hk2) as (k3 & t3 & -> & S1 & S2 & S3 & S4 & S5).
    + unfold send_open. destruct Hk2 as [-> _]. by rewrite orb_true_r.
    + split; [by apply Nat.leb_le; vm_compute|done].
    + cbv beta iota. rewrite bool_decide_true by done. cbn [negb]. cbv beta iota.
      do 2 eexists. split; [reflexivity|]. split; [done|]. rewrite S2, S3. split; [done|]. split; [done|].
      rewrite !notices_app, H4, S5. done.
  - rewrite bool_decide_true by done. cbn [negb]. cbv beta iota.
    do 2 eexists. split; [reflexivity|]. split; [done|]. split; [done|]. split; [done|]. by rewrite !notices_app, H4.
Qed.

(** ** Sending the rest again *)
Definition connectedConn (k : CAPCConnector) : Prop := usable k /\ m_isConnected k = true.

Lemma send_keeps ty fl ms p1 p2 : keeps connectedConn any_event (ApcConnector.sendData helping ty fl ms p1 p2).
Proof.
  assert (H : keeps (fun k => m_isWorking k = true /\ m_isConnected k = true) any_event (ApcConnector.sendData helping ty fl ms p1 p2)).
  { unfold ApcConnector.sendData, getFreeBuf_p, returnBuf_p, incrNumFreeBuf_p. keeps_auto; try done; intros k [H1 H2].
    - cbn [e_waits helping waitFree]. destruct (completed_fields k) as (C1 & _ & C3 & _).
      cbv zeta. repeat case_match; rewrite ?C1, ?C3; done.
    - unfold takeBuf. cbv zeta. by destruct (_ <? _).
    - by destruct (_ <? _). }
  intros k [[H1 H2] H3]. destruct (H k (conj H1 H3)) as [[H4 H5] H6].
  destruct (sendData_keeps helping ty fl ms p1 p2 helping_ok k H2) as [H7 _]. by split_and!.
Qed.

(** The client refers to connection [id], which is open. *)
Definition ready (id : Z) (c : CAPCClient) : Prop :=
  m_pConnector c = Some id /\ exists k, conns c !! id = Some k /\ connectedConn k.

(** A packet that can be serialized is sent. *)
Definition sent_ok (e : client_event) : Prop :=
  match e with EvSent _ ty _ p res => sendable (ty, p) -> res = APC_OK | _ => True end.

Lemma ready_upd id f : (forall c, m_pConnector (f c) = m_pConnector c) -> (forall c, conns (f c) = conns c) ->
  keeps (ready id) sent_ok (modify f).
Proof. intros H1 H2. apply keeps_modify. intros c. unfold ready. by rewrite H1, H2. Qed.

Lemma sendConn_ready now id ty s p : keeps (ready id) sent_ok (sendConn (helpingAt now) id ty s p).
Proof.
  intros c (Hid & k & Hk & Hc). pose proof (send_keeps ty 0 s p [] k Hc) as [Hc' _].
  assert (Hres : sendable (ty, p) -> res_of (ApcConnector.sendData helping ty 0 s p []) k = APC_OK).
  { intros Hs. destruct Hc as [Hu Hcn]. destruct (send_helping k ty 0 s p Hu) as (k' & t & Hr & _); [|done|by unfold res_of; rewrite Hr].
    unfold send_open. destruct Hu as [-> _]. by rewrite Hcn. }
  unfold sendConn, callConn, withConn, st_of, out_of, res_of in *. runM. rewrite Hk. cbn [ce_conn helpingAt].
  destruct (ApcConnector.sendData _ _ _ _ _ _ k) as [[k' t] res]. cbn [fst snd default from_option] in *. split.
  - split; [done|]. exists k'. cbn [conns upd]. by rewrite lookup_insert_eq.
  - apply Forall_app. split; [apply Forall_app; split; [|constructor]|by repeat constructor].
    apply Forall_forall. by intros e (x & -> & _)%list_elem_of_fmap.
Qed.

Lemma replay_ready now id n res : keeps (ready id) sent_ok (replay (helpingAt now) n res).
Proof.
  revert res; induction n as [|n IH]; intros res; cbn [replay]; [keeps_auto|].
  apply keeps_if; [apply keeps_ret|]. apply keeps_read. intros c Hc. pose proof Hc as [-> _].
  match goal with |- keeps_at _ _ ?m _ => enough (H : keeps (ready id) sent_ok m) by (by apply H) end.
  destruct (getNextPacket (m_cache c)) as [[[q e] [pkt|]]|]; [|keeps_auto..].
  apply keeps_bind; [by apply ready_upd|intros _]. apply keeps_if; [apply keeps_ret|].
  apply keeps_bind; [apply sendConn_ready|done].
Qed.

Lemma sent_all l s e : sent_upto l s e -> Forall (fun x => sendable (fst (fst x), snd x)) l ->
  Forall (fun x => sendable (fst (fst (fst x)), snd (fst x)) -> snd x = APC_OK) s -> e = APC_OK.
Proof.
  induction 1 as [|x l s e _ IH|x l e He]; intros Hl Hs; [done|..]; inversion Hl; subst.
  - inversion Hs; subst. auto.
  - inversion Hs as [|? ? H]; subst. by apply H.
Qed.

Lemma sends_ok t : Forall sent_ok t -> Forall (fun x => sendable (fst (fst (fst x)), snd (fst x)) -> snd x = APC_OK) (sends t).
Proof. induction 1 as [|e t He _ IH]; [constructor|]. destruct e; cbn [sends omap list_omap]; [done|done|by constructor|done|done]. Qed.

Lemma numbered_sendable s l : Forall sendable l -> Forall (fun x => sendable (fst (fst x), snd x)) (numbered s l).
Proof. intros H. revert s. induction H as [|[ty p] l Hx _ IH]; intros s; constructor; [done|apply IH]. Qed.

(** The manager accepts the session again: the client is online. *)
Lemma connected_online now id p c log k :
  ready id c -> cache_inv (m_cache c) log -> Forall sendable log ->
  pc_ver p = APC_PROTO_VER -> pc_apcId p = m_intfId c -> m_intfId c <> APINTFID_EMPTY ->
  pc_yourSeq p = u32 (Z.of_nat k) -> (k <= length log)%nat -> Z.of_nat (length log - k) < 2 ^ 32 ->
  let c' := st_of (apcConnected (helpingAt now) id p) c in
  m_state c' = APCCLIENT_STATE_ONLINE /\ ready id c'.
Proof.
  intros Hr Hinv Hlog Hv Ha Hi Hseq Hk Hcap. pose proof Hr as [Hid (kc & Hkc & Hconn)]. pose proof Hinv as [Hcp Hl _ _ _ _ _].
  destruct (apcConnected_again (helpingAt now) c id p id log (Z.of_nat k) Hinv Hid Hv Ha Hi Hseq)
    as (c2 & t & e & Hup & _ & _ & (c1 & n & Hrep & Hp1 & Hcs & _) & Hrun); [lia|lia|].
  assert (Hr1 : ready id c1) by (split; [done|exists kc; by rewrite Hcs]).
  destruct (replay_ready now id n APC_OK c1 Hr1) as [Hr2 Ht]. unfold st_of, out_of in Hr2, Ht. rewrite Hrep in Hr2, Ht. cbn [fst snd] in *.
  assert (e = APC_OK) as ->.
  { eapply sent_all; [exact Hup| |by apply sends_ok]. apply numbered_sendable. by apply Forall_drop. }
  cbv zeta. unfold st_of. rewrite Hrun, bool_decide_true by done. split; [done|exact Hr2].
Qed.

(** ** The timer expires *)
Lemma timer_opens now c :
  m_state c <> APCCLIENT_STATE_DISCONNECT -> m_pConnector c = None -> now < m_disconnectTime c ->
  exists k t, reconnectTimerFun_p (helpingAt now) false c =
    (c <| m_reconnectTimer := false |> <| conns := <[nextConn c := k]> (conns c) |> <| nextConn := nextConn c + 1 |>, t, tt) /\
    usable k /\ m_pApcNotif k = true /\ m_pSerializer k = newCAPCSerializer APC_MAX_MSG_SIZE /\
    calls_of t = [CallStarted (nextConn c)].
Proof.
  intros Hs Hp Hd. unfold reconnectTimerFun_p, reconnect_p, ipConnect_p, stopTimer_p, callConn, withConn. runM.
  rewrite bool_decide_false by done. cbn [ce_now helpingAt]. apply Z.ltb_lt in Hd as ->. rewrite Hp. cbn [ce_ipConnects helpingAt].
  cbv beta iota. cbn [conns nextConn m_cache m_intfName upd]. rewrite lookup_insert_eq.
  set (k0 := createConnection _). pose proof (createConnection_ok (mkConnParam (m_intfName c) (m_kaTimeout c) (m_freeBufTimeout c)
    (u32 (getCacheSize (m_cache c) * 3 / 4)) [] true)) as [Hb _]. fold k0 in Hb.
  cbn [ce_conn helpingAt]. destruct (start_helping k0) as (k1 & t1 & -> & H1 & H2 & H3 & H4); [done|done|]. cbv beta iota.
  cbn [default from_option]. rewrite bool_decide_true by done. cbv beta iota. cbn [conns upd]. rewrite lookup_insert_eq.
  cbn [ce_conn helpingAt].
  match goal with |- context [connect _ ?i ?ms ?ys ?g ?ni ?fl k1] =>
    destruct (connect_helping k1 i ms ys g ni fl H1) as (k2 & t2 & -> & C1 & C2 & C3 & C4) end. cbv beta iota.
  cbn [default from_option]. rewrite bool_decide_true by done. cbn [negb andb fst snd]. cbv beta iota.
  cbn [conns upd]. rewrite !insert_insert_eq. exists k2. eexists. split; [reflexivity|]. split; [done|]. split; [congruence|].
  split; [by rewrite C3, H3|]. rewrite !app_nil_r, !calls_app, !calls_conn, H4, C4. done.
Qed.

(** ** The notification thread *)
Lemma post_thread a th : asks a <> None -> m_thread (post th a) = m_thread th.
Proof.
  intros Ha. unfold post. destruct a; try done; cbn [NotifThread.exec];
    unfold NotifThread.apcStarted, NotifThread.apcConnected, NotifThread.apcDisconnected, NotifThread.messageReceived, newNotif_p;
    destruct (m_isWork th); cbn [negb]; try done; by destruct (last _).
Qed.

Lemma run_thread m n : m_thread (n_thread (clientRun m n)) = m_thread (n_thread n).
Proof.
  unfold clientRun, absorb. cbn [n_thread n_client upd]. destruct (posts_asks (out_of m (n_client n))) as [Hp _].
  generalize (n_thread n). induction Hp as [|a l Ha _ IH]; intros th; cbn [fold_left]; [done|]. by rewrite IH, post_thread.
Qed.

Lemma thread_kept a th th' calls : a = ATake \/ a = AProcess -> NotifThread.exec a th = Some (th', calls) -> m_thread th' = m_thread th.
Proof.
  intros [-> | ->]; cbn [NotifThread.exec].
  - destruct (_ && _); [|done]. unfold takeNotif. destruct (last _) as [x|]; [|done]. case_decide; by intros [= <- _].
  - unfold processNotif. destruct (m_current th); [|done]. by intros [= <- _].
Qed.

Lemma net_thread o n n' : net_exec o n = Some n' -> m_thread (n_thread n') = m_thread (n_thread n).
Proof.
  destruct o as [env op|env| |env|env id error data|env id error|env id last|env id last| |]; cbn [net_exec].
  - intros [= <-]. apply run_thread.
  - destruct (m_reconnectTimer _); [|done]. intros [= <-]. apply run_thread.
  - intros ([th c] & He & [= <-])%bind_Some. eapply thread_kept; [by left|exact He].
  - intros ([th calls] & He & [= <-])%bind_Some. transitivity (m_thread th); [|by eapply thread_kept; [right|exact He]].
    set (n1 := n <| n_thread := th |>). change (m_thread th) with (m_thread (n_thread n1)). clearbody n1. clear. revert n1.
    induction calls as [|c calls IH]; intros n2; [done|]. cbn [fold_left]. by rewrite IH, run_thread.
  - destruct (_ && _); [|done]. destruct (answers _) as [|p [|p' ps]]; [|destruct (honest _ _ _)|]; try done; intros [= <-]; by rewrite run_thread.
  - intros [= <-]. apply run_thread.
  - intros [= <-]. apply run_thread.
  - intros [= <-]. apply run_thread.
  - destruct (n_wire n); [done|]. by intros [= <-].
  - by intros [= <-].
Qed.

(** [n'] can follow [n] without calls of the client's owner. *)
Definition later (o : net_op) : Prop := net_op_ok o /\ is_up o = false.
Definition leads (n n' : Net) : Prop := exists l, Forall later l /\ net_run l n = Some n'.

Lemma leads_refl n : leads n n.
Proof. by exists []. Qed.

Lemma leads_step o n n' : later o -> net_exec o n = Some n' -> leads n n'.
Proof. intros Ho He. exists [o]. split; [by constructor|]. cbn [net_run]. by rewrite He. Qed.

Lemma leads_trans n1 n2 n3 : leads n1 n2 -> leads n2 n3 -> leads n1 n3.
Proof.
  intros (l & Hl & H1) (l' & Hl' & H2). exists (l ++ l'). split; [by apply Forall_app|]. clear Hl Hl'.
  revert n1 H1. induction l as [|o l IH]; intros n1; cbn [net_run app]; [by intros [= ->]|].
  intros (n & He & Hr)%bind_Some. rewrite He. cbn [mbind option_bind]. by apply IH.
Qed.

Lemma net_run_thread l : forall n n', net_run l n = Some n' -> m_thread (n_thread n') = m_thread (n_thread n).
Proof.
  induction l as [|o l IH]; intros n n'; cbn [net_run]; [by intros [= <-]|].
  intros (n1 & He & Hr)%bind_Some. by rewrite (IH _ _ Hr), (net_thread _ _ _ He).
Qed.

Lemma leads_thread n n' : leads n n' -> m_thread (n_thread n') = m_thread (n_thread n).
Proof. intros (l & _ & Hr). by eapply net_run_thread. Qed.

Lemma leads_inv cap n n' : side_inv cap n -> Z.of_nat (length (n_log n)) < 2 ^ 64 - 4 -> leads n n' ->
  side_inv cap n' /\ n_log n' = n_log n.
Proof.
  intros Hn Hb (l & Hl & Hr). revert n Hn Hb Hr. induction Hl as [|o l [Ho Hu] _ IH]; intros n Hn Hb; cbn [net_run]; [by intros [= <-]|].
  intros (n1 & He & Hr)%bind_Some. pose proof (exec_log _ _ _ Hu He) as Hlog.
  destruct (IH n1) as [H1 H2]; [by eapply side_step|by rewrite Hlog|done|]. by rewrite H2, Hlog.
Qed.

(** What the thread has to do. *)
Definition work (th : CAPCCtrlNotifThread) : nat := 2 * length (m_apcNotifQ th) + length (option_list (m_current th)).

(** The thread calls the client for the next notification. *)
Lemma serve env : forall w n c rest,
  (work (n_thread n) <= w)%nat -> is_live (n_thread n) -> m_thread (n_thread n) = true -> env_quiet env ->
  NotifThread.waiting (n_thread n) = c :: rest ->
  exists n1, leads n (clientRun (ApcClient.exec env (opOf c)) n1) /\ called n c n1.
Proof.
  induction w as [|w IH]; intros n c rest Hw Hl Ht Hq Hc.
  - unfold work in Hw. unfold NotifThread.waiting in Hc.
    destruct (m_current (n_thread n)); [cbn in Hw; lia|]. by destruct (m_apcNotifQ (n_thread n)); [|cbn in Hw; lia].
  - assert (Hstep : forall o th, later o -> net_exec o n = Some (n <| n_thread := th |>) -> is_live th ->
      m_thread th = true -> NotifThread.waiting th = c :: rest -> (work th <= w)%nat ->
      exists n1, leads n (clientRun (ApcClient.exec env (opOf c)) n1) /\ called n c n1).
    { intros o th Ho He Hl' Ht' Hc' Hw'. pose proof (IH (n <| n_thread := th |>) c rest) as H. cbn [n_thread upd] in H.
      destruct (H Hw' Hl' Ht' Hq Hc') as (n1 & H2 & [C1 C2 C3 C4]).
      exists n1. split; [by eapply leads_trans, H2; eapply leads_step|].
      split; [exact C1|exact C2|done|]. rewrite Hc, <- Hc'. exact C4. }
    destruct (m_current (n_thread n)) as [x|] eqn:Hcur.
    + destruct (NotifThread.exec AProcess (n_thread n)) as [[th calls]|] eqn:He; [|cbn in He; unfold processNotif in He; by rewrite Hcur in He].
      destruct (step_fifo AProcess _ _ _ I Hl He) as [Hl' Hq']. cbn [asks option_list] in Hq'. rewrite app_nil_r, Hc in Hq'.
      pose proof (thread_kept AProcess _ _ _ (or_intror eq_refl) He) as Ht'. rewrite Ht in Ht'.
      assert (Hcl : calls = option_list (callOf x) /\ (work th < work (n_thread n))%nat).
      { cbn [NotifThread.exec] in He. unfold processNotif in He. rewrite Hcur in He. injection He as <- <-.
        split; [done|]. unfold work, freeNotif_p. rewrite Hcur. cbn. lia. }
      destruct Hcl as [-> Hless].
      destruct (callOf x) as [c'|]; cbn [option_list app] in *.
      * injection Hq' as -> Hq'. exists (n <| n_thread := th |>). split.
        { apply (leads_step (NProcess env)); [done|]. cbn [net_exec]. by rewrite He. }
        split; [done|done|done|].
        cbn [n_thread upd]. by rewrite Hc, Hq'.
      * apply (Hstep (NProcess env) th); [done| |done|done|done|lia]. cbn [net_exec]. by rewrite He.
    + destruct (last (m_apcNotifQ (n_thread n))) as [x|] eqn:Hlast.
      2: { apply last_None in Hlast. unfold NotifThread.waiting in Hc. by rewrite Hcur, Hlast in Hc. }
      destruct (NotifThread.exec ATake (n_thread n)) as [[th calls]|] eqn:He.
      2: { cbn [NotifThread.exec] in He. destruct Hl as [Hw' _]. rewrite Ht, Hw', Hcur in He. unfold takeNotif in He. rewrite Hlast in He.
           cbn in He. by case_decide. }
      destruct (step_fifo ATake _ _ _ I Hl He) as [Hl' Hq']. cbn [asks option_list] in Hq'. rewrite app_nil_r, Hc in Hq'.
      pose proof (thread_kept ATake _ _ _ (or_introl eq_refl) He) as Ht'. rewrite Ht in Ht'.
      assert (Hcl : calls = [] /\ (work th < work (n_thread n))%nat).
      { cbn [NotifThread.exec] in He. destruct Hl as [Hw' Hty]. rewrite Ht, Hw', Hcur in He. unfold takeNotif in He.
        apply last_removelast in Hlast as Hsplit. rewrite Hlast in He. cbn in He. unfold work, freeNotif_p. rewrite Hsplit, length_app, Hcur.
        case_decide as Hterm; injection He as <- <-; (split; [done|]); cbn; rewrite ?Hcur; cbn; lia. }
      destruct Hcl as [-> Hless]. cbn [app] in Hq'. apply (Hstep NTake th); [done| |done|done|done|lia]. cbn [net_exec]. by rewrite He.
Qed.

Lemma serve_next env n c rest :
  is_live (n_thread n) -> m_thread (n_thread n) = true -> env_quiet env -> pending_calls n = c :: rest ->
  exists n', leads n n' /\ n_client n' = st_of (ApcClient.exec env (opOf c)) (n_client n) /\ is_live (n_thread n') /\
    m_thread (n_thread n') = true /\
    pending_calls n' = rest ++ calls_of (out_of (ApcClient.exec env (opOf c)) (n_client n)) /\
    n_live n' = n_live n /\ n_rx n' = n_rx n /\ n_log n' = n_log n /\ n_answered n' = n_answered n /\
    n_wire n' = n_wire n ++ on_wire (n_live n) (out_of (ApcClient.exec env (opOf c)) (n_client n)).
Proof.
  intros Hl Ht Hq Hc. destruct (serve env _ n c rest (Nat.le_refl _) Hl Ht Hq Hc) as (n1 & Hlead & [C1 (S1 & S2 & S3 & S4 & S5 & _) C3 C4]).
  destruct (clientRun_queue (ApcClient.exec env (opOf c)) n1 C3) as [H1 H2].
  destruct (clientRun_fields (ApcClient.exec env (opOf c)) n1) as (F1 & F2 & F3 & F4 & F5 & F6 & _).
  rewrite Hc in C4. injection C4 as C4. eexists. split; [exact Hlead|]. rewrite F1, F2, F3, F4, F5, F6, H2, <- C4, C1, S1, S5.
  split_and!; try done. by rewrite (leads_thread _ _ Hlead).
Qed.

(** ** The way on *)

(** The thread first works off messages. *)
Lemma drain now n : 0 <= now ->
  is_live (n_thread n) -> m_thread (n_thread n) = true -> control (pending_calls n) = [] ->
  exists n' q r, leads n n' /\ n_client n' = n_client n <| m_cache := q |> <| m_lastRxSeqNum := r |> /\
    is_live (n_thread n') /\ m_thread (n_thread n') = true /\ pending_calls n' = [] /\ n_rx n' = n_rx n /\ n_log n' = n_log n /\
    n_answered n' = n_answered n.
Proof.
  intros Hnow. remember (pending_calls n) as l eqn:E. revert n E. induction l as [|c l IH]; intros n E Hl Ht Hc.
  { exists n, (m_cache (n_client n)), (m_lastRxSeqNum (n_client n)). split; [apply leads_refl|]. split; [by destruct (n_client n)|]. by split_and!. }
  destruct c as [|?|?|p payload]; try done. change (control (CallMessage p payload :: l)) with (control l) in Hc.
  destruct (serve_next (helpingAt now) n _ _ Hl Ht (conj helping_quiet Hnow) (eq_sym E)) as (n1 & L1 & C1 & Hl1 & Ht1 & Q1 & _ & X1 & G1 & A1 & _).
  assert (Hm : exists q r, st_of (ApcClient.exec (helpingAt now) (opOf (CallMessage p payload))) (n_client n) =
      n_client n <| m_cache := q |> <| m_lastRxSeqNum := r |> /\
    calls_of (out_of (ApcClient.exec (helpingAt now) (opOf (CallMessage p payload))) (n_client n)) = []).
  { exists (fst (confirmedSeqNum (pr_yourSeq p) false (m_cache (n_client n)))),
      (if Z.land (pr_flags p) APC_HDR_FLAGS_NOTRACK =? 0 then pr_mySeq p else m_lastRxSeqNum (n_client n)).
    cbn [opOf ApcClient.exec]. unfold ApcClient.messageReceived, input, st_of, out_of. runM. generalize (n_client n). intros c.
    destruct (Z.land (pr_flags p) APC_HDR_FLAGS_NOTRACK =? 0); cbv beta iota; cbn [m_pInput upd];
      destruct (m_pInput c); cbn [negb]; cbv beta iota; 
      repeat match goal with |- context [pr_type p =? ?x] => destruct (pr_type p =? x) end; cbv beta iota; (split; [by destruct c|done]). }
  destruct Hm as (q & r & Hst & Hout). rewrite Hout, app_nil_r in Q1. rewrite Hst in C1.
  destruct (IH n1 (eq_sym Q1) Hl1 Ht1 Hc) as (n2 & q2 & r2 & L2 & C2 & Hl2 & Ht2 & Q2 & X2 & G2 & A2).
  exists n2, q2, r2. split; [by eapply leads_trans|]. split; [by rewrite C2, C1|].
  rewrite X2, G2, A2. by split_and!.
Qed.

(** The timer expires: the client announces a connection to itself. *)
Lemma announced now n :
  0 <= now < m_disconnectTime (n_client n) -> m_state (n_client n) <> APCCLIENT_STATE_DISCONNECT ->
  m_pConnector (n_client n) = None -> m_reconnectTimer (n_client n) = true ->
  is_live (n_thread n) -> m_thread (n_thread n) = true -> pending_calls n = [] ->
  let c := n_client n in
  exists n' k, leads n n' /\
    n_client n' = c <| m_reconnectTimer := false |> <| conns := <[nextConn c := k]> (conns c) |> <| nextConn := nextConn c + 1 |>
                    <| m_pConnector := Some (nextConn c) |> /\
    usable k /\ m_pApcNotif k = true /\ m_pSerializer k = newCAPCSerializer APC_MAX_MSG_SIZE /\
    is_live (n_thread n') /\ m_thread (n_thread n') = true /\ pending_calls n' = [] /\
    n_rx n' = n_rx n /\ n_log n' = n_log n /\ n_answered n' = n_answered n.
Proof.
  intros Hnow Hs Hp Ht Hl Hth Hq c. destruct (timer_opens now c Hs Hp) as (k & t & Hrun & K1 & K2 & K3 & K4); [by destruct Hnow|].
  set (n1 := clientRun (ApcClient.exec (helpingAt now) (CTimer false)) n).
  assert (Hstep : leads n n1).
  { apply (leads_step (NTimer (helpingAt now))); [split; [split; [apply helping_quiet|cbn; lia]|done]|]. cbn [net_exec]. by rewrite Ht. }
  destruct (clientRun_queue (ApcClient.exec (helpingAt now) (CTimer false)) n Hl) as [H1 H2].
  destruct (clientRun_fields (ApcClient.exec (helpingAt now) (CTimer false)) n) as (F1 & _ & F3 & F4 & F5 & _).
  fold n1 in H1, H2, F1, F3, F4, F5. cbn [ApcClient.exec] in *. unfold st_of, out_of in *. fold c in F1, H2. rewrite Hrun in F1, H2. cbn [fst snd] in *.
  rewrite Hq, K4 in H2. cbn [app] in H2.
  assert (Hth1 : m_thread (n_thread n1) = true) by (by rewrite (leads_thread _ _ Hstep)).
  destruct (serve_next (helpingAt now) n1 _ _ H1 Hth1 (conj helping_quiet (proj1 Hnow)) H2)
    as (n2 & L2 & C2 & Hl2 & Ht2 & Q2 & _ & X2 & G2 & A2 & _).
  exists n2, k. split; [by eapply leads_trans|]. split; [by rewrite C2, F1|]. rewrite X2, G2, A2, F3, F4, F5. by split_and!.
Qed.

Lemma fields_told id t : Forall (fun e => match e with EvReceived _ _ => False | _ => True end) (notices t) ->
  fields_ok (map (EvConn id) t) = true.
Proof.
  unfold fields_ok, notices. induction t as [|e t IH]; [done|]. cbn [map forallb].
  destruct e; rewrite ?filter_cons_False, ?filter_cons_True by done; cbn [andb]; try exact IH;
    intros [H1 H2]%Forall_cons; [by apply IH|by apply IH|by apply IH|done].
Qed.

(** The manager answers. *)
Lemma answered n id k :
  m_pConnector (n_client n) = Some id -> conns (n_client n) !! id = Some k ->
  usable k -> m_pApcNotif k = true -> m_pSerializer k = newCAPCSerializer APC_MAX_MSG_SIZE ->
  is_live (n_thread n) -> m_thread (n_thread n) = true -> pending_calls n = [] -> n_answered n <= id ->
  0 <= ApcClient.m_intfId (n_client n) < 2 ^ 32 ->
  missing n < 2 ^ 32 -> 0 <= lastSeq (n_rx n) < 2 ^ 32 ->
  exists n' p k', leads n n' /\ n_client n' = n_client n <| conns := <[id := k']> (conns (n_client n)) |> /\
    connectedConn k' /\ is_live (n_thread n') /\ m_thread (n_thread n') = true /\ pending_calls n' = [CallConnected id p] /\
    n_live n' = Some id /\ n_rx n' = n_rx n /\ n_log n' = n_log n /\ n_wire n' = [] /\
    pc_ver p = APC_PROTO_VER /\ pc_apcId p = ApcClient.m_intfId (n_client n) /\ pc_yourSeq p = lastSeq (n_rx n).
Proof.
  intros Hid Hk Hu Hn Hs Hl Hth Hq Ha Hi Hc Hys. set (ys := lastSeq (n_rx n)) in *. set (ses := ApcClient.m_intfId (n_client n)) in *.
  destruct (answer_read k ys ses Hu Hn Hs Hys) as (k' & t & Hrun & H1 & H2 & _ & H4).
  destruct (answer_fields ses ys Hi) as (P1 & P2 & P3). set (p := connectedParam _) in *.
  set (m := connRun id (handle_read_p helping false (answerOn ses ys))).
  assert (Hm : st_of m (n_client n) = n_client n <| conns := <[id := k']> (conns (n_client n)) |> /\ out_of m (n_client n) = map (EvConn id) t).
  { unfold m, connRun, withConn, st_of, out_of. runM. rewrite Hk, Hrun. cbn [fst snd]. by rewrite app_nil_r. }
  destruct Hm as [M1 M2].
  set (n0 := n <| n_live := Some id |> <| n_answered := id + 1 |> <| n_wire := [] |>
               <| n_skipped := n_skipped n + overwritten n |>).
  assert (Hstep : leads n (clientRun m n0)).
  { apply (leads_step (NRead helping id false (answerOn ses ys))); [split; [apply helping_quiet|done]|]. cbn [net_exec]. fold m.
    assert (isWorkingConn (n_client n) id = true) as -> by (unfold isWorkingConn; rewrite Hk; by destruct Hu).
    rewrite M2, fields_told, answers_conn, H4 by (rewrite H4; by repeat constructor). cbn [andb omap list_omap answerOf].
    assert (honest p id n = true) as ->; [|done]. unfold honest. rewrite P3, Z.eqb_refl.
    apply Z.leb_le in Ha as ->. by apply Z.ltb_lt in Hc as ->. }
  destruct (clientRun_queue m n0 Hl) as [Q1 Q2]. destruct (clientRun_fields m n0) as (F1 & F2 & _ & F4 & F5 & F6 & _).
  rewrite (connRun_unsent id (handle_read_p helping false (answerOn ses ys))) in F6.
  change (n_client n0) with (n_client n) in *. rewrite M1 in F1. rewrite M2, calls_conn, H4 in Q2.
  change (pending_calls n0) with (pending_calls n) in Q2. rewrite Hq in Q2.
  exists (clientRun m n0), p, k'. split; [done|]. split; [done|]. split; [done|]. split; [done|].
  split; [by rewrite (leads_thread _ _ Hstep)|]. by split_and!.
Qed.

(** The manager reads what is in flight. *)
Lemma delivered n : exists n', leads n n' /\ n_client n' = n_client n /\ n_log n' = n_log n /\ n_rx n' = n_rx n ++ n_wire n.
Proof.
  remember (n_wire n) as l eqn:E. revert n E. induction l as [|x l IH]; intros n E.
  { exists n. split; [apply leads_refl|]. by rewrite app_nil_r. }
  set (n1 := n <| n_rx := n_rx n ++ [x] |> <| n_wire := l |>).
  destruct (IH n1 eq_refl) as (n2 & L & C & G & X). exists n2. split; [|split; [done|split; [done|]]].
  - eapply leads_trans, L. apply (leads_step NDeliver); [done|]. cbn [net_exec]. by rewrite <- E.
  - rewrite X. cbn [n1 n_rx upd]. by rewrite <- app_assoc.
Qed.

Lemma side_capacity cap n : side_inv cap n -> getCacheSize (m_cache (n_client n)) = cap.
Proof. intros [[[_ _ (l & _ & H & _)] _ _ _] _ _ _]. exact H. Qed.

(** The position of the manager. *)
Lemma received_at cap n : side_inv cap n ->
  0 <= position (n_rx n) <= Z.of_nat (length (n_log n)) /\ lastSeq (n_rx n) = u32 (position (n_rx n)) /\
  (n_skipped n = 0 -> messages (n_log n) = n_rx n ++ drop (Z.to_nat (position (n_rx n))) (messages (n_log n))).
Proof.
  intros Hn. destruct (picked_received n (ni_transit _ _ _ Hn)) as (i & H1 & H2).
  pose proof (picked_bounds _ _ _ H1) as Hb. rewrite length_messages in Hb. destruct (picked_position _ _ _ H1) as [-> ->].
  split; [lia|]. split; [done|]. intros Hs. destruct (picked_all _ _ _ H1) as [rest Hr]; [lia|].
  rewrite Hr at 2. rewrite drop_app_length'; [done|lia].
Qed.

(** The packets that the manager is without and that a cache of [cap] packets still holds. *)
Definition held (cap : Z) (n : Net) : list packet :=
  drop (Z.to_nat (Z.max (position (n_rx n)) (Z.of_nat (length (n_log n)) - cap))) (messages (n_log n)).

(** From the announcement on. *)
Lemma accepted_again cap now n id k :
  0 <= now -> side_inv cap n -> Z.of_nat (length (n_log n)) < 2 ^ 64 - 4 ->
  m_pConnector (n_client n) = Some id -> conns (n_client n) !! id = Some k ->
  usable k -> m_pApcNotif k = true -> m_pSerializer k = newCAPCSerializer APC_MAX_MSG_SIZE ->
  is_live (n_thread n) -> m_thread (n_thread n) = true -> pending_calls n = [] -> n_answered n <= id ->
  0 < ApcClient.m_intfId (n_client n) < 2 ^ 32 -> Forall sendable (n_log n) ->
  missing n < 2 ^ 32 ->
  exists n', leads n n' /\ m_state (n_client n') = APCCLIENT_STATE_ONLINE /\ n_log n' = n_log n /\ n_rx n' = n_rx n ++ held cap n.
Proof.
  intros Hnow Hn Hb Hid Hk Hu Hp Hs Hl Hth Hq Ha Hi Hlog Hmiss. destruct (received_at cap n Hn) as (B1 & B2 & _).
  destruct (answered n id k) as (n1 & p & k' & L1 & C1 & K1 & Hl1 & Ht1 & Q1 & V1 & X1 & G1 & W1 & P1 & P2 & P3); try done;
    [lia|rewrite B2; apply u32_range|].
  destruct (leads_inv cap n n1 Hn Hb L1) as [Hn1 _].
  destruct (serve_next (helpingAt now) n1 _ _ Hl1 Ht1 (conj helping_quiet Hnow) Q1) as (n2 & L2 & C2 & _ & _ & _ & V2 & X2 & G2 & _ & W2).
  assert (Hready : ready id (n_client n1)).
  { rewrite C1. split; [done|]. exists k'. split; [apply lookup_insert_eq|done]. }
  assert (Hpos : pc_yourSeq p = u32 (Z.of_nat (Z.to_nat (position (n_rx n))))) by (rewrite P3, B2; f_equal; lia).
  assert (Hses : pc_apcId p = m_intfId (n_client n1) /\ m_intfId (n_client n1) <> APINTFID_EMPTY).
  { rewrite C1. split; [done|]. cbn. unfold APINTFID_EMPTY. lia. }
  unfold missing in Hmiss.
  destruct (connected_online now id p (n_client n1) (n_log n1) (Z.to_nat (position (n_rx n)))) as [Hon [Hid2 (k2 & Hk2 & [[Hw2 _] _])]];
    [done|apply Hn1|by rewrite G1|done|apply Hses|apply Hses|done|rewrite G1; lia|rewrite G1; lia|].
  destruct (apcConnected_sends (helpingAt now) helping_quiet id p (n_client n1) (n_log n1) (Z.to_nat (position (n_rx n))))
    as (pre & rest & Hd & Hwire & Hend); [apply Hn1|apply Hready|apply Hn1| |done|rewrite G1; lia|rewrite G1; lia|].
  { intros He. by destruct Hses. }
  cbn [opOf ApcClient.exec] in C2, W2. rewrite Hwire, V1, bool_decide_true, W1 in W2 by done. rewrite <- C2 in *.
  destruct Hend as [[_ ->]|[_ Hend]]; [|unfold isWorkingConn in Hend; by rewrite Hk2, Hw2 in Hend].
  destruct (delivered n2) as (n3 & L3 & C3 & G3 & X3). exists n3. split; [by eapply leads_trans; [|eapply leads_trans]|].
  rewrite C3, G3, X3, G2, G1, X2, X1, W2. split; [done|]. split; [done|]. f_equal. rewrite app_nil_r in Hd. cbn [app]. rewrite <- Hd, G1.
  unfold held. f_equal. pose proof (side_capacity cap n1 Hn1) as Hcap. pose proof (ci_cap _ _ (so_cache _ _ _ _ (ni_session _ _ _ Hn1))).
  change (capacity (m_cache (n_client n1)) = cap) in Hcap. lia.
Qed.

(** * Properties *)

(** C4: a session that waits for its reconnection can go on. The state is one reached as in
    [session_exactly_once], the client in it is offline with its timer armed, and the time is
    before the deadline. Three conditions are on what was said before: the packets accepted can be serialized, fewer than 2^32
    of them are missing at the manager, and the manager gave the session a 32-bit identifier. Then some run
    without calls of the owner, in which no operation fails, leads to
    the client online and the manager with all missing packets that the cache holds, in order; with all packets
    that the client accepted, if the cache holds all that are missing and none was skipped before. Neither calls that wait in
    the notification thread, nor connections that were lost, nor the two output buffers of a
    connector, of which a replay may need more, block it. An offline client without an armed timer
    need not go on: see [late_answer_strands]. *)
Theorem session_resumes cap name env p l n now :
  0 < cap < 2 ^ 31 -> env_quiet env -> 0 <= sp_disconnectTimeoutMsec p ->
  Forall net_op_ok l -> Z.of_nat (length l) < 2 ^ 64 - 8 ->
  net_run l (net0 (Z.to_nat cap) name env p) = Some n ->
  m_state (n_client n) = APCCLIENT_STATE_OFFLINE -> m_reconnectTimer (n_client n) = true ->
  0 <= now < m_disconnectTime (n_client n) -> 0 <= ApcClient.m_intfId (n_client n) < 2 ^ 32 ->
  Forall sendable (n_log n) -> missing n < 2 ^ 32 ->
  exists n', leads n n' /\ m_state (n_client n') = APCCLIENT_STATE_ONLINE /\
    n_log n' = n_log n /\ n_rx n' = n_rx n ++ held cap n /\
    (n_skipped n = 0 -> missing n <= cap -> n_rx n' = messages (n_log n)).
Proof.
  intros Hcap Henv Hp Hl Hlen Hrun Hoff Ht Hnow Hi Hlog Hmiss.
  pose proof (net_run_inv cap l 2 _ n (net0_inv cap name env p Hcap Henv Hp) Hl ltac:(lia) Hrun) as Hinv.
  assert (Hb : Z.of_nat (length (n_log n)) < 2 ^ 64 - 4) by (pose proof (so_len _ _ _ _ (ni_session _ _ _ Hinv)); lia).
  assert (Hth : m_thread (n_thread n) = true) by (rewrite (net_run_thread _ _ _ Hrun); unfold net0; by rewrite run_thread).
  apply side_inv_of in Hinv. pose proof Hinv as [[[[_ _ Hses] _ _] _ _ _] _ Htr Hph].
  destruct Hph as [[I1 I2 I3 I4]|(id & h & [_ Hno _ _ _])]; [|congruence].
  destruct (drain now n) as (n1 & q & r & L1 & C1 & Hl1 & Ht1 & Q1 & X1 & G1 & A1); [lia|apply Htr|done|done|].
  destruct (announced now n1) as (n2 & k & L2 & C2 & K1 & K2 & K3 & Hl2 & Ht2 & Q2 & X2 & G2 & A2);
    [by rewrite C1|rewrite C1; cbn; by rewrite Hoff|by rewrite C1|by rewrite C1|done|done|done|].
  assert (L : leads n n2) by by eapply leads_trans.
  destruct (leads_inv cap n n2 Hinv Hb L) as [Hn2 _].
  assert (Hsame : missing n2 = missing n /\ held cap n2 = held cap n)
    by (unfold held, missing; by rewrite G2, G1, X2, X1).
  destruct Hsame as [E1 E2].
  destruct (accepted_again cap now n2 (nextConn (n_client n)) k) as (n3 & L3 & S3 & G3 & X3);
    rewrite ?E1, ?G2, ?G1, ?A2, ?A1, ?C2, ?C1; try done; [lia|apply lookup_insert_eq|apply Htr| |].
  { specialize (Hses Hoff). cbn. unfold APINTFID_EMPTY in *. lia. }
  exists n3. split; [by eapply leads_trans|]. rewrite G3, X3, G2, G1, X2, X1, E2. split_and!; try done.
  intros Hsk Hm. destruct (received_at cap n Hinv) as (_ & _ & B3). etrans; [|symmetry; by apply B3].
  unfold held. do 2 f_equal. unfold missing in Hm. lia.
Qed.

(** The first connection of [session_demo] is lost with two packets missing. *)
Lemma session_resumes_witness :
  exists n n', net_run (take 14 session_demo) session_demo0 = Some n /\ n_rx n = [(APC_NET_RX, 1, [1])] /\
    leads n n' /\ n_rx n' = [(APC_NET_RX, 1, [1]); (APC_NET_RX, 2, [2]); (APC_NET_RX, 3, [3])].
Proof.
  destruct (net_run (take 14 session_demo) session_demo0) as [n|] eqn:E; [|vm_compute in E; discriminate E].
  assert (Hn : option_map (fun n => (m_state (n_client n), m_reconnectTimer (n_client n), m_disconnectTime (n_client n),
      ApcClient.m_intfId (n_client n), n_log n, n_rx n)) (net_run (take 14 session_demo) session_demo0) =
    Some (APCCLIENT_STATE_OFFLINE, true, 5000005, 7, [(APC_NET_RX, [1]); (APC_NET_RX, [2]); (APC_NET_RX, [3])], [(APC_NET_RX, 1, [1])]))
    by (vm_compute; reflexivity).
  rewrite E in Hn. cbn [option_map] in Hn. injection Hn as H1 H2 H3 H4 H5 H6.
  destruct (session_resumes 4 [65] (clenv0 1 true) (mkStartParam 1000 100 500 5000) (take 14 session_demo) n 6) as (n' & L & _ & _ & Hr & _).
  - lia.
  - split; [constructor|cbn; lia].
  - cbn. lia.
  - repeat constructor; cbn; lia.
  - vm_compute. reflexivity.
  - exact E.
  - exact H1.
  - exact H2.
  - rewrite H3. lia.
  - rewrite H4. lia.
  - rewrite H5. repeat constructor; try reflexivity; apply Nat.leb_le; vm_compute; reflexivity.
  - unfold missing. rewrite H5, H6. vm_compute. reflexivity.
  - exists n, n'. split; [reflexivity|]. split; [exact H6|]. split; [exact L|]. rewrite Hr. unfold held. rewrite H5, H6. reflexivity.
Defined.
