(* ===== verification/ApmProto.v ===== *)
(** Messages of the access point (AP) over the serial line
    (shared/include/6lowpan/public/dn_api_common.h, dn_api_local.h,
    dn_api_param.h, dn_api_net.h, dn_mesh.h): the identifiers the APC uses and
    the packed layouts of the messages it builds or reads. *)
From stdpp Require Import base numbers list option strings.
From Stdlib Require Import ZArith Lia.
From S2P Require Import Prelude Common.

Local Open Scope Z_scope.

(** ** Command and notification identifiers *)
Definition DN_API_LOC_CMD_SETPARAM : Z := 0x01.
Definition DN_API_LOC_CMD_GETPARAM : Z := 0x02.
Definition DN_API_LOC_CMD_JOIN : Z := 0x06.
Definition DN_API_LOC_CMD_DISCONNECT : Z := 0x07.
Definition DN_API_LOC_CMD_RESET : Z := 0x08.
Definition DN_API_LOC_NOTIF_TIME : Z := 0x0D.
Definition DN_API_LOC_NOTIF_EVENTS : Z := 0x0F.
Definition DN_API_LOC_CMD_AP_SEND : Z := 0x23.
Definition DN_API_LOC_NOTIF_TXDONE : Z := 0x25.
Definition DN_API_LOC_NOTIF_AP_RECEIVE : Z := 0x27.
Definition DN_API_LOC_NOTIF_READY_FOR_TIME : Z := 0x2C.
Definition DN_API_LOC_CMD_WRITE_GPS_STATUS : Z := 0x2D.

Definition DN_API_LOC_EV_BOOT : Z := 0x01.

(** ** Parameters *)
Definition DN_API_PARAM_MACADDR : Z := 0x01.
Definition DN_API_PARAM_NETID : Z := 0x03.
Definition DN_API_PARAM_MOTEINFO : Z := 0x0C.
Definition DN_API_PARAM_TIME : Z := 0x0F.
Definition DN_API_PARAM_APPINFO : Z := 0x1E.
Definition DN_API_PARAM_AP_CLKSRC : Z := 0x26.
Definition DN_API_PARAM_AP_STATUS : Z := 0x28.

(** ** Return codes *)
Definition DN_API_RC_OK : Z := 0x00.
Definition DN_API_RC_NO_RESOURCES : Z := 0x0C.

Definition DN_API_ST_IDLE : Z := 1.
Definition DN_API_AP_CLK_SOURCE_INTERNAL : Z := 0.
Definition DN_API_AP_CLK_SOURCE_NETWORK : Z := 1.
Definition DN_API_AP_CLK_SOURCE_PPS : Z := 2.
Definition DN_API_AP_CLK_SOURCE_AUTO : Z := 3.

(** ** Packed layouts; nested structures are spelled out *)
Definition DN_ASN_SIZE : nat := 5.
Definition DN_MACADDR_SIZE : nat := 8.
Definition DN_SERNUM_SIZE : nat := 8.

Definition dn_api_loc_notif_events_t : layout := [("events", 4%nat); ("state", 1%nat); ("alarms", 4%nat)]%string.
Definition dn_api_loc_notif_txdone_t : layout := [("packetId", 2%nat); ("status", 1%nat)]%string.
Definition dn_api_loc_notif_time_t : layout :=
  [("upTime", 4%nat); ("utcTime.seconds", 8%nat); ("utcTime.useconds", 4%nat);
   ("asn", DN_ASN_SIZE); ("offset", 2%nat); ("asnSubOffset", 2%nat)]%string.
Definition dn_api_loc_notif_ready_for_time_t : layout := [("seqNum", 1%nat)]%string.

Definition dn_api_rsp_get_macaddr_t : layout :=
  [("rc", 1%nat); ("paramId", 1%nat); ("macAddr", DN_MACADDR_SIZE)]%string.
Definition dn_api_rsp_get_moteinfo_t : layout :=
  [("rc", 1%nat); ("paramId", 1%nat); ("apiVersion", 1%nat); ("serialNumber", DN_SERNUM_SIZE);
   ("hwModel", 1%nat); ("hwRev", 1%nat); ("swVer", 5%nat); ("blSwVer", 1%nat)]%string.
Definition dn_api_rsp_get_appinfo_t : layout :=
  [("rc", 1%nat); ("paramId", 1%nat); ("vendorId", 2%nat); ("appId", 1%nat);
   ("appVer.major", 1%nat); ("appVer.minor", 1%nat); ("appVer.patch", 1%nat); ("appVer.build", 2%nat)]%string.
Definition dn_api_rsp_get_ap_clksrc_t : layout :=
  [("rc", 1%nat); ("paramId", 1%nat); ("apClkSrc", 1%nat)]%string.
Definition dn_api_rsp_get_netid_t : layout :=
  [("rc", 1%nat); ("paramId", 1%nat); ("netId", 2%nat)]%string.
Definition dn_api_rsp_get_time_t : layout :=
  [("rc", 1%nat); ("paramId", 1%nat); ("upTime", 4%nat); ("utcTime.seconds", 8%nat);
   ("utcTime.useconds", 4%nat); ("asn", DN_ASN_SIZE); ("offset", 2%nat)]%string.
Definition dn_api_rsp_get_apstatus_t : layout :=
  [("rc", 1%nat); ("paramId", 1%nat); ("state", 1%nat)]%string.

Definition dn_api_set_netid_t : layout := [("paramId", 1%nat); ("netId", 2%nat)]%string.
Definition dn_api_set_time_t : layout :=
  [("paramId", 1%nat); ("seqNum", 1%nat); ("utcTime.seconds", 8%nat); ("utcTime.useconds", 4%nat)]%string.

(** [dn_api_loc_apsend_ctrl_t]; the first byte holds the bit fields [priority]
    (2 bits), [linkCtrl] (1 bit) and [reserved], from the least significant bit. *)
Definition dn_api_loc_apsend_ctrl_t : layout :=
  [("bits", 1%nat); ("packetId", 2%nat); ("frameId", 1%nat); ("timeslot", 4%nat);
   ("channel", 1%nat); ("dest", 2%nat)]%string.
