(* ===== verification/ApmSerializer.v ===== *)
(** Interpretation of commands from the AP (APInterface/APMSerializer.cpp,
    APMSerializer.h, IAPCoupler.h).

    The serializer decodes responses to "get parameter" and notifications, and
    calls the notification handler with the message in host byte order. *)
From stdpp Require Import base numbers list option strings.
From Stdlib Require Import ZArith Lia.
From S2P Require Import Prelude Common ApcProto ApmProto.

Local Open Scope Z_scope.

Definition APM_MAX_BOOT_EVENTS : Z := 10.

(** Calls on [IAPMNotifHandler] made by the serializer.  A message is given as
    the bytes of its structure, converted to host order. *)
Inductive apm_notif : Set :=
| NAPReceive (data : list Z)
| NEvent (msg : list Z)
| NTimeIndication (msg : list Z)
| NReadyForTime (msg : list Z)
| NTXDone (msg : list Z)
| NParamMacAddress (msg : list Z)
| NParamMoteInfo (msg : list Z)
| NParamAppInfo (msg : list Z)
| NParamClkSrc (msg : list Z)
| NParamNetId (msg : list Z)
| NParamGetTime (msg : list Z)
| NParamApStatus (msg : list Z)
| NAPLost
| NAPBoot
| NError (cmdId rc : Z).

(** The serializer's state that outlives a call. *)
Record CAPMSerializer : Set := mkAPMSerializer { m_bootCounter : Z }.

Definition newCAPMSerializer : CAPMSerializer := mkAPMSerializer 0.

(** [None]: the message is too short for the structure. *)
Definition bufferCast_p (l : layout) (payload : list Z) : option (list Z) :=
  if (length payload <? sizeof l)%nat then None else Some (take (sizeof l) payload).

(** A field in place from network to host order. *)
Definition ntoh_fld (l : layout) (f : string) (msg : list Z) : list Z :=
  set_fld l f (bswap (widthof l f) (fld l f msg)) msg.

(** The notification for a message of layout [l], none if it is too short. *)
Definition cast_notif (l : layout) (conv : list Z -> list Z) (n : list Z -> apm_notif) (payload : list Z)
  : list apm_notif :=
  match bufferCast_p l payload with
  | Some msg => [n (conv msg)]
  | None => []
  end.

(** [paramId] is [data[1]], read before any check of the length. *)
Definition handleGetParam (paramId : Z) (data : list Z) : list apm_notif :=
  if paramId =? DN_API_PARAM_MACADDR then cast_notif dn_api_rsp_get_macaddr_t id NParamMacAddress data
  else if paramId =? DN_API_PARAM_MOTEINFO then cast_notif dn_api_rsp_get_moteinfo_t id NParamMoteInfo data
  else if paramId =? DN_API_PARAM_APPINFO then cast_notif dn_api_rsp_get_appinfo_t id NParamAppInfo data
  else if paramId =? DN_API_PARAM_AP_CLKSRC then cast_notif dn_api_rsp_get_ap_clksrc_t id NParamClkSrc data
  else if paramId =? DN_API_PARAM_NETID then
    cast_notif dn_api_rsp_get_netid_t (ntoh_fld dn_api_rsp_get_netid_t "netId") NParamNetId data
  else if paramId =? DN_API_PARAM_TIME then
    cast_notif dn_api_rsp_get_time_t (ntoh_fld dn_api_rsp_get_time_t "offset") NParamGetTime data
  else if paramId =? DN_API_PARAM_AP_STATUS then cast_notif dn_api_rsp_get_apstatus_t id NParamApStatus data
  else [].

(** The event notification: continuous boot events are counted, and after
    [APM_MAX_BOOT_EVENTS] of them the AP counts as lost. *)
Definition handleEvents (s : CAPMSerializer) (data : list Z) : CAPMSerializer * list apm_notif :=
  let l := dn_api_loc_notif_events_t in
  match bufferCast_p l data with
  | None => (s, [])
  | Some msg =>
      let msg := ntoh_fld l "alarms" (ntoh_fld l "events" msg) in
      if negb (Z.land (fld l "events" msg) DN_API_LOC_EV_BOOT =? 0) then
        let n := u16 (m_bootCounter s + 1) in
        if APM_MAX_BOOT_EVENTS <? n then (mkAPMSerializer 0, [NAPLost])
        else (mkAPMSerializer n, [NAPBoot])
      else (mkAPMSerializer 0, [NEvent msg])
  end.

(** The positions of the message read without a check of its length. *)
Definition uncheckedReads (cmdId : Z) : list nat :=
  if cmdId =? DN_API_LOC_CMD_GETPARAM then [1%nat]
  else if cmdId =? DN_API_LOC_CMD_WRITE_GPS_STATUS then [0%nat]
  else [].

(** [garbage]: what a read past the end of the message gives. *)
Definition handleCmd (garbage : Z) (s : CAPMSerializer) (cmdId : Z) (data : list Z)
  : CAPMSerializer * list apm_notif * apc_error_t :=
  let s := if negb (cmdId =? DN_API_LOC_NOTIF_EVENTS) then mkAPMSerializer 0 else s in
  let '(s, ns) :=
    if cmdId =? DN_API_LOC_NOTIF_EVENTS then handleEvents s data
    else if cmdId =? DN_API_LOC_NOTIF_TXDONE then
      (s, cast_notif dn_api_loc_notif_txdone_t (ntoh_fld dn_api_loc_notif_txdone_t "packetId") NTXDone data)
    else if cmdId =? DN_API_LOC_NOTIF_AP_RECEIVE then (s, [NAPReceive data])
    else if cmdId =? DN_API_LOC_CMD_GETPARAM then (s, handleGetParam (default garbage (data !! 1%nat)) data)
    else if cmdId =? DN_API_LOC_NOTIF_TIME then (s, cast_notif dn_api_loc_notif_time_t id NTimeIndication data)
    else if cmdId =? DN_API_LOC_NOTIF_READY_FOR_TIME then
      (s, cast_notif dn_api_loc_notif_ready_for_time_t id NReadyForTime data)
    else (s, [])
  in (s, ns, APC_OK).

Definition handleError (cmdId rc : Z) : list apm_notif := [NError cmdId rc].

(** [prepMsg]: the header of [apt_hdr_s]; [flags] keeps the buffer's byte. *)
Definition prepMsg (cmdId : Z) (payload msg : list Z) (maxSize : nat) : apc_error_t * nat * list Z :=
  let n := (length payload + 3)%nat in
  if (maxSize <? n)%nat then (APC_ERR_SIZE, n, msg)
  else
    let msg := set_field 1 1 (Z.land (Z.of_nat (length payload)) 0xFF) (set_field 0 1 cmdId msg) in
    (APC_OK, n, take 3 msg ++ payload ++ drop n msg).

(** ** Facts *)

(** The serializer fed with messages: what each one tells the upper layer. *)
Fixpoint feedCmds (garbage : Z) (s : CAPMSerializer) (msgs : list (Z * list Z))
  : CAPMSerializer * list (list apm_notif) :=
  match msgs with
  | [] => (s, [])
  | (cmd, data) :: msgs =>
      let '(s1, ns, _) := handleCmd garbage s cmd data in
      let '(s2, r) := feedCmds garbage s1 msgs in (s2, ns :: r)
  end.

(** A complete event message: events, state and alarms in network order. *)
Definition event_msg (ev st al : Z) (rest : list Z) : list Z :=
  rev (le_bytes 4 ev) ++ [st] ++ rev (le_bytes 4 al) ++ rest.

(** The conversion to host order reverses the bytes of the two words. *)
Lemma handleEvents_run s ev st al rest :
  is_byte st ->
  handleEvents s (event_msg ev st al rest) =
    if Z.odd ev then
      let n := u16 (m_bootCounter s + 1) in
      if APM_MAX_BOOT_EVENTS <? n then (mkAPMSerializer 0, [NAPLost]) else (mkAPMSerializer n, [NAPBoot])
    else (mkAPMSerializer 0, [NEvent (le_bytes 4 ev ++ [st] ++ le_bytes 4 al)]).
Proof.
  intros Hst. unfold handleEvents, bufferCast_p. set (msg := rev (le_bytes 4 ev) ++ [st] ++ rev (le_bytes 4 al)).
  assert (Hb : Forall is_byte msg) by (unfold msg; rewrite !Forall_app; split_and!; auto with apb).
  assert (Ht : take 9 (event_msg ev st al rest) = msg) by done.
  change (length (event_msg ev st al rest) <? sizeof dn_api_loc_notif_events_t)%nat with false. cbv iota.
  change (sizeof dn_api_loc_notif_events_t) with 9%nat. rewrite Ht. unfold ntoh_fld, set_fld, fld.
  change (offsetof dn_api_loc_notif_events_t "events") with 0%nat.
  change (widthof dn_api_loc_notif_events_t "events") with 4%nat.
  change (offsetof dn_api_loc_notif_events_t "alarms") with 5%nat.
  change (widthof dn_api_loc_notif_events_t "alarms") with 4%nat.
  rewrite (set_bswap 0 4 msg) by (done || (cbn; lia)).
  rewrite set_bswap by (try (by apply rev_seg_bytes); rewrite ?length_rev_seg; cbn; lia).
  assert (Hm : rev_seg 5 4 (rev_seg 0 4 msg) = le_bytes 4 ev ++ [st] ++ le_bytes 4 al) by done.
  rewrite Hm. assert (Ho : negb (Z.land (get_field 0 4 (le_bytes 4 ev ++ [st] ++ le_bytes 4 al)) DN_API_LOC_EV_BOOT =? 0) = Z.odd ev).
  { change (get_field 0 4 _) with (le_val (le_bytes 4 ev)). rewrite le_val_le_bytes.
    change DN_API_LOC_EV_BOOT with (Z.ones 1). rewrite Z.land_ones by lia. change (2 ^ 1) with 2.
    assert ((ev mod 256 ^ Z.of_nat 4) mod 2 = ev mod 2) as ->.
    { change (256 ^ Z.of_nat 4) with (2 * 2147483648). rewrite Z.rem_mul_r, Z.mul_comm, Z.mod_add, Z.mod_mod by lia. done. }
    rewrite Zmod_odd. by destruct (Z.odd ev). }
  by rewrite Ho.
Qed.

(** What the [i]-th of a run of boot events tells, [c] boot events after a reset. *)
Definition boot_notif (c : Z) (i : nat) : list apm_notif :=
  if (c + Z.of_nat i + 1) mod (APM_MAX_BOOT_EVENTS + 1) =? 0 then [NAPLost] else [NAPBoot].

Lemma boot_step s ev st al rest :
  0 <= m_bootCounter s <= APM_MAX_BOOT_EVENTS -> Z.odd ev = true -> is_byte st ->
  handleEvents s (event_msg ev st al rest) =
    (mkAPMSerializer ((m_bootCounter s + 1) mod (APM_MAX_BOOT_EVENTS + 1)), boot_notif (m_bootCounter s) 0).
Proof.
  unfold APM_MAX_BOOT_EVENTS, boot_notif. intros Hc He Hst. rewrite handleEvents_run, He, u16_small by (done || lia). cbv zeta.
  rewrite Z.add_0_r. unfold APM_MAX_BOOT_EVENTS. destruct (Z.ltb_spec 10 (m_bootCounter s + 1)).
  - by replace (m_bootCounter s) with 10 by lia.
  - rewrite Z.mod_small by lia. by rewrite (proj2 (Z.eqb_neq _ _)) by lia.
Qed.

Lemma boot_notif_shift c i : boot_notif ((c + 1) mod (APM_MAX_BOOT_EVENTS + 1)) i = boot_notif c (S i).
Proof.
  unfold boot_notif. replace (c + Z.of_nat (S i) + 1) with (c + 1 + (Z.of_nat i + 1)) by lia.
  by rewrite <- (Z.add_assoc (_ mod _)), Zplus_mod_idemp_l.
Qed.

(** ** Theorem *)

(** In a run of boot events, whatever else the event messages hold, the
    upper layer is told of a boot each time, except that every eleventh event
    in a row is reported as the loss of the AP; the counter is the number of
    events modulo eleven, and any other message resets it. *)
Theorem boot_storm (garbage : Z) (s : CAPMSerializer) (msgs : list (Z * Z * Z * list Z)) (cmd : Z) (data : list Z) :
  0 <= m_bootCounter s <= APM_MAX_BOOT_EVENTS ->
  Forall (fun '(ev, st, _, _) => Z.odd ev = true /\ is_byte st) msgs ->
  cmd <> DN_API_LOC_NOTIF_EVENTS ->
  let boots := map (fun '(ev, st, al, rest) => (DN_API_LOC_NOTIF_EVENTS, event_msg ev st al rest)) msgs in
  feedCmds garbage s boots =
    (mkAPMSerializer ((m_bootCounter s + Z.of_nat (length msgs)) mod (APM_MAX_BOOT_EVENTS + 1)),
     map (boot_notif (m_bootCounter s)) (seq 0 (length msgs))) /\
  m_bootCounter (fst (feedCmds garbage s (boots ++ [(cmd, data)]))) = 0.
Proof.
  intros Hc Hm Hcmd. revert s Hc. induction Hm as [|[[[ev st] al] rest] msgs [He Hst] _ IH]; intros s Hc boots.
  - split.
    + cbn. rewrite Z.add_0_r, Z.mod_small by (unfold APM_MAX_BOOT_EVENTS in *; lia). by destruct s.
    + cbn [app boots map feedCmds]. unfold handleCmd. rewrite (proj2 (Z.eqb_neq _ _) Hcmd). cbn [negb].
      repeat (destruct (_ =? _); [done|]). done.
  - destruct (IH (mkAPMSerializer ((m_bootCounter s + 1) mod (APM_MAX_BOOT_EVENTS + 1)))) as [IH1 IH2].
    { cbn [m_bootCounter]. pose proof (Z.mod_pos_bound (m_bootCounter s + 1) 11 ltac:(lia)).
      unfold APM_MAX_BOOT_EVENTS. change (10 + 1) with 11. lia. }
    unfold boots. cbn [map app feedCmds length seq].
    assert (Hh : handleCmd garbage s DN_API_LOC_NOTIF_EVENTS (event_msg ev st al rest) =
      (mkAPMSerializer ((m_bootCounter s + 1) mod (APM_MAX_BOOT_EVENTS + 1)), boot_notif (m_bootCounter s) 0, APC_OK)).
    { unfold handleCmd. rewrite Z.eqb_refl. cbn [negb]. by rewrite (boot_step s ev st al rest Hc He Hst). }
    rewrite Hh, IH1. cbn [m_bootCounter] in *. split.
    + f_equal; [f_equal; rewrite Zplus_mod_idemp_l; f_equal; lia|]. f_equal.
      rewrite <- (seq_shift (length msgs) 0), map_map. apply map_ext. intros i. apply boot_notif_shift.
    + destruct (feedCmds garbage _ (_ ++ [(cmd, data)])). exact IH2.
Qed.

Lemma boot_storm_witness :
  feedCmds 0 newCAPMSerializer (repeat (DN_API_LOC_NOTIF_EVENTS, event_msg 1 0 0 []) 12) =
    (mkAPMSerializer 1, repeat [NAPBoot] 10 ++ [[NAPLost]; [NAPBoot]]).
Proof.
  exact (proj1 (boot_storm 0 newCAPMSerializer (repeat (1, 0, 0, []) 12) DN_API_LOC_NOTIF_TXDONE []
    ltac:(vm_compute; intuition congruence) ltac:(repeat constructor; vm_compute; intuition congruence) ltac:(discriminate))).
Defined.
