(* ===== verification/ApmTransport.v ===== *)
(** Reliable transport between the APC and the access point over the serial
    port (APInterface/APMTransport.cpp, APMTransport.h).

    One command is outstanding at a time: it stays at the front of the queue
    until a response with its command id and the current packet id arrives.
    Notifications from the AP carry a packet id of their own and are
    acknowledged.  The lower layer (the serial port), the timers and the upper
    layer (the coupler) are reached through events; what the upper layer does to
    the transport in turn is a parameter ([reactFlow], [react]).

    An operation is one step here.  The code holds its lock for parts of an operation only: ApmThreads cuts the
    operations where the lock is released. *)
From stdpp Require Import base numbers list option strings.
From Stdlib Require Import ZArith Lia.
From S2P Require Import Prelude Common ApcProto ApmProto ApmSerializer.

Local Open Scope Z_scope.

(** ** Parameters *)
Definition DEFAULT_MAX_QUEUE_SIZE : Z := 16.
Definition DEFAULT_HIGH_QUEUE_WATERMARK : Z := 12.     (** [(uint16_t)(16 * .8)] *)
Definition DEFAULT_LOW_QUEUE_WATERMARK : Z := 6.       (** [(uint16_t)(16 * .4)] *)
Definition DEFAULT_PING_TIMEOUT : Z := 1500.
Definition DEFAULT_RETRY_DELAY : Z := 100.
Definition DEFAULT_RETRY_TIMEOUT : Z := 1200.
Definition DEFAULT_MAX_RETRIES : Z := 3.
Definition DEFAULT_MAX_MSG_SIZE : Z := 256.
Definition DEFAULT_MAX_PACKET_AGE : Z := 1500.

Record init_param_t : Set := mkTrParam {
  maxQueueSize : Z;
  highQueueWatermark : Z;
  lowQueueWatermark : Z;
  pingTimeout : Z;
  retryDelay : Z;
  retryTimeout : Z;
  maxRetries : Z;
  maxMsgSize : Z;
  maxPacketAge : Z
}.

Definition init_param_default : init_param_t :=
  mkTrParam DEFAULT_MAX_QUEUE_SIZE DEFAULT_HIGH_QUEUE_WATERMARK DEFAULT_LOW_QUEUE_WATERMARK
    DEFAULT_PING_TIMEOUT DEFAULT_RETRY_DELAY DEFAULT_RETRY_TIMEOUT DEFAULT_MAX_RETRIES
    DEFAULT_MAX_MSG_SIZE DEFAULT_MAX_PACKET_AGE.

(** The age is a [uint32_t] argument stored in a [uint16_t] field. *)
Definition init_param (aQueueSize aHigh aLow aPing aNackDelay aRetryTimeout aMaxRetries aMsgSize
  aPacketAge : Z) : init_param_t :=
  mkTrParam aQueueSize aHigh aLow aPing aNackDelay aRetryTimeout aMaxRetries aMsgSize (u16 aPacketAge).

(** ** Header of a message on the serial line *)
Record apt_hdr_s : Set := mkAptHdr { cmdId : Z; hlength : Z; flags : Z }.

Definition HDR_LENGTH : nat := 3.

Definition apt_hdr (id l f : Z) : apt_hdr_s := mkAptHdr id (u8 l) f.

Definition serialize (h : apt_hdr_s) : list Z := [cmdId h; Z.land (hlength h) 0xFF; flags h].

(** [parse]: the header and the number of bytes used, 0 if there are too few. *)
Definition parse (h : apt_hdr_s) (input : list Z) : apt_hdr_s * nat :=
  match input with
  | a :: b :: c :: _ => (mkAptHdr a b c, HDR_LENGTH)
  | _ => (h, 0%nat)
  end.

(** ** Statistics *)
Record APMTStats : Set := mkAPMTStats {
  m_minRspTime : Z;
  m_maxRspTime : Z;
  m_lastRspTime : Z;          (** microseconds *)
  m_numRespRecv : Z;
  m_totalRspTime : Z;
  m_numPktsSent : Z;
  m_numBytesSent : Z;
  m_numPktsRecv : Z;
  m_numBytesRecv : Z;
  m_numNacks : Z;
  m_numRetriesSent : Z;
  m_numRetriesRecv : Z;
  m_maxNackCount : Z;
  m_minTimeInQueue : Z;
  m_maxTimeInQueue : Z;
  m_totalTimeInQueue : Z;
  m_numPacketsQueued : Z;
  m_timeInQueue : Z;          (** microseconds *)
  m_packetRate : Z;
  m_30secPacketRate : Z;      (** packets in 30 seconds; the code divides by 30.0 *)
  m_5minPacketRate : Z;       (** packets in 5 minutes; the code divides by 300.0 *)
  m_totalSecs : Z
}.
#[export] Instance APMTStats_eta : Eta APMTStats := fun s =>
  mkAPMTStats (m_minRspTime s) (m_maxRspTime s) (m_lastRspTime s) (m_numRespRecv s) (m_totalRspTime s)
    (m_numPktsSent s) (m_numBytesSent s) (m_numPktsRecv s) (m_numBytesRecv s) (m_numNacks s)
    (m_numRetriesSent s) (m_numRetriesRecv s) (m_maxNackCount s) (m_minTimeInQueue s)
    (m_maxTimeInQueue s) (m_totalTimeInQueue s) (m_numPacketsQueued s) (m_timeInQueue s)
    (m_packetRate s) (m_30secPacketRate s) (m_5minPacketRate s) (m_totalSecs s).

Definition stats_reset : APMTStats :=
  mkAPMTStats 10000000 0 0 0 0 0 0 0 0 0 0 0 0 10000000 0 0 0 0 0 0 0 0.

(** ** State *)
Inductive apm_flow_control_t : Set := APM_FLOW_NORMAL | APM_FLOW_PAUSE.

#[export] Instance apm_flow_control_t_eq_dec : EqDecision apm_flow_control_t.
Proof. solve_decision. Defined.

(** A callback of a command: none, [handleDisconnectErrorResponse_p], or one
    that the caller supplied, by number. *)
Inductive callback : Set := CbNone | CbDisconnectErr | CbUser (n : Z).

Record APMCommand : Set := mkCommand {
  c_cmdId : Z;
  c_payload : list Z;
  c_isSynch : bool;
  c_resCallback : callback;
  c_errResCallback : callback;
  c_timestamp : Z
}.

Record CAPMTransport : Set := mkTransport {
  m_cmdHandler : CAPMSerializer;
  m_init_params : init_param_t;
  m_curRetryCount : Z;
  m_curNackCount : Z;
  m_respPacketId : Z;
  m_notifPacketId : Z;
  m_pending : bool;
  m_outputQueue : list APMCommand;
  m_capacity : nat;                    (** of the circular buffer *)
  m_sendTime : Z;
  m_stats : APMTStats;
  m_apInputState : apm_flow_control_t;
  m_mngrInputState : apm_flow_control_t;
  m_isMngrConnected : bool;
  m_isApConnected : bool;
  m_isRunning : bool;
  m_netId : Z;
  m_reconnectSerial : bool;
  m_abortEnabled : bool;
  m_outputTimer : bool;                (** a wait is pending *)
  m_pingTimer : bool;
  m_queueCheckTimer : bool;
  last_numNotifRecv : Z;
  numNotifRecv_30sec_ago : Z;
  numNotifRecv_5min_ago : Z
}.
#[export] Instance CAPMTransport_eta : Eta CAPMTransport := fun t =>
  mkTransport (m_cmdHandler t) (m_init_params t) (m_curRetryCount t) (m_curNackCount t)
    (m_respPacketId t) (m_notifPacketId t) (m_pending t) (m_outputQueue t) (m_capacity t)
    (m_sendTime t) (m_stats t) (m_apInputState t) (m_mngrInputState t) (m_isMngrConnected t)
    (m_isApConnected t) (m_isRunning t) (m_netId t) (m_reconnectSerial t) (m_abortEnabled t)
    (m_outputTimer t) (m_pingTimer t) (m_queueCheckTimer t) (last_numNotifRecv t)
    (numNotifRecv_30sec_ago t) (numNotifRecv_5min_ago t).

Definition newCAPMTransport (bReconnectSerial : bool) : CAPMTransport :=
  mkTransport newCAPMSerializer init_param_default 0 0 0 0 false [] 0 0 stats_reset
    APM_FLOW_NORMAL APM_FLOW_NORMAL false false false 0 bReconnectSerial true false false false 0 0 0.

(** Calls on the upper layer that control the flow (IAPMNotifHandler). *)
Inductive flow_notif : Set := FlAPLost | FlAPPause | FlAPResume.

(** Everything the transport does outside its own state. *)
Inductive tr_event : Set :=
| EvNotif (n : apm_notif)                 (** a call on the upper layer *)
| EvFlow (f : flow_notif)
| EvReboot                                (** [handleAPReboot] *)
| EvOut (frame : list Z)                  (** [handleData] of the serial port *)
| EvResetAP | EvClosePort | EvOpenPort | EvRestart
| EvRespCb (cb cmd : Z) (data : list Z)
| EvErrCb (cb cmd rc : Z)
| EvOverread (pos : nat)                  (** a read past the end of a message *)
| EvStopNode.

Notation TM := (M CAPMTransport tr_event) (only parsing).

(** What one call meets: the clock (microseconds), whether the serial port is
    ready, the value of bytes past a message, and how many of the three calls
    that reopen the port complete before one throws. *)
Record TrEnv : Set := mkTrEnv {
  te_now : Z;
  te_ready : bool;
  te_garbage : Z;
  te_portCalls : nat
}.

(** ** Timers *)
Definition startRetryTimer : TM unit := modify (fun t => t <| m_outputTimer := true |>).
Definition stopRetryTimer : TM unit :=
  modify (fun t => t <| m_curRetryCount := 0 |> <| m_outputTimer := false |>).
Definition startNackRetryTimer : TM unit := modify (fun t => t <| m_outputTimer := true |>).
Definition startPingTimer : TM unit := modify (fun t => t <| m_pingTimer := true |>).
Definition stopPingTimer : TM unit := modify (fun t => t <| m_pingTimer := false |>).
Definition startQueueCheckTimer : TM unit := modify (fun t => t <| m_queueCheckTimer := true |>).
Definition stopQueueCheckTimer : TM unit := modify (fun t => t <| m_queueCheckTimer := false |>).

Definition upd_stats (f : APMTStats -> APMTStats) : TM unit :=
  modify (fun t => t <| m_stats := f (m_stats t) |>).

Definition open (param : init_param_t) : TM unit :=
  modify (fun t => t <| m_init_params := param |> <| m_capacity := Z.to_nat (maxQueueSize param) |>
                     <| m_outputQueue := take (Z.to_nat (maxQueueSize param)) (m_outputQueue t) |>).

Definition stop : TM unit := stopRetryTimer ;; stopPingTimer ;; stopQueueCheckTimer.

Definition queueSize (t : CAPMTransport) : Z := Z.of_nat (length (m_outputQueue t)).

(** ** Sending

    The serial port object is always given: [send] uses it before the check in
    [sendCommand] could fail. *)
Definition sendCommand (env : TrEnv) (cmd : APMCommand) : TM unit :=
  t ← get;
  let f := m_respPacketId t in
  let f := if c_isSynch cmd then Z.lor f 8 else f in
  let hdr := apt_hdr (c_cmdId cmd) (Z.of_nat (length (c_payload cmd))) f in
  modify (fun t => t <| m_sendTime := te_now env |>) ;;
  upd_stats (fun s => s <| m_numBytesSent := u32 (m_numBytesSent s + Z.of_nat (length (c_payload cmd))) |>) ;;
  modify (fun t => t <| m_pending := true |>) ;;
  emit (EvOut (serialize hdr ++ c_payload cmd)) ;;
  startRetryTimer ;;
  startPingTimer.

Definition send (env : TrEnv) (isNew : bool) : TM unit :=
  if negb (te_ready env) then mret tt
  else
    t ← get;
    match m_outputQueue t with
    | [] => mret tt
    | cmd :: _ =>
        if (isNew && m_pending t) || (negb isNew && negb (m_pending t)) then mret tt
        else sendCommand env cmd
    end.

Definition sendRetry (env : TrEnv) : TM unit := send env false.

Definition sendAck (notifId pktId rc : Z) : TM unit :=
  upd_stats (fun s => s <| m_numBytesSent := u32 (m_numBytesSent s + 1) |>
                        <| m_numPktsSent := u32 (m_numPktsSent s + 1) |>) ;;
  emit (EvOut (serialize (apt_hdr notifId 0 (Z.lor 1 pktId)) ++ [u8 rc])).

(** Result codes of the APC, as the return code of an acknowledgement. *)
Definition apc_error_val (e : apc_error_t) : Z :=
  match e with
  | APC_OK => 0 | APC_STOP_CONNECTOR => 1 | APC_ERR_INIT => 2 | APC_ERR_SIZE => 3
  | APC_ERR_OUTBUFOVERFLOW => 4 | APC_ERR_UNCONFIRMED_PKT => 5 | APC_ERR_IO => 6
  | APC_ERR_ASYNC_OPERATION => 7 | APC_ERR_STATE => 8 | APC_ERR_PROTOCOL => 9
  | APC_ERR_NOTFOUND => 10 | APC_ERR_PKTSERIALIZATION => 11 | APC_ERR_NOTCONNECT => 12
  | APC_ERR_DISCONNECT => 13 | APC_ERR_OFFLINE => 14 | APC_ERR_CONNECT => 15
  end.

(** ** Join and connection state *)
Definition setJoinProcessState_p (isConnected : bool) : TM bool :=
  modify (fun t => t <| m_isMngrConnected := isConnected |>) ;;
  gets (fun t => m_isMngrConnected t && m_isApConnected t).

Definition setAPConnectionState_p (isConnected : bool) : TM bool :=
  modify (fun t => t <| m_isApConnected := isConnected |>) ;;
  gets (fun t => m_isMngrConnected t && m_isApConnected t).

Definition hwResetAP : TM unit :=
  modify (fun t => t <| m_isRunning := false |>) ;; emit EvResetAP.

Definition setAPMState (newstate : apm_flow_control_t) : TM unit :=
  modify (fun t => t <| m_apInputState := newstate |>).
Definition enableAbort : TM unit := modify (fun t => t <| m_abortEnabled := true |>).
Definition disableAbort : TM unit := modify (fun t => t <| m_abortEnabled := false |>).
Definition disableJoin : TM unit := _ ← setJoinProcessState_p false; mret tt.

Definition clearOutputQueue : TM unit :=
  modify (fun t => t <| m_outputQueue := [] |>) ;;
  stopRetryTimer ;; stopPingTimer ;;
  modify (fun t => t <| m_respPacketId := 0 |> <| m_notifPacketId := 0 |> <| m_pending := false |>
                     <| m_apInputState := APM_FLOW_NORMAL |> <| m_mngrInputState := APM_FLOW_NORMAL |>).

(** ** Operations that call the upper layer

    [reactFlow] and [react]: what the upper layer does to the transport during
    such a call. *)
Section Reactions.
Context (reactFlow : flow_notif -> TM unit).

Definition flow (f : flow_notif) : TM unit := emit (EvFlow f) ;; reactFlow f.

Definition sendAPLostNotif_p : TM unit :=
  flow FlAPLost ;;
  _ ← setAPConnectionState_p false;
  modify (fun t => t <| m_isRunning := false |>).

Definition full (t : CAPMTransport) : bool := (length (m_outputQueue t) =? m_capacity t)%nat.

Definition enqueue (isHighPriority : bool) (cmd : APMCommand) : TM unit :=
  upd_stats (fun s => s <| m_numPacketsQueued := u32 (m_numPacketsQueued s + 1) |>) ;;
  modify (fun t => t <| m_outputQueue :=
    if isHighPriority then cmd :: m_outputQueue t else m_outputQueue t ++ [cmd] |>).

Definition insertMsg (env : TrEnv) (cmd : Z) (data : list Z) (isHighPriority : bool)
  (resCallback errRespCallback : callback) (isSynch : bool) : TM apc_error_t :=
  if negb (te_ready env) then sendAPLostNotif_p ;; mret APC_ERR_STATE
  else
    t ← get;
    if full t then mret APC_ERR_OUTBUFOVERFLOW
    else
      enqueue isHighPriority (mkCommand cmd data isSynch resCallback errRespCallback (te_now env)) ;;
      t ← get;
      let atHighWatermark := highQueueWatermark (m_init_params t) <=? queueSize t in
      send env true ;;
      t ← get;
      when (bool_decide (m_mngrInputState t = APM_FLOW_NORMAL) && atHighWatermark)
        (flow FlAPPause ;; modify (fun t => t <| m_mngrInputState := APM_FLOW_PAUSE |>)) ;;
      t ← get;
      when (0 <? queueSize t) startQueueCheckTimer ;;
      mret APC_OK.

(** A message without callbacks, as most callers send it. *)
Definition insertCmd (env : TrEnv) (cmd : Z) (data : list Z) (isHighPriority : bool) : TM apc_error_t :=
  insertMsg env cmd data isHighPriority CbNone CbNone false.

Definition sendMgrResume : TM unit :=
  t ← get;
  when (bool_decide (m_mngrInputState t = APM_FLOW_PAUSE))
    (flow FlAPResume ;; modify (fun t => t <| m_mngrInputState := APM_FLOW_NORMAL |>)).

(** Times are microseconds; ages are compared in milliseconds. *)
Definition handleQueueCheckTimeout (env : TrEnv) (error : bool) : TM unit :=
  if error then mret tt
  else
    t ← get;
    match m_outputQueue t with
    | [] => sendMgrResume
    | c :: _ =>
        (if bool_decide (m_mngrInputState t = APM_FLOW_NORMAL) then
           let diff := u32 (Z.quot (te_now env - c_timestamp c) 1000) in
           when (maxPacketAge (m_init_params t) <? diff)
             (flow FlAPPause ;; modify (fun t => t <| m_mngrInputState := APM_FLOW_PAUSE |>))
         else mret tt) ;;
        startQueueCheckTimer
    end.

(** Reopening the serial port; the calls stop at one that throws. *)
Definition reopenPort (env : TrEnv) : TM unit :=
  fold_right (fun e m => emit e ;; m) (mret tt)
    (take (te_portCalls env) [EvClosePort; EvOpenPort; EvRestart]).

Definition handleRetryTimeout (env : TrEnv) (error : bool) : TM unit :=
  if error then mret tt
  else
    t ← get;
    if m_curRetryCount t <? maxRetries (m_init_params t) then
      when (m_reconnectSerial t && (0 <? m_curRetryCount t)) (reopenPort env) ;;
      sendRetry env ;;
      upd_stats (fun s => s <| m_numRetriesSent := u32 (m_numRetriesSent s + 1) |>) ;;
      modify (fun t => t <| m_curRetryCount := u32 (m_curRetryCount t + 1) |>) ;;
      startRetryTimer
    else
      stopPingTimer ;;
      when (m_abortEnabled t)
        (sendAPLostNotif_p ;; hwResetAP ;; when (m_reconnectSerial t) (emit EvStopNode)).

Definition sendPing (env : TrEnv) : TM apc_error_t :=
  insertCmd env DN_API_LOC_CMD_GETPARAM [DN_API_PARAM_MACADDR] false.

Definition handlePingTimeout (env : TrEnv) (error : bool) : TM unit :=
  if error then mret tt
  else
    t ← get;
    when (queueSize t =? 0) (_ ← sendPing env; mret tt) ;;
    startPingTimer.

Definition disconnectAP (env : TrEnv) (isSinchBit : bool) : TM unit :=
  _ ← insertMsg env DN_API_LOC_CMD_DISCONNECT [] true CbNone CbDisconnectErr isSinchBit; mret tt.

Definition startJoin_p (env : TrEnv) : TM unit :=
  _ ← insertCmd env DN_API_LOC_CMD_GETPARAM [DN_API_PARAM_MACADDR] false;
  t ← get;
  let param := le_bytes 1 DN_API_PARAM_NETID ++ le_bytes 2 (bswap 2 (u16 (m_netId t))) in
  _ ← insertCmd env DN_API_LOC_CMD_SETPARAM param false;
  _ ← insertCmd env DN_API_LOC_CMD_JOIN [] false;
  modify (fun t => t <| m_isRunning := true |>).

Definition enableJoin (env : TrEnv) (netId : Z) : TM unit :=
  modify (fun t => t <| m_netId := netId |>) ;;
  b ← setJoinProcessState_p true;
  when b (startJoin_p env).

Context (react : apm_notif -> TM unit) (reactReboot : TM unit).

Definition handleAPBoot (env : TrEnv) : TM unit :=
  clearOutputQueue ;;
  t ← get;
  if negb (m_isRunning t) then
    emit (EvNotif NAPBoot) ;; react NAPBoot ;;
    b ← setAPConnectionState_p true;
    when b (startJoin_p env)
  else
    emit EvReboot ;; reactReboot ;;
    modify (fun t => t <| m_isRunning := false |>).

(** The transport as the serializer's notification handler. *)
Definition notify (env : TrEnv) (n : apm_notif) : TM unit :=
  match n with
  | NAPLost => sendAPLostNotif_p
  | NAPBoot => handleAPBoot env
  | _ => emit (EvNotif n) ;; react n
  end.

Definition overreads (cmd : Z) (data : list Z) : list tr_event :=
  map EvOverread (filter (fun i => length data <= i)%nat (uncheckedReads cmd)).

Definition emits (l : list tr_event) : TM unit := fold_right (fun e m => emit e ;; m) (mret tt) l.

Fixpoint notifyAll (env : TrEnv) (l : list apm_notif) : TM unit :=
  match l with
  | [] => mret tt
  | n :: l => notify env n ;; notifyAll env l
  end.

Definition cmdHandler (env : TrEnv) (cmd : Z) (data : list Z) : TM apc_error_t :=
  emits (overreads cmd data) ;;
  t ← get;
  let '(s, ns, res) := handleCmd (te_garbage env) (m_cmdHandler t) cmd data in
  modify (fun t => t <| m_cmdHandler := s |>) ;;
  notifyAll env ns ;;
  mret res.

(** ** Receiving *)
Definition isCb (c : callback) : bool := match c with CbNone => false | _ => true end.

Definition callResponse (cb : callback) (cmd : Z) (data : list Z) : TM unit :=
  match cb with
  | CbUser n => emit (EvRespCb n cmd data)
  | _ => mret tt
  end.

Definition callError (cb : callback) (cmd rc : Z) : TM unit :=
  match cb with
  | CbUser n => emit (EvErrCb n cmd rc)
  | CbDisconnectErr => emit EvResetAP      (** [handleDisconnectErrorResponse_p] *)
  | CbNone => mret tt
  end.

Definition countResponse (env : TrEnv) (size : nat) : TM unit :=
  t ← get;
  let last := te_now env - m_sendTime t in
  let cur := u64 last in
  upd_stats (fun s => s
    <| m_numRespRecv := u32 (m_numRespRecv s + 1) |> <| m_lastRspTime := last |>
    <| m_totalRspTime := u64 (m_totalRspTime s + cur) |>
    <| m_minRspTime := Z.min cur (m_minRspTime s) |> <| m_maxRspTime := Z.max cur (m_maxRspTime s) |>
    <| m_numBytesRecv := u32 (m_numBytesRecv s + Z.of_nat size) |>
    <| m_numPktsRecv := u32 (m_numPktsRecv s + 1) |>).

(** The queue after a response with result [rc] to its front [cmd]; the result
    tells whether it fell below the low watermark. *)
Definition settle (env : TrEnv) (cmd : APMCommand) (rc : Z) : TM bool :=
  if rc =? DN_API_RC_NO_RESOURCES then
    modify (fun t => t <| m_curNackCount := u32 (m_curNackCount t + 1) |>) ;;
    t ← get;
    upd_stats (fun s => s <| m_numNacks := u32 (m_numNacks s + 1) |>
                          <| m_maxNackCount := Z.max (m_curNackCount t) (m_maxNackCount s) |>) ;;
    startNackRetryTimer ;;
    mret false
  else
    let cur := u64 (te_now env - c_timestamp cmd) in
    upd_stats (fun s => s <| m_timeInQueue := te_now env - c_timestamp cmd |>
      <| m_totalTimeInQueue := u64 (m_totalTimeInQueue s + cur) |>
      <| m_minTimeInQueue := Z.min cur (m_minTimeInQueue s) |>
      <| m_maxTimeInQueue := Z.max cur (m_maxTimeInQueue s) |>
      <| m_numPktsSent := u32 (m_numPktsSent s + 1) |>) ;;
    modify (fun t => t <| m_outputQueue := tail (m_outputQueue t) |> <| m_curNackCount := 0 |>
                       <| m_pending := false |>) ;;
    gets (fun t => queueSize t <? lowQueueWatermark (m_init_params t)).

(** What is done with the result: callbacks of the command, or the serializer. *)
Definition deliverResponse (env : TrEnv) (cmd : APMCommand) (id rc : Z) (data : list Z) : TM apc_error_t :=
  if rc =? DN_API_RC_OK then
    if (1 <? length data)%nat then
      if isCb (c_resCallback cmd) then callResponse (c_resCallback cmd) id data ;; mret APC_OK
      else cmdHandler env id data
    else mret APC_OK
  else
    (if isCb (c_errResCallback cmd) then callError (c_errResCallback cmd) id rc
     else notifyAll env (handleError id rc)) ;;
    mret APC_OK.

(** [rc] is [data[0]], read before any check of the length. *)
Definition handleResponse (env : TrEnv) (id : Z) (data : list Z) : TM apc_error_t :=
  stopRetryTimer ;;
  countResponse env (length data) ;;
  emits (if (length data =? 0)%nat then [EvOverread 0] else []) ;;
  let rc := default (te_garbage env) (data !! 0%nat) in
  modify (fun t => t <| m_respPacketId := Z.lxor (m_respPacketId t) (Z.shiftl 1 1) |>) ;;
  t ← get;
  match m_outputQueue t with
  | [] => mret APC_ERR_STATE
  | cmd :: _ =>
      belowLowWatermark ← settle env cmd rc;
      t ← get;
      when (bool_decide (m_mngrInputState t = APM_FLOW_PAUSE) && belowLowWatermark)
        (flow FlAPResume ;; modify (fun t => t <| m_mngrInputState := APM_FLOW_NORMAL |>)) ;;
      res ← deliverResponse env cmd id rc data;
      send env true ;;
      mret res
  end.

Definition countNotification (size : nat) : TM unit :=
  upd_stats (fun s => s <| m_numBytesRecv := u32 (m_numBytesRecv s + Z.of_nat size) |>
                        <| m_numPktsRecv := u32 (m_numPktsRecv s + 1) |>).

Definition handleNotification (env : TrEnv) (hdr : apt_hdr_s) (data : list Z) : TM apc_error_t :=
  let pktId := Z.land (flags hdr) 2 in
  let isSync := 0 <? Z.land (flags hdr) 8 in
  t ← get;
  if negb (pktId =? m_notifPacketId t) || isSync then
    countNotification (length data) ;;
    if bool_decide (m_apInputState t = APM_FLOW_PAUSE) && (cmdId hdr =? DN_API_LOC_NOTIF_AP_RECEIVE) then
      sendAck (cmdId hdr) pktId DN_API_RC_NO_RESOURCES ;; mret APC_ERR_STATE
    else
      res ← cmdHandler env (cmdId hdr) data;
      when (bool_decide (res = APC_OK)) (modify (fun t => t <| m_notifPacketId := pktId |>)) ;;
      sendAck (cmdId hdr) pktId (apc_error_val res) ;;
      mret res
  else
    upd_stats (fun s => s <| m_numRetriesRecv := u32 (m_numRetriesRecv s + 1) |>) ;;
    sendAck (cmdId hdr) pktId (apc_error_val APC_OK) ;;
    mret APC_OK.

Definition handleMsg (env : TrEnv) (hdr : apt_hdr_s) (data : list Z) : TM apc_error_t :=
  let isResp := negb (Z.land (flags hdr) 1 =? 0) in
  let pktId := Z.land (flags hdr) 2 in
  if isResp then
    t ← get;
    match m_outputQueue t with
    | [] => mret APC_OK
    | cmd :: _ =>
        if negb (cmdId hdr =? c_cmdId cmd) then mret APC_OK
        else if negb (pktId =? m_respPacketId t) then mret APC_OK
        else handleResponse env (cmdId hdr) data
    end
  else handleNotification env hdr data.

(** The whole frame from the serial port. *)
Definition dataReceived (env : TrEnv) (data : list Z) : TM apc_error_t :=
  startPingTimer ;;
  match parse (mkAptHdr 0 0 0) data with
  | (_, O) => mret APC_ERR_SIZE
  | (hdr, n) => handleMsg env hdr (drop n data)
  end.
End Reactions.

(** Once a second; the error code is not looked at. *)
Definition handlePPSTimeout : TM unit :=
  t ← get;
  let numNotifRecv := u32 (m_numPktsRecv (m_stats t) - m_numRespRecv (m_stats t)) in
  upd_stats (fun s => s <| m_packetRate := u32 (numNotifRecv - last_numNotifRecv t) |>
                        <| m_totalSecs := u32 (m_totalSecs s + 1) |>) ;;
  modify (fun t => t <| last_numNotifRecv := numNotifRecv |>) ;;
  t ← get;
  when (m_totalSecs (m_stats t) mod 30 =? 0)
    (upd_stats (fun s => s <| m_30secPacketRate := u32 (numNotifRecv - numNotifRecv_30sec_ago t) |>) ;;
     modify (fun t => t <| numNotifRecv_30sec_ago := numNotifRecv |>)) ;;
  when (m_totalSecs (m_stats t) mod 300 =? 0)
    (upd_stats (fun s => s <| m_5minPacketRate := u32 (numNotifRecv - numNotifRecv_5min_ago t) |>) ;;
     modify (fun t => t <| numNotifRecv_5min_ago := numNotifRecv |>)).

(** ** Operations of the transport, as its clients and timers call them

    Calls that the upper layer makes, from its own threads or while it is
    being notified. *)
Inductive up_call : Set :=
| UcInsert (env : TrEnv) (cmd : Z) (data : list Z) (isHigh : bool) (cb ecb : callback) (isSynch : bool)
| UcEnableJoin (env : TrEnv) (netId : Z)
| UcDisableJoin
| UcDisconnect (env : TrEnv) (isSinchBit : bool)
| UcHwReset
| UcSetAPMState (st : apm_flow_control_t)
| UcAbort (enable : bool).

Inductive tr_op : Set :=
| OpCall (c : up_call)
| OpAPLost                                    (** [handleAPLost] *)
| OpData (env : TrEnv) (data : list Z)        (** a frame from the serial port *)
| OpRetryExpires (env : TrEnv)                (** the pending wait of the output timer ends *)
| OpRetryStale (env : TrEnv) (error : bool)   (** a handler of an earlier wait runs *)
| OpPing (env : TrEnv) (error : bool)
| OpQueueCheck (env : TrEnv) (error : bool)
| OpPPS.

(** What of an event shows at the interfaces: notifications of the upper layer ... *)
Definition told (e : tr_event) : list apm_notif :=
  match e with EvNotif n => [n] | _ => [] end.

(** ... and acknowledgements on the line: command id, packet id and result. *)
Definition ack_of (e : tr_event) : option (Z * Z * Z) :=
  match e with
  | EvOut (c :: _ :: f :: rc :: _) => if Z.odd f then Some (c, Z.land f 2, rc) else None
  | _ => None
  end.

Definition quiet (e : tr_event) : Prop := told e = [] /\ ack_of e = None.

(** The interface that the transport relies on: while it is told about the flow,
    the upper layer only enables or disables joining, and sends nothing. *)
Class FlowHandler (reactFlow : flow_notif -> TM unit) : Prop := {
  flow_frame : forall f t, exists b, st_of (reactFlow f) t = t <| m_isMngrConnected := b |>;
  flow_quiet : forall f t, Forall quiet (out_of (reactFlow f) t)
}.

Section Operations.
Context (reactFlow : flow_notif -> TM unit) (upper : option apm_notif -> CAPMTransport -> list up_call).

Definition upCall (c : up_call) : TM unit :=
  match c with
  | UcInsert env cmd data hi cb ecb sy => _ ← insertMsg reactFlow env cmd data hi cb ecb sy; mret tt
  | UcEnableJoin env netId => enableJoin reactFlow env netId
  | UcDisableJoin => disableJoin
  | UcDisconnect env b => disconnectAP reactFlow env b
  | UcHwReset => hwResetAP
  | UcSetAPMState st => setAPMState st
  | UcAbort b => if b then enableAbort else disableAbort
  end.

Fixpoint upCalls (l : list up_call) : TM unit :=
  match l with [] => mret tt | c :: l => upCall c ;; upCalls l end.

(** While it is notified, the upper layer makes the calls it chooses; [None]: [handleAPReboot]. *)
Definition reaction (n : option apm_notif) : TM unit := t ← get; upCalls (upper n t).

Definition exec (op : tr_op) : TM unit :=
  match op with
  | OpCall c => upCall c
  | OpAPLost => sendAPLostNotif_p reactFlow
  | OpData env data =>
      _ ← dataReceived reactFlow (fun n => reaction (Some n)) (reaction None) env data; mret tt
  | OpRetryExpires env =>
      t ← get;
      when (m_outputTimer t)
        (modify (fun t => t <| m_outputTimer := false |>) ;; handleRetryTimeout reactFlow env false)
  | OpRetryStale env error => handleRetryTimeout reactFlow env error
  | OpPing env error => handlePingTimeout reactFlow env error
  | OpQueueCheck env error => handleQueueCheckTimeout reactFlow env error
  | OpPPS => handlePPSTimeout
  end.

Fixpoint execs (l : list tr_op) : TM unit :=
  match l with [] => mret tt | op :: l => exec op ;; execs l end.
End Operations.

(** Operations during each of which the upper layer reacts in a way of its own: it has
    a state, which the transport does not see. *)
Notation upper_t := (option apm_notif -> CAPMTransport -> list up_call).

Fixpoint runs (reactFlow : flow_notif -> TM unit) (l : list (upper_t * tr_op)) : TM unit :=
  match l with [] => mret tt | (upper, op) :: l => exec reactFlow upper op ;; runs reactFlow l end.

(** The states a transport opened with parameters [p] can be in, whatever an upper
    layer does in each step. *)
Inductive tr_reachable (p : init_param_t) : CAPMTransport -> Prop :=
| Tr_open bReconnect : tr_reachable p (st_of (open p) (newCAPMTransport bReconnect))
| Tr_step t op reactFlow upper :
    FlowHandler reactFlow -> tr_reachable p t -> tr_reachable p (st_of (exec reactFlow upper op) t).

(** ** Facts *)
Definition any_tr_event (e : tr_event) : Prop := True.

Definition is_pktId (z : Z) : Prop := z = 0 \/ z = 2.

Lemma land2_pktId x : is_pktId (Z.land x 2).
Proof.
  assert (Z.land x 2 = if Z.testbit x 1 then 2 else 0) as ->.
  { apply Z.bits_inj'; intros n Hn. rewrite Z.land_spec. change 2 with (2 ^ 1).
    rewrite Z.pow2_bits_eqb by lia. destruct (Z.eqb_spec 1 n) as [<-|Hne].
    - destruct (Z.testbit x 1); [by rewrite Z.pow2_bits_true by lia|by rewrite Z.bits_0].
    - rewrite andb_false_r. destruct (Z.testbit x 1); [by rewrite Z.pow2_bits_false by lia|by rewrite Z.bits_0]. }
  destruct (Z.testbit x 1); [by right|by left].
Qed.

Lemma toggle_pktId x : is_pktId x -> is_pktId (Z.lxor x (Z.shiftl 1 1)).
Proof. intros [->| ->]; [by right|by left]. Qed.

Lemma toggle_ne x : is_pktId x -> Z.lxor x (Z.shiftl 1 1) <> x.
Proof. by intros [->| ->]. Qed.

(** The parameters are as [open] got them: watermarks in order. *)
Record param_ok (p : init_param_t) : Prop := {
  po_queue : 0 <= maxQueueSize p < 2 ^ 16;
  po_marks : 0 < highQueueWatermark p /\ lowQueueWatermark p <= highQueueWatermark p;
  po_retries : 0 <= maxRetries p < 2 ^ 16
}.

(** The part of the invariant that holds at every point of every operation. *)
Record tr_core (p : init_param_t) (t : CAPMTransport) : Prop := {
  tc_params : m_init_params t = p;
  tc_cap : m_capacity t = Z.to_nat (maxQueueSize p);
  tc_len : (length (m_outputQueue t) <= m_capacity t)%nat;
  tc_resp : is_pktId (m_respPacketId t);
  tc_notif : is_pktId (m_notifPacketId t);
  tc_pending : m_pending t = true -> m_outputQueue t <> [];
  tc_retry : 0 <= m_curRetryCount t <= maxRetries p
}.

(** A command in flight is watched by the retry timer until the retries are used up. *)
Definition timer_ok (p : init_param_t) (t : CAPMTransport) : Prop :=
  m_pending t = true -> m_outputTimer t = true \/ maxRetries p <= m_curRetryCount t.

(** The manager is not left sending above the high watermark. *)
Definition flow_ok (p : init_param_t) (t : CAPMTransport) : Prop :=
  m_mngrInputState t = APM_FLOW_NORMAL -> queueSize t < highQueueWatermark p.

Definition tr_inv (p : init_param_t) (t : CAPMTransport) : Prop :=
  tr_core p t /\ timer_ok p t /\ flow_ok p t.

Lemma tr_core_upd p t t' :
  tr_core p t -> m_init_params t' = m_init_params t -> m_capacity t' = m_capacity t ->
  m_outputQueue t' = m_outputQueue t -> m_respPacketId t' = m_respPacketId t ->
  m_notifPacketId t' = m_notifPacketId t -> m_pending t' = m_pending t ->
  m_curRetryCount t' = m_curRetryCount t -> tr_core p t'.
Proof.
  intros [H1 H2 H3 H4 H5 H6 H7] E1 E2 E3 E4 E5 E6 E7.
  split; rewrite ?E1, ?E2, ?E3, ?E4, ?E5, ?E6, ?E7; done.
Qed.

Lemma tr_inv_upd p t t' :
  tr_inv p t -> m_init_params t' = m_init_params t -> m_capacity t' = m_capacity t ->
  m_outputQueue t' = m_outputQueue t -> m_respPacketId t' = m_respPacketId t ->
  m_notifPacketId t' = m_notifPacketId t -> m_pending t' = m_pending t ->
  m_curRetryCount t' = m_curRetryCount t -> m_outputTimer t' = m_outputTimer t ->
  m_mngrInputState t' = m_mngrInputState t -> tr_inv p t'.
Proof.
  intros (H1 & H2 & H3) E1 E2 E3 E4 E5 E6 E7 E8 E9. split_and!.
  - by eapply tr_core_upd.
  - unfold timer_ok. by rewrite E6, E7, E8.
  - unfold flow_ok, queueSize. by rewrite E3, E9.
Qed.

Lemma open_inv p b : param_ok p -> tr_inv p (st_of (open p) (newCAPMTransport b)).
Proof.
  intros [H1 H2 H3].
  split_and!; [split|..]; cbn [st_of open modify newCAPMTransport fst m_init_params m_capacity m_outputQueue
    m_respPacketId m_notifPacketId m_pending m_curRetryCount upd]; rewrite ?take_nil; cbn [length]; try done; try lia.
  - by left.
  - by left.
  - intros _. unfold queueSize. cbn [m_outputQueue upd length]. lia.
Qed.

(** *** Sending *)
Definition frame (t : CAPMTransport) (cmd : APMCommand) : list Z :=
  serialize (apt_hdr (c_cmdId cmd) (Z.of_nat (length (c_payload cmd)))
    (if c_isSynch cmd then Z.lor (m_respPacketId t) 8 else m_respPacketId t)) ++ c_payload cmd.

Definition sent_state (env : TrEnv) (cmd : APMCommand) (t : CAPMTransport) : CAPMTransport :=
  st_of (sendCommand env cmd) t.

Lemma sendCommand_run env cmd t :
  sendCommand env cmd t = (sent_state env cmd t, [EvOut (frame t cmd)], tt).
Proof. reflexivity. Qed.

Lemma send_run env b t :
  send env b t = (t, [], tt) \/
  exists cmd q, m_outputQueue t = cmd :: q /\ m_pending t = negb b /\ te_ready env = true /\
    send env b t = (sent_state env cmd t, [EvOut (frame t cmd)], tt).
Proof.
  unfold send. destruct (te_ready env); cbn [negb]; [|by left]. runM.
  destruct (m_outputQueue t) as [|cmd q]; [by left|].
  destruct b, (m_pending t) eqn:Hp; cbn [andb orb negb]; try (by left); right; exists cmd, q;
    split_and!; (done || reflexivity).
Qed.

Lemma send_inv p env b : trans (tr_core p) (tr_core p) (send env b) /\ trans (tr_inv p) (tr_inv p) (send env b).
Proof.
  split; intros t Ht; unfold st_of; destruct (send_run env b t) as [->|(cmd & q & Hq & Hp & _ & ->)]; try done;
    cbn [fst].
  - destruct Ht. split; try done. intros _. change (m_outputQueue t <> []). by rewrite Hq.
  - destruct Ht as ([] & H2 & H3). split_and!; [split; try done|..].
    + intros _. change (m_outputQueue t <> []). by rewrite Hq.
    + by left.
    + exact H3.
Qed.

(** What sending does not touch. *)
Lemma send_frame env b t :
  m_outputQueue (st_of (send env b) t) = m_outputQueue t /\
  m_mngrInputState (st_of (send env b) t) = m_mngrInputState t /\
  m_init_params (st_of (send env b) t) = m_init_params t.
Proof. unfold st_of. by destruct (send_run env b t) as [->|(cmd & q & Hq & Hp & _ & ->)]. Qed.

(** *** Operations that call the upper layer *)
Section Invariant.
Context (p : init_param_t) (Hparam : param_ok p) (reactFlow : flow_notif -> TM unit).

Context {HF : FlowHandler reactFlow}.

Lemma flow_run f t : exists b, st_of (flow reactFlow f) t = t <| m_isMngrConnected := b |>.
Proof. unfold flow, st_of. rewrite run_bind. apply flow_frame. Qed.

Lemma flow_inv f : trans (tr_inv p) (tr_inv p) (flow reactFlow f).
Proof. intros t Ht. destruct (flow_run f t) as [b ->]. by eapply tr_inv_upd. Qed.

(** A flow notification followed by the change of state it announces. *)
Lemma flow_set f st t :
  (tr_core p t /\ timer_ok p t) -> (st = APM_FLOW_NORMAL -> queueSize t < highQueueWatermark p) ->
  tr_inv p (st_of (flow reactFlow f ;; modify (fun t => t <| m_mngrInputState := st |>)) t).
Proof.
  intros [H1 H2] Hst. unfold st_of. rewrite run_bind. cbn [fst]. destruct (flow_run f t) as [b ->].
  split_and!; [by eapply tr_core_upd|exact H2|exact Hst].
Qed.

Lemma apLost_inv : trans (tr_inv p) (tr_inv p) (sendAPLostNotif_p reactFlow).
Proof.
  unfold sendAPLostNotif_p. apply (trans_bind (tr_inv p)); [apply flow_inv|intros _].
  apply (keeps_trans _ any_tr_event). unfold setAPConnectionState_p.
  keeps_auto; intros t Ht; by eapply tr_inv_upd.
Qed.

Lemma enqueue_room hi cmd t :
  tr_core p t -> full t = false ->
  let t' := st_of (enqueue hi cmd) t in
  tr_core p t' /\ queueSize t' = queueSize t + 1.
Proof.
  intros [H1 H2 H3 H4 H5 H6 H7] Hf t'. unfold full in Hf. apply Nat.eqb_neq in Hf.
  assert (Hl : length (m_outputQueue t') = S (length (m_outputQueue t))).
  { unfold t', enqueue, upd_stats, st_of. runM. cbn [fst m_outputQueue upd].
    destruct hi; [done|]. rewrite length_app. cbn [length]. lia. }
  split; [split; try done|unfold queueSize; lia].
  - rewrite Hl. change (m_capacity t') with (m_capacity t). lia.
  - intros _ Hq. rewrite Hq in Hl. discriminate.
Qed.

Lemma enqueue_core hi cmd t :
  tr_core p t -> full t = false -> timer_ok p t ->
  let t' := st_of (enqueue hi cmd) t in
  tr_core p t' /\ timer_ok p t' /\ m_mngrInputState t' = m_mngrInputState t /\
  queueSize t' = queueSize t + 1.
Proof. intros H1 Hf Ht t'. destruct (enqueue_room hi cmd t H1 Hf) as [H2 H3]. split_and!; [done|exact Ht|done|exact H3]. Qed.

Lemma insertMsg_inv env cmd data hi cb ecb sy :
  trans (tr_inv p) (tr_inv p) (insertMsg reactFlow env cmd data hi cb ecb sy).
Proof.
  unfold insertMsg. destruct (te_ready env); cbn [negb].
  2: { apply (trans_bind (tr_inv p)); [apply apLost_inv|intros; by apply trans_ret]. }
  apply trans_read. intros t (H1 & H2 & H3). destruct (full t) eqn:Hf; [by split_and!|].
  set (c := mkCommand _ _ _ _ _ _).
  destruct (enqueue_core hi c t H1 Hf H2) as (H4 & H5 & H6 & H7).
  rewrite st_bind. set (t1 := st_of (enqueue hi c) t) in *. clearbody t1.
  rewrite st_read. cbv zeta. rewrite st_bind.
  destruct (send_frame env true t1) as (H8 & H9 & H10).
  assert (H11 : tr_core p (st_of (send env true) t1) /\ timer_ok p (st_of (send env true) t1)).
  { unfold st_of. destruct (send_run env true t1) as [->|(cm & q & Hq & Hp & _ & ->)]; [done|]. cbn [fst].
    destruct H4. split; [split; try done|by left]. intros _. change (m_outputQueue t1 <> []). by rewrite Hq. }
  set (t2 := st_of (send env true) t1) in *. clearbody t2. rewrite st_read, st_bind.
  match goal with |- tr_inv p (st_of _ (st_of ?m t2)) => assert (H12 : tr_inv p (st_of m t2)) end.
  { unfold when. destruct (bool_decide (m_mngrInputState t2 = APM_FLOW_NORMAL)) eqn:Hn; cbn [andb].
    - destruct (Z.leb_spec (highQueueWatermark (m_init_params t1)) (queueSize t1)) as [|Hlt].
      + by apply flow_set.
      + split_and!; [apply H11..|]. intros _. change (queueSize t2 < highQueueWatermark p). unfold queueSize in *.
        by rewrite H8, <- (tc_params _ _ H4).
    - apply bool_decide_eq_false in Hn. split_and!; [apply H11..|]. intros Hn'. by destruct Hn. }
  match goal with |- tr_inv p (st_of _ ?t3) => set (t3' := t3) in *; clearbody t3' end.
  apply (keeps_st (tr_inv p) any_tr_event (get ≫= _)); [|done].
  keeps_auto. intros s Hs. split; [by eapply tr_inv_upd|constructor].
Qed.

Lemma insertMsg_inv' env cmd data hi cb ecb sy :
  trans (tr_inv p) (tr_inv p) (_ ← insertMsg reactFlow env cmd data hi cb ecb sy; mret tt).
Proof. apply (trans_bind (tr_inv p)); [apply insertMsg_inv|intros; by apply trans_ret]. Qed.

Lemma upd_inv (f : CAPMTransport -> CAPMTransport) :
  (forall t, tr_inv p t -> tr_inv p (f t)) -> trans (E := tr_event) (tr_inv p) (tr_inv p) (modify f).
Proof. apply trans_modify. Qed.

Lemma emit_inv (e : tr_event) : trans (tr_inv p) (tr_inv p) (emit e).
Proof. by intros t Ht. Qed.

Lemma ret_inv {A} (a : A) : trans (E := tr_event) (tr_inv p) (tr_inv p) (mret a).
Proof. by apply trans_ret. Qed.

Lemma get_inv {A} (k : CAPMTransport -> TM A) :
  (forall t, trans (tr_inv p) (tr_inv p) (k t)) -> trans (tr_inv p) (tr_inv p) (get ≫= k).
Proof. intros Hk. apply trans_read. intros t Ht. by apply Hk. Qed.

Lemma when_inv b (m : TM unit) : trans (tr_inv p) (tr_inv p) m -> trans (tr_inv p) (tr_inv p) (when b m).
Proof. intros Hm. destruct b; [done|apply ret_inv]. Qed.

Lemma sendMgrResume_inv t :
  tr_inv p t -> m_outputQueue t = [] -> tr_inv p (st_of (sendMgrResume reactFlow) t).
Proof.
  intros Ht Hq. unfold sendMgrResume. rewrite st_read. destruct (bool_decide _); [|done].
  apply flow_set; [by destruct Ht as (H1 & H2 & H3)|]. intros _. unfold queueSize. rewrite Hq. cbn [length].
  pose proof (po_marks _ Hparam). lia.
Qed.

Lemma queueCheck_inv env error : trans (tr_inv p) (tr_inv p) (handleQueueCheckTimeout reactFlow env error).
Proof.
  unfold handleQueueCheckTimeout. destruct error; [apply ret_inv|].
  apply trans_read. intros t Ht. destruct (m_outputQueue t) as [|c q] eqn:Hq; [by apply sendMgrResume_inv|].
  rewrite st_bind. match goal with |- tr_inv p (st_of _ (st_of ?m t)) => assert (H : tr_inv p (st_of m t)) end.
  { destruct (bool_decide _); [|done]. cbv zeta. unfold when. destruct (_ <? _); [|done].
    apply flow_set; [by destruct Ht as (H1 & H2 & H3)|done]. }
  by eapply tr_inv_upd.
Qed.

Lemma ping_inv env error : trans (tr_inv p) (tr_inv p) (handlePingTimeout reactFlow env error).
Proof.
  unfold handlePingTimeout. destruct error; [apply ret_inv|].
  apply trans_read. intros t Ht. rewrite st_bind.
  match goal with |- tr_inv p (st_of _ (st_of ?m t)) => assert (H : tr_inv p (st_of m t)) end.
  { apply when_inv; [|done]. apply insertMsg_inv'. }
  by eapply tr_inv_upd.
Qed.

Lemma gets_inv {A} (f : CAPMTransport -> A) : trans (E := tr_event) (tr_inv p) (tr_inv p) (gets f).
Proof. by intros t Ht. Qed.

(** Walk through a command; updates of fields the invariant does not mention go through. *)
Ltac tr_step :=
  cbv zeta;
  lazymatch goal with
  | |- trans _ _ (get ≫= _) => apply get_inv; intros ?
  | |- trans _ _ (_ ≫= _) => apply (trans_bind (tr_inv p)); [|intros ?]
  | |- trans _ _ (mret _) => apply ret_inv
  | |- trans _ _ (emit _) => apply emit_inv
  | |- trans _ _ (gets _) => apply gets_inv
  | |- trans _ _ (when _ _) => apply when_inv
  | |- trans _ _ (modify _) => apply upd_inv; let t := fresh "t" in let H := fresh "Ht" in
                               intros t H; first [by eapply tr_inv_upd|idtac]
  | |- trans _ _ (if ?b then _ else _) => destruct b
  | |- trans _ _ (match ?x with _ => _ end) => destruct x
  end.

Lemma insertCmd_inv env cmd data : trans (tr_inv p) (tr_inv p) (insertCmd reactFlow env cmd data false).
Proof. apply insertMsg_inv. Qed.

Lemma startJoin_inv env : trans (tr_inv p) (tr_inv p) (startJoin_p reactFlow env).
Proof. unfold startJoin_p. repeat (tr_step || apply insertCmd_inv). Qed.

Lemma enableJoin_inv env netId : trans (tr_inv p) (tr_inv p) (enableJoin reactFlow env netId).
Proof. unfold enableJoin, setJoinProcessState_p. repeat (tr_step || apply startJoin_inv). Qed.

Lemma disconnectAP_inv env sy : trans (tr_inv p) (tr_inv p) (disconnectAP reactFlow env sy).
Proof. unfold disconnectAP. repeat (tr_step || apply insertMsg_inv). Qed.

Lemma clearOutputQueue_inv : trans (tr_inv p) (tr_inv p) clearOutputQueue.
Proof.
  intros t ([H1 H2 H3 H4 H5 H6 H7] & _ & _). pose proof (po_marks _ Hparam). pose proof (po_retries _ Hparam).
  split_and!; [split; try done; try (by left)|done|].
  - change (0 <= m_capacity t)%nat. lia.
  - change (0 <= 0 <= maxRetries p). lia.
  - intros _. change (0 < highQueueWatermark p). lia.
Qed.

(** The retry timer's expiry has cleared the wait. *)
Definition tr_weak (t : CAPMTransport) : Prop := tr_core p t /\ flow_ok p t.

Lemma inv_weak t : tr_inv p t -> tr_weak t.
Proof. by intros (H1 & H2 & H3). Qed.

Lemma reopenPort_run env t : st_of (reopenPort env) t = t.
Proof. unfold reopenPort. by destruct (te_portCalls env) as [|[|[|[|n]]]]. Qed.

Lemma handleRetryTimeout_inv env : trans tr_weak (tr_inv p) (handleRetryTimeout reactFlow env false).
Proof.
  unfold handleRetryTimeout. apply trans_read. intros t [H1 H2].
  destruct (Z.ltb_spec (m_curRetryCount t) (maxRetries (m_init_params t))) as [Hlt|Hge];
    rewrite (tc_params _ _ H1) in *.
  - rewrite st_bind. match goal with |- context[st_of (when ?b ?m) t] => replace (st_of (when b m) t) with t end.
    2: { unfold when. destruct (_ && _); [by rewrite reopenPort_run|done]. }
    rewrite st_bind. assert (H3 : tr_weak (st_of (sendRetry env) t)
      /\ m_curRetryCount (st_of (sendRetry env) t) = m_curRetryCount t).
    { destruct (send_frame env false t) as (E1 & E2 & E3). unfold tr_weak, flow_ok, queueSize, sendRetry.
      rewrite E1, E2. split_and!; [by apply (proj1 (send_inv p env false))|done|].
      unfold st_of. by destruct (send_run env false t) as [->|(cmd & q & _ & _ & _ & ->)]. }
    destruct H3 as [[H3 H4] H5]. set (t1 := st_of (sendRetry env) t) in *. clearbody t1.
    pose proof (po_retries _ Hparam). pose proof (tc_retry _ _ H1). unfold upd_stats, startRetryTimer.
    rewrite !st_bind. destruct H3. split_and!; [split; try done|by left|done].
    change (0 <= u32 (m_curRetryCount t1 + 1) <= maxRetries p). rewrite H5, u32_small; lia.
  - assert (tr_inv p t) as Ht by (split_and!; [done|by right|done]). refine ((_ : trans (tr_inv p) (tr_inv p) _) t Ht). unfold stopPingTimer, hwResetAP.
    repeat (tr_step || apply apLost_inv).
Qed.

(** What the upper layer does during the other calls is a sequence of its calls. *)
Context (upper : option apm_notif -> CAPMTransport -> list up_call).
Notation react := (fun n => reaction reactFlow upper (Some n)).
Notation reactReboot := (reaction reactFlow upper None).

Lemma upCall_inv c : trans (tr_inv p) (tr_inv p) (upCall reactFlow c).
Proof.
  destruct c; cbn [upCall]; unfold disableJoin, setJoinProcessState_p, hwResetAP, setAPMState, enableAbort, disableAbort;
    repeat (tr_step || apply insertMsg_inv || apply enableJoin_inv || apply disconnectAP_inv).
Qed.

Lemma reaction_inv n : trans (tr_inv p) (tr_inv p) (reaction reactFlow upper n).
Proof.
  unfold reaction. apply get_inv; intros t. induction (upper n t); cbn [upCalls]; repeat (tr_step || apply upCall_inv || done).
Qed.

Lemma handleAPBoot_inv env : trans (tr_inv p) (tr_inv p) (handleAPBoot reactFlow react reactReboot env).
Proof.
  unfold handleAPBoot, setAPConnectionState_p.
  repeat (tr_step || apply clearOutputQueue_inv || apply startJoin_inv || apply reaction_inv).
Qed.

Lemma notify_inv env n : trans (tr_inv p) (tr_inv p) (notify reactFlow react reactReboot env n).
Proof.
  destruct n; cbn [notify]; try apply apLost_inv; try apply handleAPBoot_inv; repeat (tr_step || apply reaction_inv).
Qed.

Lemma notifyAll_inv env l : trans (tr_inv p) (tr_inv p) (notifyAll reactFlow react reactReboot env l).
Proof. induction l; cbn [notifyAll]; repeat (tr_step || apply notify_inv || done). Qed.

Lemma emits_inv l : trans (tr_inv p) (tr_inv p) (emits l).
Proof. unfold emits. induction l; cbn [fold_right]; repeat (tr_step || done). Qed.

Lemma cmdHandler_inv env cmd data : trans (tr_inv p) (tr_inv p) (cmdHandler reactFlow react reactReboot env cmd data).
Proof.
  unfold cmdHandler. apply (trans_bind (tr_inv p)); [apply emits_inv|intros _]. apply get_inv; intros t.
  destruct (handleCmd _ _ _ _) as [[s ns] res]. repeat (tr_step || apply notifyAll_inv).
Qed.

(** After [stopRetryTimer], until the queue is settled. *)
Lemma settle_inv env c rc : trans tr_weak (tr_inv p) (settle env c rc).
Proof.
  unfold settle. intros t [[] H8]. destruct (rc =? DN_API_RC_NO_RESOURCES).
  - split_and!; [split; done|by left|done].
  - split_and!; [split; try done|done|].
    + change (length (tail (m_outputQueue t)) <= m_capacity t)%nat. destruct (m_outputQueue t); cbn in *; lia.
    + intros Hn. specialize (H8 Hn). change (Z.of_nat (length (tail (m_outputQueue t))) < highQueueWatermark p).
      unfold queueSize in H8. destruct (m_outputQueue t); cbn [length tail] in *; lia.
Qed.

Lemma callResponse_inv cb cmd data : trans (tr_inv p) (tr_inv p) (callResponse cb cmd data).
Proof. unfold callResponse. repeat tr_step. Qed.

Lemma callError_inv cb cmd rc : trans (tr_inv p) (tr_inv p) (callError cb cmd rc).
Proof. unfold callError. repeat tr_step. Qed.

Lemma deliverResponse_inv env c id rc data :
  trans (tr_inv p) (tr_inv p) (deliverResponse reactFlow react reactReboot env c id rc data).
Proof.
  unfold deliverResponse.
  repeat (tr_step || apply callResponse_inv || apply callError_inv || apply notifyAll_inv || apply cmdHandler_inv).
Qed.
Lemma settle_low env c rc t :
  res_of (settle env c rc) t = true -> m_init_params t = p -> queueSize (st_of (settle env c rc) t) < lowQueueWatermark p.
Proof.
  unfold settle. destruct (rc =? DN_API_RC_NO_RESOURCES); [done|].
  intros H Hp. rewrite <- Hp. apply Z.ltb_lt. exact H.
Qed.

Lemma resume_inv (below : bool) t :
  tr_inv p t -> (below = true -> queueSize t < lowQueueWatermark p) ->
  tr_inv p (st_of (t ← get; when (bool_decide (m_mngrInputState t = APM_FLOW_PAUSE) && below)
    (flow reactFlow FlAPResume ;; modify (fun t => t <| m_mngrInputState := APM_FLOW_NORMAL |>))) t).
Proof.
  intros Ht Hb. rewrite st_read. destruct (bool_decide _); [|done]. destruct below; [|done].
  apply flow_set; [by destruct Ht as (H1 & H2 & H3)|]. intros _. specialize (Hb eq_refl).
  pose proof (po_marks _ Hparam). lia.
Qed.

(** The response to a command: the queue is settled once, then the upper layer is told. *)
Lemma handleResponse_inv env id data :
  trans (tr_inv p) (tr_inv p) (handleResponse reactFlow react reactReboot env id data).
Proof.
  intros t Ht. unfold handleResponse. pose proof (po_retries _ Hparam).
  rewrite !st_bind. set (t1 := st_of stopRetryTimer t).
  assert (tr_weak t1) as H1 by (destruct Ht as ([] & _ & H8); split; [split; try done|done]; change (0 <= 0 <= maxRetries p); lia).
  set (t2 := st_of (countResponse env (length data)) t1).
  assert (tr_weak t2) as H2 by (destruct H1 as [[] H8]; split; [split|]; done).
  replace (st_of (emits _) t2) with t2 by (by destruct (length data =? 0)%nat).
  cbv zeta.
  match goal with |- context[st_of (modify ?f) t2] => set (t4 := st_of (modify f) t2) end.
  change (res_of get t4) with t4; change (st_of get t4) with t4.
  assert (tr_weak t4) as H4 by (destruct H2 as [[] H8]; split; [split|]; try done; by apply toggle_pktId).
  clearbody t4. clear t1 t2 H1 H2.
  destruct (m_outputQueue t4) as [|c q] eqn:Hq.
  { destruct H4 as [H4 H5]. split_and!; [done| |done]. intros Hp. by destruct (tc_pending _ _ H4 Hp). }
  set (rc := default _ _). rewrite st_bind. pose proof (settle_inv env c rc t4 H4) as H5.
  pose proof (settle_low env c rc t4) as H6.
  set (below := res_of (settle env c rc) t4) in *. set (t5 := st_of (settle env c rc) t4) in *.
  rewrite st_read, st_bind. pose proof (resume_inv below t5 H5) as H7. rewrite st_read in H7.
  refine ((_ : trans (tr_inv p) (tr_inv p) _) _ (H7 _)).
  - repeat (tr_step || apply deliverResponse_inv || apply (proj2 (send_inv p env true))).
  - intros Hb. apply H6; [done|]. by destruct H4 as [[] _].
Qed.

Lemma sendAck_inv n k rc : trans (tr_inv p) (tr_inv p) (sendAck n k rc).
Proof. unfold sendAck, upd_stats. repeat tr_step. Qed.

Lemma handleNotification_inv env hdr data :
  trans (tr_inv p) (tr_inv p) (handleNotification reactFlow react reactReboot env hdr data).
Proof.
  unfold handleNotification, countNotification, upd_stats.
  repeat (tr_step || apply sendAck_inv || apply cmdHandler_inv).
  destruct Ht as ([] & H2 & H3). split_and!; [split|..]; try done. apply land2_pktId.
Qed.

Lemma handleMsg_inv env hdr data :
  trans (tr_inv p) (tr_inv p) (handleMsg reactFlow react reactReboot env hdr data).
Proof.
  unfold handleMsg. repeat (tr_step || apply handleResponse_inv || apply handleNotification_inv).
Qed.

Lemma dataReceived_inv env data :
  trans (tr_inv p) (tr_inv p) (dataReceived reactFlow react reactReboot env data).
Proof. unfold dataReceived, startPingTimer. repeat (tr_step || apply handleMsg_inv). Qed.

Lemma handlePPSTimeout_inv : trans (tr_inv p) (tr_inv p) handlePPSTimeout.
Proof. unfold handlePPSTimeout, upd_stats. repeat tr_step. Qed.

Lemma exec_inv op : trans (tr_inv p) (tr_inv p) (exec reactFlow upper op).
Proof.
  destruct op; cbn [exec].
  - apply upCall_inv.
  - apply apLost_inv.
  - repeat (tr_step || apply dataReceived_inv).
  - apply trans_read. intros t (H1 & H2 & H3). unfold when. destruct (m_outputTimer t) eqn:Ho; [|by split_and!].
    rewrite st_bind. apply handleRetryTimeout_inv. split; [by eapply tr_core_upd|exact H3].
  - destruct error; [by intros t Ht|]. intros t Ht. by apply handleRetryTimeout_inv, inv_weak.
  - apply ping_inv.
  - apply queueCheck_inv.
  - apply handlePPSTimeout_inv.
Qed.
End Invariant.

Lemma reachable_inv (p : init_param_t) (t : CAPMTransport) : param_ok p -> tr_reachable p t -> tr_inv p t.
Proof.
  intros Hp. induction 1 as [b|t op rf upper HF _ IH]; [by apply open_inv|]. by apply exec_inv.
Qed.

(** *** Retries *)
Section Retries.
Context (reactFlow : flow_notif -> TM unit) (upper : option apm_notif -> CAPMTransport -> list up_call).

Lemma reachable_execs {HF : FlowHandler reactFlow} p l t :
  tr_reachable p t -> tr_reachable p (st_of (execs reactFlow upper l) t).
Proof.
  revert t. induction l as [|op l IH]; intros t Ht; [done|]. cbn [execs]. rewrite st_bind. apply IH. by apply Tr_step.
Qed.

(** A frame on the serial line. *)
Definition out_frame (e : tr_event) : option (list Z) :=
  match e with EvOut f => Some f | _ => None end.

Lemma reopenPort_frames env t : omap out_frame (out_of (reopenPort env) t) = [].
Proof. unfold reopenPort. by destruct (te_portCalls env) as [|[|[|[|n]]]]. Qed.

(** The command [c] is in flight after [n] retries and its response is awaited. *)
Record in_flight (p : init_param_t) (c : APMCommand) (n : Z) (t : CAPMTransport) : Prop := {
  if_params : m_init_params t = p;
  if_front : head (m_outputQueue t) = Some c;
  if_pending : m_pending t = true;
  if_timer : m_outputTimer t = true;
  if_count : m_curRetryCount t = n
}.

(** One expiry before the retries are used up. *)
Lemma retry_run p c n env t :
  in_flight p c n t -> te_ready env = true -> 0 <= n < maxRetries p -> maxRetries p < 2 ^ 16 ->
  let t' := st_of (exec reactFlow upper (OpRetryExpires env)) t in
  in_flight p c (n + 1) t' /\ frame t' c = frame t c /\ m_outputQueue t' = m_outputQueue t /\
  m_abortEnabled t' = m_abortEnabled t /\ m_reconnectSerial t' = m_reconnectSerial t /\
  omap out_frame (out_of (exec reactFlow upper (OpRetryExpires env)) t) = [frame t c].
Proof.
  intros [H1 H2 H3 H4 H5] Hr Hn Hmax t'.
  destruct (m_outputQueue t) as [|c' q] eqn:Hq; [done|]. injection H2 as ->.
  set (t1 := t <| m_outputTimer := false |>). set (o := if m_reconnectSerial t && (0 <? n) then reopenPort env else mret tt).
  assert (Ho : o t1 = (t1, out_of o t1, tt) /\ omap out_frame (out_of o t1) = []).
  { unfold o. destruct (_ && _); [|done]. rewrite reopenPort_frames. split; [|done].
    rewrite <- (reopenPort_run env t1) at 2. unfold st_of, out_of. by destruct (reopenPort env t1) as [[? ?] []]. }
  assert (Hs : sendRetry env t1 = (sent_state env c t1, [EvOut (frame t c)], tt)).
  { unfold sendRetry, send. rewrite Hr. cbn [negb]. runM. change (m_outputQueue t1) with (m_outputQueue t).
    rewrite Hq. change (m_pending t1) with (m_pending t). by rewrite H3. }
  destruct Ho as [Ho1 Ho2].
  assert (He : exists st, exec reactFlow upper (OpRetryExpires env) t =
    (sent_state env c t1 <| m_stats := st |> <| m_curRetryCount := u32 (n + 1) |> <| m_outputTimer := true |>,
     out_of o t1 ++ [EvOut (frame t c)], tt)).
  { cbn [exec]. unfold handleRetryTimeout, upd_stats, startRetryTimer. runM. rewrite H4.
    fold t1. change (m_init_params t1) with (m_init_params t). change (m_curRetryCount t1) with (m_curRetryCount t).
    rewrite H1, H5, (proj2 (Z.ltb_lt _ _)) by lia. change (m_reconnectSerial t1) with (m_reconnectSerial t).
    match goal with |- context[(if ?b then reopenPort env else ?m) t1] =>
      change ((if b then reopenPort env else m) t1) with (o t1) end.
    rewrite Ho1, Hs. eexists. cbn [app]. rewrite <- H5. reflexivity. }
  destruct He as [st He]. unfold t', st_of, out_of at 1. rewrite He. cbn [fst snd].
  rewrite omap_app, Ho2, u32_small by lia. split_and!; [|done..]. split; try done.
  change (head (m_outputQueue t) = Some c). by rewrite Hq.
Qed.

(** All of them: [k] expiries in a row, with the environments of [envs]. *)
Lemma retries_run p c envs : forall n t,
  in_flight p c n t -> Forall (fun env => te_ready env = true) envs ->
  0 <= n -> n + Z.of_nat (length envs) <= maxRetries p -> maxRetries p < 2 ^ 16 ->
  let r := execs reactFlow upper (map OpRetryExpires envs) in
  in_flight p c (n + Z.of_nat (length envs)) (st_of r t) /\ m_outputQueue (st_of r t) = m_outputQueue t /\
  m_abortEnabled (st_of r t) = m_abortEnabled t /\ m_reconnectSerial (st_of r t) = m_reconnectSerial t /\
  omap out_frame (out_of r t) = replicate (length envs) (frame t c).
Proof.
  induction envs as [|env envs IH]; intros n t Ht He Hn Hle Hmax r.
  { unfold r. cbn [map execs length]. rewrite Z.add_0_r. by split_and!. }
  apply Forall_cons in He as [He1 He2]. cbn [length] in Hle.
  destruct (retry_run p c n env t Ht He1 ltac:(lia) Hmax) as (H1 & H2 & H3 & H4 & H5 & H6).
  destruct (IH (n + 1) _ H1 He2 ltac:(lia) ltac:(lia) Hmax) as (G1 & G2 & G3 & G4 & G5).
  unfold r. cbn [map execs length replicate].
  rewrite !st_bind, out_bind, omap_app, H6, G5, H2, G2, G3, G4.
  split_and!; try done. replace (n + Z.of_nat (S (length envs))) with (n + 1 + Z.of_nat (length envs)) by lia. exact G1.
Qed.

Lemma retry_idle env t : m_outputTimer t = false -> exec reactFlow upper (OpRetryExpires env) t = (t, [], tt).
Proof. intros H. cbn [exec]. runM. by rewrite H. Qed.

(** The expiry that finds the retries used up. *)
Lemma retry_last p c env t :
  in_flight p c (maxRetries p) t ->
  let r := exec reactFlow upper (OpRetryExpires env) in
  out_of r t = (if m_abortEnabled t then
      EvFlow FlAPLost :: out_of (reactFlow FlAPLost) (t <| m_outputTimer := false |> <| m_pingTimer := false |>)
      ++ EvResetAP :: (if m_reconnectSerial t then [EvStopNode] else []) else []) /\
  (FlowHandler reactFlow ->
   let t' := st_of r t in
   m_outputTimer t' = false /\ m_pingTimer t' = false /\ m_outputQueue t' = m_outputQueue t /\
   (m_abortEnabled t = true -> m_isRunning t' = false /\ m_isApConnected t' = false)).
Proof.
  intros [H1 H2 H3 H4 H5] r. set (t2 := t <| m_outputTimer := false |> <| m_pingTimer := false |>).
  destruct (reactFlow FlAPLost t2) as [[t3 o] []] eqn:Hf.
  assert (Hr : r t = if m_abortEnabled t then
    (t3 <| m_isApConnected := false |> <| m_isRunning := false |> <| m_isRunning := false |>,
     EvFlow FlAPLost :: o ++ EvResetAP :: (if m_reconnectSerial t then [EvStopNode] else []), tt)
    else (t2, [], tt)).
  { unfold r. cbn [exec]. unfold handleRetryTimeout, stopPingTimer, sendAPLostNotif_p, setAPConnectionState_p, flow, hwResetAP.
    runM. rewrite H4. cbn [m_curRetryCount m_init_params upd m_abortEnabled]. rewrite H1, H5, Z.ltb_irrefl.
    fold t2. change (m_abortEnabled t) with (m_abortEnabled t2). destruct (m_abortEnabled t2); [|done].
    rewrite Hf. change (m_reconnectSerial (t <| m_outputTimer := false |>)) with (m_reconnectSerial t).
    destruct (m_reconnectSerial t); cbn [app]; rewrite ?app_nil_r; done. }
  unfold out_of, st_of. fold t2. rewrite Hr, Hf. destruct (m_abortEnabled t) eqn:Ha; cbn [fst snd].
  - split; [done|]. intros HF. destruct (flow_frame FlAPLost t2) as [b Hb]. unfold st_of in Hb. rewrite Hf in Hb.
    cbn [fst] in Hb. by rewrite Hb.
  - by split.
Qed.
End Retries.

(** *** Packet ids, acknowledgements and deliveries *)
Definition steady (r k : Z) (t : CAPMTransport) : Prop := m_respPacketId t = r /\ m_notifPacketId t = k.

Lemma frame_quiet t c : is_pktId (m_respPacketId t) -> quiet (EvOut (frame t c)).
Proof.
  intros Hr. split; [done|]. unfold frame, serialize. cbn [ack_of app flags apt_hdr].
  destruct (c_payload c) as [|b l]; [done|]. destruct Hr as [-> | ->]; by destruct (c_isSynch c).
Qed.

Section Steady.
Context (r k : Z) (Hr : is_pktId r) (reactFlow : flow_notif -> TM unit)
  (upper : option apm_notif -> CAPMTransport -> list up_call).
Context {HF : FlowHandler reactFlow}.

Lemma reactFlow_steady f : keeps (steady r k) quiet (reactFlow f).
Proof. intros t Ht. destruct (flow_frame f t) as [b Hb]. split; [by rewrite Hb|apply flow_quiet]. Qed.

Lemma send_steady env b : keeps (steady r k) quiet (send env b).
Proof.
  intros t Ht. unfold st_of, out_of. destruct (send_run env b t) as [->|(c & q & _ & _ & _ & ->)]; cbn [fst snd].
  - by split.
  - split; [exact Ht|]. constructor; [|done]. apply frame_quiet. by destruct Ht as [-> _].
Qed.

Lemma flow_steady f : keeps (steady r k) quiet (flow reactFlow f).
Proof. unfold flow. keeps_auto; [done|apply reactFlow_steady]. Qed.

Ltac steady_auto :=
  repeat (cbv zeta; first
    [ apply send_steady | apply flow_steady
    | keeps_step ]);
  try done.

Lemma apLost_steady : keeps (steady r k) quiet (sendAPLostNotif_p reactFlow).
Proof. unfold sendAPLostNotif_p, setAPConnectionState_p. steady_auto. Qed.

Lemma insertMsg_steady env cmd data hi cb ecb sy :
  keeps (steady r k) quiet (insertMsg reactFlow env cmd data hi cb ecb sy).
Proof.
  unfold insertMsg, enqueue, upd_stats, startQueueCheckTimer.
  destruct (te_ready env); cbn [negb]; steady_auto. apply apLost_steady.
Qed.

Lemma sendMgrResume_steady : keeps (steady r k) quiet (sendMgrResume reactFlow).
Proof. unfold sendMgrResume. steady_auto. Qed.

Lemma queueCheck_steady env error : keeps (steady r k) quiet (handleQueueCheckTimeout reactFlow env error).
Proof.
  unfold handleQueueCheckTimeout, startQueueCheckTimer. steady_auto. apply sendMgrResume_steady.
Qed.

Lemma reopenPort_steady env : keeps (steady r k) quiet (reopenPort env).
Proof. unfold reopenPort. destruct (te_portCalls env) as [|[|[|[|n]]]]; cbn [take fold_right]; steady_auto. Qed.

Lemma retry_steady env error : keeps (steady r k) quiet (handleRetryTimeout reactFlow env error).
Proof.
  unfold handleRetryTimeout, sendRetry, upd_stats, startRetryTimer, stopPingTimer, hwResetAP.
  repeat (steady_auto || apply reopenPort_steady || apply apLost_steady).
Qed.

Lemma ping_steady env error : keeps (steady r k) quiet (handlePingTimeout reactFlow env error).
Proof.
  unfold handlePingTimeout, sendPing, insertCmd, startPingTimer. steady_auto. apply insertMsg_steady.
Qed.

Lemma startJoin_steady env : keeps (steady r k) quiet (startJoin_p reactFlow env).
Proof. unfold startJoin_p, insertCmd. repeat (steady_auto || apply insertMsg_steady). Qed.

Lemma upCall_steady c : keeps (steady r k) quiet (upCall reactFlow c).
Proof.
  destruct c; cbn [upCall]; unfold enableJoin, disableJoin, disconnectAP, setJoinProcessState_p, hwResetAP,
    setAPMState, enableAbort, disableAbort;
    repeat (steady_auto || apply insertMsg_steady || apply startJoin_steady).
Qed.

Lemma reaction_steady n : keeps (steady r k) quiet (reaction reactFlow upper n).
Proof.
  unfold reaction. apply keeps_bind; [apply keeps_get|intros t].
  induction (upper n t); cbn [upCalls]; [apply keeps_ret|]. by apply keeps_bind; [apply upCall_steady|].
Qed.

(** Every operation but the arrival of a frame. *)
Lemma exec_steady op : (forall env data, op <> OpData env data) -> keeps (steady r k) quiet (exec reactFlow upper op).
Proof.
  intros Hop. destruct op; cbn [exec]; unfold handlePPSTimeout, upd_stats.
  - apply upCall_steady.
  - apply apLost_steady.
  - by destruct (Hop env data).
  - repeat (steady_auto || apply retry_steady).
  - apply retry_steady.
  - apply ping_steady.
  - apply queueCheck_steady.
  - steady_auto.
Qed.
End Steady.

(** Notifications other than events, which carry no length that is read unchecked. *)
Definition plain (cmd : Z) : bool :=
  negb (cmd =? DN_API_LOC_NOTIF_EVENTS) && bool_decide (uncheckedReads cmd = []).

(** What the serializer tells the upper layer about such a message. *)
Definition notifs_of (cmd : Z) (data : list Z) : list apm_notif :=
  snd (fst (handleCmd 0 newCAPMSerializer cmd data)).

Definition ordinary (n : apm_notif) : Prop := n <> NAPLost /\ n <> NAPBoot.

Lemma cast_ordinary l conv n data : (forall m, ordinary (n m)) -> Forall ordinary (cast_notif l conv n data).
Proof. intros Hn. unfold cast_notif. destruct (bufferCast_p l data); by repeat constructor; apply Hn. Qed.

Lemma plain_handleCmd g s cmd data :
  plain cmd = true ->
  handleCmd g s cmd data = (mkAPMSerializer 0, notifs_of cmd data, APC_OK) /\ Forall ordinary (notifs_of cmd data).
Proof.
  unfold plain, notifs_of, handleCmd. intros [H1 H2]%andb_true_iff. apply bool_decide_eq_true in H2.
  destruct (Z.eqb_spec cmd DN_API_LOC_NOTIF_EVENTS) as [|Hne]; [done|]. cbn [negb].
  unfold uncheckedReads in H2. destruct (cmd =? DN_API_LOC_CMD_GETPARAM); [done|]. cbv iota beta.
  repeat (destruct (_ =? _); [split; [done|cbn [fst snd]; try (by apply cast_ordinary); by repeat constructor]|]).
  by split.
Qed.

(** A notification on the line: the packet id in the flags, bit 0 clear. *)
Definition nframe (k cmd : Z) (data : list Z) : list Z :=
  serialize (apt_hdr cmd (Z.of_nat (length data)) k) ++ data.

(** The command tells the upper layer [l], acknowledges [acks] and ends in [J]. *)
Definition does {A} (m : TM A) (t : CAPMTransport) (l : list apm_notif) (acks : list (Z * Z * Z))
  (J : A -> CAPMTransport -> Prop) : Prop :=
  flat_map told (out_of m t) = l /\ omap ack_of (out_of m t) = acks /\ J (res_of m t) (st_of m t).

Lemma does_bind {A B} (m : TM A) (f : A -> TM B) t l1 a1 K l2 a2 J :
  does m t l1 a1 K -> (forall x t', K x t' -> does (f x) t' l2 a2 J) ->
  does (m ≫= f) t (l1 ++ l2) (a1 ++ a2) J.
Proof.
  intros (G1 & G2 & G3) H2. destruct (H2 _ _ G3) as (E1 & E2 & E3).
  unfold does. rewrite out_bind, st_bind, res_bind, flat_map_app, omap_app. by rewrite E1, E2, G1, G2.
Qed.

(** What is quiet does not show. *)
Lemma quiet_list l : Forall quiet l -> flat_map told l = [] /\ omap ack_of l = [].
Proof.
  induction 1 as [|e l [H1 H2] _ [IH1 IH2]]; [done|]. cbn [flat_map omap list_omap]. by rewrite H1, H2, IH1, IH2.
Qed.

Lemma does_quiet {A} (I : CAPMTransport -> Prop) (m : TM A) t :
  keeps I quiet m -> I t -> does m t [] [] (fun _ => I).
Proof. intros Hm Ht. destruct (Hm t Ht) as [H1 [H2 H3]%quiet_list]. by split_and!. Qed.

Lemma does_quiet_bind {A B} (I : CAPMTransport -> Prop) (m : TM A) (f : A -> TM B) t l acks J :
  keeps I quiet m -> I t -> (forall x t', I t' -> does (f x) t' l acks J) -> does (m ≫= f) t l acks J.
Proof. intros Hm Ht Hf. exact (does_bind m f t [] [] _ l acks J (does_quiet I m t Hm Ht) Hf). Qed.

Lemma does_then {A B} (m : TM A) (f : A -> TM B) t l acks K J :
  does m t l acks K -> (forall x t', K x t' -> does (f x) t' [] [] J) -> does (m ≫= f) t l acks J.
Proof.
  intros Hm Hf. pose proof (does_bind m f t l acks K [] [] J Hm Hf) as H. by rewrite !app_nil_r in H.
Qed.

Lemma does_read {A} (f : CAPMTransport -> TM A) t l acks J : does (f t) t l acks J -> does (get ≫= f) t l acks J.
Proof. unfold does. by rewrite out_bind, st_bind, res_bind. Qed.

Lemma does_modify {A} (g : CAPMTransport -> CAPMTransport) (f : unit -> TM A) t l acks J :
  does (f tt) (g t) l acks J -> does (modify g ≫= f) t l acks J.
Proof. unfold does. by rewrite out_bind, st_bind, res_bind. Qed.

Section Plain.
Context (rid : Z) (Hr : is_pktId rid) (reactFlow : flow_notif -> TM unit)
  (upper : option apm_notif -> CAPMTransport -> list up_call).
Context {HF : FlowHandler reactFlow}.
Notation react := (fun n => reaction reactFlow upper (Some n)).
Notation reactReboot := (reaction reactFlow upper None).

Lemma notifyAll_does k env l t :
  Forall ordinary l -> steady rid k t ->
  does (notifyAll reactFlow react reactReboot env l) t l [] (fun _ => steady rid k).
Proof.
  intros Hl. revert t. induction Hl as [|n l [H1 H2] _ IH]; intros t Ht; [by split_and!|]. cbn [notifyAll].
  apply (does_bind _ _ t [n] [] (fun _ => steady rid k)); [|by intros _ t' Ht'; apply IH].
  assert (does (emit (EvNotif n) ;; reaction reactFlow upper (Some n)) t ([n] ++ []) ([] ++ []) (fun _ => steady rid k)) as H.
  { apply (does_bind _ _ t _ _ (fun _ => steady rid k)); [by split_and!|]. intros _ t' Ht'.
    apply does_quiet; [|done]. by apply reaction_steady. }
  destruct n; cbn [notify]; try done.
Qed.

Lemma cmdHandler_does k env cmd data t :
  plain cmd = true -> steady rid k t ->
  does (cmdHandler reactFlow react reactReboot env cmd data) t (notifs_of cmd data) []
    (fun res t' => res = APC_OK /\ steady rid k t').
Proof.
  intros Hc Ht. unfold cmdHandler, overreads. pose proof Hc as Hu. unfold plain in Hu.
  apply andb_true_iff in Hu as [_ Hu]. apply bool_decide_eq_true in Hu. rewrite Hu.
  apply (does_quiet_bind (steady rid k)); [by intros s Hs|done|]. intros _ t1 H1.
  apply (does_quiet_bind (fun s : CAPMTransport => s = t1 /\ steady rid k s)); [by intros s Hs|done|]. intros x t2 H2.
  destruct (plain_handleCmd (te_garbage env) (m_cmdHandler x) cmd data Hc) as [-> Ho].
  apply (does_quiet_bind (steady rid k)); [by intros s Hs|by destruct H2|]. intros _ t3 H3.
  apply (does_then _ _ t3 _ _ (fun _ => steady rid k)); [by apply notifyAll_does|]. intros _ t4 H4. by split_and!.
Qed.

Lemma sendAck_does k n k' rc t :
  is_pktId k' -> 0 <= rc < 256 -> steady rid k t -> does (sendAck n k' rc) t [] [(n, k', rc)] (fun _ => steady rid k).
Proof.
  intros Hk Hrc Ht. unfold sendAck, upd_stats. apply (does_quiet_bind (steady rid k)); [by intros s Hs|done|].
  intros _ t1 H1. split_and!; [done| |exact H1]. cbn [emit out_of fst snd omap list_omap ack_of serialize app apt_hdr flags cmdId].
  rewrite u8_small by lia. by destruct Hk as [-> | ->].
Qed.

(** A notification with packet id [k'] when the last accepted one was [k]. *)
Lemma handleNotification_does k k' env hdr data t :
  plain (cmdId hdr) = true -> is_pktId k' -> flags hdr = k' -> steady rid k t ->
  let refused := bool_decide (m_apInputState t = APM_FLOW_PAUSE) && (cmdId hdr =? DN_API_LOC_NOTIF_AP_RECEIVE) in
  let m := handleNotification reactFlow react reactReboot env hdr data in
  if k' =? k then does m t [] [(cmdId hdr, k', 0)] (fun _ => steady rid k)
  else if refused then does m t [] [(cmdId hdr, k', DN_API_RC_NO_RESOURCES)] (fun _ => steady rid k)
  else does m t (notifs_of (cmdId hdr) data) [(cmdId hdr, k', 0)] (fun _ => steady rid k').
Proof.
  intros Hc Hk Hf Ht refused m.
  assert (Hk2 : Z.land k' 2 = k' /\ 0 <? Z.land k' 8 = false) by (by destruct Hk as [-> | ->]).
  destruct Hk2 as [Hk2 Hk3].
  assert (Hack : forall k1 rc (x : apc_error_t) t1, 0 <= rc < 256 -> steady rid k1 t1 ->
    does (sendAck (cmdId hdr) k' rc ;; mret x) t1 [] [(cmdId hdr, k', rc)] (fun _ => steady rid k1)).
  { intros k1 rc x t1 Hrc H1. apply (does_then _ _ t1 _ _ (fun _ => steady rid k1)); [by apply sendAck_does|].
    intros _ t2 H2. by split_and!. }
  unfold m, handleNotification, countNotification, upd_stats. rewrite Hf, Hk2, Hk3. destruct Ht as [Ht1 Ht2].
  destruct (Z.eqb_spec k' k) as [->|Hne]; [|destruct refused eqn:Href]; apply does_read;
    rewrite Ht2, orb_false_r, ?Z.eqb_refl, ?(proj2 (Z.eqb_neq _ _) Hne); cbn [negb];
    (apply (does_quiet_bind (steady rid k)); [by intros s Hs|done|intros _ t1 H1]); fold refused; rewrite ?Href.
  - by apply Hack.
  - by apply Hack.
  - rewrite <- (app_nil_r (notifs_of (cmdId hdr) data)). change [(cmdId hdr, k', 0)] with ([] ++ [(cmdId hdr, k', 0)]).
    eapply does_bind; [by apply (cmdHandler_does k)|]. intros res t2 [-> H2]. cbn [bool_decide when].
    rewrite bool_decide_true by done. apply does_modify. apply Hack; [done|]. by destruct H2.
Qed.

Lemma dataReceived_nframe k' env cmd data t l acks J :
  is_pktId k' ->
  (let hdr := mkAptHdr cmd (Z.land (u8 (Z.of_nat (length data))) 0xFF) k' in
   does (handleNotification reactFlow react reactReboot env hdr data) (t <| m_pingTimer := true |>) l acks J) ->
  does (dataReceived reactFlow react reactReboot env (nframe k' cmd data)) t l acks J.
Proof.
  intros Hk H. unfold dataReceived, startPingTimer. apply does_modify. unfold nframe.
  cbn [serialize app parse HDR_LENGTH cmdId flags hlength apt_hdr drop]. unfold handleMsg. cbn [flags].
  by destruct Hk as [-> | ->].
Qed.

(** Between the first copy of a notification and the next one: copies of it
    and every other operation but frames. *)
Definition carries (k cmd : Z) (data : list Z) (op : tr_op) : Prop :=
  match op with OpData env fr => fr = nframe k cmd data | _ => True end.

Definition acked (k cmd : Z) (l : list tr_event) : bool :=
  existsb (fun a => bool_decide (a = (cmd, k, 0))) (omap ack_of l).

Lemma acked_app k cmd l1 l2 : acked k cmd (l1 ++ l2) = acked k cmd l1 || acked k cmd l2.
Proof. unfold acked. by rewrite omap_app, existsb_app. Qed.

Lemma exec_other k op t :
  (forall env data, op <> OpData env data) -> steady rid k t ->
  does (exec reactFlow upper op) t [] [] (fun _ => steady rid k).
Proof. intros Hop Ht. apply does_quiet; [|done]. by apply exec_steady. Qed.

Lemma exec_nframe k k' env cmd data t :
  plain cmd = true -> is_pktId k' -> steady rid k t ->
  exists l rc k2, does (exec reactFlow upper (OpData env (nframe k' cmd data))) t l [(cmd, k', rc)] (fun _ => steady rid k2) /\
    (k' = k /\ l = [] /\ k2 = k /\ rc = 0 \/
     k' <> k /\ (rc = DN_API_RC_NO_RESOURCES /\ l = [] /\ k2 = k /\ m_apInputState t = APM_FLOW_PAUSE \/
                  rc = 0 /\ l = notifs_of cmd data /\ k2 = k')).
Proof.
  intros Hc Hk Ht. cbn [exec].
  assert (Ht' : steady rid k (t <| m_pingTimer := true |>)) by exact Ht.
  pose proof (handleNotification_does k k' env (mkAptHdr cmd (Z.land (u8 (Z.of_nat (length data))) 0xFF) k') data
    _ Hc Hk eq_refl Ht') as H. cbv zeta in H. cbn [cmdId] in H.
  assert (G : forall l a k2, does (dataReceived reactFlow react reactReboot env (nframe k' cmd data)) t l a (fun _ => steady rid k2) ->
    does (_ ← dataReceived reactFlow react reactReboot env (nframe k' cmd data); mret tt) t l a (fun _ => steady rid k2)).
  { intros l a k2 Hd. eapply does_then; [exact Hd|]. intros x t1 H1. by split_and!. }
  destruct (Z.eqb_spec k' k) as [->|Hne]; [|destruct (_ && _) eqn:Hpaused].
  - exists [], 0, k. split; [|by left]. apply G, dataReceived_nframe; [done|exact H].
  - exists [], DN_API_RC_NO_RESOURCES, k. split; [by apply G, dataReceived_nframe; [|exact H]|].
    apply andb_true_iff in Hpaused as [Hpaused%bool_decide_eq_true _]. right. split; [done|by left].
  - exists (notifs_of cmd data), 0, k'. split; [by apply G, dataReceived_nframe; [|exact H]|]. right. split; [done|by right].
Qed.

End Plain.

Section Copies.
Context (rid : Z) (Hr : is_pktId rid) (reactFlow : flow_notif -> TM unit).
Context {HF : FlowHandler reactFlow}.

(** Any number of copies, any other operations in between: told once when first acknowledged. *)
Lemma runs_copies cmd data k' ops :
  plain cmd = true -> is_pktId k' -> Forall (fun s => carries k' cmd data (snd s)) ops -> forall k t, steady rid k t ->
  let m := runs reactFlow ops in
  let a := acked k' cmd (out_of m t) in
  flat_map told (out_of m t) = (if negb (k' =? k) && a then notifs_of cmd data else []) /\
  steady rid (if a then k' else k) (st_of m t).
Proof.
  intros Hc Hk. induction 1 as [|[upper op] ops Hop _ IH]; intros k t Ht m a.
  { unfold a, acked. cbn. by rewrite andb_false_r. }
  unfold a, m. cbn [runs]. rewrite out_bind, st_bind, acked_app, flat_map_app. clear a m.
  assert (Hcase : (exists env, op = OpData env (nframe k' cmd data)) \/ (forall env data, op <> OpData env data)).
  { destruct op; try (by right). left. cbn in Hop. subst. by eexists. }
  destruct Hcase as [[env ->]|Hno].
  - destruct (exec_nframe rid Hr reactFlow upper k k' env cmd data t Hc Hk Ht) as (l & rc & k2 & (E1 & E2 & E3) & H).
    destruct (IH k2 _ E3) as [G1 G2]. rewrite E1, G1. clear IH G1 E3.
    set (o := out_of (exec reactFlow upper (OpData env (nframe k' cmd data))) t) in *.
    assert (A1 : acked k' cmd o = bool_decide (rc = 0)).
    { unfold acked. rewrite E2. cbn [existsb]. rewrite orb_false_r. apply bool_decide_ext. naive_solver. }
    rewrite A1. set (st := st_of (runs reactFlow ops) _) in *. set (A := acked k' cmd _) in *. clearbody A st.
    destruct H as [(-> & -> & -> & ->)|(Hne & [(-> & -> & -> & _)|(-> & -> & ->)])].
    + rewrite Z.eqb_refl. cbn [negb andb]. split; [done|]. by destruct (bool_decide _), A.
    + by split.
    + rewrite Z.eqb_refl, (proj2 (Z.eqb_neq _ _) Hne). cbn [negb andb bool_decide orb]. rewrite app_nil_r.
      split; [done|]. by destruct A.
  - destruct (exec_other rid Hr reactFlow upper k op t Hno Ht) as (E1 & E2 & E3). destruct (IH k _ E3) as [G1 G2].
    assert (acked k' cmd (out_of (exec reactFlow upper op) t) = false) as -> by (unfold acked; by rewrite E2).
    rewrite E1, G1. by split.
Qed.

(** A run of the protocol: for each message, with alternating packet ids, the
    copies that arrive and what happens between them, until one is acknowledged. *)
Fixpoint session (k : Z) (ms : list (Z * list Z * list (upper_t * tr_op))) (t : CAPMTransport) : Prop :=
  match ms with
  | [] => True
  | (cmd, data, ops) :: ms =>
      plain cmd = true /\ Forall (fun s => carries k cmd data (snd s)) ops /\
      acked k cmd (out_of (runs reactFlow ops) t) = true /\
      session (Z.lxor k (Z.shiftl 1 1)) ms (st_of (runs reactFlow ops) t)
  end.

Definition session_ops (ms : list (Z * list Z * list (upper_t * tr_op))) : list (upper_t * tr_op) := flat_map snd ms.

Lemma runs_app l1 l2 t :
  st_of (runs reactFlow (l1 ++ l2)) t = st_of (runs reactFlow l2) (st_of (runs reactFlow l1) t) /\
  out_of (runs reactFlow (l1 ++ l2)) t =
    out_of (runs reactFlow l1) t ++ out_of (runs reactFlow l2) (st_of (runs reactFlow l1) t).
Proof.
  revert t. induction l1 as [|[upper op] l1 IH]; intros t; [done|]. cbn [app runs]. rewrite !st_bind, !out_bind.
  destruct (IH (st_of (exec reactFlow upper op) t)) as [-> ->]. by rewrite app_assoc.
Qed.

Lemma session_delivers ms : forall k0 k t,
  is_pktId k -> k <> k0 -> steady rid k0 t -> session k ms t ->
  flat_map told (out_of (runs reactFlow (session_ops ms)) t) =
    flat_map (fun m => notifs_of (fst (fst m)) (snd (fst m))) ms.
Proof.
  induction ms as [|[[cmd data] ops] ms IH]; intros k0 k t Hk Hne Ht Hs; [done|].
  destruct Hs as (Hc & Hops & Ha & Hs). unfold session_ops in *. cbn [flat_map snd fst].
  destruct (runs_app ops (flat_map snd ms) t) as [_ ->]. rewrite flat_map_app.
  destruct (runs_copies cmd data k ops Hc Hk Hops k0 t Ht) as [E1 E2]. rewrite Ha in E1, E2.
  rewrite E1, (proj2 (Z.eqb_neq _ _) Hne). f_equal.
  apply (IH k _ _ (toggle_pktId _ Hk) (toggle_ne _ Hk) E2 Hs).
Qed.
End Copies.

(** *** Responses *)
Definition rframe (k cmd : Z) (data : list Z) : list Z :=
  serialize (apt_hdr cmd (Z.of_nat (length data)) (Z.lor 1 k)) ++ data.

Section Responses.
Context (reactFlow : flow_notif -> TM unit) {HF : FlowHandler reactFlow} (upper : option apm_notif -> CAPMTransport -> list up_call).
Notation react := (fun n => reaction reactFlow upper (Some n)).
Notation reactReboot := (reaction reactFlow upper None).

(** A response is looked at only if it names the front command and its packet id. *)
Lemma rframe_run k cmd data env t :
  is_pktId k ->
  exec reactFlow upper (OpData env (rframe k cmd data)) t =
    match m_outputQueue t with
    | c :: _ =>
        if (cmd =? c_cmdId c) && (k =? m_respPacketId t) then
          (_ ← handleResponse reactFlow react reactReboot env cmd data; mret tt) (t <| m_pingTimer := true |>)
        else (t <| m_pingTimer := true |>, [], tt)
    | [] => (t <| m_pingTimer := true |>, [], tt)
    end.
Proof.
  intros Hk. cbn [exec]. unfold dataReceived, startPingTimer, rframe.
  cbn [serialize app parse HDR_LENGTH cmdId flags hlength apt_hdr drop]. unfold handleMsg. cbn [flags cmdId].
  assert (negb (Z.land (Z.lor 1 k) 1 =? 0) = true /\ Z.land (Z.lor 1 k) 2 = k) as [-> ->] by (by destruct Hk as [-> | ->]).
  runM. cbn [m_outputQueue m_respPacketId upd]. destruct (m_outputQueue t) as [|c q]; [done|].
  destruct (cmd =? c_cmdId c); cbn [negb andb]; [|done]. destruct (k =? m_respPacketId t); cbn [negb]; [|done].
  cbn [app]. destruct (handleResponse _ _ _ _ _ _ _) as [[t1 o1] x1]. done.
Qed.

Lemma rframe_ignored k cmd data env t :
  is_pktId k -> (forall c, head (m_outputQueue t) = Some c -> c_cmdId c = cmd -> m_respPacketId t <> k) ->
  exec reactFlow upper (OpData env (rframe k cmd data)) t = (t <| m_pingTimer := true |>, [], tt).
Proof.
  intros Hk Hno. rewrite rframe_run by done. destruct (m_outputQueue t) as [|c q]; [done|].
  destruct (Z.eqb_spec cmd (c_cmdId c)) as [Hc|]; [|done]. destruct (Z.eqb_spec k (m_respPacketId t)) as [He|]; [|done].
  by destruct (Hno c eq_refl (eq_sym Hc)).
Qed.

(** The callback events of a command whose two callbacks the caller supplied. *)
Definition callbacks (u e cmd rc : Z) (data : list Z) : list tr_event :=
  if rc =? DN_API_RC_OK then (if (1 <? length data)%nat then [EvRespCb u cmd data] else []) else [EvErrCb e cmd rc].

Lemma deliver_user env c u e id rc data t :
  c_resCallback c = CbUser u -> c_errResCallback c = CbUser e ->
  deliverResponse reactFlow react reactReboot env c id rc data t = (t, callbacks u e id rc data, APC_OK).
Proof.
  intros Hu He. unfold deliverResponse, callbacks. rewrite Hu, He.
  destruct (rc =? DN_API_RC_OK); [|done]. by destruct (1 <? length data)%nat.
Qed.

(** After [settle]: the front command stays for a retry, or leaves. *)
Definition settled (k : Z) (c : APMCommand) (q : list APMCommand) (nack : bool) (t : CAPMTransport) : Prop :=
  m_respPacketId t = k /\ m_curRetryCount t = 0 /\
  m_outputQueue t = (if nack then c :: q else q) /\ m_outputTimer t = nack /\
  (nack = false -> m_pending t = false).

Lemma settle_settled env c q rc t :
  m_outputQueue t = c :: q -> m_curRetryCount t = 0 -> m_outputTimer t = false ->
  let r := settle env c rc in
  let nack := rc =? DN_API_RC_NO_RESOURCES in
  out_of r t = [] /\ settled (m_respPacketId t) c q nack (st_of r t) /\
  (nack = true -> m_pending (st_of r t) = m_pending t) /\
  m_mngrInputState (st_of r t) = m_mngrInputState t /\
  res_of r t = negb nack && (Z.of_nat (length q) <? lowQueueWatermark (m_init_params t)).
Proof.
  intros Hq Hc Ho r nack. unfold r, settle, nack. destruct (rc =? DN_API_RC_NO_RESOURCES).
  - by split_and!.
  - assert (Ht : tail (m_outputQueue t) = q) by by rewrite Hq.
    split_and!; try done. cbn [negb andb]. by rewrite <- Ht.
Qed.

(** Whether the manager may send again: the command left and the queue is below the low watermark. *)
Definition resumes (q : list APMCommand) (nack : bool) (t : CAPMTransport) : bool :=
  bool_decide (m_mngrInputState t = APM_FLOW_PAUSE) &&
  (negb nack && (Z.of_nat (length q) <? lowQueueWatermark (m_init_params t))).

Definition resume_events (resume : bool) (s : CAPMTransport) : list tr_event :=
  if resume then EvFlow FlAPResume :: out_of (reactFlow FlAPResume) s else [].

Lemma handleResponse_user env c q u e id rc data t :
  m_outputQueue t = c :: q ->
  c_resCallback c = CbUser u -> c_errResCallback c = CbUser e ->
  let r := handleResponse reactFlow react reactReboot env id (rc :: data) in
  let nack := rc =? DN_API_RC_NO_RESOURCES in
  exists t1 s, settled (Z.lxor (m_respPacketId t) (Z.shiftl 1 1)) c q nack t1 /\
    (nack = true -> m_pending t1 = m_pending t) /\
    m_mngrInputState t1 = (if resumes q nack t then APM_FLOW_NORMAL else m_mngrInputState t) /\
    r t = (st_of (send env true) t1,
           resume_events (resumes q nack t) s ++ callbacks u e id rc (rc :: data) ++ out_of (send env true) t1, APC_OK).
Proof.
  intros Hq Hu He r nack. unfold r, handleResponse. cbn [length Nat.eqb lookup list_lookup default from_option].
  do 5 rewrite bind_silent by reflexivity. cbv zeta. change (Datatypes.id rc) with rc.
  match goal with |- context[st_of (modify ?f) ?t2] => set (t4 := st_of (modify f) t2) end.
  change (res_of get t4) with t4; change (st_of get t4) with t4.
  change (m_outputQueue t4) with (m_outputQueue t). rewrite Hq. cbv iota.
  destruct (settle_settled env c q rc t4) as (S1 & S2 & S3 & S4 & S5); [done..|].
  rewrite (bind_silent _ _ _ S1), S5. set (t5 := st_of (settle env c rc) t4) in *.
  rewrite (bind_pure get _ t5 t5 t5 eq_refl), S4. fold nack.
  change (bool_decide _ && _) with (resumes q nack t).
  assert (Hend : forall t1, (res ← deliverResponse reactFlow react reactReboot env c id rc (rc :: data); send env true ;; mret res) t1
    = (st_of (send env true) t1, callbacks u e id rc (rc :: data) ++ out_of (send env true) t1, APC_OK)).
  { intros t1. rewrite (bind_run _ _ _ _ _ _ (deliver_user env c u e id rc (rc :: data) _ Hu He)).
    f_equal; [f_equal|]; [by rewrite st_bind|by rewrite out_bind, app_nil_r|by rewrite res_bind]. }
  destruct (resumes q nack t); cbn [when].
  - destruct (flow_run reactFlow FlAPResume t5) as [b Hb].
    set (t6 := t5 <| m_isMngrConnected := b |> <| m_mngrInputState := APM_FLOW_NORMAL |>).
    assert (Hflow : (flow reactFlow FlAPResume ;; modify (fun t => t <| m_mngrInputState := APM_FLOW_NORMAL |>)) t5 =
      (t6, EvFlow FlAPResume :: out_of (reactFlow FlAPResume) t5, tt)).
    { rewrite run_bind, Hb. unfold flow at 1. rewrite out_bind. cbn [emit out_of st_of fst snd modify app]. by rewrite app_nil_r. }
    exists t6, t5. split; [exact S2|]. split; [exact S3|]. split; [done|].
    rewrite (bind_run _ _ _ _ _ _ Hflow). unfold st_of at 1, out_of at 2, res_of at 1. by rewrite Hend.
  - exists t5, t5. split_and!; [exact S2|exact S3|exact S4|].
    rewrite bind_silent by reflexivity. apply Hend.
Qed.

(** The matching response, with user callbacks. *)
Lemma response_done (t : CAPMTransport) (env env' : TrEnv)
  (c : APMCommand) (q : list APMCommand) (u e rc : Z) (data data' : list Z) :
  is_pktId (m_respPacketId t) -> m_outputQueue t = c :: q -> m_pending t = true -> te_ready env = true ->
  c_resCallback c = CbUser u -> c_errResCallback c = CbUser e ->
  let r := exec reactFlow upper (OpData env (rframe (m_respPacketId t) (c_cmdId c) (rc :: data))) in
  let t' := st_of r t in
  let nack := rc =? DN_API_RC_NO_RESOURCES in
  (exists s, out_of r t = resume_events (resumes q nack t) s ++ callbacks u e (c_cmdId c) rc (rc :: data)
    ++ (if nack then [] else match q with [] => [] | c' :: _ => [EvOut (frame t' c')] end)) /\
  m_mngrInputState t' = (if resumes q nack t then APM_FLOW_NORMAL else m_mngrInputState t) /\
  m_outputQueue t' = (if nack then c :: q else q) /\
  m_pending t' = nack || negb (bool_decide (q = [])) /\
  m_outputTimer t' = m_pending t' /\ m_curRetryCount t' = 0 /\
  m_respPacketId t' = Z.lxor (m_respPacketId t) (Z.shiftl 1 1) /\
  exec reactFlow upper (OpData env' (rframe (m_respPacketId t) (c_cmdId c) data')) t' =
    (t' <| m_pingTimer := true |>, [], tt).
Proof.
  intros Hk Hq Hp Hr Hu He r t' nack.
  set (tp := t <| m_pingTimer := true |>). assert (Hqp : m_outputQueue tp = c :: q) by exact Hq.
  destruct (handleResponse_user env c q u e (c_cmdId c) rc data tp Hqp Hu He)
    as (t1 & s & (S1 & S2 & S4 & S5 & S6) & Hpend & Hmn & Hrun).
  change (resumes q _ tp) with (resumes q nack t) in *. fold nack in Hrun, Hmn.
  assert (Hr2 : r t = (st_of (send env true) t1, resume_events (resumes q nack t) s ++
    callbacks u e (c_cmdId c) rc (rc :: data) ++ out_of (send env true) t1, tt)).
  { unfold r. rewrite rframe_run, Hq, !Z.eqb_refl by done. cbn [andb].
    fold tp. rewrite (bind_run _ _ _ _ _ _ Hrun). unfold st_of at 1, out_of at 2. cbn [mret M_ret fst snd]. by rewrite app_nil_r. }
  assert (Hst : t' = st_of (send env true) t1) by (unfold t', st_of at 1; by rewrite Hr2).
  assert (Ho : out_of r t = resume_events (resumes q nack t) s ++ callbacks u e (c_cmdId c) rc (rc :: data) ++ out_of (send env true) t1)
    by (unfold out_of at 1; by rewrite Hr2).
  assert (Hsend : m_respPacketId t' = m_respPacketId t1 /\ m_outputQueue t' = m_outputQueue t1 /\ m_curRetryCount t' = 0 /\
    m_pending t' = nack || negb (bool_decide (q = [])) /\ m_outputTimer t' = m_pending t' /\
    m_mngrInputState t' = m_mngrInputState t1 /\
    out_of (send env true) t1 = (if nack then [] else match q with [] => [] | c' :: _ => [EvOut (frame t' c')] end)).
  { fold nack in S4, S5, S6, Hpend. destruct nack eqn:Hn.
    - assert (Hs : send env true t1 = (t1, [], tt)).
      { unfold send. rewrite Hr. cbn [negb]. runM. rewrite S4. by rewrite (Hpend eq_refl), (Hp : m_pending tp = true). }
      rewrite Hst. unfold st_of, out_of. rewrite Hs. cbn [fst snd]. by rewrite S5, (Hpend eq_refl), (Hp : m_pending tp = true).
    - specialize (S6 eq_refl). destruct q as [|c' q'].
      + assert (Hs : send env true t1 = (t1, [], tt)) by (unfold send; rewrite Hr; cbn [negb]; runM; by rewrite S4).
        rewrite Hst. unfold st_of, out_of. rewrite Hs. cbn [fst snd]. by rewrite S5, S6.
      + assert (Hs : send env true t1 = (sent_state env c' t1, [EvOut (frame t1 c')], tt))
          by (unfold send; rewrite Hr; cbn [negb]; runM; by rewrite S4, S6).
        rewrite Hst. unfold st_of, out_of. rewrite Hs. by split_and!. }
  destruct Hsend as (E1 & E2 & E3 & E4 & E5 & E7 & E6). rewrite Ho, E6, E2, S4, E7. split_and!; try done; [by exists s|..].
  - by rewrite E1.
  - apply rframe_ignored; [done|]. intros _ _ _. rewrite E1, S1. by apply toggle_ne.
Qed.

(** Inserting without reaching the watermark: the queue grows at the chosen end. *)
Lemma insertMsg_queue env cmd data hi cb ecb sy t :
  te_ready env = true -> full t = false -> m_pending t = true ->
  queueSize t + 1 < highQueueWatermark (m_init_params t) ->
  let c := mkCommand cmd data sy cb ecb (te_now env) in
  let r := exec reactFlow upper (OpCall (UcInsert env cmd data hi cb ecb sy)) in
  out_of r t = [] /\
  m_outputQueue (st_of r t) = (if hi then c :: m_outputQueue t else m_outputQueue t ++ [c]) /\
  m_pending (st_of r t) = true /\ m_respPacketId (st_of r t) = m_respPacketId t /\
  m_mngrInputState (st_of r t) = m_mngrInputState t.
Proof.
  intros Hr Hf Hp Hw c r. set (t1 := st_of (enqueue hi c) t).
  assert (Hl : queueSize t1 = queueSize t + 1).
  { unfold t1, queueSize. change (m_outputQueue (st_of (enqueue hi c) t)) with
      (if hi then c :: m_outputQueue t else m_outputQueue t ++ [c]).
    destruct hi; rewrite ?length_app; cbn [length]; lia. }
  assert (Hs : send env true t1 = (t1, [], tt)).
  { destruct (send_run env true t1) as [|(cm & q & _ & Hn & _)]; [done|]. change (m_pending t1) with (m_pending t) in Hn.
    rewrite Hp in Hn. discriminate. }
  assert (Hrun : r t = (t1 <| m_queueCheckTimer := true |>, [], tt)).
  { unfold r. cbn [exec upCall]. unfold insertMsg. rewrite Hr. cbn [negb].
    rewrite (bind_pure _ _ t (t1 <| m_queueCheckTimer := true |>) APC_OK); [done|].
    rewrite (bind_pure get _ t t t eq_refl), Hf. fold c.
    rewrite (bind_silent (enqueue hi c)) by reflexivity. fold t1.
    rewrite (bind_pure get _ t1 t1 t1 eq_refl). cbv zeta. rewrite (bind_pure _ _ _ _ _ Hs), (bind_pure get _ t1 t1 t1 eq_refl).
    rewrite Hl, (proj2 (Z.leb_gt _ _)) by (change (m_init_params t1) with (m_init_params t); lia).
    rewrite andb_false_r. cbn [when]. rewrite (bind_pure (mret tt) _ t1 t1 tt eq_refl), (bind_pure get _ t1 t1 t1 eq_refl).
    rewrite Hl, (proj2 (Z.ltb_lt _ _)) by (unfold queueSize; lia). done. }
  unfold st_of, out_of. rewrite Hrun. by split_and!.
Qed.
End Responses.

(** *** A small client, for examples: it asks for the MAC address when the AP boots. *)
Definition ex_env : TrEnv := mkTrEnv 1000000 true 0 3.
Definition ex_flow (f : flow_notif) : TM unit := mret tt.
Definition ex_upper (n : option apm_notif) (t : CAPMTransport) : list up_call :=
  match n with
  | Some NAPBoot => [UcInsert ex_env DN_API_LOC_CMD_GETPARAM [DN_API_PARAM_MACADDR] false CbNone CbNone false]
  | _ => []
  end.
Definition ex_opened : CAPMTransport := st_of (open init_param_default) (newCAPMTransport true).
Definition ex_state (l : list tr_op) : CAPMTransport := st_of (execs ex_flow ex_upper l) ex_opened.
Definition ex_boot : tr_op := OpData ex_env (nframe 2 DN_API_LOC_NOTIF_EVENTS [0; 0; 0; 1; 0; 0; 0; 0; 0]).
Definition ex_cmd (u e : Z) : tr_op := OpCall (UcInsert ex_env DN_API_LOC_CMD_JOIN [7] false (CbUser u) (CbUser e) false).

Lemma ex_param_ok : param_ok init_param_default.
Proof. split; vm_compute; intuition congruence. Qed.

#[export] Instance ex_flow_handler : FlowHandler ex_flow.
Proof. split; [|by constructor]. intros f t. exists (m_isMngrConnected t). by destruct t. Qed.

Lemma ex_reachable l : tr_reachable init_param_default (ex_state l).
Proof. apply reachable_execs; [apply _|]. apply (Tr_open _ true). Qed.

(** * Theorems *)

(** In every state that any sequence of operations, timers and frames
    reaches, one after another, the queue fits its buffer, packet ids are 0 or 2, a command in
    flight is at the front of the queue and watched by the retry timer until
    the retries are used up, and the manager is paused above the high
    watermark -- whatever calls the upper layer makes when it is notified. *)
Theorem transport_reachable (p : init_param_t) (t : CAPMTransport) : param_ok p -> tr_reachable p t -> tr_inv p t.
Proof. apply reachable_inv. Qed.

Lemma transport_reachable_witness :
  let t := ex_state [OpCall (UcEnableJoin ex_env 1229); ex_boot; OpRetryExpires ex_env] in
  m_pending t = true /\ length (m_outputQueue t) = 4%nat /\ m_curRetryCount t = 1 /\ tr_inv init_param_default t.
Proof.
  split_and!; [by vm_compute..|].
  apply (transport_reachable init_param_default); [apply ex_param_ok|apply ex_reachable].
Defined.


(** C13: a command that gets no response is sent again exactly as often as the
    parameters allow, unchanged and with its packet id; the next expiry declares
    the AP lost and resets it, unless aborting is disabled, and ends the retries:
    no timer is left that could send it again. *)
Theorem retry_bounded (p : init_param_t) (reactFlow : flow_notif -> TM unit) {HF : FlowHandler reactFlow}
  (upper : option apm_notif -> CAPMTransport -> list up_call) (t : CAPMTransport) (c : APMCommand)
  (n : Z) (envs : list TrEnv) (env env' : TrEnv) :
  param_ok p -> tr_reachable p t -> in_flight p c n t ->
  Forall (fun env => te_ready env = true) envs -> length envs = Z.to_nat (maxRetries p - n) ->
  let retries := execs reactFlow upper (map OpRetryExpires envs) in
  let last := exec reactFlow upper (OpRetryExpires env) in
  let t1 := st_of retries t in
  let t2 := st_of last t1 in
  omap out_frame (out_of retries t) = replicate (length envs) (frame t c) /\
  out_of last t1 = (if m_abortEnabled t then
      EvFlow FlAPLost :: out_of (reactFlow FlAPLost) (t1 <| m_outputTimer := false |> <| m_pingTimer := false |>)
      ++ EvResetAP :: (if m_reconnectSerial t then [EvStopNode] else []) else []) /\
  (m_abortEnabled t = true -> m_isRunning t2 = false /\ m_isApConnected t2 = false) /\
  m_outputQueue t2 = m_outputQueue t /\
  exec reactFlow upper (OpRetryExpires env') t2 = (t2, [], tt).
Proof.
  intros Hp Ht Hf He Hlen retries last t1 t2.
  pose proof (po_retries _ Hp) as Hmax.
  pose proof (tc_retry _ _ (proj1 (reachable_inv p t Hp Ht))) as Hc. rewrite (if_count _ _ _ _ Hf) in Hc.
  destruct (retries_run reactFlow upper p c envs n t Hf He) as (H1 & H2 & H3 & H4 & H5); try lia.
  replace (n + Z.of_nat (length envs)) with (maxRetries p) in H1 by lia.
  destruct (retry_last reactFlow upper p c env _ H1) as [L1 L2]. specialize (L2 HF). cbv zeta in L2.
  destruct L2 as (L2 & L3 & L4 & L5). subst t2 t1 last retries.
  rewrite H3, H4 in L1. rewrite H2 in L4. split_and!; try done.
  { by rewrite <- H3. }
  by apply retry_idle.
Qed.

Lemma retry_bounded_witness :
  let t := ex_state [ex_cmd 1 2] in
  let c := mkCommand DN_API_LOC_CMD_JOIN [7] false (CbUser 1) (CbUser 2) 1000000 in
  let retries := execs ex_flow ex_upper (map OpRetryExpires [ex_env; ex_env; ex_env]) in
  omap out_frame (out_of retries t) = [[DN_API_LOC_CMD_JOIN; 1; 0; 7]; [DN_API_LOC_CMD_JOIN; 1; 0; 7]; [DN_API_LOC_CMD_JOIN; 1; 0; 7]] /\
  out_of (exec ex_flow ex_upper (OpRetryExpires ex_env)) (st_of retries t) = [EvFlow FlAPLost; EvResetAP; EvStopNode].
Proof.
  destruct (retry_bounded init_param_default ex_flow ex_upper (ex_state [ex_cmd 1 2])
    (mkCommand DN_API_LOC_CMD_JOIN [7] false (CbUser 1) (CbUser 2) 1000000) 0 [ex_env; ex_env; ex_env] ex_env ex_env)
    as (H1 & H2 & _).
  - apply ex_param_ok.
  - apply ex_reachable.
  - by split; vm_compute.
  - by repeat constructor.
  - done.
  - split; [exact H1|exact H2].
Defined.


(** The access point's notifications reach the upper layer exactly once each
    and in order, however often each is repeated until it is acknowledged, and
    whatever timers and calls come in between and however the upper layer reacts: if
    the AP alternates its packet
    id once a notification was acknowledged with OK, the upper layer is told
    exactly what the serializer makes of each notification. *)
Theorem notification_exactly_once (p : init_param_t) (reactFlow : flow_notif -> TM unit) {HF : FlowHandler reactFlow}
  (t : CAPMTransport) (k : Z) (ms : list (Z * list Z * list (upper_t * tr_op))) :
  param_ok p -> tr_reachable p t -> is_pktId k -> k <> m_notifPacketId t -> session reactFlow k ms t ->
  flat_map told (out_of (runs reactFlow (session_ops ms)) t) =
    flat_map (fun m => notifs_of (fst (fst m)) (snd (fst m))) ms.
Proof.
  intros Hp Ht Hk Hne Hs.
  pose proof (tc_resp _ _ (proj1 (reachable_inv p t Hp Ht))) as Hr.
  apply (session_delivers (m_respPacketId t) Hr reactFlow) with (k0 := m_notifPacketId t) (k := k); done.
Qed.

Lemma notification_exactly_once_witness :
  let copy k c d := OpData ex_env (nframe k c d) in
  let ms := [(DN_API_LOC_NOTIF_AP_RECEIVE, [1; 2; 3],
              map (pair ex_upper) [OpCall (UcSetAPMState APM_FLOW_PAUSE); copy 2 DN_API_LOC_NOTIF_AP_RECEIVE [1; 2; 3];
               OpCall (UcSetAPMState APM_FLOW_NORMAL); copy 2 DN_API_LOC_NOTIF_AP_RECEIVE [1; 2; 3];
               OpRetryExpires ex_env; copy 2 DN_API_LOC_NOTIF_AP_RECEIVE [1; 2; 3]]);
             (DN_API_LOC_NOTIF_AP_RECEIVE, [4], map (pair ex_upper) [copy 0 DN_API_LOC_NOTIF_AP_RECEIVE [4]])] in
  flat_map told (out_of (runs ex_flow (session_ops ms)) (ex_state [ex_cmd 1 2])) =
    [NAPReceive [1; 2; 3]; NAPReceive [4]].
Proof.
  intros copy ms.
  apply (notification_exactly_once init_param_default ex_flow (ex_state [ex_cmd 1 2]) 2 ms).
  - apply ex_param_ok.
  - apply ex_reachable.
  - by right.
  - by vm_compute.
  - cbn [session ms]. split_and!; try (by vm_compute); by repeat constructor.
Defined.





(** A high-priority command overtakes the command in flight: it is put in
    front of it, so the response to the command that was sent is not
    recognised -- or, if both have the same command id, is taken as the response
    to the command that was never sent, which leaves the queue. *)
Theorem highPriority_overtakes (reactFlow : flow_notif -> TM unit) {HF : FlowHandler reactFlow}
  (upper : option apm_notif -> CAPMTransport -> list up_call) (t : CAPMTransport) (env env' : TrEnv)
  (c0 : APMCommand) (q : list APMCommand) (cmd u e : Z) (data rsp : list Z) (rc : Z) :
  is_pktId (m_respPacketId t) -> m_outputQueue t = c0 :: q -> m_pending t = true ->
  m_mngrInputState t = APM_FLOW_NORMAL -> te_ready env = true -> te_ready env' = true -> full t = false ->
  queueSize t + 1 < highQueueWatermark (m_init_params t) -> rc <> DN_API_RC_NO_RESOURCES ->
  let ins := exec reactFlow upper (OpCall (UcInsert env cmd data true (CbUser u) (CbUser e) false)) in
  let rcv := exec reactFlow upper (OpData env' (rframe (m_respPacketId t) (c_cmdId c0) (rc :: rsp))) in
  let t1 := st_of ins t in
  let c1 := mkCommand cmd data false (CbUser u) (CbUser e) (te_now env) in
  out_of ins t = [] /\ m_outputQueue t1 = c1 :: c0 :: q /\
  (cmd <> c_cmdId c0 -> rcv t1 = (t1 <| m_pingTimer := true |>, [], tt)) /\
  (cmd = c_cmdId c0 ->
   m_outputQueue (st_of rcv t1) = c0 :: q /\
   out_of rcv t1 = callbacks u e cmd rc (rc :: rsp) ++ [EvOut (frame (st_of rcv t1) c0)]).
Proof.
  intros Hk Hq Hp Hm Hr Hr' Hf Hw Hrc ins rcv t1 c1.
  destruct (insertMsg_queue reactFlow upper env cmd data true (CbUser u) (CbUser e) false t Hr Hf Hp Hw)
    as (I1 & I2 & I3 & I4 & I5). rewrite Hq in I2. fold ins t1 c1 in I1, I2, I3, I4, I5.
  split_and!; [done|done|..].
  - intros Hne. unfold rcv. rewrite <- I4 in *. rewrite rframe_run, I2 by done. cbn [c_cmdId c1].
    by rewrite (proj2 (Z.eqb_neq _ _) (not_eq_sym Hne)).
  - intros Hc. rewrite <- I4 in Hk. rewrite <- I5 in Hm.
    destruct (response_done reactFlow upper t1 env' env' c1 (c0 :: q) u e rc rsp [] Hk I2 I3 Hr' eq_refl eq_refl)
      as ([s R1] & _ & R2 & _).
    cbv zeta in R1, R2. cbn [c_cmdId c1] in R1, R2. rewrite Hc, I4, (proj2 (Z.eqb_neq _ _) Hrc) in R1, R2.
    unfold resumes in R1. rewrite Hm in R1. rewrite Hc. by split.
Qed.

Lemma highPriority_overtakes_witness :
  let t := ex_state [ex_cmd 1 2] in
  let t1 := st_of (exec ex_flow ex_upper
    (OpCall (UcInsert ex_env DN_API_LOC_CMD_JOIN [8] true (CbUser 3) (CbUser 4) false))) t in
  out_of (exec ex_flow ex_upper (OpData ex_env (rframe 0 DN_API_LOC_CMD_JOIN [0; 9]))) t1 =
    [EvRespCb 3 DN_API_LOC_CMD_JOIN [0; 9]; EvOut [DN_API_LOC_CMD_JOIN; 1; 2; 7]].
Proof.
  destruct (highPriority_overtakes ex_flow ex_upper (ex_state [ex_cmd 1 2]) ex_env ex_env
    (mkCommand DN_API_LOC_CMD_JOIN [7] false (CbUser 1) (CbUser 2) 1000000) [] DN_API_LOC_CMD_JOIN 3 4 [8] [9] 0)
    as (_ & _ & _ & H); [by left|by vm_compute..|].
  exact (proj2 (H eq_refl)).
Defined.

