(* ===== verification/ApmThreads.v ===== *)
(** The transport between its threads (APInterface/APMTransport.cpp).

    In ApmTransport an operation is one step.  The code releases [m_lock] within operations,
    and some fields have no lock: here an operation is a list of sections, and between
    two sections of one thread the others run.  One thread runs the IO service: the frames from the serial port and
    the timers; any number of threads call the transport from above.  A section is the code
    under one hold of [m_lock], or code that shares no field with another thread, or one access to a field that
    has no lock ([m_mngrInputState], [m_isRunning]).  Two holds are relaxed, which only adds
    interleavings: [handleQueueCheckTimeout] and [clearOutputQueue]'s caller may be interrupted after the state is read. *)
From stdpp Require Import base numbers list option strings.
From Stdlib Require Import ZArith Lia.
From S2P Require Import Prelude Common ApcProto ApmProto ApmSerializer ApmTransport.

Local Open Scope Z_scope.

Notation TM := (M CAPMTransport tr_event) (only parsing).

(** ** Sections *)
Inductive task : Type :=
(* insertMsg *)
| TInsert (env : TrEnv) (cmd : Z) (data : list Z) (isHigh : bool) (cb ecb : callback) (isSynch : bool)
| TPush (env : TrEnv) (cmd : Z) (data : list Z) (isHigh : bool) (cb ecb : callback) (isSynch : bool)
| TSend (env : TrEnv) (isNew : bool)
| TMark (atHighWatermark : bool)
| TFlow (f : flow_notif)
| TMngr (st : apm_flow_control_t)
| TQueueTimer
(* connection state, and the other calls from above *)
| TApConn (b : bool)
| TRunning (b : bool)
| TNetId (netId : Z)
| TMngrJoin (env : TrEnv)
| TApJoin (env : TrEnv)
| TSetNetId (env : TrEnv)
| TDisableJoin
| TApmState (st : apm_flow_control_t)
| TAbort (b : bool)
| TEmit (e : tr_event)
(* stop *)
| TStopRetry
| TStopPing
| TStopQueue
(* a frame from the port *)
| TData (env : TrEnv) (data : list Z)
| TMatch (env : TrEnv) (hdr : apt_hdr_s) (data : list Z)
| TBegin (env : TrEnv) (id pktId : Z) (data : list Z)
| TSettle (env : TrEnv) (id rc : Z) (data : list Z)
| TResume (below : bool)
| TDeliver (env : TrEnv) (cmd : APMCommand) (id rc : Z) (data : list Z)
| TNotif (env : TrEnv) (hdr : apt_hdr_s) (data : list Z)
| TNotifEnd (hdr : apt_hdr_s) (res : apc_error_t)
| TNotify (env : TrEnv) (n : apm_notif)
| TClear (env : TrEnv)
| TBoot (env : TrEnv)
(* timers *)
| TExpire (env : TrEnv) (stale : bool)
| TRetryEnd
| TPing (env : TrEnv)
| TStartPing
| TQueueCheck (env : TrEnv)
| TPPS.

(** [insertMsg], the loss of the AP, and [startJoin_p] as sections. *)
Definition apLost_tasks : list task := [TFlow FlAPLost; TApConn false; TRunning false].
Definition insertCmd_task (env : TrEnv) (cmd : Z) (data : list Z) : task := TInsert env cmd data false CbNone CbNone false.
Definition join_tasks (env : TrEnv) : list task :=
  [insertCmd_task env DN_API_LOC_CMD_GETPARAM [DN_API_PARAM_MACADDR]; TSetNetId env;
   insertCmd_task env DN_API_LOC_CMD_JOIN []; TRunning true].
Definition reset_tasks : list task := [TRunning false; TEmit EvResetAP].

Definition call_tasks (c : up_call) : list task :=
  match c with
  | UcInsert env cmd data hi cb ecb sy => [TInsert env cmd data hi cb ecb sy]
  | UcEnableJoin env netId => [TNetId netId; TMngrJoin env]
  | UcDisableJoin => [TDisableJoin]
  | UcDisconnect env b => [TInsert env DN_API_LOC_CMD_DISCONNECT [] true CbNone CbDisconnectErr b]
  | UcHwReset => reset_tasks
  | UcSetAPMState st => [TApmState st]
  | UcAbort b => [TAbort b]
  end.

Section Run.
Context (reactFlow : flow_notif -> TM unit) (upper : option apm_notif -> CAPMTransport -> list up_call).

Definition silent (m : TM unit) (l : list task) : TM (list task) := m ;; mret l.

(** What [cmdHandler] does before the notifications that it then makes. *)
Definition cmd_tasks (env : TrEnv) (cmd : Z) (data : list Z) : TM (list task * apc_error_t) :=
  emits (overreads cmd data) ;;
  t ← get;
  let '(s, ns, res) := handleCmd (te_garbage env) (m_cmdHandler t) cmd data in
  modify (fun t => t <| m_cmdHandler := s |>) ;;
  mret (map (TNotify env) ns, res).

(** A section, and the sections that its thread runs next. *)
Definition run (k : task) : TM (list task) :=
  match k with
  | TInsert env cmd data hi cb ecb sy =>
      mret (if te_ready env then [TPush env cmd data hi cb ecb sy] else apLost_tasks)
  | TPush env cmd data hi cb ecb sy =>
      t ← get;
      if full t then mret []
      else
        enqueue hi (mkCommand cmd data sy cb ecb (te_now env)) ;;
        gets (fun t => [TSend env true; TMark (highQueueWatermark (m_init_params t) <=? queueSize t); TQueueTimer])
  | TSend env isNew => silent (send env isNew) []
  | TMark high =>
      gets (fun t => if bool_decide (m_mngrInputState t = APM_FLOW_NORMAL) && high
                     then [TFlow FlAPPause; TMngr APM_FLOW_PAUSE] else [])
  | TFlow f => silent (flow reactFlow f) []
  | TMngr st => silent (modify (fun t => t <| m_mngrInputState := st |>)) []
  | TQueueTimer => t ← get; silent (when (0 <? queueSize t) startQueueCheckTimer) []
  | TApConn b => silent (modify (fun t => t <| m_isApConnected := b |>)) []
  | TRunning b => silent (modify (fun t => t <| m_isRunning := b |>)) []
  | TNetId netId => silent (modify (fun t => t <| m_netId := netId |>)) []
  | TMngrJoin env => b ← setJoinProcessState_p true; mret (if (b : bool) then join_tasks env else [])
  | TApJoin env => b ← setAPConnectionState_p true; mret (if (b : bool) then join_tasks env else [])
  | TSetNetId env =>
      gets (fun t => [insertCmd_task env DN_API_LOC_CMD_SETPARAM
                        (le_bytes 1 DN_API_PARAM_NETID ++ le_bytes 2 (bswap 2 (u16 (m_netId t))))])
  | TDisableJoin => silent disableJoin []
  | TApmState st => silent (setAPMState st) []
  | TAbort b => silent (if b then enableAbort else disableAbort) []
  | TEmit e => silent (emit e) []
  | TStopRetry => silent stopRetryTimer []
  | TStopPing => silent stopPingTimer []
  | TStopQueue => silent stopQueueCheckTimer []
  | TData env data =>
      startPingTimer ;;
      mret (match parse (mkAptHdr 0 0 0) data with
            | (_, O) => []
            | (hdr, n) => if negb (Z.land (flags hdr) 1 =? 0) then [TMatch env hdr (drop n data)]
                          else [TNotif env hdr (drop n data)]
            end)
  | TMatch env hdr data =>
      gets (fun t =>
        match m_outputQueue t with
        | [] => []
        | cmd :: _ => if (cmdId hdr =? c_cmdId cmd) && (Z.land (flags hdr) 2 =? m_respPacketId t)
                      then [TBegin env (cmdId hdr) (Z.land (flags hdr) 2) data] else []
        end)
  | TBegin env id pktId data =>
      stopRetryTimer ;;
      countResponse env (length data) ;;
      emits (if (length data =? 0)%nat then [EvOverread 0] else []) ;;
      modify (fun t => t <| m_respPacketId := Z.lxor (m_respPacketId t) (Z.shiftl 1 1) |>) ;;
      mret [TSettle env id (default (te_garbage env) (data !! 0%nat)) data]
  | TSettle env id rc data =>
      t ← get;
      match m_outputQueue t with
      | [] => mret []
      | cmd :: _ =>
          below ← settle env cmd rc;
          mret [TResume below; TDeliver env cmd id rc data; TSend env true]
      end
  | TResume below =>
      gets (fun t => if bool_decide (m_mngrInputState t = APM_FLOW_PAUSE) && below
                     then [TFlow FlAPResume; TMngr APM_FLOW_NORMAL] else [])
  | TDeliver env cmd id rc data =>
      if rc =? DN_API_RC_OK then
        if (1 <? length data)%nat then
          if isCb (c_resCallback cmd) then silent (callResponse (c_resCallback cmd) id data) []
          else r ← cmd_tasks env id data; mret (fst r)
        else mret []
      else if isCb (c_errResCallback cmd) then silent (callError (c_errResCallback cmd) id rc) []
      else mret (map (TNotify env) (handleError id rc))
  | TNotif env hdr data =>
      let pktId := Z.land (flags hdr) 2 in
      t ← get;
      if negb (pktId =? m_notifPacketId t) || (0 <? Z.land (flags hdr) 8) then
        countNotification (length data) ;;
        if bool_decide (m_apInputState t = APM_FLOW_PAUSE) && (cmdId hdr =? DN_API_LOC_NOTIF_AP_RECEIVE) then
          silent (sendAck (cmdId hdr) pktId DN_API_RC_NO_RESOURCES) []
        else r ← cmd_tasks env (cmdId hdr) data; mret (fst r ++ [TNotifEnd hdr (snd r)])
      else
        upd_stats (fun s => s <| m_numRetriesRecv := u32 (m_numRetriesRecv s + 1) |>) ;;
        silent (sendAck (cmdId hdr) pktId (apc_error_val APC_OK)) []
  | TNotifEnd hdr res =>
      when (bool_decide (res = APC_OK)) (modify (fun t => t <| m_notifPacketId := Z.land (flags hdr) 2 |>)) ;;
      silent (sendAck (cmdId hdr) (Z.land (flags hdr) 2) (apc_error_val res)) []
  | TNotify env n =>
      match n with
      | NAPLost => mret apLost_tasks
      | NAPBoot => mret [TClear env]
      | _ => emit (EvNotif n) ;; gets (fun t => flat_map call_tasks (upper (Some n) t))
      end
  | TClear env => silent clearOutputQueue [TBoot env]
  | TBoot env =>
      t ← get;
      if negb (m_isRunning t) then
        emit (EvNotif NAPBoot) ;; gets (fun t => flat_map call_tasks (upper (Some NAPBoot) t) ++ [TApJoin env])
      else emit EvReboot ;; gets (fun t => flat_map call_tasks (upper None t) ++ [TRunning false])
  | TExpire env stale =>
      t ← get;
      if negb stale && negb (m_outputTimer t) then mret []
      else
        when (negb stale) (modify (fun t => t <| m_outputTimer := false |>)) ;;
        if m_curRetryCount t <? maxRetries (m_init_params t) then
          when (m_reconnectSerial t && (0 <? m_curRetryCount t)) (reopenPort env) ;;
          mret [TSend env false; TRetryEnd]
        else
          stopPingTimer ;;
          mret (if m_abortEnabled t
                then apLost_tasks ++ reset_tasks ++ (if m_reconnectSerial t then [TEmit EvStopNode] else []) else [])
  | TRetryEnd =>
      upd_stats (fun s => s <| m_numRetriesSent := u32 (m_numRetriesSent s + 1) |>) ;;
      modify (fun t => t <| m_curRetryCount := u32 (m_curRetryCount t + 1) |>) ;;
      silent startRetryTimer []
  | TPing env =>
      gets (fun t => (if queueSize t =? 0 then [insertCmd_task env DN_API_LOC_CMD_GETPARAM [DN_API_PARAM_MACADDR]] else [])
                     ++ [TStartPing])
  | TStartPing => silent startPingTimer []
  | TQueueCheck env =>
      gets (fun t =>
        match m_outputQueue t with
        | [] => if bool_decide (m_mngrInputState t = APM_FLOW_PAUSE) then [TFlow FlAPResume; TMngr APM_FLOW_NORMAL] else []
        | c :: _ =>
            (if bool_decide (m_mngrInputState t = APM_FLOW_NORMAL) &&
                (maxPacketAge (m_init_params t) <? u32 (Z.quot (te_now env - c_timestamp c) 1000))
             then [TFlow FlAPPause; TMngr APM_FLOW_PAUSE] else []) ++ [TQueueTimer]
        end)
  | TPPS => silent handlePPSTimeout []
  end.
End Run.

(** ** Threads *)

(** What the IO service calls. *)
Inductive io_op : Type :=
| IoData (env : TrEnv) (data : list Z)
| IoRetry (env : TrEnv) (stale : bool)
| IoPing (env : TrEnv)
| IoQueueCheck (env : TrEnv)
| IoPPS.

Definition io_task (op : io_op) : task :=
  match op with
  | IoData env data => TData env data
  | IoRetry env stale => TExpire env stale
  | IoPing env => TPing env
  | IoQueueCheck env => TQueueCheck env
  | IoPPS => TPPS
  end.

Record Threads : Type := mkThreads {
  th_t : CAPMTransport;
  th_io : list task;              (** what the IO thread has still to do *)
  th_calls : list (list task);    (** the threads that call from above *)
  th_stopped : bool;              (** [stop] was called *)
  th_ids : list Z                 (** packet ids of the responses accepted since the queue was cleared *)
}.
#[export] Instance Threads_eta : Eta Threads := fun s =>
  mkThreads (th_t s) (th_io s) (th_calls s) (th_stopped s) (th_ids s).

Definition note_ids (k : task) (ids : list Z) : list Z :=
  match k with TBegin _ _ pktId _ => ids ++ [pktId] | TClear _ => [] | _ => ids end.

Inductive th_op : Type :=
| ThIo (op : io_op)               (** the IO service, if idle, calls *)
| ThCall (c : up_call)            (** a thread calls from above *)
| ThAPLost
| ThStop
| ThRunIo                         (** the IO thread runs its next section *)
| ThRun (i : nat).                (** another thread does *)

Section Exec.
Context (reactFlow : flow_notif -> TM unit) (upper : option apm_notif -> CAPMTransport -> list up_call).

Definition th_exec (op : th_op) (s : Threads) : option Threads :=
  match op with
  | ThIo op => match th_io s with [] => Some (s <| th_io := [io_task op] |>) | _ => None end
  | ThCall c => Some (s <| th_calls := th_calls s ++ [call_tasks c] |>)
  | ThAPLost => Some (s <| th_calls := th_calls s ++ [apLost_tasks] |>)
  | ThStop => Some (s <| th_calls := th_calls s ++ [[TStopRetry; TStopPing; TStopQueue]] |> <| th_stopped := true |>)
  | ThRunIo =>
      match th_io s with
      | k :: rest =>
          let r := run reactFlow upper k in
          Some (s <| th_t := st_of r (th_t s) |> <| th_io := res_of r (th_t s) ++ rest |> <| th_ids := note_ids k (th_ids s) |>)
      | [] => None
      end
  | ThRun i =>
      match th_calls s !! i with
      | Some (k :: rest) =>
          let r := run reactFlow upper k in
          Some (s <| th_t := st_of r (th_t s) |> <| th_calls := <[i := res_of r (th_t s) ++ rest]> (th_calls s) |>)
      | _ => None
      end
  end.

Fixpoint th_execs (l : list th_op) (s : Threads) : option Threads :=
  match l with [] => Some s | op :: l => s1 ← th_exec op s; th_execs l s1 end.
End Exec.

(** A transport that was opened with parameters [p], before any thread uses it; the upper layer reacts in each step in
    a way of its own. *)
Definition th_init (p : init_param_t) (bReconnect : bool) : Threads :=
  mkThreads (st_of (open p) (newCAPMTransport bReconnect)) [] [] false [].

Inductive th_reach (p : init_param_t) : Threads -> Prop :=
| Th_init b : th_reach p (th_init p b)
| Th_step s s' op reactFlow upper :
    FlowHandler reactFlow -> th_reach p s -> th_exec reactFlow upper op s = Some s' -> th_reach p s'.

(** ** What a section does to the fields of the invariant *)
Definition view (t : CAPMTransport) :=
  (m_init_params t, m_capacity t, m_outputQueue t, m_respPacketId t, m_notifPacketId t, m_pending t, m_curRetryCount t,
   m_outputTimer t).

(** Sections that leave them alone. *)
Definition plain_task (k : task) : bool :=
  match k with
  | TPush _ _ _ _ _ _ _ | TSend _ _ | TStopRetry | TBegin _ _ _ _ | TSettle _ _ _ _ | TNotifEnd _ _ | TClear _
  | TExpire _ _ | TRetryEnd => false
  | _ => true
  end.

(** Sections that begin nothing but themselves. *)
Definition mild (k : task) : bool :=
  match k with TBegin _ _ _ _ | TExpire _ _ | TRetryEnd | TStopRetry => false | _ => true end.

(** Sections of a call from above. *)
Definition in_call (k : task) : bool :=
  match k with
  | TInsert _ _ _ _ _ _ _ | TPush _ _ _ _ _ _ _ | TSend _ _ | TMark _ | TFlow _ | TMngr _ | TQueueTimer | TApConn _
  | TRunning _ | TNetId _ | TMngrJoin _ | TSetNetId _ | TDisableJoin | TApmState _ | TAbort _ | TEmit _
  | TStopRetry | TStopPing | TStopQueue => true
  | _ => false
  end.

Definition yields {A} (P : A -> Prop) (m : TM A) : Prop := forall s, P (res_of m s).

Lemma yields_ret {A} (P : A -> Prop) a : P a -> yields P (mret a).
Proof. intros H s. exact H. Qed.

Lemma yields_gets {A} (P : A -> Prop) f : (forall t, P (f t)) -> yields P (gets f).
Proof. intros H s. apply H. Qed.

Lemma yields_bind {A B} (P : B -> Prop) (m : TM A) (k : A -> TM B) : (forall a, yields P (k a)) -> yields P (m ≫= k).
Proof. intros H s. rewrite res_bind. apply H. Qed.

Lemma yields_then {A B} (Q : A -> Prop) (P : B -> Prop) (m : TM A) (k : A -> TM B) :
  yields Q m -> (forall a, Q a -> yields P (k a)) -> yields P (m ≫= k).
Proof. intros H H' s. rewrite res_bind. by apply H'. Qed.

Section Sections.
Context (reactFlow : flow_notif -> TM unit) {HF : FlowHandler reactFlow}
  (upper : option apm_notif -> CAPMTransport -> list up_call).
Notation run := (run reactFlow upper).

Lemma calls_mild l : Forall (fun k => mild k = true /\ in_call k = true) (flat_map call_tasks l).
Proof. induction l as [|c l IH]; [constructor|]. cbn [flat_map]. apply Forall_app. split; [|done]. destruct c; by repeat constructor. Qed.

Lemma calls_mild1 l : Forall (fun k => mild k = true) (flat_map call_tasks l).
Proof. eapply Forall_impl; [apply calls_mild|]. by intros k []. Qed.

Lemma notify_mild env l : Forall (fun k => mild k = true) (map (TNotify env) l).
Proof. induction l; by constructor. Qed.

Lemma cmd_mild env cmd data : yields (fun r => Forall (fun k => mild k = true) (fst r)) (cmd_tasks env cmd data).
Proof.
  unfold cmd_tasks. apply yields_bind; intros _. apply yields_bind; intros t. destruct (handleCmd _ _ _ _) as [[s ns] res].
  apply yields_bind; intros _. apply yields_ret. apply notify_mild.
Qed.

Ltac yields_auto :=
  repeat match goal with
  | |- yields _ (mret _) => apply yields_ret
  | |- yields _ (gets _) => apply yields_gets; intros ?
  | |- yields _ (silent _ _) => apply yields_bind; intros ?
  | |- yields _ (cmd_tasks _ _ _ ≫= _) => eapply yields_then; [apply cmd_mild|intros ? ?]
  | |- yields _ (_ ≫= _) => apply yields_bind; intros ?
  | |- yields _ (match ?x with _ => _ end) => destruct x
  | |- context [match ?x with _ => _ end] => destruct x
  end.

Lemma run_mild k : match k with TMatch _ _ _ | TExpire _ _ => True | _ => yields (Forall (fun k => mild k = true)) (run k) end.
Proof.
  destruct k; try exact I; cbn [run]; cbv zeta; yields_auto;
    rewrite ?Forall_app; repeat split; try (by repeat constructor); try apply calls_mild1; try apply notify_mild; done.
Qed.

Lemma run_call k : in_call k = true -> yields (Forall (fun k => in_call k = true /\ k <> TStopRetry)) (run k).
Proof. destruct k; intros H; try discriminate H; cbn [run]; cbv zeta; yields_auto; by repeat constructor. Qed.

(** *** The fields *)
Definition at_view (w : init_param_t * nat * list APMCommand * Z * Z * bool * Z * bool) (t : CAPMTransport) : Prop := view t = w.

Lemma flow_view w f : keeps (at_view w) any_tr_event (flow reactFlow f).
Proof.
  intros t Ht. destruct (flow_run reactFlow f t) as [b ->]. split; [exact Ht|]. by apply Forall_forall.
Qed.

Lemma emits_view w l : keeps (at_view w) any_tr_event (emits l).
Proof. unfold emits. induction l; cbn [fold_right]; keeps_auto; done. Qed.

Lemma cmd_view w env cmd data : keeps (at_view w) any_tr_event (cmd_tasks env cmd data).
Proof. unfold cmd_tasks. keeps_auto; [apply emits_view|done]. Qed.

Ltac view_auto :=
  repeat (cbv zeta; first [apply flow_view | apply emits_view | apply cmd_view | keeps_step]); try (by intros ? ?); try done.

Lemma run_plain k t : plain_task k = true -> view (st_of (run k) t) = view t.
Proof.
  intros Hk. apply (keeps_st (at_view (view t)) any_tr_event (run k) t); [|done].
  destruct k; try discriminate Hk; cbn [run]; unfold silent, startQueueCheckTimer, startPingTimer, stopPingTimer,
    stopQueueCheckTimer, setJoinProcessState_p, setAPConnectionState_p, disableJoin, setAPMState, enableAbort, disableAbort,
    callResponse, callError, countNotification, sendAck, upd_stats, handlePPSTimeout; view_auto.
  all: unfold setJoinProcessState_p, upd_stats; view_auto.
Qed.
End Sections.

(** ** The invariant *)

(** The packet id of the [n]-th command after the queue was cleared. *)
Definition pid (n : nat) : Z := if Nat.even n then 0 else 2.

(** The IO thread is about to settle a response, or to start the retry timer anew. *)
Definition settles (k : task) : bool := match k with TSettle _ _ _ _ | TRetryEnd => true | _ => false end.
Definition watching (io : list task) : bool := existsb settles io.

Definition is_begin (k : task) : bool := match k with TBegin _ _ _ _ => true | _ => false end.
Definition is_end (k : task) : bool := match k with TRetryEnd => true | _ => false end.
(** At most one expiry is handled at a time; the IO thread does not stop the transport. *)
Definition expires (k : task) : nat := match k with TExpire _ _ | TRetryEnd => 1 | TStopRetry => 2 | _ => 0 end.
Definition expiries (io : list task) : nat := sum_list (map expires io).

(** A response that is accepted carries the current packet id. *)
Definition begins_well (t : CAPMTransport) (io : list task) : Prop :=
  forallb (fun k => negb (is_begin k)) (tail io) = true /\
  match io with TBegin _ _ pktId _ :: _ => pktId = m_respPacketId t | _ => True end.

Definition timer_watched (p : init_param_t) (t : CAPMTransport) (io : list task) : Prop :=
  m_pending t = true -> m_outputTimer t = true \/ maxRetries p <= m_curRetryCount t \/ watching io = true.

Record th_inv (p : init_param_t) (s : Threads) : Prop := {
  ti_core : tr_core p (th_t s);
  ti_ids : th_ids s = map pid (seq 0 (length (th_ids s))) /\ m_respPacketId (th_t s) = pid (length (th_ids s));
  ti_watch : th_stopped s = false -> timer_watched p (th_t s) (th_io s);
  ti_end : existsb is_end (th_io s) = true -> m_curRetryCount (th_t s) < maxRetries p;
  ti_once : (expiries (th_io s) <= 1)%nat;
  ti_begin : begins_well (th_t s) (th_io s);
  ti_calls : Forall (Forall (fun k => in_call k = true /\ (k = TStopRetry -> th_stopped s = true))) (th_calls s)
}.

Lemma expiries_app l1 l2 : expiries (l1 ++ l2) = (expiries l1 + expiries l2)%nat.
Proof. unfold expiries. by rewrite map_app, sum_list_with_app. Qed.

Lemma expiries_cons k l : expiries (k :: l) = (expires k + expiries l)%nat.
Proof. done. Qed.

Lemma pid_flip n : Z.lxor (pid n) (Z.shiftl 1 1) = pid (S n).
Proof. unfold pid. rewrite Nat.even_succ, <- Nat.negb_even. by destruct (Nat.even n). Qed.

Lemma pid_is n : is_pktId (pid n).
Proof. unfold pid. destruct (Nat.even n); [by left|by right]. Qed.

(** Equal fields, equal invariant. *)
Lemma core_view p t t' : view t' = view t -> tr_core p t -> tr_core p t'.
Proof. unfold view. intros [= H1 H2 H3 H4 H5 H6 H7 H8] H. by eapply tr_core_upd. Qed.

Lemma watched_view p t t' io : view t' = view t -> timer_watched p t io -> timer_watched p t' io.
Proof. unfold view, timer_watched. intros [= H1 H2 H3 H4 H5 H6 H7 H8]. by rewrite H6, H7, H8. Qed.

(** A mild list in front of the tasks of the IO thread. *)
Lemma mild_end l : Forall (fun k => mild k = true) l -> existsb is_end l = false /\ expiries l = 0%nat /\
  forallb (fun k => negb (is_begin k)) l = true.
Proof.
  induction 1 as [|k l Hk _ (IH1 & IH2 & IH3)]; [done|]. cbn [existsb forallb map]. unfold expiries in *. cbn [sum_list map].
  rewrite IH1, IH3. destruct k; try discriminate Hk; by split_and!.
Qed.

Section Steps.
Context (p : init_param_t) (Hparam : param_ok p) (reactFlow : flow_notif -> TM unit) {HF : FlowHandler reactFlow}
  (upper : option apm_notif -> CAPMTransport -> list up_call).
Notation run := (run reactFlow upper).

(** Sections that run on any thread. *)
Lemma send_section t env b io : tr_core p t ->
  let t' := st_of (run (TSend env b)) t in
  tr_core p t' /\ m_respPacketId t' = m_respPacketId t /\ m_curRetryCount t' = m_curRetryCount t /\
  (timer_watched p t io -> timer_watched p t' io).
Proof.
  intros Hc t'. assert (Ht : t' = st_of (send env b) t) by (unfold t'; cbn [ApmThreads.run]; unfold silent; by rewrite st_bind).
  rewrite Ht. split; [by apply (proj1 (send_inv p env b))|]. unfold st_of.
  destruct (send_run env b t) as [->|(cmd & q & Hq & Hp & _ & ->)]; cbn [fst]; split_and!; try done. intros _ _. by left.
Qed.

Lemma call_run t k io : in_call k = true -> tr_core p t ->
  let t' := st_of (run k) t in
  tr_core p t' /\ m_respPacketId t' = m_respPacketId t /\
  (m_curRetryCount t' = m_curRetryCount t \/ m_curRetryCount t' = 0) /\
  (k <> TStopRetry -> timer_watched p t io -> timer_watched p t' io).
Proof.
  intros Hk Hc t'. destruct (plain_task k) eqn:Hpl.
  { pose proof (run_plain reactFlow upper k t Hpl) as Hv. fold t' in Hv. split; [by eapply core_view|].
    pose proof Hv as Hv'. unfold view in Hv'. injection Hv' as V1 V2 V3 V4 V5 V6 V7 V8. split_and!; [done|by left|].
    intros _. by apply watched_view. }
  destruct k; try discriminate.
  - unfold t'. cbn [ApmThreads.run]. rewrite st_read. destruct (full t) eqn:Hf; [by split_and!; [| |left|]|].
    rewrite st_bind. destruct (enqueue_room p isHigh (mkCommand cmd data isSynch cb ecb (te_now env)) t Hc Hf) as [H1 _].
    split_and!; [exact H1|done|by left|done].
  - destruct (send_section t env isNew io Hc) as (H1 & H2 & H3 & H4). split_and!; [done|done|by left|done].
  - split_and!; [|done|by right|done]. destruct Hc. pose proof (po_retries _ Hparam).
    split; try done. change (0 <= 0 <= maxRetries p). lia.
Qed.

(** The IO thread after a section whose news are mild. *)
Lemma io_mild s k rest news t' ids' :
  th_inv p s -> th_io s = k :: rest -> Forall (fun k => mild k = true) news ->
  tr_core p t' -> ids' = map pid (seq 0 (length ids')) -> m_respPacketId t' = pid (length ids') ->
  (th_stopped s = false -> timer_watched p t' (news ++ rest)) ->
  (existsb is_end rest = true -> m_curRetryCount t' < maxRetries p) ->
  th_inv p (s <| th_t := t' |> <| th_io := news ++ rest |> <| th_ids := ids' |>).
Proof.
  intros [H1 H2 H3 H4 H5 [H6 _] H8] Hio Hn Hc Hi Hr Hw He. destruct (mild_end _ Hn) as (N1 & N2 & N3).
  rewrite Hio in *. cbn [tail] in H6. split; cbn [th_t th_io th_ids th_stopped th_calls upd]; try done.
  - rewrite existsb_app, N1. exact He.
  - rewrite expiries_app, N2. unfold expiries in H5. cbn [map sum_list] in H5. unfold expiries. lia.
  - assert (Hall : forallb (fun k => negb (is_begin k)) (news ++ rest) = true) by by rewrite forallb_app, N3, H6.
    unfold begins_well. destruct (news ++ rest) as [|k' l]; [done|]. cbn [forallb] in Hall. apply andb_true_iff in Hall as [Ha Hb].
    split; [done|]. by destruct k'.
Qed.

Lemma watching_app l1 l2 : watching (l1 ++ l2) = watching l1 || watching l2.
Proof. apply existsb_app. Qed.

Lemma watched_rest t k news rest : settles k = false -> timer_watched p t (k :: rest) -> timer_watched p t (news ++ rest).
Proof.
  intros Hk Hw Hp. destruct (Hw Hp) as [|[|Hx]]; [by left|by right; left|right; right].
  rewrite watching_app. cbn [watching existsb] in Hx. rewrite Hk in Hx. cbn [orb] in Hx. unfold watching. by rewrite Hx, orb_true_r.
Qed.

Lemma end_rest s k rest : th_inv p s -> th_io s = k :: rest -> existsb is_end rest = true -> m_curRetryCount (th_t s) < maxRetries p.
Proof. intros H Hio He. apply (ti_end _ _ H). rewrite Hio. cbn [existsb]. by rewrite He, orb_true_r. Qed.

(** Plain sections. *)
Lemma io_plain s k rest : th_inv p s -> th_io s = k :: rest -> plain_task k = true ->
  match k with TMatch _ _ _ => False | _ => True end ->
  th_inv p (s <| th_t := st_of (run k) (th_t s) |> <| th_io := res_of (run k) (th_t s) ++ rest |> <| th_ids := th_ids s |>).
Proof.
  intros Hinv Hio Hpl Hm. pose proof (run_plain reactFlow upper k (th_t s) Hpl) as Hv.
  pose proof Hv as Hv'. unfold view in Hv'. injection Hv' as V1 V2 V3 V4 V5 V6 V7 V8.
  apply (io_mild s k); try done.
  - pose proof (run_mild reactFlow upper k) as Hy. destruct k; try done; apply Hy.
  - eapply core_view; [exact Hv|]. apply Hinv.
  - apply Hinv.
  - rewrite V4. apply Hinv.
  - intros Hs. eapply watched_view; [exact Hv|]. eapply watched_rest; [|rewrite <- Hio; by apply Hinv]. by destruct k.
  - intros He. rewrite V7. by eapply end_rest.
Qed.

Lemma io_match s env hdr data rest : th_inv p s -> th_io s = TMatch env hdr data :: rest ->
  th_inv p (s <| th_t := st_of (run (TMatch env hdr data)) (th_t s) |>
              <| th_io := res_of (run (TMatch env hdr data)) (th_t s) ++ rest |> <| th_ids := th_ids s |>).
Proof.
  intros Hinv Hio. change (st_of (run (TMatch env hdr data)) (th_t s)) with (th_t s).
  assert (Hnil : th_inv p (s <| th_t := th_t s |> <| th_io := [] ++ rest |> <| th_ids := th_ids s |>)).
  { apply (io_mild s (TMatch env hdr data)); try done; try apply Hinv; [|by eapply end_rest].
    intros Hs. eapply watched_rest; [|rewrite <- Hio; by apply Hinv]. done. }
  change (res_of (run (TMatch env hdr data)) (th_t s)) with
    (match m_outputQueue (th_t s) with [] => [] | cmd :: _ => if (cmdId hdr =? c_cmdId cmd) && (Z.land (flags hdr) 2 =? m_respPacketId (th_t s))
       then [TBegin env (cmdId hdr) (Z.land (flags hdr) 2) data] else [] end).
  destruct (m_outputQueue (th_t s)) as [|c q]; [done|].
  destruct (_ && _) eqn:Hb; [|done]. apply andb_true_iff in Hb as [_ Hb%Z.eqb_eq].
  destruct Hnil as [N1 N2 N3 N4 N5 [N6 N7] N8]. split; try done. cbn [th_io upd app] in *. destruct Hinv as [_ _ _ _ _ [H6 _] _].
  rewrite Hio in H6. by split.
Qed.

Lemma io_call s k rest : th_inv p s -> th_io s = k :: rest -> in_call k = true ->
  th_inv p (s <| th_t := st_of (run k) (th_t s) |> <| th_io := res_of (run k) (th_t s) ++ rest |> <| th_ids := th_ids s |>).
Proof.
  intros Hinv Hio Hk. destruct (call_run (th_t s) k (th_io s) Hk (ti_core _ _ Hinv)) as (H1 & H2 & H3 & H4).
  assert (Hns : k <> TStopRetry).
  { intros ->. pose proof (ti_once _ _ Hinv) as Ho. rewrite Hio in Ho. unfold expiries in Ho. cbn in Ho. lia. }
  apply (io_mild s k); try done.
  - pose proof (run_mild reactFlow upper k) as Hy. destruct k; try done; apply Hy.
  - apply Hinv.
  - rewrite H2. apply Hinv.
  - intros Hs. specialize (H4 Hns (ti_watch _ _ Hinv Hs)). rewrite Hio in H4. eapply watched_rest; [|exact H4]. by destruct k.
  - intros He. pose proof (end_rest s k rest Hinv Hio He). pose proof (tc_retry _ _ (ti_core _ _ Hinv)). destruct H3 as [-> | ->]; lia.
Qed.

Lemma io_begin s env id pktId data rest : th_inv p s -> th_io s = TBegin env id pktId data :: rest ->
  let r := run (TBegin env id pktId data) in
  th_inv p (s <| th_t := st_of r (th_t s) |> <| th_io := res_of r (th_t s) ++ rest |> <| th_ids := th_ids s ++ [pktId] |>).
Proof.
  intros Hinv Hio r. destruct (ti_ids _ _ Hinv) as [I1 I2]. pose proof (po_retries _ Hparam).
  destruct (ti_begin _ _ Hinv) as [_ Hb]. rewrite Hio in Hb.
  set (l := length (th_ids s)) in *.
  assert (Ht : exists st, st_of r (th_t s) = th_t s <| m_curRetryCount := 0 |> <| m_outputTimer := false |> <| m_stats := st |>
    <| m_respPacketId := Z.lxor (m_respPacketId (th_t s)) (Z.shiftl 1 1) |>).
  { eexists. unfold r. cbn [ApmThreads.run]. rewrite !st_bind.
    destruct (length data =? 0)%nat; reflexivity. }
  destruct Ht as [st Ht].
  assert (Hr : res_of r (th_t s) = [TSettle env id (default (te_garbage env) (data !! 0%nat)) data]).
  { unfold r. cbn [ApmThreads.run]. by rewrite !res_bind. }
  rewrite Ht, Hr. destruct (ti_core _ _ Hinv) as [C1 C2 C3 C4 C5 C6 C7].
  apply (io_mild s (TBegin env id pktId data)); try done.
  - by repeat constructor.
  - split; try done; cbn [m_respPacketId m_curRetryCount upd]; [by apply toggle_pktId|lia].
  - rewrite length_app. fold l. cbn [length]. rewrite seq_app, map_app, <- I1. cbn [seq map]. by rewrite Hb, I2.
  - cbn [m_respPacketId upd]. rewrite I2, pid_flip, length_app. fold l. cbn [length]. f_equal. lia.
  - intros _ _. by right; right.
  - intros He. cbn [m_curRetryCount upd]. pose proof (end_rest s _ rest Hinv Hio He). cbn in C7. lia.
Qed.

(** The sections of the IO thread that change the fields. *)
Lemma io_settle s env id rc data rest : th_inv p s -> th_io s = TSettle env id rc data :: rest ->
  let r := run (TSettle env id rc data) in
  th_inv p (s <| th_t := st_of r (th_t s) |> <| th_io := res_of r (th_t s) ++ rest |> <| th_ids := th_ids s |>).
Proof.
  intros Hinv Hio r. pose proof (ti_core _ _ Hinv) as Hc. destruct (ti_ids _ _ Hinv) as [I1 I2].
  unfold r. cbn [ApmThreads.run]. rewrite st_read, (res_bind get). cbn [get res_of st_of fst snd].
  destruct (m_outputQueue (th_t s)) as [|c q] eqn:Hq.
  { apply (io_mild s (TSettle env id rc data)); try done; [|by eapply end_rest].
    intros _ Hp. by destruct (tc_pending _ _ Hc Hp). }
  rewrite st_bind, res_bind. set (t' := st_of (settle env c rc) (th_t s)).
  assert (Ht : tr_core p t' /\ (m_pending t' = true -> m_outputTimer t' = true) /\
    m_respPacketId t' = m_respPacketId (th_t s) /\ m_curRetryCount t' = m_curRetryCount (th_t s)).
  { unfold t', settle. destruct Hc as [C1 C2 C3 C4 C5 C6 C7]. destruct (rc =? DN_API_RC_NO_RESOURCES).
    - by split_and!.
    - split_and!; try done. split; try done.
      change (length (tail (m_outputQueue (th_t s))) <= m_capacity (th_t s))%nat. rewrite Hq in *. cbn [tail length] in *. lia. }
  destruct Ht as (T1 & T2 & T3 & T4).
  apply (io_mild s (TSettle env id rc data)); try done.
  - by repeat constructor.
  - change (m_respPacketId t' = pid (length (th_ids s))). by rewrite T3.
  - intros _ Hp. left. by apply T2.
  - intros He. change (m_curRetryCount t' < maxRetries p). rewrite T4. by eapply end_rest.
Qed.

Lemma io_notifEnd s hdr res rest : th_inv p s -> th_io s = TNotifEnd hdr res :: rest ->
  let r := run (TNotifEnd hdr res) in
  th_inv p (s <| th_t := st_of r (th_t s) |> <| th_io := res_of r (th_t s) ++ rest |> <| th_ids := th_ids s |>).
Proof.
  intros Hinv Hio r. destruct (ti_core _ _ Hinv) as [C1 C2 C3 C4 C5 C6 C7]. destruct (ti_ids _ _ Hinv) as [I1 I2].
  set (t' := st_of r (th_t s)).
  assert (Ht : tr_core p t' /\ m_respPacketId t' = m_respPacketId (th_t s) /\ m_curRetryCount t' = m_curRetryCount (th_t s) /\
    m_pending t' = m_pending (th_t s) /\ m_outputTimer t' = m_outputTimer (th_t s)).
  { unfold t', r. cbn [ApmThreads.run]. rewrite !st_bind. case_bool_decide; cbn [when]; (split_and!; [split; done|done..]) || idtac.
    split_and!; [split; try done|done..]. apply land2_pktId. }
  destruct Ht as (T1 & T2 & T3 & T4 & T5).
  assert (Hr : res_of r (th_t s) = []) by (unfold r; cbn [ApmThreads.run]; by rewrite !res_bind).
  rewrite Hr. apply (io_mild s (TNotifEnd hdr res)); try done.
  - by rewrite T2.
  - intros Hs. apply (watched_rest _ (TNotifEnd hdr res)); [done|]. rewrite <- Hio. pose proof (ti_watch _ _ Hinv Hs) as Hw.
    unfold timer_watched in *. by rewrite T3, T4, T5.
  - intros He. rewrite T3. by eapply end_rest.
Qed.

Lemma io_clear s env rest : th_inv p s -> th_io s = TClear env :: rest ->
  let r := run (TClear env) in
  th_inv p (s <| th_t := st_of r (th_t s) |> <| th_io := res_of r (th_t s) ++ rest |> <| th_ids := [] |>).
Proof.
  intros Hinv Hio r. destruct (ti_core _ _ Hinv) as [C1 C2 C3 C4 C5 C6 C7]. pose proof (po_retries _ Hparam).
  apply (io_mild s (TClear env)); try done.
  - by repeat constructor.
  - split; try done; try (by left); [change (0 <= m_capacity (th_t s))%nat|change (0 <= 0 <= maxRetries p)]; lia.
  - intros He. pose proof (end_rest s _ rest Hinv Hio He). change (0 < maxRetries p). lia.
Qed.

Lemma no_end s k rest : th_inv p s -> th_io s = k :: rest -> expires k = 1%nat -> existsb is_end rest = false.
Proof.
  intros Hinv Hio Hk. pose proof (ti_once _ _ Hinv) as Ho. rewrite Hio, expiries_cons, Hk in Ho.
  assert (Hz : expiries rest = 0%nat) by lia. clear -Hz. induction rest as [|k' l IH]; [done|].
  rewrite expiries_cons in Hz. cbn [existsb]. rewrite IH by lia. destruct k'; try done.
Qed.

Lemma io_retryEnd s rest : th_inv p s -> th_io s = TRetryEnd :: rest ->
  let r := run TRetryEnd in
  th_inv p (s <| th_t := st_of r (th_t s) |> <| th_io := res_of r (th_t s) ++ rest |> <| th_ids := th_ids s |>).
Proof.
  intros Hinv Hio r. destruct (ti_core _ _ Hinv) as [C1 C2 C3 C4 C5 C6 C7]. pose proof (po_retries _ Hparam).
  assert (Hlt : m_curRetryCount (th_t s) < maxRetries p) by (apply (ti_end _ _ Hinv); by rewrite Hio).
  apply (io_mild s TRetryEnd); try done; try apply Hinv.
  - split; try done. change (0 <= u32 (m_curRetryCount (th_t s) + 1) <= maxRetries p). rewrite u32_small; lia.
  - intros _ _. by left.
  - intros He. by rewrite (no_end s _ _ Hinv Hio eq_refl) in He.
Qed.

(** An expiry: the timer's wait is over; the command is sent again, or given up. *)
Lemma expire_step t env stale : tr_core p t ->
  let r := run (TExpire env stale) in
  let t' := st_of r t in
  tr_core p t' /\ m_respPacketId t' = m_respPacketId t /\ m_curRetryCount t' = m_curRetryCount t /\
  m_pending t' = m_pending t /\
  (res_of r t = [TSend env false; TRetryEnd] /\ m_curRetryCount t < maxRetries p \/
   Forall (fun k => mild k = true) (res_of r t) /\ (m_outputTimer t' = m_outputTimer t \/ maxRetries p <= m_curRetryCount t)).
Proof.
  intros Hc r t'. unfold t', r. cbn [ApmThreads.run]. rewrite st_read, (res_bind get). cbn [get res_of st_of fst snd].
  destruct (negb stale && negb (m_outputTimer t)) eqn:Hidle.
  { split_and!; try done. right. split; [constructor|by left]. }
  rewrite st_bind, (res_bind (when _ _)).
  set (t1 := st_of (when (negb stale) (modify (fun t => t <| m_outputTimer := false |>))) t).
  assert (H1 : tr_core p t1 /\ m_respPacketId t1 = m_respPacketId t /\ m_curRetryCount t1 = m_curRetryCount t /\
    m_pending t1 = m_pending t) by (unfold t1; destruct Hc; destruct stale; split_and!; try done; by split).
  destruct H1 as (H1 & H2 & H3 & H4). rewrite (tc_params _ _ Hc).
  destruct (Z.ltb_spec (m_curRetryCount t) (maxRetries p)) as [Hlt|Hge].
  - rewrite st_bind, (res_bind (when _ _)).
    match goal with |- context [st_of (when ?b ?m) t1] => replace (st_of (when b m) t1) with t1
      by (destruct b; cbn [when]; [by rewrite reopenPort_run|done]) end.
    split_and!; try done. by left.
  - rewrite st_bind, (res_bind stopPingTimer). split_and!; try done; [destruct H1; by split|].
    right. split; [|by right]. cbn [mret M_ret res_of snd].
    destruct (m_abortEnabled t), (m_reconnectSerial t); by repeat constructor.
Qed.

Lemma io_expire s env stale rest : th_inv p s -> th_io s = TExpire env stale :: rest ->
  let r := run (TExpire env stale) in
  th_inv p (s <| th_t := st_of r (th_t s) |> <| th_io := res_of r (th_t s) ++ rest |> <| th_ids := th_ids s |>).
Proof.
  intros Hinv Hio r. destruct (expire_step (th_t s) env stale (ti_core _ _ Hinv)) as (H1 & H2 & H3 & H4 & H5).
  fold r in H1, H2, H3, H4, H5. destruct (ti_ids _ _ Hinv) as [I1 I2]. pose proof (no_end s _ rest Hinv Hio eq_refl) as Hno.
  destruct H5 as [[H5 H6]|[H5 H6]].
  - rewrite H5. destruct Hinv as [K1 K2 K3 K4 K5 [K6 _] K8]. rewrite Hio in K6. cbn [tail] in K6.
    split; cbn [th_t th_io th_ids th_stopped th_calls upd]; try done.
    + by rewrite H2.
    + intros _ _. by right; right.
    + intros _. by rewrite H3.
    + rewrite Hio in K5. exact K5.
  - apply (io_mild s (TExpire env stale)); try done.
    + by rewrite H2.
    + intros Hs. destruct H6 as [Ht|Hmax]; [|intros _; right; left; by rewrite H3].
      apply (watched_rest _ (TExpire env stale)); [done|]. rewrite <- Hio. pose proof (ti_watch _ _ Hinv Hs) as Hw.
      unfold timer_watched in *. by rewrite H3, H4, Ht.
    + intros He. by rewrite Hno in He.
Qed.

(** Any section of the IO thread. *)
Lemma io_step s k rest : th_inv p s -> th_io s = k :: rest ->
  th_inv p (s <| th_t := st_of (run k) (th_t s) |> <| th_io := res_of (run k) (th_t s) ++ rest |>
              <| th_ids := note_ids k (th_ids s) |>).
Proof.
  intros Hinv Hio. destruct (in_call k) eqn:Hk.
  { replace (note_ids k (th_ids s)) with (th_ids s) by by destruct k. by apply io_call. }
  destruct (plain_task k) eqn:Hpl.
  { replace (note_ids k (th_ids s)) with (th_ids s) by by destruct k.
    destruct k; try discriminate; solve [by apply io_match|by apply io_plain]. }
  destruct k; try discriminate; cbn [note_ids].
  - by apply io_begin.
  - by apply io_settle.
  - by apply io_notifEnd.
  - by apply io_clear.
  - by apply io_expire.
  - by apply io_retryEnd.
Qed.

(** Any section of a call. *)
Lemma call_step s i k rest : th_inv p s -> th_calls s !! i = Some (k :: rest) ->
  th_inv p (s <| th_t := st_of (run k) (th_t s) |> <| th_calls := <[i := res_of (run k) (th_t s) ++ rest]> (th_calls s) |>).
Proof.
  intros Hinv Hi. pose proof (Forall_lookup_1 _ _ _ _ (ti_calls _ _ Hinv) Hi) as Hl. apply Forall_cons in Hl as [[Hk Hst] Hrest].
  destruct (call_run (th_t s) k (th_io s) Hk (ti_core _ _ Hinv)) as (H1 & H2 & H3 & H4).
  pose proof (run_call reactFlow upper k Hk (th_t s)) as Hnews. cbv beta in Hnews.
  destruct Hinv as [K1 [K2 K2'] K3 K4 K5 [K6 K7] K8]. split; cbn [th_t th_io th_ids th_stopped th_calls upd]; try done.
  - by rewrite H2.
  - intros Hs. apply H4; [|by apply K3]. intros ->. by rewrite (Hst eq_refl) in Hs.
  - intros He. specialize (K4 He). pose proof (tc_retry _ _ K1). destruct H3 as [-> | ->]; lia.
  - split; [done|]. destruct (th_io s) as [|k' l]; [done|]. destruct k'; try done. congruence.
  - apply Forall_insert; [done|]. apply Forall_app. split; [|done]. eapply Forall_impl; [exact Hnews|]. by intros k' [].
Qed.

Lemma th_step s s' op : th_inv p s -> th_exec reactFlow upper op s = Some s' -> th_inv p s'.
Proof.
  intros Hinv. destruct op as [op|c| | | |i]; cbn [th_exec].
  - destruct (th_io s) as [|k l] eqn:Hio; [|done]. intros [= <-].
    destruct Hinv as [K1 K2 K3 K4 K5 [K6 K7] K8]. rewrite Hio in *.
    split; cbn [th_t th_io th_ids th_stopped th_calls upd]; try done.
    + intros Hs Hp. destruct (K3 Hs Hp) as [|[|Hx]]; [by left|by right; left|done].
    + by destruct op.
    + by destruct op.
    + by destruct op.
  - intros [= <-]. destruct Hinv as [K1 K2 K3 K4 K5 K6 K8]. split; try done. cbn [th_calls th_stopped upd].
    apply Forall_app. split; [done|]. constructor; [|done]. by destruct c; repeat constructor.
  - intros [= <-]. destruct Hinv as [K1 K2 K3 K4 K5 K6 K8]. split; try done. cbn [th_calls th_stopped upd].
    apply Forall_app. split; [done|]. constructor; [|done]. by repeat constructor.
  - intros [= <-]. destruct Hinv as [K1 K2 K3 K4 K5 K6 K8]. split; try done. cbn [th_calls th_stopped upd].
    apply Forall_app. split; [|by repeat constructor]. eapply Forall_impl; [exact K8|]. intros l Hl.
    eapply Forall_impl; [exact Hl|]. by intros k [].
  - destruct (th_io s) as [|k l] eqn:Hio; [done|]. intros [= <-]. by apply io_step.
  - destruct (th_calls s !! i) as [[|k rest]|] eqn:Hi; try done. intros [= <-]. by apply call_step.
Qed.
End Steps.

Lemma reach_inv p s : param_ok p -> th_reach p s -> th_inv p s.
Proof.
  intros Hp. induction 1 as [b|s s' op reactFlow upper HF _ IH He]; [|by eapply th_step].
  destruct (open_inv p b Hp) as (H1 & H2 & _). split; try done; cbn; lia.
Qed.

(** ** Without interruption *)

(** A thread that nobody interrupts; [n] bounds its sections. *)
Fixpoint alone (reactFlow : flow_notif -> TM unit) (upper : option apm_notif -> CAPMTransport -> list up_call)
  (n : nat) (l : list task) : TM unit :=
  match n, l with
  | S n, k :: l => news ← run reactFlow upper k; alone reactFlow upper n (news ++ l)
  | _, _ => mret tt
  end.

Lemma alone_cons reactFlow upper n k l t t1 e1 news :
  run reactFlow upper k t = (t1, e1, news) ->
  alone reactFlow upper (S n) (k :: l) t =
    (st_of (alone reactFlow upper n (news ++ l)) t1, e1 ++ out_of (alone reactFlow upper n (news ++ l)) t1, tt).
Proof. intros H. cbn [alone]. rewrite (bind_run _ _ _ _ _ _ H). by destruct (res_of _ _). Qed.

Lemma alone_quiet reactFlow upper n k l t t1 news :
  run reactFlow upper k t = (t1, [], news) ->
  alone reactFlow upper (S n) (k :: l) t = alone reactFlow upper n (news ++ l) t1.
Proof. intros H. cbn [alone]. by rewrite (bind_pure _ _ _ _ _ H). Qed.

(** The end of [insertMsg]. *)
Lemma mark_alone reactFlow upper high t :
  alone reactFlow upper 5 [TMark high; TQueueTimer] t =
  (t ← get;
   when (bool_decide (m_mngrInputState t = APM_FLOW_NORMAL) && high)
     (flow reactFlow FlAPPause ;; modify (fun t => t <| m_mngrInputState := APM_FLOW_PAUSE |>)) ;;
   t ← get;
   when (0 <? queueSize t) startQueueCheckTimer) t.
Proof.
  cbn [alone run]. unfold silent, flow. runM.
  destruct (bool_decide (m_mngrInputState t = APM_FLOW_NORMAL) && high); cbn [app alone run]; unfold silent, flow; runM.
  - destruct (reactFlow FlAPPause t) as [[t1 e1] []]. cbn [app alone run]. runM. 
    unfold silent. runM. cbn [app run]. unfold silent. runM.
    destruct (0 <? queueSize _); cbn [app]; by rewrite ?app_nil_r.
  - destruct (0 <? queueSize t); by cbn [app alone]; runM.
Qed.

(** The sections of [insertMsg] are [insertMsg]. *)
Lemma insertMsg_alone reactFlow upper env cmd data hi cb ecb sy t :
  alone reactFlow upper 8 [TInsert env cmd data hi cb ecb sy] t =
  (_ ← insertMsg reactFlow env cmd data hi cb ecb sy; mret tt) t.
Proof.
  erewrite alone_quiet by reflexivity. unfold insertMsg. destruct (te_ready env); cbn [negb app].
  - destruct (full t) eqn:Hf.
    { erewrite alone_quiet by (cbn [run]; runM; rewrite Hf; reflexivity). runM. by rewrite Hf. }
    set (c := mkCommand cmd data sy cb ecb (te_now env)). set (t1 := st_of (enqueue hi c) t).
    set (high := highQueueWatermark (m_init_params t1) <=? queueSize t1).
    assert (Hpush : run reactFlow upper (TPush env cmd data hi cb ecb sy) t = (t1, [], [TSend env true; TMark high; TQueueTimer]))
      by (cbn [run]; runM; rewrite Hf; reflexivity).
    rewrite (alone_quiet _ _ _ _ _ _ _ _ Hpush). cbn [app]. destruct (send env true t1) as [[t2 e2] []] eqn:Hs.
    assert (Hsend : run reactFlow upper (TSend env true) t1 = (t2, e2, []))
      by (cbn [run]; unfold silent; rewrite (bind_run _ _ _ _ _ _ Hs); cbn; by rewrite app_nil_r).
    rewrite (alone_cons _ _ _ _ _ _ _ _ _ Hsend). cbn [app].
    unfold st_of at 1, out_of at 1. rewrite mark_alone.
    assert (Henq : enqueue hi c t = (t1, [], tt)) by done.
    unfold flow. runM. rewrite Hf. fold c. cbv beta iota. rewrite Henq. cbv beta iota zeta. rewrite Hs. fold high.
    destruct (bool_decide (m_mngrInputState t2 = APM_FLOW_NORMAL) && high); cbv beta iota.
    + destruct (reactFlow FlAPPause t2) as [[t3 e3] []]. cbv beta iota.
      destruct (0 <? queueSize _); unfold startQueueCheckTimer; runM; cbn [fst snd app]; by rewrite ?app_nil_r.
    + destruct (0 <? queueSize t2); unfold startQueueCheckTimer; runM; cbn [fst snd app]; by rewrite ?app_nil_r.
  - unfold sendAPLostNotif_p, setAPConnectionState_p, flow, apLost_tasks.
    cbn [alone run app]. unfold silent, flow. runM. destruct (reactFlow FlAPLost t) as [[t3 e3] []].
    cbn [app run]. unfold silent. runM. cbn [app run]. unfold silent. runM. cbn [app]. by rewrite ?app_nil_r.
Qed.

(** * Theorems *)

(** C11: the transport between its threads. Whatever commands any number of threads insert, whatever frames and timers the IO
    thread handles, whatever the upper layer calls in turn, and however the sections of all of them between the
    holds of the lock interleave: the queue fits its buffer; a command in flight is in the queue; the packet
    ids of the responses that are accepted since the last boot are 0, 2, 0, 2 and so on, and the next command is sent with the next
    of them; and until [stop] is called a command in flight is watched by the retry timer, unless
    its retries are used up or the IO thread is about to settle a response or to start the timer again. *)
Theorem transport_interleaved (p : init_param_t) (s : Threads) : param_ok p -> th_reach p s ->
  let t := th_t s in
  Z.of_nat (length (m_outputQueue t)) <= maxQueueSize p /\
  (m_pending t = true -> m_outputQueue t <> []) /\
  0 <= m_curRetryCount t <= maxRetries p /\
  th_ids s = map pid (seq 0 (length (th_ids s))) /\
  m_respPacketId t = pid (length (th_ids s)) /\
  (th_stopped s = false -> timer_watched p t (th_io s)).
Proof.
  intros Hp Hs t. destruct (reach_inv p s Hp Hs) as [[C1 C2 C3 C4 C5 C6 C7] [I1 I2] Hw _ _ _ _].
  pose proof (po_queue _ Hp). rewrite C2 in C3. unfold t. split_and!; done || lia.
Qed.

Definition small_params : init_param_t := mkTrParam 4 2 2 1500 100 1200 3 256 1500.
Definition demo_call : th_op := ThCall (UcInsert ex_env DN_API_LOC_CMD_JOIN [7] false (CbUser 1) (CbUser 2) false).

(** Two commands pause the manager; the response to the first is about to resume it, but has not yet said so
    when a third command reaches the high watermark and finds the manager paused. *)
Definition late_resume : list th_op :=
  [demo_call] ++ replicate 5 (ThRun 0) ++ [demo_call] ++ replicate 7 (ThRun 1) ++
  [ThIo (IoData ex_env (rframe 0 DN_API_LOC_CMD_JOIN [0; 9]))] ++ replicate 6 ThRunIo ++
  [demo_call] ++ replicate 5 (ThRun 2) ++ replicate 3 ThRunIo.

Lemma th_execs_reach p reactFlow {HF : FlowHandler reactFlow} upper l : forall s s',
  th_reach p s -> th_execs reactFlow upper l s = Some s' -> th_reach p s'.
Proof.
  induction l as [|op l IH]; intros s s' Hs; cbn [th_execs]; [by intros [= <-]|].
  intros (s1 & H1 & H2)%bind_Some. apply (IH s1); [|done]. by eapply Th_step.
Qed.

Lemma transport_interleaved_witness :
  exists s, th_execs ex_flow ex_upper late_resume (th_init small_params true) = Some s /\
    th_ids s = [0] /\ m_respPacketId (th_t s) = 2 /\ length (m_outputQueue (th_t s)) = 2%nat.
Proof.
  destruct (th_execs ex_flow ex_upper late_resume (th_init small_params true)) as [s|] eqn:E; [|vm_compute in E; discriminate E].
  assert (Hx : option_map (fun s => (th_ids s, length (m_outputQueue (th_t s))))
    (th_execs ex_flow ex_upper late_resume (th_init small_params true)) = Some ([0], 2%nat)) by (vm_compute; reflexivity).
  rewrite E in Hx. injection Hx as H1 H2.
  destruct (transport_interleaved small_params s) as (_ & _ & _ & _ & H & _).
  - split; vm_compute; intuition congruence.
  - eapply (th_execs_reach small_params ex_flow ex_upper); [apply Th_init|exact E].
  - exists s. rewrite H1 in *. split_and!; [reflexivity|reflexivity|exact H|exact H2].
Defined.

(** The flow control is not safe between threads: in the end all threads are done, the queue is at the high watermark and the
    manager is not paused. *)
Fact late_resume_unpaused :
  option_map (fun s => (th_io s, th_calls s, queueSize (th_t s) =? highQueueWatermark small_params, m_mngrInputState (th_t s)))
    (th_execs ex_flow ex_upper late_resume (th_init small_params true)) = Some ([], [[]; []; []], true, APM_FLOW_NORMAL).
Proof. by vm_compute. Qed.
