(* ===== verification/Hdlc.v ===== *)
(** HDLC framing of the serial link to the AP (APInterface/HDLC.cpp, HDLC.h).

    The frame check sequence, the byte stuffing of [encodeHDLC] and the
    receiver state machine [CHDLC].  [addByte] returns the frames it hands to
    [IHDLCCallback::frameComplete] as a list of events.  The reference CRC at
    the end of the definitions ([crc_bit], [crc_ref]) is the bit-serial
    definition of the polynomial x^16 + x^12 + x^5 + 1 (reflected, 0x8408); the
    table-driven routine of the code is proved equal to it. *)
From stdpp Require Import base numbers list option sets.
From Stdlib Require Import ZArith Lia.
From S2P Require Import Prelude.

Local Open Scope Z_scope.

(** ** Constants and table *)
Definition HDLC_PADDING : Z := 0x7E.
Definition HDLC_ESCCHAR : Z := 0x7D.
Definition HDLC_XORBYTE : Z := 0x20.

Definition _fcstab : list Z := [
   0x0000; 0x1189; 0x2312; 0x329b; 0x4624; 0x57ad; 0x6536; 0x74bf;
   0x8c48; 0x9dc1; 0xaf5a; 0xbed3; 0xca6c; 0xdbe5; 0xe97e; 0xf8f7;
   0x1081; 0x0108; 0x3393; 0x221a; 0x56a5; 0x472c; 0x75b7; 0x643e;
   0x9cc9; 0x8d40; 0xbfdb; 0xae52; 0xdaed; 0xcb64; 0xf9ff; 0xe876;
   0x2102; 0x308b; 0x0210; 0x1399; 0x6726; 0x76af; 0x4434; 0x55bd;
   0xad4a; 0xbcc3; 0x8e58; 0x9fd1; 0xeb6e; 0xfae7; 0xc87c; 0xd9f5;
   0x3183; 0x200a; 0x1291; 0x0318; 0x77a7; 0x662e; 0x54b5; 0x453c;
   0xbdcb; 0xac42; 0x9ed9; 0x8f50; 0xfbef; 0xea66; 0xd8fd; 0xc974;
   0x4204; 0x538d; 0x6116; 0x709f; 0x0420; 0x15a9; 0x2732; 0x36bb;
   0xce4c; 0xdfc5; 0xed5e; 0xfcd7; 0x8868; 0x99e1; 0xab7a; 0xbaf3;
   0x5285; 0x430c; 0x7197; 0x601e; 0x14a1; 0x0528; 0x37b3; 0x263a;
   0xdecd; 0xcf44; 0xfddf; 0xec56; 0x98e9; 0x8960; 0xbbfb; 0xaa72;
   0x6306; 0x728f; 0x4014; 0x519d; 0x2522; 0x34ab; 0x0630; 0x17b9;
   0xef4e; 0xfec7; 0xcc5c; 0xddd5; 0xa96a; 0xb8e3; 0x8a78; 0x9bf1;
   0x7387; 0x620e; 0x5095; 0x411c; 0x35a3; 0x242a; 0x16b1; 0x0738;
   0xffcf; 0xee46; 0xdcdd; 0xcd54; 0xb9eb; 0xa862; 0x9af9; 0x8b70;
   0x8408; 0x9581; 0xa71a; 0xb693; 0xc22c; 0xd3a5; 0xe13e; 0xf0b7;
   0x0840; 0x19c9; 0x2b52; 0x3adb; 0x4e64; 0x5fed; 0x6d76; 0x7cff;
   0x9489; 0x8500; 0xb79b; 0xa612; 0xd2ad; 0xc324; 0xf1bf; 0xe036;
   0x18c1; 0x0948; 0x3bd3; 0x2a5a; 0x5ee5; 0x4f6c; 0x7df7; 0x6c7e;
   0xa50a; 0xb483; 0x8618; 0x9791; 0xe32e; 0xf2a7; 0xc03c; 0xd1b5;
   0x2942; 0x38cb; 0x0a50; 0x1bd9; 0x6f66; 0x7eef; 0x4c74; 0x5dfd;
   0xb58b; 0xa402; 0x9699; 0x8710; 0xf3af; 0xe226; 0xd0bd; 0xc134;
   0x39c3; 0x284a; 0x1ad1; 0x0b58; 0x7fe7; 0x6e6e; 0x5cf5; 0x4d7c;
   0xc60c; 0xd785; 0xe51e; 0xf497; 0x8028; 0x91a1; 0xa33a; 0xb2b3;
   0x4a44; 0x5bcd; 0x6956; 0x78df; 0x0c60; 0x1de9; 0x2f72; 0x3efb;
   0xd68d; 0xc704; 0xf59f; 0xe416; 0x90a9; 0x8120; 0xb3bb; 0xa232;
   0x5ac5; 0x4b4c; 0x79d7; 0x685e; 0x1ce1; 0x0d68; 0x3ff3; 0x2e7a;
   0xe70e; 0xf687; 0xc41c; 0xd595; 0xa12a; 0xb0a3; 0x8238; 0x93b1;
   0x6b46; 0x7acf; 0x4854; 0x59dd; 0x2d62; 0x3ceb; 0x0e70; 0x1ff9;
   0xf78f; 0xe606; 0xd49d; 0xc514; 0xb1ab; 0xa022; 0x92b9; 0x8330;
   0x7bc7; 0x6a4e; 0x58d5; 0x495c; 0x3de3; 0x2c6a; 0x1ef1; 0x0f78
].

Definition fcstab (i : Z) : Z := nth (Z.to_nat i) _fcstab 0.

(** ** Frame check sequence *)
Definition initFcs16 : Z := 0xffff.

Definition addOneByteToFcs16 (fcs byte : Z) : Z :=
  Z.lxor (Z.shiftr (Z.land fcs 0xffff) 8) (fcstab (Z.land (Z.lxor fcs byte) 0xff)).

Definition closeFcs16 (fcs : Z) : Z :=
  let fcs := Z.lxor fcs 0xffff in
  u16 (Z.land (u16 fcs) 0xffff).

Definition computeFCS16 (data : list Z) : Z :=
  closeFcs16 (foldl addOneByteToFcs16 initFcs16 data).

(** ** Encoder *)
Fixpoint appendHDLC (dst src : list Z) : list Z :=
  match src with
  | [] => dst
  | b :: r =>
      if (b =? HDLC_PADDING) || (b =? HDLC_ESCCHAR)
      then appendHDLC (dst ++ [HDLC_ESCCHAR] ++ [Z.lxor b HDLC_XORBYTE]) r
      else appendHDLC (dst ++ [b]) r
  end.

Definition encodeHDLC (src : list Z) : list Z :=
  let fcs := computeFCS16 src in
  let fcsbuf := [Z.land fcs 0xFF; Z.land (Z.shiftr fcs 8) 0xFF] in
  let result := [HDLC_PADDING] in
  let result := appendHDLC result src in
  let result := appendHDLC result fcsbuf in
  result ++ [HDLC_PADDING].

(** ** Decoder *)
Inductive ParseState : Set :=
| HDLC_PACKET_COMPLETE
| HDLC_DATA
| HDLC_ESCAPE.

#[export] Instance ParseState_eq_dec : EqDecision ParseState.
Proof. solve_decision. Defined.

(** [m_handler] is true when the callback pointer is not null. *)
Record CHDLC : Set := mkCHDLC {
  m_handler : bool;
  m_state : ParseState;
  m_buffer : list Z;
  m_runningFCS : Z
}.

Definition reset (d : CHDLC) : CHDLC :=
  mkCHDLC (m_handler d) HDLC_PACKET_COMPLETE [] initFcs16.

(** The constructor: a buffer of [inputLength] zeros, emptied by [reset]. *)
Definition newCHDLC (inputLength : nat) (handler : bool) : CHDLC :=
  reset (mkCHDLC handler HDLC_PACKET_COMPLETE (replicate inputLength 0) 0).

Definition append (d : CHDLC) (byte : Z) : CHDLC :=
  mkCHDLC (m_handler d) (m_state d) (m_buffer d ++ [byte])
          (addOneByteToFcs16 (m_runningFCS d) byte).

Definition set_state (d : CHDLC) (st : ParseState) : CHDLC :=
  mkCHDLC (m_handler d) st (m_buffer d) (m_runningFCS d).

Definition pop_back (d : CHDLC) : CHDLC :=
  mkCHDLC (m_handler d) (m_state d) (removelast (m_buffer d)) (m_runningFCS d).

(** The checksum found in the frame is an argument that is not read. *)
Definition validateChecksum (d : CHDLC) (frameFcs : Z) : bool :=
  let computedFcs := closeFcs16 (m_runningFCS d) in
  computedFcs =? 0xf47.

Definition callback (d : CHDLC) : list (list Z) :=
  if m_handler d && negb (Nat.eqb (length (m_buffer d)) 0) then [m_buffer d] else [].

Definition addByte (d : CHDLC) (b : Z) : CHDLC * list (list Z) :=
  if decide (m_state d = HDLC_ESCAPE) then
    let translated := Z.lxor b HDLC_XORBYTE in
    (set_state (append d translated) HDLC_DATA, [])
  else if b =? HDLC_ESCCHAR then
    (set_state d HDLC_ESCAPE, [])
  else if b =? HDLC_PADDING then
    let len := length (m_buffer d) in
    if (2 <? len)%nat then
      let fcs := u16 (nth (len - 2) (m_buffer d) 0 * 256 + nth (len - 1) (m_buffer d) 0) in
      let d2 := pop_back (pop_back d) in
      if validateChecksum d2 fcs then (reset d2, callback d2) else (reset d2, [])
    else (reset d, [])
  else (append d b, []).

(** A sequence of received bytes, as [CSerialPort::handleRead] feeds them. *)
Fixpoint feed (d : CHDLC) (bs : list Z) : CHDLC * list (list Z) :=
  match bs with
  | [] => (d, [])
  | b :: r =>
      let '(d1, o1) := addByte d b in
      let '(d2, o2) := feed d1 r in
      (d2, o1 ++ o2)
  end.

(** ** Reference: the CRC computed bit by bit *)
Definition crc_bit (c : Z) : Z :=
  if Z.odd c then Z.lxor (Z.shiftr c 1) 0x8408 else Z.shiftr c 1.
Definition crc_byte (fcs b : Z) : Z := Nat.iter 8 crc_bit (Z.lxor fcs b).
Definition crc_ref (data : list Z) : Z := Z.lxor (foldl crc_byte 0xffff data) 0xffff.

(** One byte of the data part of a frame, as it is sent. *)
Definition stuff (b : Z) : list Z :=
  if (b =? HDLC_PADDING) || (b =? HDLC_ESCCHAR)
  then [HDLC_ESCCHAR; Z.lxor b HDLC_XORBYTE] else [b].

(** The decoder is between frames or inside one, and will not swallow a flag. *)
Definition synced (d : CHDLC) : Prop := m_state d <> HDLC_ESCAPE.

Definition is_fcs (f : Z) : Prop := 0 <= f < 65536.

(** The two bytes that close a frame whose running FCS is [f]. *)
Definition fcs_bytes (f : Z) : list Z :=
  [Z.land (closeFcs16 f) 0xFF; Z.land (Z.shiftr (closeFcs16 f) 8) 0xFF].

(** The decoder keeps the running FCS of its buffer. *)
Definition dec_inv (d : CHDLC) : Prop :=
  m_runningFCS d = foldl addOneByteToFcs16 initFcs16 (m_buffer d) /\ Forall is_byte (m_buffer d).

(** A delivered frame is the data in front of its own FCS. *)
Definition good_frame (d : CHDLC) (f : list Z) : Prop :=
  f <> [] /\ m_buffer d = f ++ fcs_bytes (foldl addOneByteToFcs16 initFcs16 f).

(** What the sender puts between the two flags: the data, then its FCS. *)
Definition frame_body (src : list Z) : list Z :=
  src ++ fcs_bytes (foldl addOneByteToFcs16 initFcs16 src).

(** ** The table and the step of the FCS *)
Lemma is_byte_in_seq b : is_byte b -> In (Z.to_nat b) (seq 0 256).
Proof. unfold is_byte; intros; apply in_seq; lia. Qed.

Lemma byte_forallb (P : Z -> bool) :
  forallb (fun n => P (Z.of_nat n)) (seq 0 256) = true -> forall b, is_byte b -> P b = true.
Proof.
  intros H b Hb. rewrite forallb_forall in H.
  specialize (H _ (is_byte_in_seq b Hb)). by rewrite Z2Nat.id in H by (unfold is_byte in Hb; lia).
Qed.

Lemma land_ff z : Z.land z 0xff = z mod 256.
Proof. apply (Z.land_ones z 8); lia. Qed.
Lemma land_ffff z : Z.land z 0xffff = z mod 65536.
Proof. apply (Z.land_ones z 16); lia. Qed.
Lemma shiftr_8 z : Z.shiftr z 8 = z / 256.
Proof. apply (Z.shiftr_div_pow2 z 8); lia. Qed.

Lemma lxor_bound (w a b : Z) :
  0 <= w -> 0 <= a < 2 ^ w -> 0 <= b < 2 ^ w -> 0 <= Z.lxor a b < 2 ^ w.
Proof.
  intros Hw Ha Hb.
  assert (Z.lxor a b = Z.lxor a b mod 2 ^ w) as ->; [|apply Z.mod_pos_bound; lia].
  rewrite <- Z.land_ones by lia. apply Z.bits_inj'. intros n Hn.
  rewrite Z.land_spec, !Z.lxor_spec, Z.testbit_ones_nonneg by lia.
  destruct (Z.ltb_spec n w); [by rewrite andb_true_r|].
  rewrite <- (Z.mod_small a (2 ^ w)), <- (Z.mod_small b (2 ^ w)) by lia.
  rewrite !Z.mod_pow2_bits_high by lia. done.
Qed.

Lemma land_lxor_distr a b c : Z.land (Z.lxor a b) c = Z.lxor (Z.land a c) (Z.land b c).
Proof.
  apply Z.bits_inj'; intros n _. rewrite Z.land_spec, !Z.lxor_spec, !Z.land_spec.
  by destruct (Z.testbit a n), (Z.testbit b n), (Z.testbit c n).
Qed.

Lemma fcstab_range b : is_byte b -> is_fcs (fcstab b).
Proof.
  intros Hb.
  pose proof (byte_forallb (fun b => (0 <=? fcstab b) && (fcstab b <? 65536)) eq_refl b Hb) as H.
  cbv beta in H. unfold is_fcs. lia.
Qed.

Lemma land_byte z : is_byte (Z.land z 0xff).
Proof. rewrite land_ff. unfold is_byte. apply Z.mod_pos_bound; lia. Qed.

#[export] Hint Resolve fcstab_range land_byte : apb.

Lemma fcs_step_range f b : is_fcs (addOneByteToFcs16 f b).
Proof.
  unfold addOneByteToFcs16, is_fcs. apply (lxor_bound 16); [lia| |by apply fcstab_range, land_byte].
  rewrite land_ffff, shiftr_8.
  pose proof (Z.mod_pos_bound f 65536 eq_refl).
  split; [apply Z.div_pos; lia|]. apply Z.div_lt_upper_bound; lia.
Qed.

Lemma fcs_fold_range bs f : is_fcs f -> is_fcs (foldl addOneByteToFcs16 f bs).
Proof. revert f; induction bs; intros; simpl; [done|]. apply IHbs, fcs_step_range. Qed.

Lemma is_fcs_init : is_fcs initFcs16.
Proof. unfold is_fcs, initFcs16; lia. Qed.
#[export] Hint Resolve fcs_step_range fcs_fold_range is_fcs_init : apb.

Lemma closeFcs16_lxor f : is_fcs f -> closeFcs16 f = Z.lxor f 0xffff.
Proof.
  unfold is_fcs, closeFcs16; intros H.
  assert (0 <= Z.lxor f 0xffff < 65536) by (apply (lxor_bound 16); [lia|exact H|lia]).
  rewrite (u16_small (Z.lxor f 65535)) by lia.
  rewrite land_ffff, Z.mod_small by lia. by apply u16_small.
Qed.

(** The table is the bit-serial CRC of each byte. *)
Lemma crc_bit_lxor a b : crc_bit (Z.lxor a b) = Z.lxor (crc_bit a) (crc_bit b).
Proof.
  unfold crc_bit. rewrite Z.shiftr_lxor.
  assert (Z.odd (Z.lxor a b) = xorb (Z.odd a) (Z.odd b)) as ->
    by (by rewrite <- !Z.bit0_odd, Z.lxor_spec).
  destruct (Z.odd a), (Z.odd b); simpl; apply Z.bits_inj'; intros n _; rewrite ?Z.lxor_spec;
    by destruct (Z.testbit (Z.shiftr a 1) n), (Z.testbit (Z.shiftr b 1) n), (Z.testbit 33800 n).
Qed.

Lemma iter_crc_lxor n a b :
  Nat.iter n crc_bit (Z.lxor a b) = Z.lxor (Nat.iter n crc_bit a) (Nat.iter n crc_bit b).
Proof. induction n; simpl; [done|]. by rewrite IHn, crc_bit_lxor. Qed.

Lemma iter_crc_shift n z :
  Nat.iter n crc_bit (Z.shiftl z (Z.of_nat n)) = z.
Proof.
  induction n; [by rewrite Z.shiftl_0_r|].
  rewrite Nat.iter_succ_r. unfold crc_bit at 2.
  rewrite Nat2Z.inj_succ, Z.shiftl_mul_pow2, Z.pow_succ_r by lia.
  replace (z * (2 * 2 ^ Z.of_nat n)) with (2 * (z * 2 ^ Z.of_nat n)) by lia.
  rewrite Z.odd_mul; simpl.
  rewrite Z.shiftr_div_pow2 by lia. change (2 ^ 1) with 2.
  rewrite (Z.mul_comm 2), Z.div_mul by lia. rewrite <- Z.shiftl_mul_pow2 by lia. done.
Qed.

Lemma split_byte z : z = Z.lxor (Z.shiftl (Z.shiftr z 8) 8) (Z.land z 0xff).
Proof.
  apply Z.bits_inj'; intros n Hn. rewrite Z.lxor_spec, Z.shiftl_spec by lia.
  change 0xff with (Z.ones 8).
  rewrite Z.land_spec, Z.testbit_ones_nonneg by lia.
  destruct (Z.ltb_spec n 8).
  - rewrite (Z.testbit_neg_r (Z.shiftr z 8)) by lia. by rewrite andb_true_r.
  - rewrite Z.shiftr_spec, andb_false_r, xorb_false_r by lia. by f_equal; lia.
Qed.

Lemma fcstab_crc b : is_byte b -> fcstab b = Nat.iter 8 crc_bit b.
Proof.
  intros Hb. apply Z.eqb_eq.
  by apply (byte_forallb (fun b => fcstab b =? Nat.iter 8 crc_bit b)).
Qed.

Lemma fcs_step_ref f b : is_fcs f -> is_byte b -> addOneByteToFcs16 f b = crc_byte f b.
Proof.
  intros Hf Hb. unfold crc_byte, addOneByteToFcs16.
  rewrite (split_byte (Z.lxor f b)) at 2.
  rewrite iter_crc_lxor, (iter_crc_shift 8), fcstab_crc by auto with apb. f_equal.
  rewrite Z.shiftr_lxor, land_ffff.
  unfold is_fcs, is_byte in *. rewrite (Z.mod_small f) by lia.
  rewrite (shiftr_8 b), (Z.div_small b) by lia. by rewrite Z.lxor_0_r.
Qed.

(** ** The residue checked by the receiver *)
Lemma land_xor_255 a : is_byte a -> Z.lxor a (Z.lxor a 255) = 255.
Proof. intros _. by rewrite <- Z.lxor_assoc, Z.lxor_nilpotent. Qed.

Lemma fcs_residue f :
  is_fcs f -> closeFcs16 (foldl addOneByteToFcs16 f (fcs_bytes f)) = 0xf47.
Proof.
  intros Hf. unfold fcs_bytes. rewrite (closeFcs16_lxor f) by done. simpl foldl.
  unfold is_fcs in Hf.
  assert (Hhi : is_byte (Z.shiftr f 8)).
  { rewrite shiftr_8. unfold is_byte. split; [apply Z.div_pos; lia|].
    apply Z.div_lt_upper_bound; lia. }
  assert (Hhi0 : Z.shiftr (Z.shiftr f 8) 8 = 0)
    by (rewrite shiftr_8; unfold is_byte in Hhi; by apply Z.div_small).
  assert (Hf1 : addOneByteToFcs16 f (Z.land (Z.lxor f 0xffff) 0xff)
                = Z.lxor (Z.shiftr f 8) 0x0f78).
  { unfold addOneByteToFcs16. rewrite (land_ffff f), (Z.mod_small f) by lia. f_equal.
    rewrite !land_lxor_distr, <- !Z.land_assoc.
    change (Z.land 255 255) with 255.
    rewrite <- Z.lxor_assoc, Z.lxor_nilpotent, Z.lxor_0_l. reflexivity. }
  rewrite Hf1. unfold addOneByteToFcs16.
  rewrite land_ffff, Z.mod_small by (apply (lxor_bound 16); unfold is_byte in *; lia).
  rewrite Z.shiftr_lxor, Hhi0, Z.lxor_0_l.
  rewrite (Z.shiftr_lxor f), !land_lxor_distr, <- !Z.land_assoc.
  change (Z.land 255 255) with 255.
  rewrite (Z.lxor_comm (Z.land (Z.shiftr f 8) 255)), Z.lxor_assoc.
  rewrite <- (Z.lxor_assoc (Z.land (Z.shiftr f 8) 255)), Z.lxor_nilpotent. reflexivity.
Qed.

(** ** Encoder and decoder *)
Lemma appendHDLC_stuff src dst : appendHDLC dst src = dst ++ flat_map stuff src.
Proof.
  revert dst; induction src as [|b r IH]; intros dst; cbn [appendHDLC flat_map].
  - by rewrite app_nil_r.
  - unfold stuff at 1.
    destruct ((b =? HDLC_PADDING) || (b =? HDLC_ESCCHAR)); rewrite IH, <- ?app_assoc; done.
Qed.

Lemma encodeHDLC_shape src :
  encodeHDLC src =
  [HDLC_PADDING] ++ flat_map stuff (src ++ fcs_bytes (foldl addOneByteToFcs16 initFcs16 src))
  ++ [HDLC_PADDING].
Proof.
  unfold encodeHDLC. rewrite !appendHDLC_stuff, flat_map_app, <- !app_assoc. done.
Qed.

Lemma feed_app d a b :
  feed d (a ++ b) = (let '(d1, o1) := feed d a in
                     let '(d2, o2) := feed d1 b in (d2, o1 ++ o2)).
Proof.
  revert d; induction a as [|x a IH]; intros d; simpl.
  - by destruct (feed d b).
  - destruct (addByte d x) as [d1 o1]. rewrite IH.
    destruct (feed d1 a) as [d2 o2]. destruct (feed d2 b) as [d3 o3].
    by rewrite app_assoc.
Qed.

Lemma feed_stuff d b :
  synced d ->
  exists st, st <> HDLC_ESCAPE /\
    feed d (stuff b) =
      (mkCHDLC (m_handler d) st (m_buffer d ++ [b]) (addOneByteToFcs16 (m_runningFCS d) b), []).
Proof.
  unfold synced, stuff; intros Hs.
  destruct ((b =? HDLC_PADDING) || (b =? HDLC_ESCCHAR)) eqn:E; simpl.
  - exists HDLC_DATA. split; [done|]. unfold addByte at 1.
    rewrite decide_False by done. simpl.
    by rewrite Z.lxor_assoc, Z.lxor_nilpotent, Z.lxor_0_r.
  - apply orb_false_iff in E as [E1 E2]. exists (m_state d). split; [done|].
    unfold addByte. rewrite decide_False by done. rewrite E1, E2. done.
Qed.

Lemma feed_body bs d :
  synced d ->
  exists st, st <> HDLC_ESCAPE /\
    feed d (flat_map stuff bs) =
      (mkCHDLC (m_handler d) st (m_buffer d ++ bs)
               (foldl addOneByteToFcs16 (m_runningFCS d) bs), []).
Proof.
  revert d; induction bs as [|b bs IH]; intros d Hd.
  - exists (m_state d). split; [done|]. rewrite app_nil_r. by destruct d.
  - cbn [flat_map]. rewrite feed_app. destruct (feed_stuff d b Hd) as (st & Hst & ->).
    match goal with |- context[feed ?x (flat_map _ _)] => destruct (IH x Hst) as (st' & Hst' & ->) end.
    exists st'. split; [done|]. simpl. by rewrite <- app_assoc.
Qed.

Lemma removelast_snoc2 (l : list Z) a b : removelast (removelast (l ++ [a; b])) = l.
Proof.
  rewrite (app_assoc l [a] [b] : l ++ [a; b] = _).
  by rewrite !removelast_last.
Qed.

(** The closing flag after the bytes [m] of a frame. *)
Lemma addByte_padding d :
  synced d ->
  addByte d HDLC_PADDING =
    (reset d,
     if (2 <? length (m_buffer d))%nat && (closeFcs16 (m_runningFCS d) =? 0xf47) && m_handler d
     then [removelast (removelast (m_buffer d))] else []).
Proof.
  unfold synced, addByte; intros Hs. rewrite decide_False by done. simpl (_ =? _).
  destruct (Nat.ltb_spec 2 (length (m_buffer d))) as [Hl|]; simpl; [|done].
  unfold validateChecksum, callback; simpl.
  destruct (closeFcs16 (m_runningFCS d) =? 0xf47); simpl; [|by destruct (m_handler d)].
  destruct (m_handler d); simpl; [|done].
  destruct (m_buffer d) as [|x [|y [|z l]]]; simpl in *; try lia. by destruct l.
Qed.

Lemma feed_frame d src :
  synced d -> m_buffer d = [] -> m_runningFCS d = initFcs16 -> m_handler d = true -> src <> [] ->
  feed d (flat_map stuff (src ++ fcs_bytes (foldl addOneByteToFcs16 initFcs16 src))
          ++ [HDLC_PADDING]) = (reset d, [src]).
Proof.
  intros Hs Hb Hr Hh Hne. rewrite feed_app.
  destruct (feed_body (src ++ fcs_bytes (foldl addOneByteToFcs16 initFcs16 src)) d Hs)
    as (st & Hst & ->).
  rewrite Hb, Hr. simpl. rewrite addByte_padding by done. simpl.
  rewrite foldl_app, fcs_residue, Hh by auto with apb. simpl.
  rewrite length_app. unfold fcs_bytes. simpl (length [_; _]).
  destruct (Nat.ltb_spec 2 (length src + 2)); [|destruct src; simpl in *; [done|lia]].
  simpl. rewrite removelast_snoc2. unfold reset; simpl. by rewrite Hh.
Qed.

(** ** Injectivity of the FCS *)
Lemma crc_bit_range c : is_fcs c -> is_fcs (crc_bit c).
Proof.
  unfold is_fcs, crc_bit; intros H.
  assert (0 <= Z.shiftr c 1 < 32768).
  { rewrite Z.shiftr_div_pow2 by lia. change (2 ^ 1) with 2. dlia. }
  destruct (Z.odd c); [|lia]. apply (lxor_bound 16); lia.
Qed.

Lemma crc_bit_msb c : is_fcs c -> Z.testbit (crc_bit c) 15 = Z.odd c.
Proof.
  unfold is_fcs, crc_bit; intros H.
  assert (Z.testbit (Z.shiftr c 1) 15 = false) as Hb.
  { rewrite Z.shiftr_spec by lia. change (15 + 1) with 16.
    rewrite <- (Z.mod_small c (2 ^ 16)) by lia. by apply Z.mod_pow2_bits_high. }
  destruct (Z.odd c); [by rewrite Z.lxor_spec, Hb | done].
Qed.

Lemma lxor_cancel_r a b c : Z.lxor a c = Z.lxor b c -> a = b.
Proof.
  intros H. rewrite <- (Z.lxor_0_r a), <- (Z.lxor_0_r b), <- (Z.lxor_nilpotent c).
  by rewrite <- !Z.lxor_assoc, H.
Qed.

Lemma lxor_cancel_l a b c : Z.lxor c a = Z.lxor c b -> a = b.
Proof. rewrite !(Z.lxor_comm c). apply lxor_cancel_r. Qed.

Lemma crc_bit_inj c c' : is_fcs c -> is_fcs c' -> crc_bit c = crc_bit c' -> c = c'.
Proof.
  intros Hc Hc' E.
  assert (Ho : Z.odd c = Z.odd c') by (rewrite <- !crc_bit_msb by done; by rewrite E).
  unfold crc_bit in E. rewrite <- Ho in E.
  assert (Es : Z.shiftr c 1 = Z.shiftr c' 1)
    by (destruct (Z.odd c); [by apply lxor_cancel_r in E | done]).
  rewrite (Z.div2_odd c), (Z.div2_odd c'), Ho, !Z.div2_spec. by rewrite Es.
Qed.

Lemma iter_crc_inj n c c' :
  is_fcs c -> is_fcs c' -> Nat.iter n crc_bit c = Nat.iter n crc_bit c' -> c = c'.
Proof.
  revert c c'; induction n; intros c c' Hc Hc'; [done|].
  rewrite !Nat.iter_succ_r. intros E%IHn; auto using crc_bit_range, crc_bit_inj.
Qed.

Lemma is_fcs_xor f b : is_fcs f -> is_byte b -> is_fcs (Z.lxor f b).
Proof. unfold is_fcs, is_byte; intros; apply (lxor_bound 16); lia. Qed.

Lemma fcs_step_inj f f' b b' :
  is_fcs f -> is_fcs f' -> is_byte b -> is_byte b' ->
  addOneByteToFcs16 f b = addOneByteToFcs16 f' b' -> Z.lxor f b = Z.lxor f' b'.
Proof.
  intros. apply (iter_crc_inj 8); auto using is_fcs_xor.
  by rewrite !fcs_step_ref in * by done.
Qed.

Lemma fcs_fold_inj bs f f' :
  Forall is_byte bs -> is_fcs f -> is_fcs f' ->
  foldl addOneByteToFcs16 f bs = foldl addOneByteToFcs16 f' bs -> f = f'.
Proof.
  intros Hbs; revert f f'; induction Hbs as [|b bs Hb Hbs IH]; intros f f' Hf Hf'; simpl; [done|].
  intros E%IH; auto with apb. apply fcs_step_inj in E; try done. by eapply lxor_cancel_r.
Qed.

Lemma fcs_change_byte pre b b' post f :
  is_fcs f -> Forall is_byte post -> is_byte b -> is_byte b' -> b <> b' ->
  foldl addOneByteToFcs16 f (pre ++ b :: post) <> foldl addOneByteToFcs16 f (pre ++ b' :: post).
Proof.
  intros Hf Hpost Hb Hb' Hne E. rewrite !foldl_app in E. simpl in E.
  apply fcs_fold_inj in E; auto with apb.
  apply fcs_step_inj in E; auto with apb. by apply lxor_cancel_l in E.
Qed.

Lemma closeFcs16_inj f f' : is_fcs f -> is_fcs f' -> closeFcs16 f = closeFcs16 f' -> f = f'.
Proof. intros Hf Hf'. rewrite !closeFcs16_lxor by done. apply lxor_cancel_r. Qed.

(** High byte of the step: it depends on the new byte only through the table. *)
Lemma fcs_step_diff f a a' :
  is_fcs f -> is_byte a -> is_byte a' ->
  Z.shiftr (addOneByteToFcs16 f a) 8 = Z.shiftr (addOneByteToFcs16 f a') 8 -> a = a'.
Proof.
  intros Hf Ha Ha' E. rewrite !fcs_step_ref in E by done. unfold crc_byte in E.
  assert (Hx : is_byte (Z.lxor a a')) by (apply (lxor_bound 8); unfold is_byte in *; lia).
  assert (E0 : Z.shiftr (fcstab (Z.lxor a a')) 8 = 0).
  { rewrite fcstab_crc by done.
    replace (Z.lxor a a') with (Z.lxor (Z.lxor f a) (Z.lxor f a')).
    - by rewrite iter_crc_lxor, Z.shiftr_lxor, E, Z.lxor_nilpotent.
    - rewrite (Z.lxor_comm f a), Z.lxor_assoc, <- (Z.lxor_assoc f f), Z.lxor_nilpotent.
      by rewrite Z.lxor_0_l. }
  pose proof (byte_forallb (fun i => negb (Z.shiftr (fcstab i) 8 =? 0) || (i =? 0)) eq_refl _ Hx) as H.
  cbv beta in H. rewrite E0 in H. simpl in H. apply Z.eqb_eq in H.
  by apply Z.lxor_eq in H.
Qed.

Lemma fcs_bytes_byte f : Forall is_byte (fcs_bytes f).
Proof. unfold fcs_bytes. repeat constructor; apply land_byte. Qed.

Lemma residue_unique f t :
  is_fcs f -> length t = 2%nat -> Forall is_byte t ->
  closeFcs16 (foldl addOneByteToFcs16 f t) = 0xf47 -> t = fcs_bytes f.
Proof.
  intros Hf Hl Ht E. destruct t as [|a [|b [|? ?]]]; try done.
  pose proof (fcs_residue f Hf) as E'. rewrite <- E' in E.
  pose proof (fcs_bytes_byte f) as Hfb. unfold fcs_bytes in *.
  set (a' := Z.land (closeFcs16 f) 255) in *. set (b' := Z.land (Z.shiftr _ 8) 255) in *.
  simpl in E. inversion Ht as [|? ? Ha Ht']; inversion Ht' as [|? ? Hb]; subst.
  inversion Hfb as [|? ? Ha' Hfb']; inversion Hfb' as [|? ? Hb']; subst.
  apply closeFcs16_inj in E; auto with apb.
  apply fcs_step_inj in E; auto with apb.
  assert (a = a').
  { apply (fcs_step_diff f); try done.
    assert (forall z c, is_byte c -> Z.shiftr (Z.lxor z c) 8 = Z.shiftr z 8) as Hs.
    { intros z c Hc. rewrite Z.shiftr_lxor, (shiftr_8 c), (Z.div_small c) by done.
      apply Z.lxor_0_r. }
    rewrite <- (Hs _ b), <- (Hs (addOneByteToFcs16 f a') b'), E by done. done. }
  subst a. apply lxor_cancel_l in E. by subst b.
Qed.

Lemma xor20_byte b : is_byte b -> is_byte (Z.lxor b HDLC_XORBYTE).
Proof. unfold is_byte, HDLC_XORBYTE; intros; apply (lxor_bound 8); lia. Qed.

Lemma append_inv d b : dec_inv d -> is_byte b -> dec_inv (append d b).
Proof.
  unfold dec_inv; intros [H1 H2] Hb; simpl. split; [by rewrite foldl_snoc, H1|].
  apply Forall_app; split; [done|by constructor].
Qed.

Lemma reset_inv d : dec_inv (reset d).
Proof. by split. Qed.

Lemma padding_good d f :
  dec_inv d -> synced d -> f ∈ snd (addByte d HDLC_PADDING) -> good_frame d f.
Proof.
  intros [Hr Hb] Hs. rewrite addByte_padding by done. simpl.
  destruct (Nat.ltb_spec 2 (length (m_buffer d))) as [Hl|]; simpl; [|set_solver].
  destruct (closeFcs16 (m_runningFCS d) =? 0xf47) eqn:E; simpl; [|set_solver].
  destruct (m_handler d); [|set_solver]. intros ->%list_elem_of_singleton.
  assert (exists src x y, m_buffer d = src ++ [x; y]) as (src & x & y & Em).
  { destruct (rev (m_buffer d)) as [|y [|x r]] eqn:Er;
      apply (f_equal length) in Er as El; rewrite length_rev in El; simpl in El; try lia.
    exists (rev r), x, y. rewrite <- (rev_involutive (m_buffer d)), Er. simpl.
    by rewrite <- app_assoc. }
  rewrite Em in Hr, Hb, Hl. rewrite Em, removelast_snoc2.
  apply Forall_app in Hb as [_ Hxy]. split.
  - intros ->. simpl in Hl. lia.
  - rewrite Em. f_equal. apply residue_unique; auto with apb.
    rewrite <- foldl_app, <- Hr. by apply Z.eqb_eq.
Qed.

Lemma addByte_inv d b : dec_inv d -> is_byte b -> dec_inv (fst (addByte d b)).
Proof.
  intros Hd Hb. destruct (decide (m_state d = HDLC_ESCAPE)) as [He|He].
  - unfold addByte. rewrite decide_True by done. simpl.
    apply (append_inv d); auto using xor20_byte.
  - destruct (b =? HDLC_PADDING) eqn:Ep.
    + apply Z.eqb_eq in Ep as ->. rewrite addByte_padding by done. apply reset_inv.
    + unfold addByte. rewrite decide_False by done.
      destruct (b =? HDLC_ESCCHAR); simpl; [exact Hd|]. rewrite Ep; simpl. by apply append_inv.
Qed.

Lemma feed_inv bs d : Forall is_byte bs -> dec_inv d -> dec_inv (fst (feed d bs)).
Proof.
  intros Hbs; revert d; induction Hbs as [|b bs Hb Hbs IH]; intros d Hd; simpl; [done|].
  pose proof (addByte_inv d b Hd Hb) as H1. destruct (addByte d b) as [d1 o1].
  specialize (IH d1 H1). by destruct (feed d1 bs).
Qed.

Lemma addByte_emits d b f : f ∈ snd (addByte d b) -> synced d /\ b = HDLC_PADDING.
Proof.
  unfold addByte, synced. case_decide; simpl; [set_solver|].
  destruct (b =? HDLC_ESCCHAR); simpl; [set_solver|].
  destruct (b =? HDLC_PADDING) eqn:E; simpl; [|set_solver].
  by apply Z.eqb_eq in E.
Qed.

Lemma feed_emits bs d f :
  f ∈ snd (feed d bs) ->
  exists pre post, bs = pre ++ HDLC_PADDING :: post /\ synced (fst (feed d pre)) /\
    f ∈ snd (addByte (fst (feed d pre)) HDLC_PADDING).
Proof.
  revert d; induction bs as [|b bs IH]; intros d; cbn [feed]; [set_solver|].
  destruct (addByte d b) as [d1 o1] eqn:E1. destruct (feed d1 bs) as [d2 o2] eqn:E2.
  simpl. intros [H|H]%elem_of_app.
  - assert (H' : f ∈ snd (addByte d b)) by by rewrite E1.
    apply addByte_emits in H' as H2. destruct H2 as [? ->]. by exists [], bs.
  - destruct (IH d1) as (pre & post & -> & Hs & Hf); [by rewrite E2|].
    exists (b :: pre), post. cbn [feed]. rewrite E1. by destruct (feed d1 pre).
Qed.

Lemma fcs_fold_ref bs f :
  is_fcs f -> Forall is_byte bs -> foldl addOneByteToFcs16 f bs = foldl crc_byte f bs.
Proof.
  intros Hf Hbs; revert f Hf; induction Hbs; intros; simpl; [done|].
  rewrite <- fcs_step_ref by done. auto with apb.
Qed.

Lemma stuff_no_flag b : ~ In HDLC_PADDING (stuff b).
Proof.
  unfold stuff, HDLC_PADDING, HDLC_ESCCHAR, HDLC_XORBYTE.
  destruct (Z.eqb_spec b 126) as [->|]; simpl; [by intros [?|[?|[]]]|].
  destruct (Z.eqb_spec b 125) as [->|]; simpl; [by intros [?|[?|[]]]|].
  intros [?|[]]; lia.
Qed.

Lemma body_no_flag bs : ~ In HDLC_PADDING (flat_map stuff bs).
Proof. intros (b & _ & H)%in_flat_map. by apply stuff_no_flag in H. Qed.

Lemma length_body bs : (length (flat_map stuff bs) <= 2 * length bs)%nat.
Proof.
  induction bs as [|b bs IH]; simpl; [lia|]. rewrite length_app. unfold stuff at 1.
  destruct ((b =? HDLC_PADDING) || (b =? HDLC_ESCCHAR)); simpl; lia.
Qed.

(** ** Properties *)

(** C40: the table-driven check sequence is, on bytes, the bit-serial CRC-16 of
    the reflected polynomial 0x8408 with initial value and final complement 0xffff. *)
Theorem computeFCS16_is_crc data :
  Forall is_byte data -> computeFCS16 data = crc_ref data.
Proof.
  intros H. unfold computeFCS16, crc_ref. rewrite <- fcs_fold_ref by auto with apb.
  apply closeFcs16_lxor; auto with apb.
Qed.

(** The check value of this CRC in the catalogues: "123456789" gives 0x906e. *)
Lemma computeFCS16_is_crc_witness :
  computeFCS16 [0x31; 0x32; 0x33; 0x34; 0x35; 0x36; 0x37; 0x38; 0x39] = 0x906e.
Proof.
  transitivity (crc_ref [0x31; 0x32; 0x33; 0x34; 0x35; 0x36; 0x37; 0x38; 0x39]);
    [apply computeFCS16_is_crc|by vm_compute].
  repeat constructor; unfold is_byte; lia.
Defined.

(** Round trip: whatever the decoder had collected before, after the bytes
    of [encodeHDLC src] it is reset and has delivered exactly [src], after what
    the opening flag completed. *)
Theorem hdlc_roundtrip d src :
  synced d -> m_handler d = true -> src <> [] ->
  feed d (encodeHDLC src) = (reset d, snd (addByte d HDLC_PADDING) ++ [src]).
Proof.
  intros Hs Hh Hne. rewrite encodeHDLC_shape. cbn [app feed].
  rewrite addByte_padding by done. rewrite feed_frame; try done.
Qed.

Lemma hdlc_roundtrip_witness :
  snd (feed (newCHDLC 4 true) (encodeHDLC [0x7E; 1; 0x7D])) = [[0x7E; 1; 0x7D]].
Proof.
  by rewrite (hdlc_roundtrip (newCHDLC 4 true) [0x7E; 1; 0x7D]).
Defined.

(** A new decoder reads a stream of encoded packets back as the same
    packets in the same order, none lost and none added. *)
Theorem hdlc_stream n fs :
  Forall (fun f => f <> []) fs ->
  feed (newCHDLC n true) (flat_map encodeHDLC fs) = (newCHDLC n true, fs).
Proof.
  intros H; induction H as [|f fs Hf _ IH]; [done|].
  simpl flat_map. rewrite feed_app.
  rewrite encodeHDLC_shape. cbn [app feed].
  rewrite (addByte_padding (newCHDLC n true)) by done. rewrite feed_frame by done.
  simpl. change (reset _) with (newCHDLC n true). by rewrite IH.
Qed.

Lemma hdlc_stream_witness :
  feed (newCHDLC 4 true) (flat_map encodeHDLC [[1; 2]; [0x7E]; [0x7D; 5]])
  = (newCHDLC 4 true, [[1; 2]; [0x7E]; [0x7D; 5]]).
Proof. apply (hdlc_stream 4). by repeat constructor. Defined.

(** Soundness on arbitrary input. Every packet the decoder delivers, from
    any byte sequence at all, is not empty and was followed by its own CRC: just before
    the flag that completes it the collected bytes are the packet and the two
    bytes of its CRC, low byte first. *)
Theorem hdlc_sound n h bs f :
  Forall is_byte bs -> f ∈ snd (feed (newCHDLC n h) bs) ->
  f <> [] /\ exists pre post, bs = pre ++ HDLC_PADDING :: post /\
    m_buffer (fst (feed (newCHDLC n h) pre)) =
      f ++ [crc_ref f mod 256; (crc_ref f / 256) mod 256].
Proof.
  intros Hbs (pre & post & -> & Hs & Hf)%feed_emits.
  apply Forall_app in Hbs as [Hpre _].
  assert (Hd : dec_inv (fst (feed (newCHDLC n h) pre))) by (by apply feed_inv, reset_inv).
  pose proof (padding_good _ f Hd Hs Hf) as [Hne Hg]. split; [done|].
  exists pre, post. split; [done|]. destruct Hd as [_ Hb]. rewrite Hg in *.
  apply Forall_app in Hb as [Hfb _]. unfold fcs_bytes, crc_ref.
  rewrite <- fcs_fold_ref, !closeFcs16_lxor, !land_ff, shiftr_8 by auto with apb. done.
Qed.

Lemma hdlc_sound_witness :
  [1; 2] <> [] /\ exists pre post, encodeHDLC [1; 2] = pre ++ HDLC_PADDING :: post /\
    m_buffer (fst (feed (newCHDLC 0 true) pre)) =
      [1; 2] ++ [crc_ref [1; 2] mod 256; (crc_ref [1; 2] / 256) mod 256].
Proof.
  apply (hdlc_sound 0 true).
  - vm_compute. repeat constructor; discriminate.
  - vm_compute. constructor.
Defined.

(** With one byte replaced, the check sequence no longer closes the frame. *)
Lemma body_changed src pre b b' post :
  frame_body src = pre ++ b :: post -> Forall is_byte src -> is_byte b' -> b' <> b ->
  closeFcs16 (foldl addOneByteToFcs16 initFcs16 (pre ++ b' :: post)) <> 0xf47.
Proof.
  intros E Hsrc Hb' Hne Ec.
  assert (Hall : Forall is_byte (pre ++ b :: post))
    by (rewrite <- E; apply Forall_app; split; [done|apply fcs_bytes_byte]).
  apply Forall_app in Hall as [Hpre [Hb Hpost]%Forall_cons_1].
  apply (fcs_change_byte pre b b' post initFcs16); auto with apb.
  apply closeFcs16_inj; auto with apb. rewrite Ec, <- E. unfold frame_body.
  rewrite foldl_app. apply fcs_residue; auto with apb.
Qed.

(** A body that its check sequence does not close is dropped. *)
Lemma feed_dropped n body :
  closeFcs16 (foldl addOneByteToFcs16 initFcs16 body) <> 0xf47 ->
  feed (newCHDLC n true) (HDLC_PADDING :: flat_map stuff body ++ [HDLC_PADDING]) = (newCHDLC n true, []).
Proof.
  intros Hc. cbn [feed]. rewrite (addByte_padding (newCHDLC n true)) by done. simpl fst. simpl snd.
  change (reset _) with (newCHDLC n true). rewrite feed_app.
  destruct (feed_body body (newCHDLC n true)) as (st & Hst & ->); [done|].
  simpl. rewrite addByte_padding by done. simpl.
  rewrite (proj2 (Z.eqb_neq _ _) Hc). by rewrite andb_false_r.
Qed.

(** C39: error detection. A frame in which one byte (of the data or of the check
    sequence) was replaced by another is dropped, and the decoder is reset. *)
Theorem hdlc_corruption n src pre b b' post :
  frame_body src = pre ++ b :: post -> Forall is_byte src -> is_byte b' -> b' <> b ->
  feed (newCHDLC n true)
    (HDLC_PADDING :: flat_map stuff (pre ++ b' :: post) ++ [HDLC_PADDING])
  = (newCHDLC n true, []).
Proof. intros E Hsrc Hb' Hne. apply feed_dropped. by eapply body_changed. Qed.

Lemma hdlc_corruption_witness :
  feed (newCHDLC 0 true)
    (HDLC_PADDING :: flat_map stuff ([1] ++ 9 :: fcs_bytes (foldl addOneByteToFcs16 initFcs16 [1; 2]))
     ++ [HDLC_PADDING])
  = (newCHDLC 0 true, []).
Proof.
  apply (hdlc_corruption 0 [1; 2] [1] 2 9); [reflexivity| |unfold is_byte; lia|lia].
  repeat constructor; unfold is_byte; lia.
Defined.

(** Transparency and size. The encoding of any packet is a flag, bytes that
    are never a flag, and a flag, and takes at most [2 * length src + 6] bytes. *)
Theorem encodeHDLC_transparent src :
  exists body, encodeHDLC src = [HDLC_PADDING] ++ body ++ [HDLC_PADDING] /\
    ~ In HDLC_PADDING body /\ (length (encodeHDLC src) <= 2 * length src + 6)%nat.
Proof.
  rewrite encodeHDLC_shape. eexists. split; [reflexivity|]. split; [apply body_no_flag|].
  match goal with |- context[flat_map stuff ?x] => pose proof (length_body x) as H end.
  rewrite !length_app in *. simpl in *. lia.
Qed.
