(* ===== verification/SerialPort.v ===== *)
(** The serial port to the AP (APInterface/SerialPort.cpp, SerialPort.h).

    Bytes read are given to the HDLC decoder and complete frames to the
    transport; every frame written is encoded into a buffer of a growing pool that
    it occupies until its asynchronous write completes.  The pool is locked in [alloc],
    [get] and [free] only: a write is a sequence of steps ([writer_run]) between which
    other threads write and the IO service completes earlier writes. *)
From stdpp Require Import base numbers list option.
From Stdlib Require Import ZArith Lia.
From S2P Require Import Prelude Hdlc ApcProto.

Local Open Scope Z_scope.

Definition MAX_HDLC_BUFFER_LEN : nat := 256.

Inductive EAPResetSignal : Set := AP_RESET_SIGNAL_TX | AP_RESET_SIGNAL_DTR.

(** ** Output buffers: allocated or not, and the contents *)
Notation CBufferPool := (list (bool * list Z)) (only parsing).

(** The first free buffer, or a new one at the end. *)
Fixpoint alloc (pool : CBufferPool) : CBufferPool * nat :=
  match pool with
  | [] => ([(true, [])], O)
  | (true, b) :: r => let '(r', i) := alloc r in ((true, b) :: r', S i)
  | (false, b) :: r => ((true, b) :: r, O)
  end.

(** [None]: the assertion of the code fails. *)
Definition free (pool : CBufferPool) (bufId : nat) : option CBufferPool :=
  match pool !! bufId with
  | Some (true, _) => Some (<[bufId := (false, [])]> pool)
  | _ => None
  end.

Definition get (pool : CBufferPool) (bufId : nat) : option (list Z) :=
  match pool !! bufId with Some (true, b) => Some b | _ => None end.

(** ** State and events *)
Record CSerialPort : Set := mkSerialPort {
  m_inputHandler : bool;
  m_encoder : option CHDLC;
  m_serial_open : bool;
  m_resetSignal : EAPResetSignal;
  m_outbufPool : CBufferPool
}.
#[export] Instance CSerialPort_eta : Eta CSerialPort := fun s =>
  mkSerialPort (m_inputHandler s) (m_encoder s) (m_serial_open s) (m_resetSignal s) (m_outbufPool s).

Inductive serial_event : Set :=
| SpDataReceived (data : list Z)              (** the input handler's [dataReceived] *)
| SpAsyncRead                                 (** [async_read_some] *)
| SpAsyncWrite (bufId : nat) (data : list Z)  (** [async_write] *)
| SpCancel | SpOpen | SpClose
| SpResetTx | SpResetDtr
| SpDangling                                  (** a reference into the pool is used after the vector moved its elements *)
| SpAssert.                                   (** an assertion fails *)

Notation SM := (M CSerialPort serial_event) (only parsing).

(** The decoder's handler is the port itself. *)
Definition newCSerialPort (resetSignal : EAPResetSignal) (useHDLC : bool) : CSerialPort :=
  mkSerialPort false (if useHDLC then Some (newCHDLC MAX_HDLC_BUFFER_LEN true) else None) false resetSignal [].

(** ** Operations *)
Definition openPort (ok : bool) : SM apc_error_t :=
  emit SpOpen ;;
  if ok then modify (fun s => s <| m_serial_open := true |>) ;; mret APC_OK else mret APC_ERR_IO.

(** [still_open]: what [is_open] gives after a close that failed. *)
Definition closePort (ok still_open : bool) : SM apc_error_t :=
  emit SpClose ;;
  modify (fun s => s <| m_serial_open := if ok then false else still_open |>) ;;
  mret (if ok then APC_OK else APC_ERR_IO).

Definition isReady (s : CSerialPort) : bool := m_serial_open s.

Definition start : SM apc_error_t :=
  modify (fun s => s <| m_inputHandler := true |>) ;; emit SpAsyncRead ;; mret APC_OK.
Definition restart : SM apc_error_t := emit SpAsyncRead ;; mret APC_OK.
Definition stop : SM unit := s ← Prelude.get; when (m_serial_open s) (emit SpCancel).

Definition frameComplete (data : list Z) : SM unit :=
  s ← Prelude.get; when (m_inputHandler s) (emit (SpDataReceived data)).

Fixpoint framesComplete (l : list (list Z)) : SM unit :=
  match l with [] => mret tt | f :: l => frameComplete f ;; framesComplete l end.

(** The bytes go one by one through the decoder, which calls [frameComplete]. *)
Fixpoint addBytes (data : list Z) : SM unit :=
  match data with
  | [] => mret tt
  | b :: r =>
      s ← Prelude.get;
      match m_encoder s with
      | Some d =>
          let '(d', frames) := addByte d b in
          modify (fun s => s <| m_encoder := Some d' |>) ;; framesComplete frames
      | None => mret tt
      end ;;
      addBytes r
  end.

Definition handleRead (error : bool) (data : list Z) : SM unit :=
  if error then mret tt
  else
    s ← Prelude.get;
    when (m_inputHandler s)
      (match m_encoder s with
       | Some _ => addBytes data
       | None => emit (SpDataReceived data)
       end) ;;
    emit SpAsyncRead.

(** The buffer's contents after the encoder, or after appending the data to it. *)
Definition output (s : CSerialPort) (old data : list Z) : list Z :=
  match m_encoder s with Some _ => encodeHDLC data | None => old ++ data end.

(** What a write does next, with the reference that [get] gave it: how often the vector
    had moved its elements by then. *)
Inductive write_stage : Set := WGet | WReserve (ref : nat) | WFill (ref : nat) | WIssue (ref : nat).
Record Writer : Set := mkWriter { w_id : nat; w_data : list Z; w_stage : write_stage }.

Definition write_begin (data : list Z) : SM Writer :=
  s ← Prelude.get;
  let '(pool, bufId) := alloc (m_outbufPool s) in
  modify (fun s => s <| m_outbufPool := pool |>) ;; mret (mkWriter bufId data WGet).

(** The use of a reference; [moved]: how often the vector has moved by now. *)
Definition through (moved ref bufId : nat) (k : list Z -> SM (option write_stage)) : SM (option write_stage) :=
  s ← Prelude.get;
  match m_outbufPool s !! bufId with
  | Some (_, old) => if (ref =? moved)%nat then k old else emit SpDangling ;; mret None
  | None => emit SpDangling ;; mret None
  end.

(** The next step of a write; [None] after the last one. *)
Definition writer_run (moved : nat) (w : Writer) : SM (option write_stage) :=
  s ← Prelude.get;
  match w_stage w with
  | WGet =>
      match get (m_outbufPool s) (w_id w) with
      | Some _ => mret (Some (WReserve moved))
      | None => emit SpAssert ;; mret None
      end
  | WReserve ref => through moved ref (w_id w) (fun _ => mret (Some (WFill ref)))
  | WFill ref =>
      through moved ref (w_id w) (fun old =>
        modify (fun s => s <| m_outbufPool := <[w_id w := (true, output s old (w_data w))]> (m_outbufPool s) |>) ;;
        mret (Some (WIssue ref)))
  | WIssue ref => through moved ref (w_id w) (fun out => emit (SpAsyncWrite (w_id w) out) ;; mret None)
  end.

Fixpoint writer_runs (fuel moved : nat) (w : Writer) : SM unit :=
  match fuel with
  | O => mret tt
  | S fuel =>
      st ← writer_run moved w;
      match st with Some st => writer_runs fuel moved (mkWriter (w_id w) (w_data w) st) | None => mret tt end
  end.

(** A write that no other thread interrupts: its four steps one after another. *)
Definition write (data : list Z) : SM unit := w ← write_begin data; writer_runs 4 0 w.

Definition handleData (data : list Z) : SM nat := write data ;; mret (length data).

Definition handleWriteComplete (bufId : nat) (error : bool) : SM unit :=
  s ← Prelude.get;
  match free (m_outbufPool s) bufId with
  | Some pool => modify (fun s => s <| m_outbufPool := pool |>)
  | None => emit SpAssert
  end.

Definition sendResetAP : SM unit :=
  s ← Prelude.get;
  emit (match m_resetSignal s with AP_RESET_SIGNAL_TX => SpResetTx | AP_RESET_SIGNAL_DTR => SpResetDtr end).

(** *** The reset line

    The calls of a reset on its port, given the ones that fail; the options and [ioctl]
    only report their errors.  A [boost::asio::serial_port] is closed by its destructor
    when an exception leaves the block. *)
Inductive reset_call : Set := RsOpen | RsBaud (rate : Z) | RsWrite (data : list Z) | RsClose | RsClearDtr | RsDestroy.

Definition RESET_PORT_DATA : list Z := [0].
Definition RESET_PORT_BAUD : Z := 9600.

Definition resetTxLine (open_ok write_ok close_ok : bool) : list reset_call :=
  RsOpen ::
  (if open_ok then
     RsBaud RESET_PORT_BAUD :: RsWrite RESET_PORT_DATA ::
     (if write_ok then [RsClose] else [])
   else []) ++ [RsDestroy].

Definition resetDtrLine (open_ok clear_ok : bool) : list reset_call :=
  RsOpen :: (if open_ok then [RsClearDtr; RsClose] else []).

(** What the AP sees of it: a byte of zero bits at 9600 baud, or the line cleared. *)
Definition resets (l : list reset_call) : bool :=
  existsb (fun c => match c with RsWrite _ | RsClearDtr => true | _ => false end) l.

Definition getNumOutBuffers (s : CSerialPort) : nat := length (m_outbufPool s).

(** ** Facts *)
Lemma alloc_spec pool : forall pool' i, alloc pool = (pool', i) ->
  (exists b, pool !! i = Some (false, b) /\ pool' = <[i := (true, b)]> pool) \/
  (i = length pool /\ Forall (fun e => fst e = true) pool /\ pool' = pool ++ [(true, [])]).
Proof.
  induction pool as [|[[] b] pool IH]; intros pool' i; cbn [alloc].
  - intros [= <- <-]. by right.
  - destruct (alloc pool) as [r j] eqn:Ha. intros [= <- <-].
    destruct (IH _ _ eq_refl) as [(b' & H1 & ->)|(-> & H1 & ->)].
    + left. by exists b'.
    + right. split_and!; [done|by constructor|done].
  - intros [= <- <-]. left. by exists b.
Qed.

(** The bytes that a write of [data] puts on the line. *)
Definition wire (hdlc : bool) (data : list Z) : list Z := if hdlc then encodeHDLC data else data.

Definition has_encoder (s : CSerialPort) : bool := match m_encoder s with Some _ => true | None => false end.

(** What happens at the port; a completion is of a write that is pending. *)
Inductive port_op : Set :=
| PWrite (data : list Z)
| PComplete (bufId : nat) (error : bool)
| PRead (error : bool) (data : list Z)
| PStart | PRestart | PStop | PReset
| POpen (ok : bool) | PClose (ok still_open : bool).

Definition port_exec (op : port_op) : SM unit :=
  match op with
  | PWrite data => _ ← handleData data; mret tt
  | PComplete id error => handleWriteComplete id error
  | PRead error data => handleRead error data
  | PStart => _ ← start; mret tt
  | PRestart => _ ← restart; mret tt
  | PStop => stop
  | PReset => sendResetAP
  | POpen ok => _ ← openPort ok; mret tt
  | PClose ok still_open => _ ← closePort ok still_open; mret tt
  end.

(** *** Writes between other steps

    The reference of a write is stale when the vector has moved since [get] gave it. *)
Definition stale (moved : nat) (w : Writer) : bool :=
  match w_stage w with WGet => false | WReserve ref | WFill ref | WIssue ref => negb (ref =? moved)%nat end.

(** An [alloc] appends, and can move the vector, when every buffer is allocated. *)
Definition appends (pool : CBufferPool) : bool := forallb fst pool.

Definition moved_by (moves : bool) (pool : CBufferPool) (moved : nat) : nat := if moves && appends pool then S moved else moved.

(** The port, how often its vector has moved, the writes under way, those that are
    pending at the operating system (buffer and data), and the most that were under way
    and pending at once.  Whether an append moves the vector is left open. *)
Inductive port_reach (hdlc : bool) : CSerialPort -> nat -> list Writer -> list (nat * list Z) -> nat -> Prop :=
| Port_new sig : port_reach hdlc (newCSerialPort sig hdlc) 0 [] [] 0
| Port_begin s moved ws pend peak data moves :
    port_reach hdlc s moved ws pend peak ->
    port_reach hdlc (st_of (write_begin data) s) (moved_by moves (m_outbufPool s) moved)
      (res_of (write_begin data) s :: ws) pend (peak `max` S (length ws + length pend))
| Port_step s moved ws1 w ws2 pend peak st :
    port_reach hdlc s moved (ws1 ++ w :: ws2) pend peak -> res_of (writer_run moved w) s = Some st ->
    port_reach hdlc (st_of (writer_run moved w) s) moved (ws1 ++ mkWriter (w_id w) (w_data w) st :: ws2) pend peak
| Port_issue s moved ws1 w ws2 pend peak :
    port_reach hdlc s moved (ws1 ++ w :: ws2) pend peak -> w_stage w = WIssue moved ->
    port_reach hdlc (st_of (writer_run moved w) s) moved (ws1 ++ ws2) ((w_id w, w_data w) :: pend) peak
| Port_complete s moved ws pend1 id data pend2 peak error :
    port_reach hdlc s moved ws (pend1 ++ (id, data) :: pend2) peak ->
    port_reach hdlc (st_of (port_exec (PComplete id error)) s) moved ws (pend1 ++ pend2) peak
| Port_other s moved ws pend peak op :
    port_reach hdlc s moved ws pend peak -> (forall data, op <> PWrite data) -> (forall id e, op <> PComplete id e) ->
    port_reach hdlc (st_of (port_exec op) s) moved ws pend peak.

(** The buffers in use and what they hold. *)
Definition contents (hdlc : bool) (w : Writer) : list Z := match w_stage w with WIssue _ => wire hdlc (w_data w) | _ => [] end.
Definition held (hdlc : bool) (ws : list Writer) (pend : list (nat * list Z)) : list (nat * list Z) :=
  map (fun w => (w_id w, contents hdlc w)) ws ++ map (prod_map id (wire hdlc)) pend.

Record pool_inv (pool : CBufferPool) (l : list (nat * list Z)) (peak : nat) : Prop := {
  pi_held : forall id b, (id, b) ∈ l -> pool !! id = Some (true, b);
  pi_alloc : forall id b, pool !! id = Some (true, b) -> id ∈ map fst l;
  pi_free : forall id b, pool !! id = Some (false, b) -> b = [];
  pi_nodup : NoDup (map fst l);
  pi_peak : (length pool <= peak)%nat /\ (length l <= peak)%nat
}.

#[export] Instance pool_inv_proper pool : Proper (Permutation ==> eq ==> iff) (pool_inv pool).
Proof.
  assert (forall l l' peak, l ≡ₚ l' -> pool_inv pool l peak -> pool_inv pool l' peak) as H.
  { intros l l' peak HP [H1 H2 H3 H4 H5]. constructor.
    - intros id b Hin. apply H1. by rewrite HP.
    - intros id b Hl. rewrite <- (Permutation_map fst HP). by eapply H2.
    - done.
    - by rewrite <- (Permutation_map fst HP).
    - by rewrite <- (Permutation_length HP). }
  intros l l' HP ? peak ->. split; by apply H.
Qed.

Definition same_pool (hdlc : bool) (pool : CBufferPool) (s : CSerialPort) : Prop :=
  has_encoder s = hdlc /\ m_outbufPool s = pool.
Definition any_serial_event (e : serial_event) : Prop := e <> SpAssert.

Lemma frames_keeps hdlc pool l : keeps (same_pool hdlc pool) any_serial_event (framesComplete l).
Proof. induction l; cbn [framesComplete]; unfold frameComplete; by keeps_auto. Qed.

Lemma addBytes_keeps pool data : keeps (same_pool true pool) any_serial_event (addBytes data).
Proof.
  induction data as [|b data IH]; cbn [addBytes]; [apply keeps_ret|].
  apply keeps_bind; [apply keeps_get|intros s]. apply keeps_bind; [|by intros _].
  destruct (m_encoder s) as [d|]; [|apply keeps_ret]. destruct (addByte d b) as [d' frames].
  apply keeps_bind; [|intros _; apply frames_keeps]. apply keeps_modify. by intros ? [H1 H2].
Qed.

Lemma other_port_keeps hdlc pool op :
  (forall data, op <> PWrite data) -> (forall id e, op <> PComplete id e) ->
  keeps (same_pool hdlc pool) any_serial_event (port_exec op).
Proof.
  intros Hw Hc. destruct op; try (by destruct (Hw data)); try (by destruct (Hc bufId error)); cbn [port_exec];
    unfold start, restart, stop, sendResetAP, openPort, closePort; try (by keeps_auto).
  - unfold handleRead. destruct error; [apply keeps_ret|]. intros s Hs. revert s Hs.
    apply keeps_read. intros s [He Hp]. apply keeps_at_bind; [|intros _; by keeps_auto].
    unfold when. destruct (m_inputHandler s); [|by split_and!]. unfold has_encoder in He.
    destruct (m_encoder s) eqn:E; [subst hdlc|].
    + apply keeps_to_at; [apply addBytes_keeps|]. split; [|done]. unfold has_encoder. by rewrite E.
    + split; [split; [|done]|by repeat constructor]. unfold has_encoder. change (m_encoder (st_of _ s)) with (m_encoder s).
      by rewrite E.
  - keeps_auto. by destruct (m_resetSignal _).
Qed.

(** The buffer of a write was free or did not exist, and is empty; the pool grows only if
    every buffer is in use. *)
Lemma pool_add pool l peak pool' id :
  pool_inv pool l peak -> alloc pool = (pool', id) ->
  id ∉ map fst l /\ pool_inv pool' ((id, []) :: l) (peak `max` S (length l)) /\
  (appends pool = false -> length pool' = length pool).
Proof.
  intros [Hp Ha Hf Hn [Hk1 Hk2]] Halloc.
  assert (id ∉ map fst l /\ pool' !! id = Some (true, []) /\ (forall j, j <> id -> pool' !! j = pool !! j) /\
    (length pool' <= peak `max` S (length l))%nat /\ (appends pool = false -> length pool' = length pool))
    as (Hfresh & Hget & Hother & Hlen & Hgrow).
  { destruct (alloc_spec _ _ _ Halloc) as [(b & Hl & ->)|(-> & Hall & ->)].
    - assert (b = []) as -> by by eapply Hf. rewrite length_insert. split_and!; [|..|lia|done].
      + intros ([j d] & E & Hin)%list_elem_of_fmap. cbn in E. subst j. by rewrite (Hp _ _ Hin) in Hl.
      + apply list_lookup_insert_eq. by eapply lookup_lt_Some.
      + intros j Hj. by apply list_lookup_insert_ne.
    - assert (length pool <= length l)%nat as Hle.
      { rewrite <- (length_map fst l), <- (length_seq (length pool) 0).
        apply NoDup_incl_length; [apply seq_NoDup|]. intros j Hj%in_seq.
        destruct (lookup_lt_is_Some_2 pool j) as [[a b] Hl]; [lia|].
        assert (a = true) as -> by exact (proj1 (Forall_lookup _ _) Hall _ _ Hl).
        apply list_elem_of_In. by eapply Ha. }
      rewrite length_app. cbn. split_and!; [..|lia|].
      + intros ([j d] & E & Hin)%list_elem_of_fmap. cbn in E. subst j. apply Hp, lookup_lt_Some in Hin. lia.
      + by rewrite lookup_app_r, Nat.sub_diag by lia.
      + intros j Hj. destruct (decide (j < length pool)%nat).
        * by rewrite lookup_app_l by done.
        * rewrite !lookup_ge_None_2 by (rewrite ?length_app; cbn; lia). done.
      + intros Hc. exfalso. unfold appends in Hc. apply not_true_iff_false in Hc. apply Hc, forallb_forall.
        intros e He. apply list_elem_of_In in He. by apply (proj1 (list.Forall_forall _ _) Hall). }
  split_and!; [done| |done]. constructor; cbn.
  - intros j d [E|Hin]%elem_of_cons; [by simplify_eq|]. rewrite Hother; [by apply Hp|].
    intros ->. apply Hfresh, list_elem_of_fmap. by exists (id, d).
  - intros j b Hj. destruct (decide (j = id)) as [->|Hj']; [left|]. rewrite Hother in Hj by done. right. by eapply Ha.
  - intros j b Hj. destruct (decide (j = id)) as [->|Hj']; [congruence|]. rewrite Hother in Hj by done. by eapply Hf.
  - by constructor.
  - lia.
Qed.

Lemma insert_lookup_cases (pool : CBufferPool) id e j c :
  <[id := e]> pool !! j = Some c -> (j = id /\ c = e) \/ (j <> id /\ pool !! j = Some c).
Proof.
  intros H. destruct (decide (j = id)) as [->|Hj]; [left|right].
  - assert (id < length pool)%nat as Hlt.
    { apply lookup_lt_Some in H. by rewrite length_insert in H. }
    rewrite list_lookup_insert_eq in H by done. by simplify_eq.
  - by rewrite list_lookup_insert_ne in H by done.
Qed.

Lemma head_fresh (id : nat) (b : list Z) l : NoDup (map fst ((id, b) :: l)) -> id ∉ map fst l /\ NoDup (map fst l).
Proof. by intros [??]%list.NoDup_cons. Qed.

Lemma elem_fst (id : nat) (b : list Z) l : (id, b) ∈ l -> id ∈ map fst l.
Proof. intros H. apply list_elem_of_fmap. by exists (id, b). Qed.

(** When every buffer is allocated, there are as many as are in use. *)
Lemma all_used pool l peak : pool_inv pool l peak -> appends pool = true -> length l = length pool.
Proof.
  intros [Hp Ha _ Hn _] Hall. unfold appends in Hall. rewrite forallb_forall in Hall. rewrite <- (length_map fst l).
  assert (map fst l ≡ₚ seq 0 (length pool)) as ->; [|by rewrite length_seq].
  apply NoDup_Permutation; [done|apply NoDup_seq|]. intros j. rewrite elem_of_seq. split.
  - intros ([j' b] & -> & Hin)%list_elem_of_fmap. apply Hp, lookup_lt_Some in Hin. cbn. lia.
  - intros Hj. destruct (lookup_lt_is_Some_2 pool j) as [[a b] Hl]; [lia|].
    assert (a = true) as ->; [|by eapply Ha].
    by apply (Hall (a, b)), list_elem_of_In, list_elem_of_lookup_2 with j.
Qed.

(** A buffer in use gets new contents. *)
Lemma pool_fill pool id b b' l peak :
  pool_inv pool ((id, b) :: l) peak -> pool_inv (<[id := (true, b')]> pool) ((id, b') :: l) peak.
Proof.
  intros [Hp Ha Hf Hn Hk]. assert (pool !! id = Some (true, b)) as Hl by (apply Hp; by left).
  destruct (head_fresh _ _ _ Hn) as [Hi _]. constructor.
  - intros j d [E|Hin]%elem_of_cons.
    + simplify_eq. apply list_lookup_insert_eq. by eapply lookup_lt_Some.
    + rewrite list_lookup_insert_ne; [apply Hp; by right|]. intros <-. by apply Hi, elem_fst with d.
  - intros j d [[-> ?]|[? Hj]]%insert_lookup_cases; [left|]. by eapply Ha.
  - intros j d [[-> ?]|[? Hj]]%insert_lookup_cases; [done|]. by eapply Hf.
  - done.
  - by rewrite length_insert.
Qed.

(** A buffer is given back. *)
Lemma pool_remove pool id b l peak :
  pool_inv pool ((id, b) :: l) peak -> pool_inv (<[id := (false, [])]> pool) l peak.
Proof.
  intros [Hp Ha Hf Hn Hk]. destruct (head_fresh _ _ _ Hn) as [Hi Hn']. constructor.
  - intros j d Hin. rewrite list_lookup_insert_ne; [apply Hp; by right|]. intros <-. by apply Hi, elem_fst with d.
  - intros j d [[-> ?]|[Hne Hj]]%insert_lookup_cases; [done|]. by apply Ha, elem_of_cons in Hj as [?|?].
  - intros j d [[-> ?]|[? Hj]]%insert_lookup_cases; [by simplify_eq|]. by eapply Hf.
  - done.
  - rewrite length_insert. cbn in Hk. lia.
Qed.

Lemma output_wire s data : output s [] data = wire (has_encoder s) data.
Proof. unfold output, wire, has_encoder. by destruct (m_encoder s). Qed.

(** The steps of a write: the buffer is as it is in [contents], the reference as [stale] says. *)
Definition next_stage (moved : nat) (st : write_stage) : option write_stage :=
  match st with WGet => Some (WReserve moved) | WReserve ref => Some (WFill ref) | WFill ref => Some (WIssue ref) | WIssue _ => None end.

Definition step_event (hdlc : bool) (w : Writer) : list serial_event :=
  match w_stage w with WIssue _ => [SpAsyncWrite (w_id w) (wire hdlc (w_data w))] | _ => [] end.

Lemma writer_step hdlc s moved w :
  has_encoder s = hdlc -> m_outbufPool s !! w_id w = Some (true, contents hdlc w) ->
  writer_run moved w s =
    if stale moved w then (s, [SpDangling], None)
    else (match w_stage w with
          | WFill _ => s <| m_outbufPool := <[w_id w := (true, wire hdlc (w_data w))]> (m_outbufPool s) |>
          | _ => s
          end, step_event hdlc w, next_stage moved (w_stage w)).
Proof.
  intros He Hl. destruct w as [i data [|ref|ref|ref]]; unfold writer_run, through, stale, step_event, contents, get in *;
    cbn [w_stage w_id w_data next_stage] in *; runM; rewrite Hl; try done; destruct (ref =? moved)%nat; cbn [negb]; runM; try done.
  by rewrite output_wire, He.
Qed.

(** The write of one frame without interruption, given the buffer it gets. *)
Lemma write_run s pool id old data :
  alloc (m_outbufPool s) = (pool, id) -> pool !! id = Some (true, old) ->
  handleData data s =
    (s <| m_outbufPool := <[id := (true, output s old data)]> pool |>,
     [SpAsyncWrite id (output s old data)], length data).
Proof.
  intros Ha Hl. assert (id < length pool)%nat as Hlt by by eapply lookup_lt_Some.
  unfold handleData, write, write_begin, writer_runs, writer_run, through. runM. rewrite Ha. runM. cbn [w_stage w_id w_data].
  unfold get. cbn. rewrite Hl. runM. cbn. rewrite Hl. runM. cbn. rewrite Hl. runM. cbn. rewrite list_lookup_insert_eq by done. runM. done.
Qed.

Lemma complete_run s id b error :
  m_outbufPool s !! id = Some (true, b) ->
  handleWriteComplete id error s = (s <| m_outbufPool := <[id := (false, [])]> (m_outbufPool s) |>, [], tt).
Proof. intros Hl. unfold handleWriteComplete, free. runM. by rewrite Hl. Qed.

Record port_inv (hdlc : bool) (s : CSerialPort) (ws : list Writer) (pend : list (nat * list Z)) (peak : nat) : Prop := {
  pv_enc : has_encoder s = hdlc;
  pv_pool : pool_inv (m_outbufPool s) (held hdlc ws pend) peak
}.

Lemma held_writer hdlc ws1 w ws2 pend :
  held hdlc (ws1 ++ w :: ws2) pend ≡ₚ (w_id w, contents hdlc w) :: held hdlc (ws1 ++ ws2) pend.
Proof. unfold held. rewrite !map_app. cbn [map app]. by rewrite <- Permutation_middle. Qed.

Lemma held_pend hdlc ws pend1 id data pend2 :
  held hdlc ws (pend1 ++ (id, data) :: pend2) ≡ₚ (id, wire hdlc data) :: held hdlc ws (pend1 ++ pend2).
Proof. unfold held. rewrite !map_app. cbn. rewrite app_assoc, <- Permutation_middle. by rewrite app_assoc. Qed.

Lemma held_ids hdlc ws pend : map fst (held hdlc ws pend) = map w_id ws ++ map fst pend.
Proof. unfold held. rewrite map_app, !map_map. done. Qed.

Lemma held_length hdlc ws pend : length (held hdlc ws pend) = (length ws + length pend)%nat.
Proof. unfold held. by rewrite length_app, !length_map. Qed.

Lemma inv_writer hdlc s ws1 w ws2 pend peak :
  port_inv hdlc s (ws1 ++ w :: ws2) pend peak -> m_outbufPool s !! w_id w = Some (true, contents hdlc w).
Proof. intros [_ H]. rewrite held_writer in H. apply H. by left. Qed.

Lemma inv_pend hdlc s ws pend peak id data :
  port_inv hdlc s ws pend peak -> (id, data) ∈ pend -> m_outbufPool s !! id = Some (true, wire hdlc data).
Proof. intros [_ H] (pend1 & pend2 & ->)%list_elem_of_split. rewrite held_pend in H. apply H. by left. Qed.

Lemma begin_run s data :
  write_begin data s =
    (s <| m_outbufPool := fst (alloc (m_outbufPool s)) |>, [], mkWriter (snd (alloc (m_outbufPool s))) data WGet).
Proof. unfold write_begin. runM. by destruct (alloc (m_outbufPool s)). Qed.

Lemma inv_begin hdlc s ws pend peak data :
  port_inv hdlc s ws pend peak ->
  port_inv hdlc (st_of (write_begin data) s) (res_of (write_begin data) s :: ws) pend (peak `max` S (length ws + length pend)).
Proof.
  intros [He H]. unfold st_of, res_of. rewrite begin_run. destruct (alloc (m_outbufPool s)) as [pool id] eqn:Ha.
  destruct (pool_add _ _ _ _ _ H Ha) as (_ & H' & _). rewrite held_length in H'. by constructor.
Qed.

Lemma port_step_inv hdlc s moved ws1 w ws2 pend peak st :
  port_inv hdlc s (ws1 ++ w :: ws2) pend peak -> res_of (writer_run moved w) s = Some st ->
  port_inv hdlc (st_of (writer_run moved w) s) (ws1 ++ mkWriter (w_id w) (w_data w) st :: ws2) pend peak.
Proof.
  intros Hi. pose proof (inv_writer _ _ _ _ _ _ _ Hi) as Hl. destruct Hi as [He H].
  unfold st_of, res_of. rewrite (writer_step hdlc) by done. destruct (stale moved w); [done|]. cbn [fst snd].
  rewrite held_writer in H. destruct w as [i data [|ref|ref|ref]]; cbn in *; intros [= <-];
    (constructor; [done|]; rewrite held_writer; try done). by eapply pool_fill.
Qed.

Lemma inv_issue hdlc s moved ws1 w ws2 pend peak :
  port_inv hdlc s (ws1 ++ w :: ws2) pend peak -> w_stage w = WIssue moved ->
  port_inv hdlc (st_of (writer_run moved w) s) (ws1 ++ ws2) ((w_id w, w_data w) :: pend) peak.
Proof.
  intros Hi Hs. pose proof (inv_writer _ _ _ _ _ _ _ Hi) as Hl. destruct Hi as [He H].
  unfold st_of. rewrite (writer_step hdlc) by done. unfold stale. rewrite Hs, Nat.eqb_refl. constructor; [done|].
  rewrite held_writer in H. unfold contents in H. rewrite Hs in H.
  change (_ :: pend) with ([] ++ (w_id w, w_data w) :: pend). by rewrite held_pend.
Qed.

Lemma inv_complete hdlc s ws pend1 id data pend2 peak error :
  port_inv hdlc s ws (pend1 ++ (id, data) :: pend2) peak ->
  port_inv hdlc (st_of (port_exec (PComplete id error)) s) ws (pend1 ++ pend2) peak.
Proof.
  intros Hi. assert (m_outbufPool s !! id = Some (true, wire hdlc data)) as Hl.
  { eapply inv_pend; [exact Hi|]. apply elem_of_app. right. by left. }
  destruct Hi as [He H]. cbn [port_exec]. unfold st_of. rewrite (complete_run _ _ _ _ Hl). constructor; [done|].
  rewrite held_pend in H. by eapply pool_remove.
Qed.

Lemma port_reach_inv hdlc s moved ws pend peak : port_reach hdlc s moved ws pend peak -> port_inv hdlc s ws pend peak.
Proof.
  induction 1 as [sig|s moved ws pend peak data moves _ IH|s moved ws1 w ws2 pend peak st _ IH Hs|s moved ws1 w ws2 pend peak _ IH Hs
    |s moved ws pend1 id data pend2 peak error _ IH|s moved ws pend peak op _ IH Hw Hc].
  - constructor; [by destruct hdlc|]. constructor; cbn; [by intros ?? ?%elem_of_nil|done|done|constructor|lia].
  - by apply inv_begin.
  - by apply port_step_inv.
  - by apply inv_issue.
  - by eapply inv_complete.
  - destruct (other_port_keeps hdlc (m_outbufPool s) op Hw Hc s) as [[He Hp] _].
    { split; [apply IH|done]. }
    destruct IH. constructor; rewrite ?Hp; done.
Qed.

(** ** Properties *)

(** C21: output buffers are not shared or overwritten while a write uses them, with any number of threads
    that write and steps of their writes in any order.  In every state of the port that is reached without the use of a
    stale reference: the buffer of each pending write holds
    the bytes it was given (the HDLC frame of its data, or the data itself); all writes under way or pending have
    distinct buffers, and there are never more buffers than the most writes that were under way or pending
    at once; the next step of a write under way never fails an assertion, and the last one starts
    writing exactly the frame of its data, unless its reference is stale: then, and only then, it is undefined behaviour;
    references become stale only by a write that begins while every buffer is in use (the vector
    then grows, and may move); and a completion, with or without error, never fails an assertion.
    A write that nothing interrupts uses no stale reference. *)
Theorem serial_write_intact hdlc s moved ws pend peak : port_reach hdlc s moved ws pend peak ->
  (forall id data, (id, data) ∈ pend -> get (m_outbufPool s) id = Some (wire hdlc data)) /\
  NoDup (map w_id ws ++ map fst pend) /\ (getNumOutBuffers s <= peak)%nat /\
  (forall w, w ∈ ws ->
     out_of (writer_run moved w) s = (if stale moved w then [SpDangling] else step_event hdlc w) /\
     res_of (writer_run moved w) s = (if stale moved w then None else next_stage moved (w_stage w))) /\
  (forall data, let s' := st_of (write_begin data) s in
     getNumOutBuffers s' <> getNumOutBuffers s \/ appends (m_outbufPool s) = true ->
     length ws + length pend = getNumOutBuffers s)%nat /\
  (forall id data error, (id, data) ∈ pend -> out_of (handleWriteComplete id error) s = []) /\
  (forall data, exists id, id ∉ map w_id ws ++ map fst pend /\
     out_of (handleData data) s = [SpAsyncWrite id (wire hdlc data)] /\ res_of (handleData data) s = length data).
Proof.
  intros Hr%port_reach_inv. pose proof Hr as [He Hp]. split_and!.
  - intros id data Hin. unfold get. by rewrite (inv_pend _ _ _ _ _ _ _ Hr Hin).
  - rewrite <- (held_ids hdlc). by apply Hp.
  - by apply Hp.
  - intros w (ws1 & ws2 & ->)%list_elem_of_split. unfold out_of, res_of.
    rewrite (writer_step hdlc) by (done || by eapply inv_writer). by destruct (stale moved w).
  - intros data s' Hgrow. assert (appends (m_outbufPool s) = true) as Hall.
    { destruct (appends _) eqn:E; [done|]. destruct Hgrow as [Hg|]; [|done]. destruct Hg. unfold s', st_of, getNumOutBuffers.
      rewrite begin_run. destruct (alloc _) as [pool id] eqn:Ha. by apply (pool_add _ _ _ _ _ Hp Ha). }
    by rewrite <- (held_length hdlc), (all_used _ _ _ Hp Hall).
  - intros id data error Hin. unfold out_of. by rewrite (complete_run _ _ _ _ (inv_pend _ _ _ _ _ _ _ Hr Hin)).
  - intros data. destruct (alloc (m_outbufPool s)) as [pool id] eqn:Ha.
    destruct (pool_add _ _ _ _ _ Hp Ha) as (Hfresh & [Hget _ _ _ _] & _). exists id. rewrite held_ids in Hfresh.
    unfold out_of, res_of. rewrite (write_run _ _ _ [] _ Ha) by (apply Hget; by left). rewrite output_wire, He. done.
Qed.

(** The reference of one thread is stale after the alloc of another: its frame is written into memory that was freed. *)
Fact write_through_stale :
  let s0 := newCSerialPort AP_RESET_SIGNAL_TX true in
  let w0 := res_of (write_begin [1]) s0 in let s1 := st_of (write_begin [1]) s0 in
  let s2 := st_of (write_begin [2]) s1 in
  res_of (writer_run 0 w0) s1 = Some (WReserve 0) /\
  moved_by true (m_outbufPool s1) 0 = 1%nat /\
  out_of (writer_run 1 (mkWriter (w_id w0) (w_data w0) (WReserve 0))) s2 = [SpDangling].
Proof. by vm_compute. Qed.

(** Two writes in a row are both under way: [async_write] is started while another one on
    the same port has not completed. *)
Fact port_writes_overlap :
  let s := newCSerialPort AP_RESET_SIGNAL_TX true in
  let m := _ ← handleData [1]; handleData [2] in
  out_of m s = [SpAsyncWrite 0 (encodeHDLC [1]); SpAsyncWrite 1 (encodeHDLC [2])].
Proof. by vm_compute. Qed.

(** A reset takes place exactly if its port can be opened; a port that was opened is closed. *)
Lemma reset_line open_ok write_ok close_ok clear_ok :
  resets (resetTxLine open_ok write_ok close_ok) = open_ok /\ resets (resetDtrLine open_ok clear_ok) = open_ok /\
  last (resetTxLine open_ok write_ok close_ok) RsOpen = RsDestroy /\
  (open_ok = true -> last (resetDtrLine open_ok clear_ok) RsOpen = RsClose).
Proof. by destruct open_ok, write_ok. Qed.

(** A write is pending, another thread has its reference to a second buffer; the first completes and a third write
    takes its buffer, with no move in between. *)
Definition ex_port : CSerialPort :=
  st_of (write_begin [3]) (st_of (port_exec (PComplete 0 false)) (st_of (write_begin [2]) (st_of (port_exec (PWrite [1]))
    (newCSerialPort AP_RESET_SIGNAL_TX true)))).

Lemma serial_write_intact_witness :
  let ws := [mkWriter 0 [3] WGet; mkWriter 1 [2] (WFill 1)] in
  port_reach true ex_port 1 ws [] 2 /\
  res_of (writer_run 1 (mkWriter 1 [2] (WFill 1))) ex_port = Some (WIssue 1).
Proof.
  assert (port_reach true ex_port 1 [mkWriter 0 [3] WGet; mkWriter 1 [2] (WFill 1)] [] 2) as H.
  { set (s0 := newCSerialPort AP_RESET_SIGNAL_TX true).
    pose proof (Port_new true AP_RESET_SIGNAL_TX) as H. fold s0 in H.
    apply (Port_begin _ _ _ _ _ _ [1] true) in H.
    do 3 (eapply (Port_step _ _ _ [] _ []) in H; [|by vm_compute]).
    apply (Port_issue _ _ _ [] _ []) in H; [|by vm_compute].
    apply (Port_begin _ _ _ _ _ _ [2] false) in H.
    do 2 (eapply (Port_step _ _ _ [] _ []) in H; [|by vm_compute]).
    apply (Port_complete _ _ _ _ [] _ _ [] _ false) in H.
    apply (Port_begin _ _ _ _ _ _ [3] true) in H.
    vm_compute in H. vm_compute. exact H. }
  split; [exact H|].
  destruct (serial_write_intact _ _ _ _ _ _ H) as (_ & _ & _ & H1 & _).
  destruct (H1 (mkWriter 1 [2] (WFill 1))) as [_ H2]; [right; left|]. exact H2.
Defined.
