(* ===== verification/FmtConv.v ===== *)
(** Number and address conversions of the formatter (common/FmtOutput.cpp).

    The conversions write a number from its last character backwards: a pointer
    into the caller's buffer is the list of the characters from it to the end of the
    buffer, and writing at the decremented pointer puts a character in front.
    Characters are their codes.  [wide] is the number of bits of [long], 32 or 64 on
    the platforms of the program. *)
From stdpp Require Import base numbers list option.
From Stdlib Require Import ZArith Lia Ascii.
From S2P Require Import Prelude Common.

Local Open Scope Z_scope.

Definition chr (a : ascii) : Z := Z.of_N (N_of_ascii a).

(** Character constants as numbers. *)
Ltac chr_norm :=
  repeat match goal with
  | |- context [chr ?a] => let v := eval vm_compute in (chr a) in change (chr a) with v
  | H : context [chr ?a] |- _ => let v := eval vm_compute in (chr a) in change (chr a) with v in H
  end.

(** ** Decimal *)

(** The do-while loop; [fuel] bounds the number of its rounds. *)
Fixpoint conv_10_loop (fuel : nat) (magnitude : Z) (p : list Z) : list Z :=
  match fuel with
  | O => p
  | S fuel =>
      let new_magnitude := magnitude / 10 in
      let p := (magnitude - new_magnitude * 10 + ch_0) :: p in
      if new_magnitude =? 0 then p else conv_10_loop fuel new_magnitude p
  end.

Definition CONV_FUEL : nat := 64.

(** The magnitude of a negative number of [w] bits: [-(num + 1)], which is
    representable, and one more in the unsigned type. *)
Definition magnitude_of (w num : Z) : Z := wrap w (wrap w (- (num + 1)) + 1).

Definition conv_10 (wide num : Z) (is_unsigned : bool) (buf_end : list Z) : bool * list Z :=
  if is_unsigned then (false, conv_10_loop CONV_FUEL (wrap wide num) buf_end)
  else
    let is_negative := num <? 0 in
    (is_negative,
     conv_10_loop CONV_FUEL (if is_negative then magnitude_of wide num else wrap wide num) buf_end).

Definition ULONG_MAX (wide : Z) : Z := 2 ^ wide - 1.
Definition LONG_MAX (wide : Z) : Z := 2 ^ (wide - 1) - 1.

(** [num] is the [int64_t] argument. *)
Definition conv_10_quad (wide num : Z) (is_unsigned : bool) (buf_end : list Z) : bool * list Z :=
  if ((u64 num <=? ULONG_MAX wide) && is_unsigned) || ((u64 num <=? LONG_MAX wide) && negb is_unsigned)
  then conv_10 wide (swrap wide num) is_unsigned buf_end
  else if is_unsigned then (false, conv_10_loop CONV_FUEL (u64 num) buf_end)
  else
    let is_negative := num <? 0 in
    (is_negative, conv_10_loop CONV_FUEL (if is_negative then magnitude_of 64 num else u64 num) buf_end).

(** [STR_TO_DEC]: the number at the front of the format; [None] when the [int] overflows. *)
Fixpoint str_to_dec_loop (num : Z) (str : list Z) : option (Z * list Z) :=
  match str with
  | c :: r =>
      if isdigit c then
        let num := num * 10 + (c - ch_0) in
        if num <? 2 ^ 31 then str_to_dec_loop num r else None
      else Some (num, str)
  | [] => Some (num, [])
  end.
Definition STR_TO_DEC (str : list Z) : option (Z * list Z) := str_to_dec_loop 0 str.

(** ** Powers of two *)
Definition low_digits (d : Z) : Z := if d <? 10 then d + ch_0 else d - 10 + ch_a.
Definition upper_digits (d : Z) : Z := if d <? 10 then d + ch_0 else d - 10 + ch_A.

Fixpoint conv_p2_loop (fuel : nat) (digits : Z -> Z) (nbits num : Z) (p : list Z) : list Z :=
  match fuel with
  | O => p
  | S fuel =>
      let p := digits (Z.land num (Z.shiftl 1 nbits - 1)) :: p in
      let num := Z.shiftr num nbits in
      if num =? 0 then p else conv_p2_loop fuel digits nbits num p
  end.

Definition p2_digits (format : Z) : Z -> Z := if format =? chr "X" then upper_digits else low_digits.

(** [num] is unsigned, of the width of [long]. *)
Definition conv_p2 (num nbits format : Z) (buf_end : list Z) : list Z :=
  conv_p2_loop CONV_FUEL (p2_digits format) nbits num buf_end.

Definition conv_p2_quad (wide num nbits format : Z) (buf_end : list Z) : list Z :=
  if num <=? ULONG_MAX wide then conv_p2 (wrap wide num) nbits format buf_end
  else conv_p2_loop CONV_FUEL (p2_digits format) nbits num buf_end.

(** ** Internet addresses *)
Definition conv_ip_addr (wide addr : Z) (buf_end : list Z) : list Z :=
  let p := snd (conv_10 wide (Z.land addr 0x000000FF) true buf_end) in
  let p := chr "." :: p in
  let p := snd (conv_10 wide (Z.shiftr (Z.land addr 0x0000FF00) 8) true p) in
  let p := chr "." :: p in
  let p := snd (conv_10 wide (Z.shiftr (Z.land addr 0x00FF0000) 16) true p) in
  let p := chr "." :: p in
  snd (conv_10 wide (Z.shiftr (Z.land addr 0xFF000000) 24) true p).

(** The four bytes before the pointer, last one first; the result is one past the
    last written character, the dot in front. *)
Definition conv_ip_addr_aux (wide : Z) (before : list Z) (buf_end : list Z) : list Z :=
  drop 1 (fold_left (fun p b => chr "." :: snd (conv_10 wide b true p)) (take 4 (rev before)) buf_end).

(** A run of zero words; -1: none. *)
Record longest_zeroes_chunk_t : Set := mkChunk { start : Z; end_ : Z }.

Definition longer (cur best : longest_zeroes_chunk_t) : bool :=
  (start best <? 0) || (end_ best - start best <? end_ cur - start cur).

(** The loop over the words from index [i]; [zs]: which words are zero. *)
Fixpoint scan_zeroes (zs : list bool) (i : Z) (cur best : longest_zeroes_chunk_t) :
    longest_zeroes_chunk_t * longest_zeroes_chunk_t :=
  match zs with
  | [] => (cur, best)
  | true :: zs =>
      let cur := if start cur <? 0 then mkChunk i i else mkChunk (start cur) (end_ cur + 1) in
      scan_zeroes zs (i + 1) cur best
  | false :: zs =>
      if 0 <=? start cur then
        scan_zeroes zs (i + 1) (mkChunk (-1) (end_ cur)) (if longer cur best then cur else best)
      else scan_zeroes zs (i + 1) cur best
  end.

Definition longest_zeroes (zs : list bool) : longest_zeroes_chunk_t :=
  let '(cur, best) := scan_zeroes zs 0 (mkChunk (-1) (-1)) (mkChunk (-1) (-1)) in
  let best := if (0 <=? start cur) && longer cur best then cur else best in
  if start best =? end_ best then mkChunk (-1) (-1) else best.

(** The words of an address, in host order. *)
Fixpoint ip6_words (addr : list Z) : list Z :=
  match addr with
  | a :: b :: r => Z.lor (u16 (Z.shiftl a 8)) b :: ip6_words r
  | _ => []
  end.

Definition word (words : list Z) (i : Z) : Z := default 0 (words !! Z.to_nat i).

(** The loop that writes the words from index [i] down. *)
Fixpoint conv_ip6_loop (fuel : nat) (words : list Z) (best : longest_zeroes_chunk_t) (i : Z) (s : list Z) : list Z :=
  match fuel with
  | O => s
  | S fuel =>
      if i <? 0 then s
      else
        let '(i, s) := if end_ best =? i then (start best - 1, chr ":" :: s) else (i, s) in
        if i <? 0 then chr ":" :: s
        else
          let s := if negb (i =? 7) then chr ":" :: s else s in
          conv_ip6_loop fuel words best (i - 1) (conv_p2 (word words i) 4 (chr "x") s)
  end.

Definition conv_ipv6_addr (wide : Z) (addr : list Z) (buf_end : list Z) (plain_v4mapped : bool) : list Z :=
  let words := ip6_words addr in
  let best := longest_zeroes (map (fun w => w =? 0) words) in
  if (start best =? 0) &&
     (((end_ best =? 4) && (word words 5 =? 0xffff)) ||
      ((4 <? end_ best) && (negb (word words 6 =? 0) || (1 <? word words 7))))
  then
    let s := conv_ip_addr_aux wide addr buf_end in
    if negb (word words 5 =? 0) then
      if plain_v4mapped then s
      else [chr ":"; chr ":"; chr "f"; chr "f"; chr "f"; chr "f"; chr ":"] ++ s
    else [chr ":"; chr ":"] ++ s
  else conv_ip6_loop 8 words best 7 buf_end.

(** ** Digits

    The reference: the digits of a number, first one first, and their value. *)
Definition val (base : Z) (ds : list Z) : Z := fold_left (fun a d => a * base + d) ds 0.

Definition digits_of (base n : Z) (ds : list Z) : Prop :=
  val base ds = n /\ Forall (fun d => 0 <= d < base) ds /\ (ds = [0] \/ exists d r, ds = d :: r /\ d <> 0).

Fixpoint digits_loop (fuel : nat) (base : Z) (digit : Z -> Z) (n : Z) (p : list Z) : list Z :=
  match fuel with
  | O => p
  | S fuel =>
      let p := digit (n mod base) :: p in
      if n / base =? 0 then p else digits_loop fuel base digit (n / base) p
  end.

Lemma conv_10_loop_digits fuel : forall n p,
  conv_10_loop fuel n p = digits_loop fuel 10 (fun d => d + ch_0) n p.
Proof.
  induction fuel as [|fuel IH]; intros n p; [done|]. cbn [conv_10_loop digits_loop]. rewrite IH.
  replace (n - n / 10 * 10) with (n mod 10) by (pose proof (Z.div_mod n 10); lia). done.
Qed.

Lemma conv_p2_loop_digits fuel digit nbits : 0 <= nbits -> forall n p,
  conv_p2_loop fuel digit nbits n p = digits_loop fuel (2 ^ nbits) digit n p.
Proof.
  intros Hb. induction fuel as [|fuel IH]; intros n p; [done|]. cbn [conv_p2_loop digits_loop].
  rewrite IH, Z.shiftl_1_l, Z.sub_1_r, <- Z.ones_equiv, Z.land_ones, Z.shiftr_div_pow2 by done. done.
Qed.

Lemma val_snoc base ds d : val base (ds ++ [d]) = val base ds * base + d.
Proof. unfold val. by rewrite fold_left_app. Qed.

Lemma digits_loop_spec base digit fuel : 2 <= base -> forall n p,
  0 <= n < base ^ Z.of_nat (S fuel) ->
  exists ds, digits_loop (S fuel) base digit n p = map digit ds ++ p /\ digits_of base n ds.
Proof.
  intros Hb. induction fuel as [|fuel IH]; intros n p Hn.
  - exists [n]. cbn [digits_loop]. assert (n < base) by (change (Z.of_nat 1) with 1 in Hn; lia).
    rewrite Z.div_small, Z.mod_small by lia. split; [done|]. split_and!; [done|apply Forall_singleton; lia|].
    destruct (Z.eq_dec n 0) as [->|]; [by left|right; by exists n, []].
  - cbn [digits_loop]. destruct (Z.eqb_spec (n / base) 0) as [H0|H0].
    + exists [n]. apply Z.div_small_iff in H0; [|lia]. rewrite Z.mod_small by lia. split; [done|].
      split_and!; [done|apply Forall_singleton; lia|].
      destruct (Z.eq_dec n 0) as [->|]; [by left|right; by exists n, []].
    + destruct (IH (n / base) (digit (n mod base) :: p)) as (ds & E & Hv & Hd & Hc).
      { rewrite (Nat2Z.inj_succ (S fuel)), Z.pow_succ_r in Hn by lia. split; [apply Z.div_pos; lia|].
        apply Z.div_lt_upper_bound; lia. }
      cbn [digits_loop] in E |- *. rewrite E. exists (ds ++ [n mod base]).
      rewrite map_app, <- app_assoc. split; [done|]. split_and!.
      * rewrite val_snoc, Hv. pose proof (Z.div_mod n base). lia.
      * apply Forall_app. split; [done|]. apply Forall_singleton, Z.mod_pos_bound; lia.
      * right. destruct Hc as [->|(d & r & -> & Hd0)]; [by cbn in Hv|]. by exists d, (r ++ [n mod base]).
Qed.

Lemma val_from base ds : forall a, fold_left (fun a d => a * base + d) ds a = a * base ^ Z.of_nat (length ds) + val base ds.
Proof.
  unfold val. induction ds as [|d ds IH]; intros a; [cbn; lia|]. cbn [fold_left length].
  rewrite IH, (IH (0 * base + d)), Nat2Z.inj_succ, Z.pow_succ_r by lia. lia.
Qed.

Lemma val_cons base d ds : val base (d :: ds) = d * base ^ Z.of_nat (length ds) + val base ds.
Proof. unfold val. cbn [fold_left]. rewrite val_from. unfold val. lia. Qed.

Lemma val_nonneg base ds : 0 <= base -> Forall (fun d => 0 <= d < base) ds -> 0 <= val base ds.
Proof.
  intros Hb. induction 1 as [|d ds Hd _ IH]; [done|]. rewrite val_cons.
  pose proof (Z.pow_nonneg base (Z.of_nat (length ds)) Hb). nia.
Qed.

(** The number of digits of a bounded number. *)
Lemma digits_length base n ds k :
  2 <= base -> digits_of base n ds -> n < base ^ Z.of_nat k -> (0 < k)%nat -> (length ds <= k)%nat.
Proof.
  intros Hb (Hv & Hd & Hc) Hn Hk. destruct Hc as [->|(d & r & -> & Hd0)]; [cbn; lia|].
  inversion_clear Hd as [|? ? Hdb Hr]. rewrite val_cons in Hv.
  pose proof (val_nonneg base r ltac:(lia) Hr). cbn [length].
  assert (base ^ Z.of_nat (length r) < base ^ Z.of_nat k) as Hlt.
  { pose proof (Z.pow_pos_nonneg base (Z.of_nat (length r)) ltac:(lia) ltac:(lia)). nia. }
  apply Z.pow_lt_mono_r_iff in Hlt; lia.
Qed.

(** Two digit lists of one number are equal. *)
Lemma digits_of_length_lower base n d r : 2 <= base -> digits_of base n (d :: r) -> d <> 0 -> base ^ Z.of_nat (length r) <= n.
Proof.
  intros Hb (Hv & Hd & _) Hd0. inversion_clear Hd as [|? ? Hdb Hr]. rewrite val_cons in Hv.
  pose proof (val_nonneg base r ltac:(lia) Hr).
  pose proof (Z.pow_pos_nonneg base (Z.of_nat (length r)) ltac:(lia) ltac:(lia)). nia.
Qed.

Definition long_width (wide : Z) : Prop := wide = 32 \/ wide = 64.

Lemma conv_fuel_enough base n : 2 <= base -> n < 2 ^ 64 -> n < base ^ Z.of_nat CONV_FUEL.
Proof. intros Hb Hn. pose proof (Z.pow_le_mono_l 2 base 64 ltac:(lia)). change (Z.of_nat CONV_FUEL) with 64. lia. Qed.

Definition dec_char (d : Z) : Z := d + ch_0.

Lemma conv_10_loop_spec n p : 0 <= n < 2 ^ 64 ->
  exists ds, conv_10_loop CONV_FUEL n p = map dec_char ds ++ p /\ digits_of 10 n ds /\ (length ds <= 20)%nat.
Proof.
  intros [Hn1 Hn2]. rewrite conv_10_loop_digits.
  destruct (digits_loop_spec 10 dec_char 63 ltac:(lia) n p) as (ds & E & Hd).
  { split; [done|]. by apply conv_fuel_enough. }
  exists ds. split; [done|]. split; [done|]. apply (digits_length 10 n); [lia|done| |lia].
  change (10 ^ Z.of_nat 20) with 100000000000000000000. lia.
Qed.

Lemma magnitude_of_abs w num : 0 < w -> - 2 ^ (w - 1) <= num < 0 -> magnitude_of w num = - num.
Proof.
  intros Hw Hn. unfold magnitude_of. assert (2 ^ w = 2 * 2 ^ (w - 1)) as Hp.
  { rewrite <- Z.pow_succ_r by lia. f_equal. lia. }
  rewrite (wrap_small w (- (num + 1))), wrap_small by lia. lia.
Qed.

Lemma pow_width wide : long_width wide -> 0 < wide /\ 2 ^ wide <= 2 ^ 64 /\ 2 ^ wide = 2 * 2 ^ (wide - 1).
Proof. intros [->| ->]; cbn; lia. Qed.

(** An [int] fits a [long]. *)
Lemma int_width wide : long_width wide -> 0 < wide /\ 2 ^ 31 <= 2 ^ (wide - 1).
Proof. intros [->| ->]; cbn; lia. Qed.

(** What [conv_10] writes: the value without its sign. *)
Definition shown (wide num : Z) (is_unsigned : bool) : Z := if is_unsigned then wrap wide num else Z.abs num.

Lemma conv_10_spec wide num is_unsigned p :
  long_width wide -> - 2 ^ (wide - 1) <= num < 2 ^ (wide - 1) ->
  exists ds, conv_10 wide num is_unsigned p = (negb is_unsigned && (num <? 0), map dec_char ds ++ p) /\
    digits_of 10 (shown wide num is_unsigned) ds /\ (length ds <= 20)%nat.
Proof.
  intros Hw Hn. destruct (pow_width _ Hw) as (H1 & H2 & H3). unfold conv_10.
  assert (forall m, 0 <= m < 2 ^ 64 -> m = shown wide num is_unsigned ->
    exists ds, conv_10_loop CONV_FUEL m p = map dec_char ds ++ p /\
      digits_of 10 (shown wide num is_unsigned) ds /\ (length ds <= 20)%nat) as Hloop.
  { intros m Hm <-. by apply conv_10_loop_spec. }
  unfold shown in *. destruct is_unsigned; cbn [negb andb].
  - destruct (Hloop (wrap wide num)) as (ds & -> & Hd); [|done|by exists ds].
    pose proof (wrap_range wide num). lia.
  - destruct (Hloop (if num <? 0 then magnitude_of wide num else wrap wide num)) as (ds & -> & Hd); [| |by exists ds];
      destruct (Z.ltb_spec num 0); rewrite ?magnitude_of_abs, ?wrap_small by lia; lia.
Qed.


Lemma swrap_range w z : 0 < w -> - 2 ^ (w - 1) <= swrap w z < 2 ^ (w - 1).
Proof.
  intros Hw. unfold swrap. assert (2 ^ w = 2 * 2 ^ (w - 1)) by (rewrite <- Z.pow_succ_r by lia; f_equal; lia).
  pose proof (Z.mod_pos_bound (z + 2 ^ (w - 1)) (2 ^ w)). lia.
Qed.

Lemma wrap_swrap w z : 0 < w -> wrap w (swrap w z) = wrap w z.
Proof.
  intros Hw. unfold wrap, swrap. assert (2 ^ w <> 0) by lia.
  rewrite Zminus_mod_idemp_l. f_equal. lia.
Qed.

(** The shortcut through [long] changes nothing. *)
Lemma conv_10_quad_eq wide num is_unsigned p :
  long_width wide -> - 2 ^ 63 <= num < 2 ^ 63 ->
  conv_10_quad wide num is_unsigned p = conv_10 64 num is_unsigned p.
Proof.
  intros Hw Hn. destruct (pow_width _ Hw) as (H1 & H2 & H3). unfold conv_10_quad, ULONG_MAX, LONG_MAX.
  destruct is_unsigned; cbn [negb]; rewrite ?andb_true_r, ?andb_false_r, ?orb_false_r; cbn [orb].
  - destruct (Z.leb_spec (u64 num) (2 ^ wide - 1)) as [Hle|]; [|done]. unfold conv_10. do 2 f_equal.
    rewrite wrap_swrap by done. destruct Hw as [->| ->]; [|done].
    change (wrap 64 num) with (u64 num).
    rewrite <- (Z.mod_small (u64 num) (2 ^ 32)) by (pose proof (wrap_range 64 num); unfold u64 in *; lia).
    unfold u64, wrap. symmetry. apply Z.mod_mod_divide. by exists (2 ^ 32).
  - destruct (Z.leb_spec (u64 num) (2 ^ (wide - 1) - 1)) as [Hle|]; [|done].
    assert (0 <= num < 2 ^ (wide - 1)) as Hp.
    { destruct (Z.ltb_spec num 0) as [Hneg|Hpos].
      - assert (u64 num = num + 2 ^ 64) as E by (unfold u64, wrap; rewrite <- (Z.mod_add _ 1), Z.mod_small; lia).
        destruct Hw as [->| ->]; cbn in *; lia.
      - unfold u64 in Hle. rewrite wrap_small in Hle by (cbn in *; lia). lia. }
    rewrite swrap_small by lia. unfold conv_10. destruct (Z.ltb_spec num 0); [lia|].
    by rewrite !wrap_small by (cbn in *; lia).
Qed.

Lemma dec_char_digit d : 0 <= d < 10 -> isdigit (dec_char d) = true /\ dec_char d - ch_0 = d.
Proof. intros Hd. unfold isdigit, dec_char, ch_0, ch_9. split; lia. Qed.

Lemma str_to_dec_loop_digits rest ds : forall n,
  Forall (fun d => 0 <= d < 10) ds -> 0 <= n ->
  n * 10 ^ Z.of_nat (length ds) + val 10 ds < 2 ^ 31 ->
  str_to_dec_loop n (map dec_char ds ++ rest) = str_to_dec_loop (n * 10 ^ Z.of_nat (length ds) + val 10 ds) rest.
Proof.
  induction ds as [|d ds IH]; intros n Hd Hn Hlt; [cbn; f_equal; lia|].
  inversion_clear Hd as [|? ? Hd0 Hds]. rewrite val_cons in *. cbn [length] in Hlt |- *.
  rewrite Nat2Z.inj_succ, Z.pow_succ_r in Hlt |- * by lia. cbn [map app str_to_dec_loop].
  destruct (dec_char_digit d Hd0) as [-> ->].
  pose proof (val_nonneg 10 ds ltac:(lia) Hds).
  pose proof (Z.pow_pos_nonneg 10 (Z.of_nat (length ds)) ltac:(lia) ltac:(lia)).
  destruct (Z.ltb_spec (n * 10 + d) (2 ^ 31)); [|nia].
  rewrite IH by (done || nia). f_equal. lia.
Qed.

Definition no_digit (rest : list Z) : Prop := match rest with [] => True | c :: _ => isdigit c = false end.

Lemma str_to_dec_digits n ds rest :
  digits_of 10 n ds -> n < 2 ^ 31 -> no_digit rest -> STR_TO_DEC (map dec_char ds ++ rest) = Some (n, rest).
Proof.
  intros (Hv & Hd & _) Hn Hr. unfold STR_TO_DEC. rewrite str_to_dec_loop_digits by (done || lia).
  rewrite Hv. cbn. destruct rest as [|c rest]; [done|]. cbn in Hr |- *. by rewrite Hr.
Qed.

Lemma conv_p2_loop_spec digit nbits n p : 1 <= nbits -> 0 <= n < 2 ^ 64 ->
  exists ds, conv_p2_loop CONV_FUEL digit nbits n p = map digit ds ++ p /\ digits_of (2 ^ nbits) n ds.
Proof.
  intros Hb Hn. rewrite conv_p2_loop_digits by lia. assert (2 <= 2 ^ nbits) as H2.
  { change 2 with (2 ^ 1) at 1. apply Z.pow_le_mono_r; lia. }
  apply (digits_loop_spec _ digit 63 H2). split; [lia|]. apply conv_fuel_enough; lia.
Qed.

Lemma conv_p2_spec n nbits format p : 1 <= nbits -> 0 <= n < 2 ^ 64 ->
  exists ds, conv_p2 n nbits format p = map (p2_digits format) ds ++ p /\ digits_of (2 ^ nbits) n ds.
Proof. apply conv_p2_loop_spec. Qed.

Lemma conv_p2_quad_eq wide n nbits format p : long_width wide -> 0 <= n < 2 ^ 64 ->
  conv_p2_quad wide n nbits format p = conv_p2 n nbits format p.
Proof.
  intros Hw Hn. unfold conv_p2_quad, ULONG_MAX. destruct (Z.leb_spec n (2 ^ wide - 1)); [|done].
  rewrite wrap_small; [done|]. lia.
Qed.

(** Both spellings of a digit are read back by [hexCh2bin]. *)
Lemma p2_digits_hex format d : 0 <= d < 16 -> hexCh2bin (p2_digits format d) = d.
Proof.
  intros Hd. assert (d = 0 \/ d = 1 \/ d = 2 \/ d = 3 \/ d = 4 \/ d = 5 \/ d = 6 \/ d = 7 \/ d = 8 \/ d = 9 \/
    d = 10 \/ d = 11 \/ d = 12 \/ d = 13 \/ d = 14 \/ d = 15) as Hcases by lia.
  unfold p2_digits. destruct (format =? chr "X"); repeat (destruct Hcases as [->|Hcases]; [done|]); by subst.
Qed.

(** ** Addresses *)

(** Writing does not depend on what is behind the pointer. *)
Lemma digits_loop_app fuel base digit : forall n p q, digits_loop fuel base digit n (p ++ q) = digits_loop fuel base digit n p ++ q.
Proof.
  induction fuel as [|fuel IH]; intros n p q; [done|]. cbn [digits_loop]. case_match; [done|].
  by rewrite app_comm_cons, IH.
Qed.

Lemma conv_p2_app n format p : conv_p2 n 4 format p = conv_p2 n 4 format [] ++ p.
Proof. unfold conv_p2. rewrite !conv_p2_loop_digits by done. apply (digits_loop_app _ _ _ _ [] p). Qed.

Lemma conv_10_app wide n p : snd (conv_10 wide n true p) = snd (conv_10 wide n true []) ++ p.
Proof. unfold conv_10. cbn [snd]. rewrite !conv_10_loop_digits. apply (digits_loop_app _ _ _ _ [] p). Qed.

(** The decimal text of an unsigned number. *)
Definition dec (wide n : Z) : list Z := snd (conv_10 wide n true []).
Definition hex (n : Z) : list Z := conv_p2 n 4 (chr "x") [].

Fixpoint join (sep : list Z) (l : list (list Z)) : list Z :=
  match l with
  | [] => []
  | [x] => x
  | x :: l => x ++ sep ++ join sep l
  end.

Lemma conv_ip_addr_text wide addr :
  conv_ip_addr wide addr [] = join [chr "."] (map (dec wide)
    [Z.shiftr (Z.land addr 0xFF000000) 24; Z.shiftr (Z.land addr 0x00FF0000) 16;
     Z.shiftr (Z.land addr 0x0000FF00) 8; Z.land addr 0xFF]).
Proof.
  unfold conv_ip_addr. rewrite !(conv_10_app _ _ (_ :: _)). unfold dec. cbn [map join app]. done.
Qed.

Lemma conv_ip_addr_aux_text wide before a b c d :
  conv_ip_addr_aux wide (before ++ [a; b; c; d]) [] = join [chr "."] (map (dec wide) [a; b; c; d]).
Proof.
  unfold conv_ip_addr_aux. rewrite rev_app_distr. cbn [rev app take fold_left].
  rewrite !(conv_10_app _ _ (_ :: _)). unfold dec. cbn [map join app drop]. done.
Qed.

(** The text of an IPv6 address in the canonical form of RFC 5952: a longest run of
    at least two zero words, the first one of equally long ones, is written [::]. *)
Definition ip6_text (words : list Z) (best : longest_zeroes_chunk_t) : list Z :=
  if start best <? 0 then join [chr ":"] (map hex words)
  else
    join [chr ":"] (map hex (take (Z.to_nat (start best)) words)) ++ [chr ":"; chr ":"] ++
    join [chr ":"] (map hex (drop (Z.to_nat (end_ best + 1)) words)).

Definition run_of_zeroes (zs : list bool) (s e : Z) : Prop :=
  0 <= s <= e /\ e < Z.of_nat (length zs) /\ forall i, s <= i <= e -> zs !! Z.to_nat i = Some true.

Definition first_longest_run (zs : list bool) (best : longest_zeroes_chunk_t) : Prop :=
  (best = mkChunk (-1) (-1) /\ forall s e, run_of_zeroes zs s e -> s = e) \/
  (run_of_zeroes zs (start best) (end_ best) /\ start best < end_ best /\
   forall s e, run_of_zeroes zs s e -> e - s <= end_ best - start best /\
     (e - s = end_ best - start best -> start best <= s)).

(** The runs of a list are found by looking at all of them. *)
Definition run_b (zs : list bool) (s e : nat) : bool :=
  (s <=? e)%nat && (e <? length zs)%nat && forallb (fun i => default false (zs !! i)) (seq s (S e - s)).

Lemma run_b_spec zs s e : run_of_zeroes zs s e -> run_b zs (Z.to_nat s) (Z.to_nat e) = true.
Proof.
  intros (H1 & H2 & H3). unfold run_b. rewrite !andb_true_iff, Nat.leb_le, Nat.ltb_lt, forallb_forall.
  split_and!; [lia|lia|]. intros i Hi%in_seq. specialize (H3 (Z.of_nat i) ltac:(lia)). rewrite Nat2Z.id in H3. by rewrite H3.
Qed.

Lemma run_b_sound zs s e : run_b zs s e = true -> run_of_zeroes zs (Z.of_nat s) (Z.of_nat e).
Proof.
  unfold run_b. rewrite !andb_true_iff, Nat.leb_le, Nat.ltb_lt, forallb_forall. intros ((H1 & H2) & H3).
  split_and!; [lia|lia|lia|]. intros i Hi. specialize (H3 (Z.to_nat i)). rewrite in_seq in H3.
  destruct (zs !! Z.to_nat i) as [[]|]; [done| |]; by discriminate H3; lia.
Qed.

Definition all_pairs (n : nat) : list (nat * nat) := list_prod (seq 0 n) (seq 0 n).

Definition first_longest_b (zs : list bool) (best : longest_zeroes_chunk_t) : bool :=
  if start best <? 0 then
    (start best =? -1) && (end_ best =? -1) &&
    forallb (fun '(s, e) => negb (run_b zs s e) || (s =? e)%nat) (all_pairs (length zs))
  else
    run_b zs (Z.to_nat (start best)) (Z.to_nat (end_ best)) && (start best <? end_ best) &&
    forallb (fun '(s, e) => negb (run_b zs s e) ||
      ((Z.of_nat e - Z.of_nat s <=? end_ best - start best) &&
       (negb (Z.of_nat e - Z.of_nat s =? end_ best - start best) || (start best <=? Z.of_nat s))))
      (all_pairs (length zs)).

Lemma first_longest_b_sound zs best : first_longest_b zs best = true -> first_longest_run zs best.
Proof.
  unfold first_longest_b. destruct best as [bs be]. cbn [start end_]. destruct (Z.ltb_spec bs 0);
    rewrite !andb_true_iff; intros ((H1 & H2) & H3); rewrite forallb_forall in H3;
    assert (H4 : forall s e, run_of_zeroes zs s e -> In (Z.to_nat s, Z.to_nat e) (all_pairs (length zs)))
      by (intros s e (? & ? & _); apply in_prod; apply in_seq; lia).
  - apply Z.eqb_eq in H1 as ->. apply Z.eqb_eq in H2 as ->. left. split; [done|]. intros s e Hr.
    specialize (H3 _ (H4 _ _ Hr)). cbn in H3. rewrite (run_b_spec _ _ _ Hr) in H3. cbn in H3.
    apply Nat.eqb_eq in H3. destruct Hr. lia.
  - right. cbn [start end_]. apply Z.ltb_lt in H2. apply run_b_sound in H1. rewrite !Z2Nat.id in H1 by lia.
    split; [done|]. split; [done|]. intros s e Hr.
    specialize (H3 _ (H4 _ _ Hr)). cbn beta iota in H3. rewrite (run_b_spec _ _ _ Hr) in H3. cbn [negb orb] in H3.
    destruct Hr as ((? & ?) & ? & _). rewrite !Z2Nat.id in H3 by lia.
    apply andb_true_iff in H3 as [Ha Hb]. split; [lia|]. intros E. rewrite E, Z.eqb_refl in Hb. cbn in Hb. lia.
Qed.

Fixpoint all_bools (n : nat) : list (list bool) :=
  match n with O => [[]] | S n => flat_map (fun l => [true :: l; false :: l]) (all_bools n) end.

Lemma all_bools_complete zs : In zs (all_bools (length zs)).
Proof.
  induction zs as [|b zs IH]; [by left|]. cbn [all_bools length]. apply in_flat_map. exists zs. split; [done|].
  destruct b; [by left|by right; left].
Qed.

Lemma longest_zeroes_spec zs : length zs = 8%nat ->
  first_longest_run zs (longest_zeroes zs) /\ In (longest_zeroes zs)
    (mkChunk (-1) (-1) :: map (fun '(s, e) => mkChunk (Z.of_nat s) (Z.of_nat e))
      (List.filter (fun '(s, e) => (s <? e)%nat) (all_pairs 8))).
Proof.
  intros Hl.
  assert (H : forallb (fun zs => first_longest_b zs (longest_zeroes zs)) (all_bools 8) = true) by by vm_compute.
  rewrite forallb_forall in H. pose proof (all_bools_complete zs) as Hin. rewrite Hl in Hin.
  specialize (H _ Hin). apply first_longest_b_sound in H. split; [done|].
  destruct H as [(-> & _)|(((? & ?) & ? & _) & ? & _)]; [by left|right].
  apply in_map_iff. exists (Z.to_nat (start (longest_zeroes zs)), Z.to_nat (end_ (longest_zeroes zs))).
  rewrite !Z2Nat.id by lia. split; [by destruct (longest_zeroes zs)|].
  apply filter_In. split; [|apply Nat.ltb_lt; lia]. apply in_prod; apply in_seq; lia.
Qed.

(** The loop writes the canonical text. *)
Lemma conv_ip6_loop_text w0 w1 w2 w3 w4 w5 w6 w7 best :
  In best (mkChunk (-1) (-1) :: map (fun '(s, e) => mkChunk (Z.of_nat s) (Z.of_nat e))
    (List.filter (fun '(s, e) => (s <? e)%nat) (all_pairs 8))) ->
  conv_ip6_loop 8 [w0; w1; w2; w3; w4; w5; w6; w7] best 7 [] = ip6_text [w0; w1; w2; w3; w4; w5; w6; w7] best.
Proof.
  intros Hin. vm_compute in Hin. repeat destruct Hin as [<-|Hin]; [..|done];
    cbv -[conv_p2 app chr]; rewrite ?(conv_p2_app _ _ (_ :: _)); cbn [app]; repeat (rewrite <- app_assoc; cbn [app]); done.
Qed.

(** The addresses that end in an IPv4 address. *)
Definition v4_mapped (words : list Z) : bool :=
  forallb (fun w => w =? 0) (take 5 words) && (word words 5 =? 0xffff).
Definition v4_compatible (words : list Z) : bool :=
  forallb (fun w => w =? 0) (take 6 words) && (negb (word words 6 =? 0) || (1 <? word words 7)).

Lemma v4_conditions zs : length zs = 8%nat ->
  let best := longest_zeroes zs in
  (start best =? 0) && (end_ best =? 4) = forallb (fun z => z) (take 5 zs) && negb (default false (zs !! 5%nat)) /\
  (start best =? 0) && (4 <? end_ best) = forallb (fun z => z) (take 6 zs).
Proof.
  intros Hl. pose proof (all_bools_complete zs) as Hin. rewrite Hl in Hin.
  assert (H : forallb (fun zs => let best := longest_zeroes zs in
    Bool.eqb ((start best =? 0) && (end_ best =? 4)) (forallb (fun z => z) (take 5 zs) && negb (default false (zs !! 5%nat))) &&
    Bool.eqb ((start best =? 0) && (4 <? end_ best)) (forallb (fun z => z) (take 6 zs))) (all_bools 8) = true) by by vm_compute.
  rewrite forallb_forall in H. specialize (H _ Hin). cbv zeta in H |- *.
  apply andb_true_iff in H as [H1%eqb_prop H2%eqb_prop]. done.
Qed.

Definition ip6_reference (wide : Z) (addr : list Z) (plain : bool) : list Z :=
  let words := ip6_words addr in
  let v4 := join [chr "."] (map (dec wide) (drop 12 addr)) in
  let colons := [chr ":"; chr ":"] in
  if v4_mapped words then (if plain then [] else colons ++ [chr "f"; chr "f"; chr "f"; chr "f"; chr ":"]) ++ v4
  else if v4_compatible words then colons ++ v4
  else ip6_text words (longest_zeroes (map (fun w => w =? 0) words)).

Lemma words_zero_take n words : forallb (fun z => z) (take n (map (fun w => w =? 0) words)) = forallb (fun w => w =? 0) (take n words).
Proof. revert n. induction words as [|w words IH]; intros [|n]; cbn; [done..|]. by rewrite IH. Qed.

Lemma conv_ipv6_addr_text wide addr plain : length addr = 16%nat ->
  conv_ipv6_addr wide addr [] plain = ip6_reference wide addr plain.
Proof.
  intros Hl. do 16 (destruct addr as [|? addr]; [done|]). destruct addr; [|done].
  set (addr := [z; z0; z1; z2; z3; z4; z5; z6; z7; z8; z9; z10; z11; z12; z13; z14]) in *.
  unfold conv_ipv6_addr, ip6_reference, v4_mapped, v4_compatible.
  replace (conv_ip_addr_aux wide addr []) with (join [chr "."] (map (dec wide) (drop 12 addr)))
    by (symmetry; apply (conv_ip_addr_aux_text wide (take 12 addr))).
  assert (exists w0 w1 w2 w3 w4 w5 w6 w7, ip6_words addr = [w0; w1; w2; w3; w4; w5; w6; w7]) as
    (w0 & w1 & w2 & w3 & w4 & w5 & w6 & w7 & Hw) by (do 8 eexists; reflexivity).
  set (v4 := join [chr "."] (map (dec wide) (drop 12 addr))). clearbody v4. rewrite Hw. clear Hw addr Hl.
  set (words := [w0; w1; w2; w3; w4; w5; w6; w7]).
  destruct (longest_zeroes_spec (map (fun w => w =? 0) words) eq_refl) as [_ Hbest].
  destruct (v4_conditions (map (fun w => w =? 0) words) eq_refl) as [H4 H5]. cbv zeta in H4, H5.
  rewrite words_zero_take in H4, H5. set (best := longest_zeroes (map (fun w => w =? 0) words)) in *.
  rewrite andb_orb_distrib_r, !andb_assoc, H4, H5.
  unfold words at 8. rewrite (conv_ip6_loop_text _ _ _ _ _ _ _ _ _ Hbest).
  change (default false (map (fun w => w =? 0) words !! 5%nat)) with (w5 =? 0).
  change (word words 5) with w5. change (take 6 words) with (take 5 words ++ [w5]).
  rewrite forallb_app. cbn [forallb]. rewrite andb_true_r.
  destruct (forallb (fun w => w =? 0) (take 5 words)); cbn [andb]; [|done].
  destruct (Z.eqb_spec w5 0) as [->|H0]; cbn [andb negb orb]; [done|].
  destruct (Z.eqb_spec w5 0xffff); cbn [orb]; [|done]. by destruct plain.
Qed.

(** ** Properties *)

(** C35: decimal output is exact for every integer of either width of [long],
    the most negative one included: the sign is split off, the characters are the
    digits of the magnitude without leading zeros, at most 20 of them, so they fit
    any number buffer of the formatter; and the version for 64 bits gives the same
    as the version for [long] would, where it applies. *)
Theorem conv_10_exact wide num is_unsigned p :
  long_width wide ->
  (- 2 ^ (wide - 1) <= num < 2 ^ (wide - 1) ->
   exists ds, conv_10 wide num is_unsigned p = (negb is_unsigned && (num <? 0), map dec_char ds ++ p) /\
     digits_of 10 (if is_unsigned then num mod 2 ^ wide else Z.abs num) ds /\ (length ds <= 20)%nat) /\
  (- 2 ^ 63 <= num < 2 ^ 63 ->
   exists ds, conv_10_quad wide num is_unsigned p = (negb is_unsigned && (num <? 0), map dec_char ds ++ p) /\
     digits_of 10 (if is_unsigned then num mod 2 ^ 64 else Z.abs num) ds /\ (length ds <= 20)%nat).
Proof.
  intros Hw. split; intros Hn; [by apply conv_10_spec|].
  rewrite conv_10_quad_eq by done. apply conv_10_spec; [by right|done].
Qed.

Lemma conv_10_exact_witness :
  conv_10_quad 32 (- 2 ^ 63) false [] = (true, map dec_char [9;2;2;3;3;7;2;0;3;6;8;5;4;7;7;5;8;0;8]) /\
  exists ds, conv_10_quad 32 (- 2 ^ 63) false [] = (true, map dec_char ds ++ []) /\
    digits_of 10 9223372036854775808 ds /\ (length ds <= 20)%nat.
Proof.
  split; [vm_compute; reflexivity|].
  destruct (conv_10_exact 32 (- 2 ^ 63) false []) as [_ H]; [left; reflexivity|].
  apply H. lia.
Defined.

(** A width or precision written by [conv_10] is read back by [STR_TO_DEC],
    up to the first character that is not a digit. *)
Theorem str_to_dec_conv_10 wide n rest :
  long_width wide -> 0 <= n < 2 ^ 31 -> no_digit rest ->
  STR_TO_DEC (snd (conv_10 wide n false []) ++ rest) = Some (n, rest).
Proof.
  intros Hw Hn Hr. destruct (conv_10_spec wide n false [] Hw) as (ds & -> & Hd & _); [by destruct Hw as [->| ->]; cbn; lia|].
  cbn [snd]. rewrite app_nil_r. unfold shown in Hd. rewrite Z.abs_eq in Hd by lia.
  apply str_to_dec_digits; [done|lia|done].
Qed.

Lemma str_to_dec_conv_10_witness :
  STR_TO_DEC (snd (conv_10 64 2147483647 false []) ++ [chr "d"]) = Some (2147483647, [chr "d"]).
Proof. apply str_to_dec_conv_10; [right; reflexivity|lia|reflexivity]. Defined.

Lemma dec_digits wide n : long_width wide -> 0 <= n < 2 ^ 31 ->
  exists ds, dec wide n = map dec_char ds /\ digits_of 10 n ds.
Proof.
  intros Hw Hn. destruct (conv_10_spec wide n true [] Hw) as (ds & E & Hd & _); [destruct Hw as [->| ->]; cbn; lia|].
  exists ds. unfold dec. rewrite E. cbn [snd]. rewrite app_nil_r. split; [done|].
  unfold shown in Hd. rewrite wrap_small in Hd; [done|]. destruct Hw as [->| ->]; cbn; lia.
Qed.

Lemma dec_read wide n : long_width wide -> 0 <= n < 2 ^ 31 -> STR_TO_DEC (dec wide n) = Some (n, []).
Proof.
  intros Hw Hn. destruct (dec_digits wide n Hw Hn) as (ds & -> & Hd). rewrite <- (app_nil_r (map _ _)). by apply str_to_dec_digits; [done|lia|].
Qed.

Lemma dec_inj wide n m : long_width wide -> 0 <= n < 2 ^ 31 -> 0 <= m < 2 ^ 31 -> dec wide n = dec wide m -> n = m.
Proof. intros Hw Hn Hm E. pose proof (dec_read wide n Hw Hn) as Hr. rewrite E, dec_read in Hr by done. by injection Hr. Qed.

(** C36: an IPv6 address is written in the canonical form of RFC 5952, an embedded
    IPv4 address in dotted form: the words in lower-case hexadecimal without leading
    zeros, the first of the longest runs of at least two zero words as [::]. *)
Theorem conv_ipv6_addr_canonical wide addr plain : length addr = 16%nat ->
  first_longest_run (map (fun w => w =? 0) (ip6_words addr)) (longest_zeroes (map (fun w => w =? 0) (ip6_words addr))) /\
  conv_ipv6_addr wide addr [] plain = ip6_reference wide addr plain.
Proof.
  intros Hl. split; [|by apply conv_ipv6_addr_text]. apply longest_zeroes_spec.
  do 16 (destruct addr as [|? addr]; [done|]). by destruct addr.
Qed.

Lemma conv_ipv6_addr_canonical_witness :
  conv_ipv6_addr 64 [0xfe; 0x80; 0; 0; 0; 0; 0; 0; 2; 0x17; 0x0d; 0; 0; 0x30; 0x1a; 0x2b] [] true =
  ip6_reference 64 [0xfe; 0x80; 0; 0; 0; 0; 0; 0; 2; 0x17; 0x0d; 0; 0; 0x30; 0x1a; 0x2b] true.
Proof. apply conv_ipv6_addr_canonical. reflexivity. Defined.
