(* ===== verification/FmtFloat.v ===== *)
(** Floating point output of the formatter (common/FmtOutput.cpp).

    A [double] is a [spec_float] of the Standard Library with 53 bits and the
    operations of IEEE 754 rounded to nearest.  Reading or writing outside a
    buffer, reading a byte nobody wrote and converting a number to an [int] that
    does not fit are undefined: [None]. *)
From stdpp Require Import base numbers list option.
From Stdlib Require Import ZArith Lia SpecFloat Ascii.
From S2P Require Import Prelude Common FmtConv.

Local Open Scope Z_scope.

(** ** Doubles *)
Definition double : Set := spec_float.
Definition prec : Z := 53.
Definition emax : Z := 1024.

(** [n * 2^e] with the sign [s]. *)
Definition dbl (s : bool) (n e : Z) : double := binary_normalize prec emax (if s then - n else n) e s.
Definition dmul : double -> double -> double := SFmul prec emax.
Definition ddiv : double -> double -> double := SFdiv prec emax.
Definition dadd : double -> double -> double := SFadd prec emax.
Definition d0 : double := S754_zero false.
Definition d1 : double := dbl false 1 0.
Definition d10 : double := dbl false 10 0.
Definition d_03 : double := ddiv (dbl false 3 0) (dbl false 100 0).      (** [.03] *)

(** [modf]: the fraction and the integer part. *)
Definition modf (x : double) : double * double :=
  match x with
  | S754_finite s m e =>
      if 0 <=? e then (S754_zero s, x)
      else
        let i := Z.shiftr (Z.pos m) (- e) in
        (dbl s (Z.pos m - Z.shiftl i (- e)) e, dbl s i 0)
  | S754_infinity s => (S754_zero s, x)
  | _ => (x, x)
  end.

(** The cast to [int], of a number that is not negative. *)
Definition to_int (x : double) : option Z :=
  match snd (modf x) with
  | S754_zero _ => Some 0
  | S754_finite s m e =>
      let n := Z.shiftl (Z.pos m) e in
      if n <? 2 ^ 31 then Some (if s then - n else n) else None
  | _ => None
  end.

(** ** The digit buffer *)
Definition NDIG : Z := 80.
Definition digbuf : Type := list (option Z).

Definition bget (buf : digbuf) (i : Z) : option Z :=
  if (0 <=? i) && (i <? NDIG) then mjoin (buf !! Z.to_nat i) else None.
Definition bset (buf : digbuf) (i c : Z) : option digbuf :=
  if (0 <=? i) && (i <? NDIG) then Some (<[Z.to_nat i := Some c]> buf) else None.

(** The text from [i] to the terminating zero. *)
Fixpoint bstr (fuel : nat) (buf : digbuf) (i : Z) : option (list Z) :=
  match fuel with
  | O => None
  | S fuel =>
      c ← bget buf i;
      if c =? 0 then Some [] else r ← bstr fuel buf (i + 1); Some (c :: r)
  end.

(** ** [ap_cvt] *)

(** Digits of the integer part, from the end of the buffer down. *)
Fixpoint int_digits (fuel : nat) (fi : double) (p1 r2 : Z) (buf : digbuf) : option (Z * Z * digbuf) :=
  match fuel with
  | O => Some (p1, r2, buf)
  | S fuel =>
      if SFeqb fi d0 then Some (p1, r2, buf)
      else
        let '(fj, fi) := modf (ddiv fi d10) in
        d ← to_int (dmul (dadd fj d_03) d10);
        buf ← bset buf (p1 - 1) (d + ch_0);
        int_digits fuel fi (p1 - 1) (r2 + 1) buf
  end.

Fixpoint move_digits (fuel : nat) (p p1 : Z) (buf : digbuf) : option (Z * digbuf) :=
  match fuel with
  | O => Some (p, buf)
  | S fuel =>
      if p1 <? NDIG then c ← bget buf p1; buf ← bset buf p c; move_digits fuel (p + 1) (p1 + 1) buf
      else Some (p, buf)
  end.

(** Zeros behind the decimal point; a double needs fewer than 400 rounds. *)
Fixpoint skip_zeros (fuel : nat) (arg : double) (r2 : Z) : option (double * Z) :=
  match fuel with
  | O => None
  | S fuel => let fj := dmul arg d10 in if SFltb fj d1 then skip_zeros fuel fj (r2 - 1) else Some (arg, r2)
  end.

Fixpoint frac_digits (fuel : nat) (arg : double) (p p1 : Z) (buf : digbuf) : option digbuf :=
  match fuel with
  | O => Some buf
  | S fuel =>
      if (p <=? p1) && (p <? NDIG) then
        let '(arg, fj) := modf (dmul arg d10) in
        d ← to_int fj;
        buf ← bset buf p (d + ch_0);
        frac_digits fuel arg (p + 1) p1 buf
      else Some buf
  end.

(** The carry after rounding; [p]: where the text will end. *)
Fixpoint carry (fuel : nat) (eflag : bool) (p p1 decpt : Z) (buf : digbuf) : option (Z * Z * digbuf) :=
  match fuel with
  | O => None
  | S fuel =>
      c ← bget buf p1;
      if ch_9 <? c then
        buf ← bset buf p1 ch_0;
        if 0 <? p1 then
          c ← bget buf (p1 - 1); buf ← bset buf (p1 - 1) (c + 1); carry fuel eflag p (p1 - 1) decpt buf
        else
          buf ← bset buf p1 (ch_0 + 1);
          if eflag then carry fuel eflag p p1 (decpt + 1) buf
          else
            buf ← (if 0 <? p then bset buf p ch_0 else Some buf);
            carry fuel eflag (p + 1) p1 (decpt + 1) buf
      else Some (p, decpt, buf)
  end.

(** The buffer, the position of the decimal point and the sign. *)
Definition ap_cvt (arg : double) (ndigits : Z) (eflag : bool) : option (digbuf * Z * bool) :=
  let ndigits := if NDIG - 1 <=? ndigits then NDIG - 2 else ndigits in
  let sign := SFltb arg d0 in
  let arg := if sign then SFopp arg else arg in
  let '(arg, fi) := modf arg in
  let buf := replicate 80 None in
  '(arg, p, r2, buf) ←
    (if negb (SFeqb fi d0) then
       '(p1, r2, buf) ← int_digits 80 fi NDIG 0 buf;
       let r2 := if p1 =? 0 then r2 - 1 else r2 in
       '(p, buf) ← move_digits 80 0 p1 buf;
       Some (arg, p, r2, buf)
     else if SFltb d0 arg then '(arg, r2) ← skip_zeros 400 arg 0; Some (arg, 0, r2, buf)
     else Some (arg, 0, 0, buf));
  let p1 := if eflag then ndigits else ndigits + r2 in
  if p1 <? 0 then buf ← bset buf 0 0; Some (buf, - ndigits, sign)
  else
    buf ← frac_digits 80 arg p p1 buf;
    if NDIG <=? p1 then buf ← bset buf (NDIG - 1) 0; Some (buf, r2, sign)
    else
      c ← bget buf p1;
      buf ← bset buf p1 (c + 5);
      '(p, decpt, buf) ← carry 100 eflag p1 p1 r2 buf;
      buf ← bset buf p 0;
      Some (buf, decpt, sign).

Definition ap_ecvt (arg : double) (ndigits : Z) : option (digbuf * Z * bool) := ap_cvt arg ndigits true.
Definition ap_fcvt (arg : double) (ndigits : Z) : option (digbuf * Z * bool) := ap_cvt arg ndigits false.

(** [n] characters of the buffer from [i]. *)
Fixpoint bchars (n : nat) (buf : digbuf) (i : Z) : option (list Z) :=
  match n with
  | O => Some []
  | S n => c ← bget buf i; r ← bchars n buf (i + 1); Some (c :: r)
  end.

Definition zeros (n : Z) : list Z := replicate (Z.to_nat n) ch_0.

(** ** [%g] *)

(** Trailing zeros are not printed. *)
Fixpoint trim (fuel : nat) (buf : digbuf) (i ndigit : Z) : option Z :=
  match fuel with
  | O => Some ndigit
  | S fuel =>
      if 0 <? i then c ← bget buf i; if c =? ch_0 then trim fuel buf (i - 1) (ndigit - 1) else Some ndigit
      else Some ndigit
  end.

Definition exponent_digits (n : Z) : list Z :=
  (if 0 <? Z.quot n 100 then [Z.quot n 100 + ch_0] else []) ++
  (if 0 <? Z.quot n 10 then [Z.quot (Z.rem n 100) 10 + ch_0] else []) ++ [Z.rem n 10 + ch_0].

(** The digits with the point behind the digit number [decpt]. *)
Fixpoint point_in (ds : list Z) (i decpt : Z) : list Z :=
  match ds with
  | [] => []
  | d :: ds => d :: (if i =? decpt then [chr "."] else []) ++ point_in ds (i + 1) decpt
  end.

Definition ap_gcvt (number : double) (ndigit : Z) (altform : bool) : option (list Z) :=
  '(buf, decpt, sign) ← ap_ecvt number ndigit;
  ndigit ← trim (Z.to_nat ndigit) buf (ndigit - 1) ndigit;
  let minus := if sign : bool then [chr "-"] else [] in
  text ←
    (if ((0 <=? decpt) && (4 <? decpt - ndigit)) || ((decpt <? 0) && (decpt <? -3)) then
       let decpt := decpt - 1 in
       ds ← bchars (Z.to_nat (Z.max 1 ndigit)) buf 0;
       Some (take 1 ds ++ [chr "."] ++ drop 1 ds ++ [chr "e"] ++
             (if decpt <? 0 then chr "-" :: exponent_digits (- decpt) else chr "+" :: exponent_digits decpt))
     else
       c ← bget buf 0;
       ds ← bchars (Z.to_nat ndigit) buf 0;
       Some ((if decpt <=? 0 then (if c =? ch_0 then [] else [chr "."]) ++ zeros (- decpt) else []) ++
             point_in ds 1 decpt ++
             (if ndigit <? decpt then zeros (decpt - ndigit) ++ [chr "."] else [])));
  let text := minus ++ text in
  Some (match rev text with
        | c :: r => if (c =? chr ".") && negb altform then rev r else text
        | [] => text
        end).

(** ** [%f], [%e] and [%E] *)

(** The text up to the decimal point and the place in the buffer to go on from;
    [c]: the first digit. *)
Definition fp_head (format : Z) (buf : digbuf) (c decimal_point : Z) (add_dp : bool) (precision : Z) : option (list Z * Z) :=
  let dp := if (0 <? precision) || add_dp then [chr "."] else [] in
  if format =? chr "f" then
    if decimal_point <=? 0 then
      Some (ch_0 :: (if 0 <? precision then chr "." :: zeros (- decimal_point) else if add_dp then [chr "."] else []), 0)
    else ds ← bchars (Z.to_nat decimal_point) buf 0; Some (ds ++ dp, decimal_point)
  else Some (c :: dp, 1).

(** The result: is the number negative, and the text without the sign. *)
Definition conv_fp (wide format : Z) (num : double) (add_dp : bool) (precision : Z) : option (bool * list Z) :=
  '(buf, decimal_point, is_negative) ←
    (if format =? chr "f" then ap_fcvt num precision else ap_ecvt num (precision + 1));
  c ← bget buf 0;
  if (ch_A <=? c) && (c <=? 90) || (ch_a <=? c) && (c <=? 122) then
    r ← bstr 81 buf 0; Some (false, r)
  else
    '(s, p) ← fp_head format buf c decimal_point add_dp precision;
    r ← bstr 81 buf p;
    let s := s ++ r in
    if format =? chr "f" then Some (is_negative, s)
    else
      let decimal_point := decimal_point - 1 in
      let e :=
        if negb (decimal_point =? 0) then
          let '(exponent_is_negative, t) := conv_10 wide decimal_point false [] in
          (if exponent_is_negative then chr "-" else chr "+") :: (if (length t =? 1)%nat then [ch_0] else []) ++ t
        else [chr "+"; ch_0; ch_0] in
      Some (is_negative, s ++ [format] ++ e).
