(* ===== verification/FmtOutput.v ===== *)
(** Formatted output (common/FmtOutput.cpp, FmtOutput.h).

    [esl_vformatter] walks over the format and puts characters one by one into an
    output ([IFmtOutput]); it stops at the first character the output refuses.  What
    the source leaves undefined (an argument that is missing or of another type, a
    number buffer that overflows, an overflow of [int]) is [FUndef].  Format strings
    are lists of character codes; the terminating zero is the end of the list. *)
From stdpp Require Import base numbers list option.
From Stdlib Require Import ZArith Lia Ascii.
From S2P Require Import Prelude Common FmtConv FmtFloat.

Local Open Scope Z_scope.

Definition NUM_BUF_SIZE : nat := 512.

(** ** Outputs *)
Class IFmtOutput (S : Type) := {
  putCh : Z -> S -> S * bool;
  flush : S -> S * bool
}.

(** ** Arguments *)
Inductive va_arg_t : Type :=
| VaInt (v : Z)                  (** [int], [unsigned] and what is promoted to them *)
| VaLong (v : Z)                 (** [long], [unsigned long] *)
| VaQuad (v : Z)                 (** [int64_t], [uint64_t] *)
| VaDouble (v : double)
| VaStr (s : option (list Z))    (** [char *]; [None]: null *)
| VaPtr (addr : Z)               (** [void *] *)
| VaBytes (b : list Z)           (** [uint8_t *] to these bytes *)
| VaOut (id : Z).                (** a pointer to an integer, for [%n] *)

Inductive var_type_enum : Set := IS_QUAD | IS_LONG | IS_SHORT | IS_INT.

(** A handler of a format extension: it gets the argument and returns what it wrote. *)
Definition FormatExtHandler : Type := va_arg_t -> list Z.

(** ** Format extensions *)
Definition EXTENSION_IS_OK (ch : Z) : bool :=
  ((chr "A" <=? ch) && (ch <=? chr "Z")) || ((chr "a" <=? ch) && (ch <=? chr "z")).
Definition EXTENSION_IDX (ch : Z) : nat :=
  Z.to_nat (if ch <=? chr "Z" then ch - chr "A" else ch - chr "a" + chr "Z" - chr "A" + 1).

Definition extension_table : Type := list (option FormatExtHandler).
Definition no_extensions : extension_table := replicate 52 None.

Definition find_ext (ext : extension_table) (ch : Z) : option FormatExtHandler :=
  if EXTENSION_IS_OK ch then mjoin (ext !! EXTENSION_IDX ch) else None.

Definition registerFormatExt (ch : Z) (handler : FormatExtHandler) (ext : extension_table) : extension_table * bool :=
  if EXTENSION_IS_OK ch then
    match ext !! EXTENSION_IDX ch with
    | Some None => (<[EXTENSION_IDX ch := Some handler]> ext, true)
    | _ => (ext, false)
    end
  else (ext, false).

(** ** The specification between [%] and the conversion character *)
Record fmt_spec : Set := mkSpec {
  adjust_left : bool;
  alternate_form : bool;
  print_sign : bool;
  print_blank : bool;
  pad_char : Z;
  width : option Z;         (** [adjust_width] and [min_width] *)
  precision : option Z;     (** [adjust_precision] and [precision] *)
  var_type : var_type_enum
}.
#[export] Instance fmt_spec_eta : Eta fmt_spec := fun s =>
  mkSpec (adjust_left s) (alternate_form s) (print_sign s) (print_blank s) (pad_char s) (width s) (precision s)
    (var_type s).

Definition spec_default : fmt_spec := mkSpec false false false false (chr " ") None None IS_INT.

Definition islower (c : Z) : bool := (chr "a" <=? c) && (c <=? chr "z").

(** [*fmt]. *)
Definition cur (fmt : list Z) : Z := match fmt with [] => 0 | c :: _ => c end.

Fixpoint parse_flags (fmt : list Z) (sp : fmt_spec) : fmt_spec * list Z :=
  match fmt with
  | c :: r =>
      if c =? chr "-" then parse_flags r (sp <| adjust_left := true |>)
      else if c =? chr "+" then parse_flags r (sp <| print_sign := true |>)
      else if c =? chr "#" then parse_flags r (sp <| alternate_form := true |>)
      else if c =? chr " " then parse_flags r (sp <| print_blank := true |>)
      else if c =? chr "0" then parse_flags r (sp <| pad_char := chr "0" |>)
      else (sp, fmt)
  | [] => (sp, [])
  end.

(** [va_arg(ap, int)]. *)
Definition va_int (args : list va_arg_t) : option (Z * list va_arg_t) :=
  match args with VaInt v :: r => Some (s32 v, r) | _ => None end.

Definition parse_width (fmt : list Z) (sp : fmt_spec) (args : list va_arg_t) :
    option (fmt_spec * list Z * list va_arg_t) :=
  if isdigit (cur fmt) then
    '(n, fmt) ← STR_TO_DEC fmt; Some (sp <| width := Some n |>, fmt, args)
  else if cur fmt =? chr "*" then
    '(w, args) ← va_int args;
    if w <? 0 then
      if w =? - 2 ^ 31 then None
      else Some (sp <| adjust_left := true |> <| width := Some (- w) |>, tail fmt, args)
    else Some (sp <| width := Some w |>, tail fmt, args)
  else Some (sp, fmt, args).

Definition parse_precision (fmt : list Z) (sp : fmt_spec) (args : list va_arg_t) :
    option (fmt_spec * list Z * list va_arg_t) :=
  if cur fmt =? chr "." then
    let fmt := tail fmt in
    if isdigit (cur fmt) then
      '(n, fmt) ← STR_TO_DEC fmt; Some (sp <| precision := Some n |>, fmt, args)
    else if cur fmt =? chr "*" then
      '(n, args) ← va_int args;
      Some (sp <| precision := Some (if n <? 0 then 0 else n) |>, tail fmt, args)
    else Some (sp <| precision := Some 0 |>, fmt, args)
  else Some (sp, fmt, args).

Definition parse_modifier (fmt : list Z) (sp : fmt_spec) : fmt_spec * list Z :=
  if cur fmt =? chr "q" then (sp <| var_type := IS_QUAD |>, tail fmt)
  else if cur fmt =? chr "l" then
    let fmt := tail fmt in
    if cur fmt =? chr "l" then (sp <| var_type := IS_QUAD |>, tail fmt) else (sp <| var_type := IS_LONG |>, fmt)
  else if cur fmt =? chr "h" then (sp <| var_type := IS_SHORT |>, tail fmt)
  else (sp <| var_type := IS_INT |>, fmt).

Definition parse_spec (fmt : list Z) (args : list va_arg_t) : option (fmt_spec * list Z * list va_arg_t) :=
  '(sp, fmt, args) ←
    (if negb (islower (cur fmt)) then
       let '(sp, fmt) := parse_flags fmt spec_default in
       '(sp, fmt, args) ← parse_width fmt sp args;
       parse_precision fmt sp args
     else Some (spec_default, fmt, args));
  let '(sp, fmt) := parse_modifier fmt sp in
  Some (sp, fmt, args).

(** ** Conversions

    What the switch leaves for printing: the text at [s] with its length, where [s]
    points to, the prefix and the padding character. *)
Inductive s_place : Set := InNumBuf | InCharBuf | InString.

Record piece : Set := mkPiece {
  p_place : s_place;
  p_text : list Z;
  p_prefix : option Z;
  p_pad : Z
}.

(** [*--s = c] in the number buffer. *)
Definition push (c : Z) (s : list Z) : option (list Z) :=
  if (length s <? NUM_BUF_SIZE)%nat then Some (c :: s) else None.

(** [FIX_PRECISION]; the loop runs [precision - s_len] times. *)
Fixpoint push_zeros (n : nat) (s : list Z) : option (list Z) :=
  match n with O => Some s | S n => s ← push ch_0 s; push_zeros n s end.
Definition FIX_PRECISION (precision : option Z) (s : list Z) : option (list Z) :=
  match precision with
  | Some p => push_zeros (Z.to_nat (p - Z.of_nat (length s))) s
  | None => Some s
  end.

(** The argument of a signed and of an unsigned conversion; [wide]: bits of [long]. *)
Definition va_signed (wide : Z) (t : var_type_enum) (args : list va_arg_t) : option (Z * list va_arg_t) :=
  match t, args with
  | IS_QUAD, VaQuad v :: r => Some (s64 v, r)
  | IS_LONG, VaLong v :: r => Some (swrap wide v, r)
  | IS_SHORT, VaInt v :: r => Some (swrap 16 v, r)
  | IS_INT, VaInt v :: r => Some (s32 v, r)
  | _, _ => None
  end.
Definition va_unsigned (wide : Z) (t : var_type_enum) (args : list va_arg_t) : option (Z * list va_arg_t) :=
  match t, args with
  | IS_QUAD, VaQuad v :: r => Some (u64 v, r)
  | IS_LONG, VaLong v :: r => Some (wrap wide v, r)
  | IS_SHORT, VaInt v :: r => Some (u16 v, r)
  | IS_INT, VaInt v :: r => Some (u32 v, r)
  | _, _ => None
  end.

Definition is_quad (t : var_type_enum) : bool := match t with IS_QUAD => true | _ => false end.

Definition sign_prefix (sp : fmt_spec) (is_negative : bool) : option Z :=
  if is_negative then Some (chr "-")
  else if print_sign sp then Some (chr "+")
  else if print_blank sp then Some (chr " ")
  else None.

(** [%u], [%d] and [%i]; the result has the new value of [i_num]. *)
Definition conv_decimal (wide : Z) (sp : fmt_spec) (is_unsigned : bool) (i_num : Z) (args : list va_arg_t) :
    option (piece * Z * list va_arg_t) :=
  '(v, args) ← (if is_unsigned then va_unsigned wide (var_type sp) args else va_signed wide (var_type sp) args);
  let '((is_negative, s), i_num) :=
    if is_quad (var_type sp) then (conv_10_quad wide (s64 v) is_unsigned [], i_num)
    else (conv_10 wide (swrap wide v) is_unsigned [], swrap wide v) in
  s ← FIX_PRECISION (precision sp) s;
  Some (mkPiece InNumBuf s (if is_unsigned then None else sign_prefix sp is_negative) (pad_char sp), i_num, args).

Definition conv_power2 (wide : Z) (sp : fmt_spec) (nbits format : Z) (args : list va_arg_t) :
    option (list Z * list va_arg_t) :=
  '(v, args) ← va_unsigned wide (var_type sp) args;
  let s := if is_quad (var_type sp) then conv_p2_quad wide v nbits format [] else conv_p2 v nbits format [] in
  s ← FIX_PRECISION (precision sp) s;
  Some (s, args).

Definition conv_octal (wide : Z) (sp : fmt_spec) (args : list va_arg_t) : option (piece * list va_arg_t) :=
  '(s, args) ← conv_power2 wide sp 3 (chr "o") args;
  s ← (if alternate_form sp && negb (cur s =? ch_0) then push ch_0 s else Some s);
  Some (mkPiece InNumBuf s None (pad_char sp), args).

(** [%x] and [%X]: the alternate form looks at [i_num], which these conversions do not set. *)
Definition conv_hex (wide : Z) (sp : fmt_spec) (format i_num : Z) (args : list va_arg_t) : option (piece * list va_arg_t) :=
  '(s, args) ← conv_power2 wide sp 4 format args;
  s ← (if alternate_form sp && negb (i_num =? 0) then s ← push format s; push ch_0 s else Some s);
  Some (mkPiece InNumBuf s None (pad_char sp), args).

Definition truncate (precision : option Z) (s : list Z) : list Z :=
  match precision with
  | Some p => if p <? Z.of_nat (length s) then take (Z.to_nat p) s else s
  | None => s
  end.

Definition S_NULL : list Z := [chr "("; chr "n"; chr "u"; chr "l"; chr "l"; chr ")"].
Definition S_BOGUS : list Z := [chr "b"; chr "o"; chr "g"; chr "u"; chr "s"; chr " "; chr "%"; chr "p"].

Definition conv_string (sp : fmt_spec) (args : list va_arg_t) : option (piece * list va_arg_t) :=
  match args with
  | VaStr (Some s) :: r => Some (mkPiece InString (truncate (precision sp) (c_str s)) None (chr " "), r)
  | VaStr None :: r => Some (mkPiece InString S_NULL None (chr " "), r)
  | _ => None
  end.

Definition conv_float (wide : Z) (sp : fmt_spec) (format : Z) (args : list va_arg_t) : option (piece * list va_arg_t) :=
  match args with
  | VaDouble d :: r =>
      '(is_negative, s) ← conv_fp wide format d (alternate_form sp) (default 6 (precision sp));
      Some (mkPiece InNumBuf s (sign_prefix sp is_negative) (pad_char sp), r)
  | _ => None
  end.

(** The first [e] in upper case. *)
Fixpoint upper_e (s : list Z) : list Z :=
  match s with [] => [] | c :: s => if c =? chr "e" then chr "E" :: s else c :: upper_e s end.

Definition conv_general (sp : fmt_spec) (format : Z) (args : list va_arg_t) : option (piece * list va_arg_t) :=
  match args with
  | VaDouble d :: r =>
      let prec := match precision sp with None => 6 | Some p => if p =? 0 then 1 else p end in
      s ← ap_gcvt d prec (alternate_form sp);
      let '(prefix, s) := if cur s =? chr "-" then (Some (chr "-"), tail s) else (sign_prefix sp false, s) in
      let s := if alternate_form sp && negb (existsb (Z.eqb (chr ".")) s) then s ++ [chr "."] else s in
      let s := if format =? chr "G" then upper_e s else s in
      Some (mkPiece InNumBuf s prefix (pad_char sp), r)
  | _ => None
  end.

Definition is_pointer (a : va_arg_t) : bool :=
  match a with VaStr _ | VaPtr _ | VaBytes _ | VaOut _ => true | _ => false end.

(** [%p] with its second character [ch]. *)
Definition conv_pointer (wide : Z) (ext : extension_table) (sp : fmt_spec) (ch : Z) (args : list va_arg_t) :
    option (piece * list va_arg_t) :=
  if ch =? chr "p" then
    match args with
    | VaPtr v :: r => Some (mkPiece InNumBuf (conv_p2 (wrap wide v) 4 (chr "x") []) None (chr " "), r)
    | _ => None
    end
  else if (ch =? chr "A") || (ch =? chr "a") then
    match args with
    | VaLong v :: r =>
        let v := wrap wide v in
        let v := if ch =? chr "A" then ntohl (u32 v) else v in
        Some (mkPiece InNumBuf (truncate (precision sp) (conv_ip_addr wide (u32 v) [])) None (chr " "), r)
    | _ => None
    end
  else if (ch =? chr "B") || (ch =? chr "b") then
    match args with
    | VaBytes b :: r =>
        if (length b =? 16)%nat then
          Some (mkPiece InNumBuf (truncate (precision sp) (conv_ipv6_addr wide b [] (ch =? chr "b"))) None (chr " "), r)
        else None
    | _ => None
    end
  else
    match args with
    | a :: r =>
        if is_pointer a then
          match find_ext ext ch with
          | Some handler => Some (mkPiece InNumBuf (truncate (precision sp) (handler a)) None (chr " "), r)
          | None => Some (mkPiece InString S_BOGUS None (pad_char sp), r)
          end
        else None
    | [] => None
    end.

(** The switch on the conversion character.  [CvEnd]: the format is over. *)
Inductive conversion : Type :=
| CvPiece (p : piece) (i_num : Z) (args : list va_arg_t) (fmt : list Z)
| CvStore (id : Z) (t : var_type_enum) (args : list va_arg_t) (fmt : list Z)
| CvEnd.

Definition plain (fmt : list Z) (i_num : Z) (r : option (piece * list va_arg_t)) : option conversion :=
  '(p, args) ← r; Some (CvPiece p i_num args fmt).

Definition convert (wide : Z) (ext : extension_table) (sp : fmt_spec) (i_num : Z) (args : list va_arg_t) (fmt : list Z) :
    option conversion :=
  match fmt with
  | [] => Some CvEnd
  | c :: rest =>
      if c =? 0 then Some CvEnd
      else if c =? chr "u" then '(p, i_num, args) ← conv_decimal wide sp true i_num args; Some (CvPiece p i_num args rest)
      else if (c =? chr "d") || (c =? chr "i") then
        '(p, i_num, args) ← conv_decimal wide sp false i_num args; Some (CvPiece p i_num args rest)
      else if c =? chr "o" then plain rest i_num (conv_octal wide sp args)
      else if (c =? chr "x") || (c =? chr "X") then plain rest i_num (conv_hex wide sp c i_num args)
      else if c =? chr "s" then plain rest i_num (conv_string sp args)
      else if (c =? chr "f") || (c =? chr "e") || (c =? chr "E") then plain rest i_num (conv_float wide sp c args)
      else if (c =? chr "g") || (c =? chr "G") then plain rest i_num (conv_general sp c args)
      else if c =? chr "c" then
        '(v, args) ← va_int args; Some (CvPiece (mkPiece InCharBuf [u8 v] None (chr " ")) i_num args rest)
      else if c =? chr "%" then Some (CvPiece (mkPiece InCharBuf [chr "%"] None (chr " ")) i_num args rest)
      else if c =? chr "n" then match args with VaOut id :: args => Some (CvStore id (var_type sp) args rest) | _ => None end
      else if c =? chr "p" then
        match rest with
        | [] => Some CvEnd
        | ch :: rest => if ch =? 0 then Some CvEnd else plain rest i_num (conv_pointer wide ext sp ch args)
        end
      else Some (CvPiece (mkPiece InCharBuf [chr "%"; c] None (chr " ")) i_num args rest)
  end.

(** ** The formatter *)
Inductive fmt_res (A : Type) : Type :=
| FOk (a : A)
| FFull                (** the output refused a character: return the count *)
| FUndef.
Arguments FOk {A}. Arguments FFull {A}. Arguments FUndef {A}.

(** The output, the characters put so far, and what [%n] stored. *)
Record fmt_state (S : Type) : Type := mkFmtState { out : S; cc : Z; stores : list (Z * Z) }.
Arguments mkFmtState {S}. Arguments out {S}. Arguments cc {S}. Arguments stores {S}.

Section Formatter.
Context {S : Type} `{IFmtOutput S}.

Definition FM (A : Type) : Type := fmt_state S -> fmt_state S * fmt_res A.

#[local] Instance FM_ret : MRet FM := fun A a st => (st, FOk a).
#[local] Instance FM_bind : MBind FM := fun A B k m st =>
  match m st with
  | (st, FOk a) => k a st
  | (st, FFull) => (st, FFull)
  | (st, FUndef) => (st, FUndef)
  end.

Definition undef {A} : FM A := fun st => (st, FUndef).

Definition INS_CHAR (c : Z) : FM unit := fun st =>
  match putCh c (out st) with
  | (s, true) => (mkFmtState s (cc st + 1) (stores st), FOk tt)
  | (s, false) => (mkFmtState s (cc st) (stores st), FFull)
  end.

Fixpoint ins_string (s : list Z) : FM unit :=
  match s with [] => mret tt | c :: s => INS_CHAR c ;; ins_string s end.

(** A do-while loop that counts [width] down to [len]. *)
Definition PAD (width len ch : Z) : FM unit := ins_string (replicate (Z.to_nat (Z.max 1 (width - len))) ch).

Definition is_char_buf (p : piece) : bool := match p_place p with InCharBuf => true | _ => false end.

(** From the prefix on. *)
Definition print_piece (sp : fmt_spec) (p : piece) : FM unit :=
  match
    (match p_prefix p with
     | Some c => if is_char_buf p then Some (p_text p) else push c (p_text p)
     | None => Some (p_text p)
     end)
  with
  | None => undef
  | Some s =>
      let s_len := Z.of_nat (length s) in
      let wide_enough := match width sp with Some w => (0 <? s_len) && (s_len <? w) | None => false end in
      let w := default 0 (width sp) in
      s ← (if wide_enough && negb (adjust_left sp) then
             if (p_pad p =? chr "0") && bool_decide (p_prefix p <> None) then
               INS_CHAR (cur s) ;; PAD (w - 1) (s_len - 1) (p_pad p) ;; mret (tail s)
             else PAD w s_len (p_pad p) ;; mret s
           else mret s);
      ins_string s ;;
      if wide_enough && adjust_left sp then PAD w s_len (p_pad p) else mret tt
  end.

Definition store_val (t : var_type_enum) (v : Z) : Z :=
  match t with IS_SHORT => swrap 16 v | _ => v end.

Definition store (id : Z) (t : var_type_enum) : FM unit := fun st =>
  (mkFmtState (out st) (cc st) (stores st ++ [(id, store_val t (cc st))]), FOk tt).

(** The loop over the format; every round takes a character at least. *)
Fixpoint vformat_loop (fuel : nat) (wide : Z) (ext : extension_table) (fmt : list Z) (args : list va_arg_t) (i_num : Z) : FM unit :=
  match fuel with
  | O => undef
  | Datatypes.S fuel =>
      match fmt with
      | [] => mret tt
      | c :: rest =>
          if c =? 0 then mret tt
          else if negb (c =? chr "%") then INS_CHAR c ;; vformat_loop fuel wide ext rest args i_num
          else
            match parse_spec rest args with
            | None => undef
            | Some (sp, fmt, args) =>
                match convert wide ext sp i_num args fmt with
                | None => undef
                | Some CvEnd => mret tt
                | Some (CvStore id t args fmt) => store id t ;; vformat_loop fuel wide ext fmt args i_num
                | Some (CvPiece p i_num args fmt) => print_piece sp p ;; vformat_loop fuel wide ext fmt args i_num
                end
            end
      end
  end.

Definition esl_vformatter (wide : Z) (ext : extension_table) (fmt : list Z) (args : list va_arg_t) : FM unit :=
  vformat_loop (Datatypes.S (length fmt)) wide ext fmt args 0.

(** The output and the count, or nothing when the behaviour is undefined. *)
Definition run_formatter (wide : Z) (ext : extension_table) (fmt : list Z) (args : list va_arg_t) (s : S) : option (S * Z) :=
  match esl_vformatter wide ext fmt args (mkFmtState s 0 []) with
  | (_, FUndef) => None
  | (st, _) => Some (out st, cc st)
  end.

Definition printfNoFlush_p := run_formatter.

Definition printf (wide : Z) (ext : extension_table) (fmt : list Z) (args : list va_arg_t) (s : S) : option (S * Z) :=
  '(s, n) ← run_formatter wide ext fmt args s; Some (fst (flush s), n).

Definition puts (wide : Z) (ext : extension_table) (str : list Z) (s : S) : option (S * Z) :=
  printf wide ext [chr "%"; chr "s"] [VaStr (Some str)] s.

Definition FMT_02x : list Z := [chr "%"; chr "0"; chr "2"; chr "x"].

(** The separator and the frame are formats themselves. *)
Fixpoint dump_loop (wide : Z) (ext : extension_table) (array : list Z) (first : bool) (separator : list Z) (s : S) : option S :=
  match array with
  | [] => Some s
  | b :: r =>
      s ← (if first then Some s else fst <$> printfNoFlush_p wide ext separator [] s);
      '(s, _) ← printfNoFlush_p wide ext FMT_02x [VaInt b] s;
      dump_loop wide ext r false separator s
  end.

Definition print_opt (wide : Z) (ext : extension_table) (str : option (list Z)) (s : S) : option S :=
  match str with Some f => fst <$> printfNoFlush_p wide ext f [] s | None => Some s end.

Definition printDump (wide : Z) (ext : extension_table) (array separator : list Z) (hdrStr endStr : option (list Z)) (s : S) : option S :=
  s ← print_opt wide ext hdrStr s;
  s ← dump_loop wide ext array true separator s;
  s ← print_opt wide ext endStr s;
  Some (fst (flush s)).

Definition printMac (wide : Z) (ext : extension_table) (mac : list Z) (s : S) : option S :=
  printDump wide ext (take 8 mac) [chr "-"] None None s.
End Formatter.
Arguments FM : clear implicits.

(** ** The outputs of the program *)

(** [CFmtString]: the string. *)
Definition CFmtString : Type := list Z.
Definition CFmtString_output : IFmtOutput CFmtString := {|
  putCh c s := (s ++ [c], true);
  flush s := (s, true)
|}.
#[export] Existing Instance CFmtString_output.

(** [CFmtBufferWrap]: the buffer and the position; the end is its last byte. *)
Record CFmtBufferWrap : Set := mkFmtBuffer { bp : list Z; cp : nat }.
Definition fmt_ep (b : CFmtBufferWrap) : nat := length (bp b) - 1.

Definition CFmtBufferWrap_output : IFmtOutput CFmtBufferWrap := {|
  putCh c b := if (fmt_ep b <=? cp b)%nat then (b, false) else (mkFmtBuffer (<[cp b := c]> (bp b)) (S (cp b)), true);
  flush b := (if (cp b <? fmt_ep b)%nat then mkFmtBuffer (<[cp b := 0]> (bp b)) (cp b) else b, true)
|}.
#[export] Existing Instance CFmtBufferWrap_output.

(** [clear]; with a buffer of no bytes it would write in front of it. *)
Definition fmt_clear (buffer : list Z) : option CFmtBufferWrap :=
  match buffer with
  | [] => None
  | _ => Some (mkFmtBuffer (<[0%nat := 0]> (<[(length buffer - 1)%nat := 0]> buffer)) 0)
  end.
Definition newCFmtBufferWrap (buffer : list Z) : option CFmtBufferWrap := fmt_clear buffer.
Definition fmt_length (b : CFmtBufferWrap) : nat := cp b.
(** What a reader of the C string sees. *)
Definition fmt_str (b : CFmtBufferWrap) : list Z := c_str (bp b).

(** [CFmtFile]: what was written to the file, the pending bytes, and how many items
    the next calls of [fwrite] take (all, once the list is used up). *)
Definition FMT_FILE_BUFSZ : nat := 512.
Record CFmtFile : Set := mkFmtFile { ff_file : list Z; ff_buf : list Z; ff_fwrite : list nat }.

Definition file_flush (f : CFmtFile) : CFmtFile * bool :=
  let len := length (ff_buf f) in
  if (0 <? len)%nat then
    let n := match ff_fwrite f with n :: _ => n | [] => len end in
    (mkFmtFile (ff_file f ++ take n (ff_buf f)) [] (tail (ff_fwrite f)), (len <=? n)%nat)
  else (mkFmtFile (ff_file f) [] (ff_fwrite f), true).

Definition CFmtFile_output : IFmtOutput CFmtFile := {|
  putCh c f :=
    if (FMT_FILE_BUFSZ <=? length (ff_buf f))%nat then
      match file_flush f with
      | (f, true) => (mkFmtFile (ff_file f) (ff_buf f ++ [c]) (ff_fwrite f), true)
      | (f, false) => (f, false)
      end
    else (mkFmtFile (ff_file f) (ff_buf f ++ [c]) (ff_fwrite f), true);
  flush := file_flush
|}.
#[export] Existing Instance CFmtFile_output.

(** ** Any output gets the same text

    [feed]: putting characters until one is refused. *)
Section Feed.
Context {S : Type} `{IFmtOutput S}.

Fixpoint feed (t : list Z) (s : S) : S * Z * bool :=
  match t with
  | [] => (s, 0, true)
  | c :: t =>
      match putCh c s with
      | (s, true) => let '(s, n, ok) := feed t s in (s, n + 1, ok)
      | (s, false) => (s, 0, false)
      end
  end.

Lemma feed_text_app t1 t2 s :
  feed (t1 ++ t2) s =
    match feed t1 s with
    | (s1, n1, true) => let '(s2, n2, ok) := feed t2 s1 in (s2, n1 + n2, ok)
    | (s1, n1, false) => (s1, n1, false)
    end.
Proof.
  revert s. induction t1 as [|c t1 IH]; intros s; cbn [app feed].
  - by destruct (feed t2 s) as [[s2 n2] ok].
  - destruct (putCh c s) as [s1 []]; [|done]. rewrite IH. destruct (feed t1 s1) as [[s2 n1] []]; [|done].
    destruct (feed t2 s2) as [[s3 n2] ok]. f_equal. f_equal. lia.
Qed.

(** What the computation does with the string as its output determines what it does
    with any other output. *)
Definition simulates {A} (m1 : FM CFmtString A) (m2 : FM S A) : Prop :=
  forall st1, exists t st' r,
    m1 st1 = (mkFmtState (out st1 ++ t) (cc st1 + Z.of_nat (length t)) st', r) /\ r <> FFull /\
    forall s,
      match feed t s with
      | (s', n, true) => n = Z.of_nat (length t) /\
          m2 (mkFmtState s (cc st1) (stores st1)) = (mkFmtState s' (cc st1 + n) st', r)
      | (s', n, false) => exists st'',
          m2 (mkFmtState s (cc st1) (stores st1)) = (mkFmtState s' (cc st1 + n) st'', FFull)
      end.

Lemma sim_ret {A} (a : A) : simulates (fun st => (st, FOk a)) (fun st => (st, FOk a)).
Proof.
  intros [o c l]. exists [], l, (FOk a). cbn. rewrite app_nil_r, Z.add_0_r. split_and!; [done|done|].
  intros s. rewrite Z.add_0_r. done.
Qed.

Lemma sim_undef {A} : simulates (A := A) undef undef.
Proof.
  intros [o c l]. exists [], l, FUndef. cbn. rewrite app_nil_r, Z.add_0_r. split_and!; [done|done|].
  intros s. rewrite Z.add_0_r. done.
Qed.

Lemma sim_bind {A B} (m1 : FM CFmtString A) (m2 : FM S A) (k1 : A -> FM CFmtString B) (k2 : A -> FM S B) :
  simulates m1 m2 -> (forall a, simulates (k1 a) (k2 a)) -> simulates (FM_bind _ _ k1 m1) (FM_bind _ _ k2 m2).
Proof.
  intros Hm Hk st1. destruct (Hm st1) as (t & st' & r & E & Hr & Hs). unfold FM_bind. rewrite E.
  destruct r as [a| |]; [|done|].
  - destruct (Hk a (mkFmtState (out st1 ++ t) (cc st1 + Z.of_nat (length t)) st')) as (t2 & st2 & r2 & E2 & Hr2 & Hs2).
    rewrite E2. cbn [out cc stores] in *. exists (t ++ t2), st2, r2.
    rewrite app_assoc, length_app, Nat2Z.inj_add, Z.add_assoc. split_and!; [done|done|]. intros s.
    rewrite feed_text_app. specialize (Hs s). destruct (feed t s) as [[s1 n1] []].
    + destruct Hs as [-> ->]. specialize (Hs2 s1). destruct (feed t2 s1) as [[s2 n2] []].
      * destruct Hs2 as [-> ->]. split; [lia|]. do 2 f_equal. lia.
      * destruct Hs2 as [st'' ->]. exists st''. do 2 f_equal. lia.
    + destruct Hs as [st'' ->]. by exists st''.
  - exists t, st', FUndef. split_and!; [done|done|]. intros s. specialize (Hs s).
    destruct (feed t s) as [[s1 n1] []]; [by destruct Hs as [-> ->]|]. destruct Hs as [st'' ->]. by exists st''.
Qed.

Lemma sim_ins c : simulates (INS_CHAR c) (INS_CHAR c).
Proof.
  intros [o n l]. exists [c], l, (FOk tt). cbn [INS_CHAR out cc stores length]. split_and!; [done|done|].
  intros s. cbn [feed]. unfold INS_CHAR. cbn [out cc stores]. destruct (putCh c s) as [s' []]; [by split|].
  exists l. by rewrite Z.add_0_r.
Qed.

Lemma sim_ins_string t : simulates (ins_string t) (ins_string t).
Proof.
  induction t as [|c t IH]; [apply sim_ret|]. cbn [ins_string]. apply sim_bind; [apply sim_ins|intros _; apply IH].
Qed.

Lemma sim_print_piece sp p : simulates (print_piece sp p) (print_piece sp p).
Proof.
  unfold print_piece. destruct (match p_prefix p with Some c => _ | None => _ end) as [s|]; [|apply sim_undef].
  cbv zeta. destruct (match width sp with Some w => _ | None => false end), (adjust_left sp); cbn [andb negb];
    (apply sim_bind; [|intros a; apply sim_bind; [apply sim_ins_string|intros _; (apply sim_ret || apply sim_ins_string)]]);
    try apply sim_ret.
  destruct ((p_pad p =? chr "0") && _).
  - apply sim_bind; [apply sim_ins|intros _]. apply sim_bind; [apply sim_ins_string|intros _; apply sim_ret].
  - apply sim_bind; [apply sim_ins_string|intros _; apply sim_ret].
Qed.

Lemma sim_store id t : simulates (store id t) (store id t).
Proof.
  intros [o c l]. exists [], (l ++ [(id, store_val t c)]), (FOk tt). cbn. rewrite app_nil_r, Z.add_0_r.
  split_and!; [done|done|]. intros s. by rewrite Z.add_0_r.
Qed.

Lemma sim_vformat_loop wide ext fuel : forall fmt args i_num,
  simulates (vformat_loop fuel wide ext fmt args i_num) (vformat_loop fuel wide ext fmt args i_num).
Proof.
  induction fuel as [|fuel IH]; intros fmt args i_num; cbn [vformat_loop]; [apply sim_undef|].
  destruct fmt as [|c rest]; [apply sim_ret|]. case_match; [apply sim_ret|].
  case_match; [apply sim_bind; [apply sim_ins|intros _; apply IH]|].
  destruct (parse_spec rest args) as [[[sp fmt] args1]|]; [|apply sim_undef].
  destruct (convert wide ext sp i_num args1 fmt) as [[p i2 args2 fmt2|id t args2 fmt2|]|]; [| | |apply sim_undef].
  - apply sim_bind; [apply sim_print_piece|intros _; apply IH].
  - apply sim_bind; [apply sim_store|intros _; apply IH].
  - apply sim_ret.
Qed.

Lemma run_formatter_feed wide ext fmt args t n (s : S) :
  run_formatter wide ext fmt args ([] : CFmtString) = Some (t, n) ->
  n = Z.of_nat (length t) /\
  run_formatter wide ext fmt args s = Some (let '(s', n, _) := feed t s in (s', n)).
Proof.
  unfold run_formatter, esl_vformatter. intros Hrun.
  destruct (sim_vformat_loop wide ext (Datatypes.S (length fmt)) fmt args 0 (@mkFmtState CFmtString [] 0 [])) as (t' & st' & r & E & Hr & Hs).
  cbn [out cc stores app] in E, Hs. rewrite E in Hrun. specialize (Hs s).
  assert (r = FOk tt /\ t' = t /\ n = Z.of_nat (length t)) as (-> & -> & ->) by (destruct r as [[]| |]; by simplify_eq).
  split; [done|]. destruct (feed t s) as [[s1 n1] []].
  - destruct Hs as [_ ->]. done.
  - by destruct Hs as [st'' ->].
Qed.
End Feed.

(** ** Several calls of [printf] *)
Fixpoint printf_all {S} `{IFmtOutput S} (wide : Z) (ext : extension_table) (l : list (list Z * list va_arg_t)) (s : S) : option S :=
  match l with
  | [] => Some s
  | (fmt, args) :: l => '(s, _) ← printf wide ext fmt args s; printf_all wide ext l s
  end.

(** The text of a format with its arguments. *)
Definition fmt_text (wide : Z) (ext : extension_table) (fmt : list Z) (args : list va_arg_t) : option (list Z) :=
  fst <$> run_formatter wide ext fmt args ([] : CFmtString).

Lemma fmt_text_feed {S} `{IFmtOutput S} wide ext fmt args t (s : S) :
  fmt_text wide ext fmt args = Some t ->
  printf wide ext fmt args s = Some (let '(s', n, _) := feed t s in (fst (flush s'), n)).
Proof.
  unfold fmt_text. destruct (run_formatter wide ext fmt args ([] : CFmtString)) as [[t' n]|] eqn:E; [|done].
  intros [= ->]. destruct (run_formatter_feed wide ext fmt args t n s E) as [_ Hs].
  unfold printf. rewrite Hs. by destruct (feed t s) as [[s1 n1] ok].
Qed.

Lemma feed_string t (s : CFmtString) : feed t s = (s ++ t, Z.of_nat (length t), true).
Proof.
  revert s. induction t as [|c t IH]; intros s; cbn [feed]; [by rewrite app_nil_r|].
  change (putCh c s) with (s ++ [c], true). cbn beta iota. rewrite IH, <- app_assoc. cbn [app length]. do 2 f_equal. lia.
Qed.

(** The buffer after the text [T]: its beginning, as much as fits, and a zero. *)
Record fmt_buf_inv (sz : nat) (b : CFmtBufferWrap) (T : list Z) : Prop := {
  fb_size : length (bp b) = sz /\ (0 < sz)%nat;
  fb_pos : cp b = Nat.min (length T) (sz - 1);
  fb_text : take (cp b) (bp b) = take (sz - 1) T;
  fb_last : bp b !! (sz - 1)%nat = Some 0
}.

Lemma putCh_buffer sz b T c : fmt_buf_inv sz b T ->
  fmt_buf_inv sz (fst (putCh c b)) (T ++ [c]) /\ (snd (putCh c b) = true -> (length T < sz - 1)%nat) /\
  (snd (putCh c b) = false -> (sz - 1 <= length T)%nat).
Proof.
  intros [[H1 H1'] H2 H3 H4]. cbn [putCh CFmtBufferWrap_output]. unfold fmt_ep. rewrite H1.
  destruct (Nat.leb_spec (sz - 1) (cp b)) as [Hle|Hlt]; cbn [fst snd].
  - split_and!; [|done|lia]. constructor; [done| |..]; rewrite ?length_app; cbn [length]; [lia| |done].
    rewrite H3, take_app_le by lia. done.
  - split_and!; [|lia|done]. constructor; cbn [bp cp].
    + by rewrite length_insert.
    + rewrite length_app. cbn. lia.
    + erewrite take_S_r by (apply list_lookup_insert_eq; lia).
      rewrite take_insert_ge, H3 by lia. rewrite !take_ge by (rewrite ?length_app; cbn; lia). done.
    + by rewrite list_lookup_insert_ne by lia.
Qed.

Lemma feed_buffer sz t : forall b T, fmt_buf_inv sz b T ->
  fmt_buf_inv sz (fst (fst (feed t b))) (T ++ t).
Proof.
  induction t as [|c t IH]; intros b T Hb; cbn [feed]; [by rewrite app_nil_r|].
  destruct (putCh_buffer sz b T c Hb) as (Hb' & Ht & Hf). destruct (putCh c b) as [b1 []] eqn:E; cbn [fst snd] in *.
  - specialize (IH _ _ Hb'). rewrite <- app_assoc in IH. cbn [app] in IH. by destruct (feed t b1) as [[b2 n] ok].
  - specialize (Hf eq_refl). clear IH Ht. destruct Hb' as [H1 H2 H3 H4]. rewrite length_app in H2.
    constructor; [done| |..]; rewrite ?length_app; cbn [length] in *; [lia| |done].
    rewrite H3, !take_app_le by lia. done.
Qed.

Lemma flush_buffer sz b T : fmt_buf_inv sz b T ->
  fmt_buf_inv sz (fst (flush b)) T /\ bp (fst (flush b)) !! cp (fst (flush b)) = Some 0.
Proof.
  intros [[H1 H1'] H2 H3 H4]. cbn [flush CFmtBufferWrap_output fst]. unfold fmt_ep. rewrite H1.
  destruct (Nat.ltb_spec (cp b) (sz - 1)).
  - split; [constructor|]; cbn [bp cp]; rewrite ?length_insert; try done.
    + rewrite take_insert_ge by lia. done.
    + by rewrite list_lookup_insert_ne by lia.
    + apply list_lookup_insert_eq. lia.
  - split; [by constructor|]. replace (cp b) with (sz - 1)%nat by lia. done.
Qed.

Lemma clear_buffer buffer b : newCFmtBufferWrap buffer = Some b -> fmt_buf_inv (length buffer) b [].
Proof.
  unfold newCFmtBufferWrap, fmt_clear. destruct buffer as [|x buffer]; [done|]. intros [= <-].
  constructor; cbn [bp cp]; [rewrite !length_insert; cbn; lia|done|by rewrite take_nil|].
  cbn [length]. replace (S (length buffer) - 1)%nat with (length buffer) by lia.
  destruct buffer as [|y buffer]; [done|]. rewrite list_lookup_insert_ne by (cbn; lia).
  apply list_lookup_insert_eq. cbn. lia.
Qed.

(** The file: what was written and what waits. *)
Definition file_all (f : CFmtFile) : list Z := ff_file f ++ ff_buf f.

Lemma file_flush_ok f : ff_fwrite f = [] ->
  file_all (fst (file_flush f)) = file_all f /\ ff_buf (fst (file_flush f)) = [] /\
  ff_fwrite (fst (file_flush f)) = [] /\ snd (file_flush f) = true.
Proof.
  intros Hw. unfold file_flush, file_all. rewrite Hw. destruct (Nat.ltb_spec 0 (length (ff_buf f))) as [Hl|Hl]; cbn.
  - rewrite take_ge, app_nil_r, Nat.leb_refl by lia. done.
  - destruct (ff_buf f); [done|cbn in Hl; lia].
Qed.

Lemma feed_file t : forall f, ff_fwrite f = [] ->
  let '(f', n, ok) := feed t f in
  file_all f' = file_all f ++ t /\ ff_fwrite f' = [] /\ ok = true /\ n = Z.of_nat (length t).
Proof.
  induction t as [|c t IH]; intros f Hw; cbn [feed]; [by rewrite app_nil_r|].
  assert (exists f1, putCh c f = (f1, true) /\ file_all f1 = file_all f ++ [c] /\ ff_fwrite f1 = []) as (f1 & -> & Ha & Hw1).
  { cbn [putCh CFmtFile_output]. destruct (Nat.leb_spec FMT_FILE_BUFSZ (length (ff_buf f))).
    - destruct (file_flush_ok f Hw) as (H1 & H2 & H3 & H4). destruct (file_flush f) as [f' []]; [|done].
      cbn [fst] in *. eexists. split; [done|]. unfold file_all in *. cbn. rewrite H2 in *. cbn in *.
      rewrite app_nil_r in H1. by rewrite H1.
    - eexists. split; [done|]. unfold file_all. cbn. by rewrite app_assoc. }
  specialize (IH f1 Hw1). destruct (feed t f1) as [[f2 n] ok]. destruct IH as (-> & H2 & -> & ->).
  rewrite Ha, <- app_assoc. split_and!; [done|done|done|cbn; lia].
Qed.

(** ** The loop over the format ends *)
Lemma parse_flags_length fmt : forall sp, (length (snd (parse_flags fmt sp)) <= length fmt)%nat.
Proof.
  induction fmt as [|c fmt IH]; intros sp; cbn [parse_flags]; [done|].
  repeat (case_match; [by etrans; [apply IH|cbn; lia]|]). done.
Qed.

Lemma str_to_dec_loop_length str : forall n m r, str_to_dec_loop n str = Some (m, r) -> (length r <= length str)%nat.
Proof.
  induction str as [|c str IH]; intros n m r; cbn [str_to_dec_loop]; [by intros [= <- <-]|].
  case_match; [|by intros [= <- <-]]. cbv zeta. case_match; [|done]. intros Hr. apply IH in Hr. cbn. lia.
Qed.

Lemma tail_length (fmt : list Z) : (length (tail fmt) <= length fmt)%nat.
Proof. destruct fmt; cbn; lia. Qed.

Lemma parse_width_length fmt sp args sp' fmt' args' :
  parse_width fmt sp args = Some (sp', fmt', args') -> (length fmt' <= length fmt)%nat.
Proof.
  unfold parse_width. pose proof (tail_length fmt). case_match.
  - destruct (STR_TO_DEC fmt) as [[n r]|] eqn:E; [|done]. intros [= <- <- <-]. by eapply str_to_dec_loop_length.
  - case_match; [|by intros [= <- <- <-]]. destruct (va_int args) as [[w r]|]; [|done].
    cbn [mbind option_bind]. repeat case_match; by intros [= <- <- <-].
Qed.

Lemma parse_precision_length fmt sp args sp' fmt' args' :
  parse_precision fmt sp args = Some (sp', fmt', args') -> (length fmt' <= length fmt)%nat.
Proof.
  unfold parse_precision. pose proof (tail_length fmt). pose proof (tail_length (tail fmt)). case_match; [|by intros [= <- <- <-]].
  cbv zeta. case_match.
  - destruct (STR_TO_DEC (tail fmt)) as [[n r]|] eqn:E; [|done]. intros [= <- <- <-].
    apply str_to_dec_loop_length in E. lia.
  - case_match; [|by intros [= <- <- <-]]. destruct (va_int args) as [[w r]|]; [|done]. intros [= <- <- <-]. lia.
Qed.

Lemma parse_modifier_length fmt sp : (length (snd (parse_modifier fmt sp)) <= length fmt)%nat.
Proof.
  unfold parse_modifier. pose proof (tail_length fmt). pose proof (tail_length (tail fmt)).
  repeat case_match; cbn [snd]; lia.
Qed.

Lemma parse_spec_length fmt args sp fmt' args' :
  parse_spec fmt args = Some (sp, fmt', args') -> (length fmt' <= length fmt)%nat.
Proof.
  unfold parse_spec. intros Hp.
  assert (exists sp1 fmt1 args1, (length fmt1 <= length fmt)%nat /\ Some (let '(sp, f) := parse_modifier fmt1 sp1 in (sp, f, args1)) = Some (sp, fmt', args'))
    as (sp1 & fmt1 & args1 & Hl & [= Hm]).
  { destruct (negb (islower (cur fmt))).
    - destruct (parse_flags fmt spec_default) as [sp0 fmt0] eqn:E0. pose proof (parse_flags_length fmt spec_default) as H0.
      rewrite E0 in H0. cbn [snd] in H0. cbn [mbind option_bind] in Hp.
      destruct (parse_width fmt0 sp0 args) as [[[sp1 fmt1] args1]|] eqn:E1; [|done]. cbn [mbind option_bind] in Hp.
      destruct (parse_precision fmt1 sp1 args1) as [[[sp2 fmt2] args2]|] eqn:E2; [|done]. cbn [mbind option_bind] in Hp.
      apply parse_width_length in E1. apply parse_precision_length in E2. exists sp2, fmt2, args2. split; [lia|].
      by destruct (parse_modifier fmt2 sp2).
    - cbn [mbind option_bind] in Hp. exists spec_default, fmt, args. split; [done|]. by destruct (parse_modifier fmt spec_default). }
  pose proof (parse_modifier_length fmt1 sp1). destruct (parse_modifier fmt1 sp1). cbn [snd] in *. simplify_eq. lia.
Qed.

Lemma plain_fmt fmt i_num r cv : plain fmt i_num r = Some cv -> exists p a, cv = CvPiece p i_num a fmt.
Proof. unfold plain. destruct r as [[p a]|]; [|done]. cbn; intros E; injection E as <-. by exists p, a. Qed.

(** The conversion takes its character from the format. *)
Definition shorter (fmt : list Z) (cv : conversion) : Prop :=
  match cv with
  | CvPiece _ _ _ f | CvStore _ _ _ f => (length f < length fmt)%nat
  | CvEnd => True
  end.

Lemma convert_shorter wide ext sp i_num args fmt cv : convert wide ext sp i_num args fmt = Some cv -> shorter fmt cv.
Proof.
  unfold convert. destruct fmt as [|c rest]; [by cbn; intros E; injection E as <-|]. cbn [length].
  assert (Hp : forall i r cv, plain rest i r = Some cv -> shorter (c :: rest) cv).
  { intros i r cv' (p & a & ->)%plain_fmt. cbn. lia. }
  repeat (case_match; [try by eauto|]).
  all: try (by cbn; intros E; injection E as <-; cbn; lia).
  - destruct (conv_decimal wide sp true i_num args) as [[[p i] a]|]; [|done]. cbn; intros E; injection E as <-; cbn; lia.
  - destruct (conv_decimal wide sp false i_num args) as [[[p i] a]|]; [|done]. cbn; intros E; injection E as <-; cbn; lia.
  - destruct (va_int args) as [[v a]|]; [|done]. cbn; intros E; injection E as <-; cbn; lia.
  - case_match; try done. cbn; intros E; injection E as <-; cbn; lia.
  - intros (p & a & ->)%plain_fmt. cbn. lia.
Qed.

Lemma bind_ext {S A B} (m : FM S A) (k1 k2 : A -> FM S B) st :
  (forall a st, k1 a st = k2 a st) -> FM_bind _ _ k1 m st = FM_bind _ _ k2 m st.
Proof. intros Hk. unfold FM_bind. destruct (m st) as [st' []]; [apply Hk|done|done]. Qed.

Lemma vformat_loop_fuel {S} `{IFmtOutput S} wide ext fuel : forall fuel' fmt args i_num st,
  (length fmt < fuel)%nat -> (length fmt < fuel')%nat ->
  vformat_loop fuel wide ext fmt args i_num st = vformat_loop fuel' wide ext fmt args i_num st.
Proof.
  induction fuel as [|fuel IH]; intros [|fuel'] fmt args i_num st H1 H2; [lia..|]. cbn [vformat_loop].
  destruct fmt as [|c rest]; [done|]. cbn [length] in H1, H2. case_match; [done|].
  case_match; [apply bind_ext; intros _ st'; apply IH; lia|].
  destruct (parse_spec rest args) as [[[sp fmt] args1]|] eqn:Ep; [|done]. apply parse_spec_length in Ep.
  destruct (convert wide ext sp i_num args1 fmt) as [cv|] eqn:Ec; [|done]. apply convert_shorter in Ec.
  destruct cv; cbn in Ec; [| |done]; apply bind_ext; intros _ st'; apply IH; lia.
Qed.

(** ** The layout of a field

    The reference: sign, zeros and digits; blanks or zeros fill the width. *)
Definition field (sp : fmt_spec) (prefix : option Z) (pad : Z) (text : list Z) : list Z :=
  let pre := match prefix with Some c => [c] | None => [] end in
  let s := pre ++ text in
  match width sp, s with
  | Some w, _ :: _ =>
      let fill := Z.to_nat (w - Z.of_nat (length s)) in
      if adjust_left sp then s ++ replicate fill pad
      else if pad =? chr "0" then pre ++ replicate fill pad ++ text
      else replicate fill pad ++ s
  | _, _ => s
  end.

(** What a command does with the string as its output. *)
Definition writes {A} (m : FM CFmtString A) (t : list Z) (a : A) : Prop :=
  forall st, m st = (mkFmtState (out st ++ t) (cc st + Z.of_nat (length t)) (stores st), FOk a).

Lemma writes_ret {A} (a : A) : writes (FM_ret (S := CFmtString) A a) [] a.
Proof. intros [o n l]. cbn. by rewrite app_nil_r, Z.add_0_r. Qed.

Lemma writes_bind {A B} (m : FM CFmtString A) (k : A -> FM CFmtString B) t a t' b :
  writes m t a -> writes (k a) t' b -> writes (FM_bind _ _ k m) (t ++ t') b.
Proof.
  intros Hm Hk st. unfold FM_bind. rewrite Hm, Hk. cbn [out cc stores].
  by rewrite app_assoc, length_app, Nat2Z.inj_add, Z.add_assoc.
Qed.

Lemma writes_ins c : writes (INS_CHAR (S := CFmtString) c) [c] tt.
Proof. by intros [o n l]. Qed.

Lemma writes_string t : writes (ins_string (S := CFmtString) t) t tt.
Proof.
  induction t as [|c t IH]; [apply writes_ret|]. cbn [ins_string]. apply (writes_bind _ _ [c] tt t tt); [apply writes_ins|apply IH].
Qed.

Lemma writes_pad w len ch : len < w -> writes (PAD (S := CFmtString) w len ch) (replicate (Z.to_nat (w - len)) ch) tt.
Proof. intros Hw. unfold PAD. rewrite Z.max_r by lia. apply writes_string. Qed.

Lemma writes_eq {A} (m : FM CFmtString A) t t' a : t = t' -> writes m t a -> writes m t' a.
Proof. by intros ->. Qed.

Lemma print_piece_field sp p : p_place p <> InCharBuf -> (length (p_text p) < NUM_BUF_SIZE)%nat ->
  writes (print_piece (S := CFmtString) sp p) (field sp (p_prefix p) (p_pad p) (p_text p)) tt.
Proof.
  intros Hc Hl. unfold print_piece, is_char_buf. set (pre := match p_prefix p with Some c => [c] | None => [] end).
  assert ((match p_prefix p with
    | Some c => if match p_place p with InCharBuf => true | _ => false end then Some (p_text p) else push c (p_text p)
    | None => Some (p_text p) end) = Some (pre ++ p_text p)) as ->.
  { unfold pre, push. destruct (p_prefix p), (p_place p); try done; cbn [app]; by rewrite (proj2 (Nat.ltb_lt _ _) Hl). }
  unfold field. fold pre. cbv zeta. set (s := pre ++ p_text p).
  assert (Hplain : writes (FM_bind _ _ (fun s => FM_bind _ _ (fun _ => FM_ret _ tt) (ins_string s)) (FM_ret (S := CFmtString) _ s)) s tt).
  { apply (writes_eq _ ([] ++ (s ++ []))); [by rewrite app_nil_r|].
    apply (writes_bind _ _ _ s); [apply writes_ret|]. apply (writes_bind _ _ _ tt); [apply writes_string|apply writes_ret]. }
  destruct (width sp) as [w|]; cbn [default andb]; [|by apply Hplain].
  destruct s as [|c s'] eqn:Es; [by apply Hplain|].
  destruct (Z.ltb_spec 0 (Z.of_nat (length (c :: s')))) as [_|H0]; [|cbn in H0; lia]. cbn [andb].
  destruct (Z.ltb_spec (Z.of_nat (length (c :: s'))) w) as [Hw|Hw]; cbn [andb].
  2:{ replace (Z.to_nat (w - Z.of_nat (length (c :: s')))) with 0%nat by lia. cbn [replicate app].
      rewrite app_nil_r. unfold s in Es. rewrite Es. destruct (adjust_left sp), (p_pad p =? chr "0"); by apply Hplain. }
  destruct (adjust_left sp); cbn [negb].
  - apply (writes_eq _ ([] ++ ((c :: s') ++ replicate (Z.to_nat (w - Z.of_nat (length (c :: s')))) (p_pad p)))); [done|].
    apply (writes_bind _ _ _ (c :: s')); [apply writes_ret|].
    apply (writes_bind _ _ _ tt); [apply writes_string|by apply writes_pad].
  - destruct (Z.eqb_spec (p_pad p) (chr "0")) as [Hz|Hz]; cbn [andb].
    + unfold pre in *. destruct (p_prefix p) as [x|]; cbn [bool_decide] in *.
      * cbn [app] in s. unfold s in Es. injection Es as <- <-. rewrite bool_decide_eq_true_2 by done.
        set (r := replicate _ _). apply (writes_eq _ (([x] ++ (r ++ [])) ++ (p_text p ++ []))).
        { rewrite !app_nil_r. by rewrite <- app_assoc. }
        apply (writes_bind _ _ _ (p_text p)).
        -- apply (writes_bind _ _ _ tt); [apply writes_ins|]. apply (writes_bind _ _ _ tt); [|apply writes_ret].
           unfold r. replace (w - Z.of_nat (length (x :: p_text p))) with (w - 1 - (Z.of_nat (length (x :: p_text p)) - 1)) by lia.
           apply writes_pad. lia.
        -- apply (writes_bind _ _ _ tt); [apply writes_string|apply writes_ret].
      * cbn [app] in *. unfold s in Es. rewrite bool_decide_eq_false_2 by (intros H; by apply H). rewrite Es.
        set (r := replicate _ _). apply (writes_eq _ ((r ++ []) ++ ((c :: s') ++ []))); [by rewrite !app_nil_r|].
        apply (writes_bind _ _ _ (c :: s')).
        -- apply (writes_bind _ _ _ tt); [by apply writes_pad|apply writes_ret].
        -- apply (writes_bind _ _ _ tt); [apply writes_string|apply writes_ret].
    + set (r := replicate _ _). apply (writes_eq _ ((r ++ []) ++ ((c :: s') ++ []))); [by rewrite !app_nil_r|].
      apply (writes_bind _ _ _ (c :: s')).
      * apply (writes_bind _ _ _ tt); [by apply writes_pad|apply writes_ret].
      * apply (writes_bind _ _ _ tt); [apply writes_string|apply writes_ret].
Qed.

(** ** Reading a directive *)
Definition is_flag (c : Z) : bool :=
  (c =? chr "-") || (c =? chr "+") || (c =? chr "#") || (c =? chr " ") || (c =? chr "0").

Lemma parse_flags_app fl rest : forall sp, Forall (fun c => is_flag c = true) fl -> is_flag (cur rest) = false ->
  parse_flags (fl ++ rest) sp = (fst (parse_flags fl sp), rest).
Proof.
  unfold is_flag. induction fl as [|c fl IH]; intros sp Hf Hr.
  - cbn [app]. destruct rest as [|c rest]; [done|]. cbn [parse_flags cur] in *.
    rewrite !orb_false_iff in Hr. destruct Hr as [[[[-> ->] ->] ->] ->]. done.
  - inversion_clear Hf as [|? ? Hc Hfl]. cbn [app parse_flags].
    repeat (case_match; [by apply IH|]). done.
Qed.

Lemma digits_cur n ds : digits_of 10 n ds -> isdigit (cur (map dec_char ds)) = true /\ (0 < n -> cur (map dec_char ds) <> ch_0).
Proof.
  intros (Hv & Hd & Hc). destruct Hc as [->|(d & r & -> & Hd0)].
  - split; [done|]. intros Hn. by cbn in Hv; lia.
  - inversion_clear Hd as [|? ? Hdb _]. cbn [map cur]. destruct (dec_char_digit d Hdb) as [-> _].
    split; [done|]. intros _. unfold dec_char, ch_0. lia.
Qed.

Lemma cur_app (a b : list Z) : a <> [] -> cur (a ++ b) = cur a.
Proof. by destruct a. Qed.

Lemma digit_not_flag c : isdigit c = true -> c <> ch_0 -> is_flag c = false.
Proof.
  unfold isdigit, is_flag, ch_0, ch_9. rewrite andb_true_iff, !Z.leb_le. intros [H1 H2] Hc.
  rewrite !orb_false_iff, !Z.eqb_neq. chr_norm. lia.
Qed.

Lemma parse_spec_directive wide fl w p c args :
  long_width wide -> Forall (fun c => is_flag c = true) fl -> 0 < w < 2 ^ 31 -> 0 <= p < 2 ^ 31 ->
  c = chr "d" \/ c = chr "u" \/ c = chr "x" ->
  parse_spec (fl ++ dec wide w ++ [chr "."] ++ dec wide p ++ [c]) args =
    Some (fst (parse_flags fl spec_default) <| width := Some w |> <| precision := Some p |> <| var_type := IS_INT |>, [c], args).
Proof.
  intros Hw Hf Hwd Hp Hc. destruct (dec_digits wide w Hw) as (dw & Edw & Hdw); [lia|].
  destruct (dec_digits wide p Hw Hp) as (dp & Edp & Hdp). rewrite Edw, Edp.
  destruct (digits_cur _ _ Hdw) as [Hcw Hcw0]. destruct (digits_cur _ _ Hdp) as [Hcp _].
  assert (map dec_char dw <> []) as Hdw0 by (by intros E; rewrite E in Hcw).
  assert (map dec_char dp <> []) as Hdp0 by (by intros E; rewrite E in Hcp).
  set (rest := [chr "."] ++ map dec_char dp ++ [c]).
  assert (is_flag (cur (map dec_char dw ++ rest)) = false) as Hnf.
  { rewrite cur_app by done. apply digit_not_flag; [done|]. apply Hcw0. lia. }
  assert (negb (islower (cur (fl ++ map dec_char dw ++ rest))) = true) as Hlow.
  { destruct fl as [|f fl].
    - cbn [app]. rewrite cur_app by done. unfold isdigit, ch_0, ch_9 in Hcw. unfold islower.
      apply andb_true_iff in Hcw as [H1 H2]. apply negb_true_iff, andb_false_iff. left. apply Z.leb_gt. chr_norm. lia.
    - inversion_clear Hf as [|? ? Hf0 _]. cbn [app cur]. unfold is_flag in Hf0. unfold islower.
      rewrite !orb_true_iff, !Z.eqb_eq in Hf0. apply negb_true_iff, andb_false_iff. left. apply Z.leb_gt. chr_norm. lia. }
  assert (Hrest : no_digit rest) by done.
  unfold parse_spec. rewrite Hlow, (parse_flags_app _ _ _ Hf Hnf). cbn [mbind option_bind].
  unfold parse_width at 1. rewrite cur_app, Hcw by done. rewrite (str_to_dec_digits w dw rest Hdw) by (done || lia).
  cbn [mbind option_bind]. unfold parse_precision. unfold rest at 1. cbn [app cur]. rewrite Z.eqb_refl.
  cbn [rest tail app]. unfold rest. cbn [app tail]. rewrite cur_app, Hcp by done.
  rewrite (str_to_dec_digits p dp [c] Hdp) by (lia || (destruct Hc as [->|[->| ->]]; reflexivity)).
  cbn [mbind option_bind]. unfold parse_modifier. by destruct Hc as [->|[->| ->]].
Qed.

(** Zeros up to the precision. *)
Definition at_least (p : Z) (s : list Z) : list Z := replicate (Z.to_nat (p - Z.of_nat (length s))) ch_0 ++ s.

Lemma push_zeros_ok n : forall s, (n + length s <= NUM_BUF_SIZE)%nat -> push_zeros n s = Some (replicate n ch_0 ++ s).
Proof.
  induction n as [|n IH]; intros s Hl; [done|]. cbn [push_zeros]. unfold push.
  rewrite (proj2 (Nat.ltb_lt _ _)) by lia. cbn [mbind option_bind]. rewrite IH by (cbn; lia).
  f_equal. rewrite replicate_S_end, <- app_assoc. done.
Qed.

(** A precision beyond the number buffer runs over its front. *)
Lemma push_zeros_overflow n : forall s, (NUM_BUF_SIZE < n + length s)%nat -> (length s <= NUM_BUF_SIZE)%nat -> push_zeros n s = None.
Proof.
  induction n as [|n IH]; intros s Hn Hs; [lia|]. cbn [push_zeros]. unfold push.
  destruct (Nat.ltb_spec (length s) NUM_BUF_SIZE); [|done]. apply IH; cbn [length]; lia.
Qed.

Lemma FIX_PRECISION_ok p s : (length s <= NUM_BUF_SIZE)%nat -> p <= Z.of_nat NUM_BUF_SIZE ->
  FIX_PRECISION (Some p) s = Some (at_least p s).
Proof. intros Hs Hp. unfold FIX_PRECISION, at_least. apply push_zeros_ok. lia. Qed.

Lemma conv_10_signed wide v : long_width wide -> - 2 ^ 31 <= v < 2 ^ 31 ->
  conv_10 wide v false [] = (v <? 0, dec wide (Z.abs v)) /\ (length (dec wide (Z.abs v)) <= 20)%nat.
Proof.
  intros Hw Hv. destruct (int_width wide Hw) as [_ H0]. assert (- 2 ^ (wide - 1) <= v < 2 ^ (wide - 1)) as Hv' by lia.
  destruct (conv_10_spec wide v false [] Hw Hv') as (ds & E & _ & Hl). destruct (pow_width _ Hw) as (H1 & H2 & H3).
  assert (Hd : dec wide (Z.abs v) = snd (conv_10 wide v false [])).
  { unfold dec, conv_10. cbn [snd]. rewrite wrap_small by lia.
    destruct (Z.ltb_spec v 0); [rewrite magnitude_of_abs, Z.abs_neq by lia|rewrite wrap_small, Z.abs_eq by lia]; reflexivity. }
  rewrite Hd, E. cbn [snd negb andb]. split; [done|]. rewrite app_nil_r, length_map. done.
Qed.

Lemma writes_text wide ext fmt args t : writes (esl_vformatter (S := CFmtString) wide ext fmt args) t tt ->
  fmt_text wide ext fmt args = Some t.
Proof. intros Hw. unfold fmt_text, run_formatter. by rewrite Hw. Qed.

(** The flags of a directive and what they mean. *)
Definition directive (fl : list Z) (w p : Z) : fmt_spec :=
  fst (parse_flags fl spec_default) <| width := Some w |> <| precision := Some p |> <| var_type := IS_INT |>.

Lemma directive_writes wide ext fl w p c args pc i :
  long_width wide -> Forall (fun c => is_flag c = true) fl -> 0 < w < 2 ^ 31 -> 0 <= p < 2 ^ 31 ->
  c = chr "d" \/ c = chr "u" \/ c = chr "x" ->
  convert wide ext (directive fl w p) 0 args [c] = Some (CvPiece pc i [] []) ->
  p_place pc <> InCharBuf -> (length (p_text pc) < NUM_BUF_SIZE)%nat ->
  fmt_text wide ext (chr "%" :: fl ++ dec wide w ++ [chr "."] ++ dec wide p ++ [c]) args =
    Some (field (directive fl w p) (p_prefix pc) (p_pad pc) (p_text pc)).
Proof.
  intros Hw Hf Hwd Hp Hc Hconv Hpl Hl. apply writes_text. unfold esl_vformatter. cbn [vformat_loop].
  set (fuel := length _). change (chr "%" =? 0) with false. change (negb (chr "%" =? chr "%")) with false. cbn iota.
  unfold fuel. cbn [length]. rewrite (parse_spec_directive wide fl w p c args) by done. fold (directive fl w p).
  rewrite Hconv. set (f := field _ _ _ _). apply (writes_eq _ (f ++ [])); [apply app_nil_r|].
  apply (writes_bind _ _ _ tt); [by apply print_piece_field|].
  rewrite !app_assoc, length_app, Nat.add_1_r. apply writes_ret.
Qed.

Lemma at_least_length p s : (length s <= 20)%nat -> p < 512 -> (length (at_least p s) < NUM_BUF_SIZE)%nat.
Proof. intros Hs Hp. unfold at_least, NUM_BUF_SIZE. rewrite length_app, length_replicate. lia. Qed.

(** *** Decimal directives *)
Definition decimal_sign (fl : list Z) (w p v : Z) : option Z := sign_prefix (directive fl w p) (v <? 0).

Lemma convert_d wide ext fl w p v : long_width wide -> 0 <= p < 512 -> - 2 ^ 31 <= v < 2 ^ 31 ->
  convert wide ext (directive fl w p) 0 [VaInt v] [chr "d"] =
    Some (CvPiece (mkPiece InNumBuf (at_least p (dec wide (Z.abs v))) (decimal_sign fl w p v) (pad_char (directive fl w p)))
      v [] []).
Proof.
  intros Hw Hp Hv. destruct (conv_10_signed wide v Hw Hv) as [E Hl].
  change (convert wide ext (directive fl w p) 0 [VaInt v] [chr "d"]) with
    ('(pc, i_num, args) ← conv_decimal wide (directive fl w p) false 0 [VaInt v]; Some (CvPiece pc i_num args [])).
  unfold conv_decimal. change (var_type (directive fl w p)) with IS_INT. cbn [va_signed mbind option_bind is_quad].
  assert (s32 v = v) as -> by (apply (swrap_small 32); lia).
  destruct (int_width wide Hw) as [H1 H2]. assert (swrap wide v = v) as -> by (apply swrap_small; lia).
  rewrite E. cbn [mbind option_bind]. change (precision (directive fl w p)) with (Some p).
  rewrite FIX_PRECISION_ok by (unfold NUM_BUF_SIZE; lia). reflexivity.
Qed.

Lemma convert_d_overflow wide ext fl w p v : long_width wide -> 512 < p -> - 2 ^ 31 <= v < 2 ^ 31 ->
  convert wide ext (directive fl w p) 0 [VaInt v] [chr "d"] = None.
Proof.
  intros Hw Hp Hv. destruct (conv_10_signed wide v Hw Hv) as [E Hl].
  change (convert wide ext (directive fl w p) 0 [VaInt v] [chr "d"]) with
    ('(pc, i_num, args) ← conv_decimal wide (directive fl w p) false 0 [VaInt v]; Some (CvPiece pc i_num args [])).
  unfold conv_decimal. change (var_type (directive fl w p)) with IS_INT. cbn [va_signed mbind option_bind is_quad].
  assert (s32 v = v) as -> by (apply (swrap_small 32); lia).
  destruct (int_width wide Hw) as [H1 H2]. assert (swrap wide v = v) as -> by (apply swrap_small; lia).
  rewrite E. cbn [mbind option_bind]. change (precision (directive fl w p)) with (Some p). unfold FIX_PRECISION.
  rewrite push_zeros_overflow by (unfold NUM_BUF_SIZE; lia). reflexivity.
Qed.

(** ** Properties *)

(** C34: the outputs agree.  If the formats have texts (no undefined behaviour), then
    several calls of [printf] append exactly these texts to a string; leave in a buffer
    of [sz] bytes the first [sz - 1] characters of the texts followed by a zero, without
    writing outside it; and pass to a file all of them in order, with nothing left in
    the output's buffer after the last call. *)
Theorem printf_any_output wide ext l ts : Forall2 (fun '(fmt, args) t => fmt_text wide ext fmt args = Some t) l ts ->
  (forall s : CFmtString, printf_all wide ext l s = Some (s ++ concat ts)) /\
  (forall buffer b, newCFmtBufferWrap buffer = Some b -> exists b', printf_all wide ext l b = Some b' /\
     take (cp b') (bp b') = take (length buffer - 1) (concat ts) /\ bp b' !! cp b' = Some 0 /\
     length (bp b') = length buffer) /\
  (forall f, ff_fwrite f = [] -> exists f', printf_all wide ext l f = Some f' /\
     ff_file f' ++ ff_buf f' = ff_file f ++ ff_buf f ++ concat ts /\ (l <> [] -> ff_buf f' = [])).
Proof.
  intros Hl. split_and!.
  - induction Hl as [|[fmt args] t l ts Ht _ IH]; intros s; cbn [printf_all concat]; [by rewrite app_nil_r|].
    rewrite (fmt_text_feed _ _ _ _ _ s Ht), feed_string. cbn [mbind option_bind].
    rewrite app_assoc. apply IH.
  - intros buffer b Hb. apply clear_buffer in Hb as Hi.
    assert (H0 : bp b !! cp b = Some 0).
    { unfold newCFmtBufferWrap, fmt_clear in Hb. destruct buffer; [done|]. injection Hb as <-.
      cbn [bp cp]. apply list_lookup_insert_eq. rewrite length_insert. cbn. lia. }
    assert (H : forall T b, fmt_buf_inv (length buffer) b T -> bp b !! cp b = Some 0 -> exists b',
      printf_all wide ext l b = Some b' /\ fmt_buf_inv (length buffer) b' (T ++ concat ts) /\ bp b' !! cp b' = Some 0).
    { clear b Hb Hi H0. induction Hl as [|[fmt args] t l ts Ht _ IH]; intros T b Hi H0; cbn [printf_all concat].
      - exists b. by rewrite app_nil_r.
      - rewrite (fmt_text_feed _ _ _ _ _ b Ht). pose proof (feed_buffer _ t b T Hi) as Hf.
        destruct (feed t b) as [[b1 n] ok]. cbn [fst] in Hf. destruct (flush_buffer _ _ _ Hf) as [Hf1 Hf2].
        cbn [mbind option_bind]. rewrite app_assoc. by apply IH. }
    destruct (H [] b Hi H0) as (b' & -> & [[H1 _] H2 H3 _] & H4). exists b'. by rewrite H3.
  - intros f Hw. assert (H : exists f', printf_all wide ext l f = Some f' /\ file_all f' = file_all f ++ concat ts /\
      (l <> [] \/ ff_buf f = [] -> ff_buf f' = [])).
    { revert f Hw. induction Hl as [|[fmt args] t l ts Ht _ IH]; intros f Hw; cbn [printf_all concat].
      - exists f. rewrite app_nil_r. split_and!; [done|done|]. by intros [?|?].
      - rewrite (fmt_text_feed _ _ _ _ _ f Ht). pose proof (feed_file t f Hw) as Hf.
        destruct (feed t f) as [[f1 n] ok]. destruct Hf as (Ha & Hw1 & _). cbn [mbind option_bind].
        destruct (file_flush_ok f1 Hw1) as (Hb & Hb1 & Hb2 & _). change (fst (flush f1)) with (fst (file_flush f1)).
        destruct (IH _ Hb2) as (f' & -> & Hc & Hd). exists f'. rewrite Hc, Hb, Ha, <- app_assoc.
        split_and!; [done|done|intros _]. apply Hd. by right. }
    destruct H as (f' & -> & H1 & H2). exists f'. rewrite app_assoc. split_and!; [done|done|intros ?; apply H2; by left].
Qed.

(** Two calls into a buffer of eight bytes, of which the second one does not fit. *)
Definition ex_calls : list (list Z * list va_arg_t) :=
  [([chr "%"; chr "4"; chr "d"; chr ";"], [VaInt 12]); ([chr "%"; chr "x"; chr "!"], [VaInt 0xabcd])].

Lemma printf_any_output_witness : exists b b', newCFmtBufferWrap (repeat 0xAA 8) = Some b /\
  printf_all 64 no_extensions ex_calls b = Some b' /\
  take (cp b') (bp b') = [chr " "; chr " "; chr "1"; chr "2"; chr ";"; chr "a"; chr "b"].
Proof.
  destruct (printf_any_output 64 no_extensions ex_calls
    [[chr " "; chr " "; chr "1"; chr "2"; chr ";"]; [chr "a"; chr "b"; chr "c"; chr "d"; chr "!"]]) as (_ & H & _).
  { constructor; [vm_compute; reflexivity|]. constructor; [vm_compute; reflexivity|constructor]. }
  destruct (H (repeat 0xAA 8) (mkFmtBuffer [0; 0xAA; 0xAA; 0xAA; 0xAA; 0xAA; 0xAA; 0] 0)) as (b' & H1 & H2 & _); [reflexivity|].
  eexists. exists b'. split; [reflexivity|]. split; [exact H1|]. rewrite H2. reflexivity.
Defined.

(** The formatter always ends: the loop takes at least one character of the format
    in each round, so that more rounds than the format has characters change nothing,
    for every output, format and list of arguments. *)
Theorem vformat_loop_ends {S} `{IFmtOutput S} wide ext fmt args i_num st fuel : (length fmt < fuel)%nat ->
  vformat_loop fuel wide ext fmt args i_num st = vformat_loop (Datatypes.S (length fmt)) wide ext fmt args i_num st.
Proof. intros Hf. apply vformat_loop_fuel; lia. Qed.

Lemma vformat_loop_ends_witness :
  vformat_loop 100 64 no_extensions FMT_02x [VaInt 10] 0 (@mkFmtState CFmtString [] 0 []) =
  (mkFmtState [chr "0"; chr "a"] 2 [], FOk tt).
Proof. rewrite (vformat_loop_ends 64 no_extensions FMT_02x [VaInt 10] 0 _ 100); [reflexivity|cbn; lia]. Defined.

(** A decimal directive means what it says.  For every list of flags, width and
    precision written in the format, [%<flags><width>.<precision>d] prints the [int]
    with the sign that the flags ask for, with zeros up to the precision, filled to the
    width on the side and with the character that the flags ask for.  A precision up to
    511 fits the number buffer; one beyond 512 overflows it. *)
Theorem printf_decimal wide ext fl w p v :
  long_width wide -> Forall (fun c => is_flag c = true) fl -> 0 < w < 2 ^ 31 -> 0 <= p < 2 ^ 31 -> - 2 ^ 31 <= v < 2 ^ 31 ->
  let text := fmt_text wide ext (chr "%" :: fl ++ dec wide w ++ [chr "."] ++ dec wide p ++ [chr "d"]) [VaInt v] in
  (p < 512 -> text =
     Some (field (directive fl w p) (decimal_sign fl w p v) (pad_char (directive fl w p)) (at_least p (dec wide (Z.abs v))))) /\
  (512 < p -> text = None).
Proof.
  intros Hw Hf Hwd Hp Hv text. split; intros Hlt; unfold text.
  - destruct (conv_10_signed wide v Hw Hv) as [_ Hl].
    by rewrite (directive_writes wide ext fl w p _ _ _ _ Hw Hf Hwd Hp (or_introl eq_refl)
      (convert_d wide ext fl w p v Hw (conj (proj1 Hp) Hlt) Hv)) by (done || by apply at_least_length).
  - unfold fmt_text, run_formatter, esl_vformatter. cbn [vformat_loop].
    change (chr "%" =? 0) with false. change (negb (chr "%" =? chr "%")) with false. cbn iota.
    rewrite (parse_spec_directive wide fl w p _ _ Hw Hf Hwd Hp (or_introl eq_refl)). fold (directive fl w p).
    by rewrite convert_d_overflow.
Qed.

Lemma printf_decimal_witness :
  fmt_text 64 no_extensions (chr "%" :: [chr "0"; chr "+"] ++ dec 64 8 ++ [chr "."] ++ dec 64 3 ++ [chr "d"]) [VaInt 42] =
  Some [chr "+"; chr "0"; chr "0"; chr "0"; chr "0"; chr "0"; chr "4"; chr "2"].
Proof.
  destruct (printf_decimal 64 no_extensions [chr "0"; chr "+"] 8 3 42) as [H _].
  - right. reflexivity.
  - repeat constructor.
  - lia.
  - lia.
  - lia.
  - rewrite H; [vm_compute; reflexivity|lia].
Defined.

(** ** Departures from the C library's [printf] *)

(** [%#x] looks at the last decimal argument instead of its own. *)
Fact alternate_hex_stale :
  fmt_text 64 no_extensions [chr "%"; chr "#"; chr "x"] [VaInt 255] = Some [chr "f"; chr "f"] /\
  fmt_text 64 no_extensions [chr "%"; chr "d"; chr "%"; chr "#"; chr "x"] [VaInt 3; VaInt 255] =
    Some [chr "3"; chr "0"; chr "x"; chr "f"; chr "f"].
Proof. split; vm_compute; reflexivity. Qed.

(** An empty string is not padded. *)
Fact empty_field_not_padded :
  fmt_text 64 no_extensions [chr "%"; chr "5"; chr "s"] [VaStr (Some [])] = Some [].
Proof. vm_compute. reflexivity. Qed.

(** Zero is printed with the exponent -1, and infinity as 79 zeros. *)
Fact exponent_of_zero :
  fmt_text 64 no_extensions [chr "%"; chr "."; chr "1"; chr "e"] [VaDouble d0] =
    Some [chr "0"; chr "."; chr "0"; chr "e"; chr "-"; chr "0"; chr "1"].
Proof. vm_compute. reflexivity. Qed.

Fact infinity_as_zeros :
  fmt_text 64 no_extensions [chr "%"; chr "f"] [VaDouble (SpecFloat.S754_infinity false)] =
    Some (repeat (chr "0") 79 ++ [chr "."]).
Proof. vm_compute. reflexivity. Qed.
