(* ===== verification/Printing.v ===== *)
(** Printing of times, counters, addresses and buffers (common/common.cpp), on top of
    the formatter, and the functions that read addresses back. *)
From stdpp Require Import base numbers list option.
From Stdlib Require Import ZArith Lia Ascii.
From S2P Require Import Prelude Common FmtConv FmtFloat FmtOutput.

Local Open Scope Z_scope.

Section Platform.
Context (wide : Z) (ext : extension_table).

(** ** Times *)

(** What the program uses of [struct tm]. *)
Record tm : Set := mkTm { tm_year : Z; tm_mon : Z; tm_mday : Z; tm_hour : Z; tm_min : Z; tm_sec : Z }.

Definition FMT_2d : list Z := [chr "%"; chr "2"; chr "d"].
Definition FMT_02d : list Z := [chr "%"; chr "0"; chr "2"; chr "d"].
Definition FMT_03d : list Z := [chr "%"; chr "0"; chr "3"; chr "d"].

(** [convertToLocaltime] gives [locTime]; [msec] are milliseconds since the epoch. *)
Definition printTime {S} `{IFmtOutput S} (locTime : tm) (msec : Z) (fo : S) : option S :=
  fst <$> printf wide ext (FMT_2d ++ [chr ":"] ++ FMT_02d ++ [chr ":"] ++ FMT_02d ++ [chr "."] ++ FMT_03d)
    [VaInt (tm_hour locTime); VaInt (tm_min locTime); VaInt (tm_sec locTime); VaInt (Z.rem msec 1000)] fo.

Definition toStringElapsed (msec : Z) : option (list Z) :=
  let '(d, h, m, s, ms) := elapsedFields msec in
  fst <$> printf wide ext ([chr "%"; chr "d"; chr "-"] ++ FMT_02d ++ [chr ":"] ++ FMT_02d ++ [chr ":"] ++ FMT_02d ++
    [chr "."] ++ FMT_03d) [VaInt d; VaInt h; VaInt m; VaInt s; VaInt ms] ([] : CFmtString).

(** An integer in an [ostream] with the fill character 0: [setw] pads on the left. *)
Definition os_int (w : Z) (v : Z) : list Z :=
  let '(is_negative, s) := conv_10 64 v false [] in
  let s := (if is_negative then [chr "-"] else []) ++ s in
  replicate (Z.to_nat (w - Z.of_nat (length s))) ch_0 ++ s.

Definition dateTime (sep : Z) (locTime : tm) (msec : Z) : list Z :=
  os_int 0 (tm_year locTime + 1900) ++ [chr "-"] ++ os_int 2 (tm_mon locTime + 1) ++ [chr "-"] ++ os_int 2 (tm_mday locTime) ++
  [sep] ++ os_int 2 (tm_hour locTime) ++ [chr ":"] ++ os_int 2 (tm_min locTime) ++ [chr ":"] ++ os_int 2 (tm_sec locTime) ++
  [chr "."] ++ os_int 3 (Z.rem msec 1000).

Definition toString_time (locTime : tm) (msec : Z) : list Z := dateTime (chr " ") locTime msec.

(** [tz]: seconds east of Greenwich. *)
Definition toStringISO (locTime : tm) (tz msec : Z) : list Z :=
  let sig := if tz <? 0 then chr "-" else chr "+" in
  let tz := if tz <? 0 then - tz else tz in
  dateTime (chr "T") locTime msec ++ [sig] ++ os_int 2 (Z.quot tz 3600) ++ [chr ":"] ++
  os_int 2 (Z.quot (Z.rem tz 3600) 60).

(** ** Buffers and addresses *)
Fixpoint printHex_loop {S} `{IFmtOutput S} (ar : list Z) (first : bool) (div : Z) (fo : S) : option S :=
  match ar with
  | [] => Some fo
  | b :: ar =>
      fo ← (if first then Some fo else fst <$> printf wide ext [chr "%"; chr "c"] [VaInt div] fo);
      '(fo, _) ← printf wide ext FMT_02x [VaInt b] fo;
      printHex_loop ar false div fo
  end.
Definition printHex {S} `{IFmtOutput S} (fo : S) (ar : list Z) (div : Z) : option S := printHex_loop ar true div fo.

Definition dumpToString (data : list Z) (d : Z) : option (list Z) :=
  printDump wide ext data (c_str [d; 0]) None None ([] : CFmtString).

Definition macToString (mac : list Z) : option (list Z) := dumpToString (take MAC_LENGTH mac) (chr "-").

(** [operator<<] of [show_hex]: [buf] are the bytes that [new char] returned. *)
Definition show_hex (ar : list Z) (div : Z) (buf : list Z) : option (list Z) :=
  wb ← newCFmtBufferWrap buf;
  wb ← printDump wide ext ar (c_str [div; 0]) None None wb;
  Some (fmt_str wb).

Definition printAsn {S} `{IFmtOutput S} (asn : Z) (fo : S) : option S :=
  fst <$> printf wide ext [chr "%"; chr "l"; chr "l"; chr "d"] [VaQuad asn] fo.
End Platform.

(** ** The text of a buffer *)
Definition hex2 (b : Z) : list Z := [low_digits (b / 16); low_digits (b mod 16)].
Definition dump_text (data : list Z) (div : Z) : list Z := join [div] (map hex2 data).

Lemma bytes_enum {A} (f g : Z -> A) :
  map f (map Z.of_nat (seq 0 256)) = map g (map Z.of_nat (seq 0 256)) -> forall b, is_byte b -> f b = g b.
Proof.
  intros H b Hb. apply (ext_in_map H). apply in_map_iff. exists (Z.to_nat b).
  unfold is_byte in Hb. split; [lia|]. apply in_seq. lia.
Qed.

Lemma fmt_02x_text wide ext b : long_width wide -> is_byte b -> fmt_text wide ext FMT_02x [VaInt b] = Some (hex2 b).
Proof.
  intros Hw. apply (bytes_enum (fun b => fmt_text wide ext FMT_02x [VaInt b]) (fun b => Some (hex2 b))).
  destruct Hw as [->| ->]; vm_compute; reflexivity.
Qed.

(** A separator of one character prints itself. *)
Definition is_sep (d : Z) : Prop := d <> 0 /\ d <> chr "%".

Lemma sep_text wide ext d : is_sep d -> fmt_text wide ext [d] [] = Some [d].
Proof.
  intros [H1 H2]. apply writes_text. unfold esl_vformatter. cbn [length vformat_loop].
  destruct (Z.eqb_spec d 0); [done|]. destruct (Z.eqb_spec d (chr "%")); [done|]. cbn [negb].
  apply (writes_bind _ _ [d] tt [] tt); [apply writes_ins|apply writes_ret].
Qed.

Lemma noflush_feed {S} `{IFmtOutput S} wide ext fmt args t (s : S) :
  fmt_text wide ext fmt args = Some t ->
  printfNoFlush_p wide ext fmt args s = Some (let '(s', n, _) := feed t s in (s', n)).
Proof.
  unfold fmt_text, printfNoFlush_p. destruct (run_formatter wide ext fmt args ([] : CFmtString)) as [[t' n]|] eqn:E; [|done].
  intros [= ->]. by destruct (run_formatter_feed wide ext fmt args t n s E) as [_ Hs].
Qed.

Definition feed_st {S} `{IFmtOutput S} (t : list Z) (s : S) : S := fst (fst (feed t s)).

Lemma noflush_st {S} `{IFmtOutput S} wide ext fmt args t (s : S) : fmt_text wide ext fmt args = Some t ->
  exists n, printfNoFlush_p wide ext fmt args s = Some (feed_st t s, n).
Proof.
  intros Ht. rewrite (noflush_feed _ _ _ _ _ s Ht). unfold feed_st. destruct (feed t s) as [[s' n] ok]. by exists n.
Qed.

(** A dump is put piece by piece. *)
Fixpoint dump_pieces (array : list Z) (first : bool) (sep : list Z) : list (list Z) :=
  match array with
  | [] => []
  | b :: r => (if first then [] else sep) :: hex2 b :: dump_pieces r false sep
  end.

Definition feeds {S} `{IFmtOutput S} (ts : list (list Z)) (s : S) : S := fold_left (fun s t => feed_st t s) ts s.

Lemma dump_loop_feeds {S} `{IFmtOutput S} wide ext sep array : long_width wide -> is_sep sep -> Forall is_byte array ->
  forall first (s : S), dump_loop wide ext array first [sep] s = Some (feeds (dump_pieces array first [sep]) s).
Proof.
  intros Hw Hs. induction 1 as [|b array Hb _ IH]; intros first s; [done|]. cbn [dump_loop dump_pieces].
  assert ((if first then Some s else fst <$> printfNoFlush_p wide ext [sep] [] s) =
    Some (feed_st (if first then [] else [sep]) s)) as ->.
  { destruct first; [done|]. by destruct (noflush_st _ _ _ _ _ s (sep_text wide ext sep Hs)) as [n ->]. }
  cbn [mbind option_bind]. set (s1 := feed_st _ s).
  destruct (noflush_st _ _ _ _ _ s1 (fmt_02x_text wide ext b Hw Hb)) as [n ->]. cbn [mbind option_bind].
  rewrite IH. done.
Qed.

Lemma dump_pieces_text array sep : forall first,
  concat (dump_pieces array first [sep]) = (if first then [] else match array with [] => [] | _ => [sep] end) ++ dump_text array sep.
Proof.
  unfold dump_text. induction array as [|b array IH]; intros first; [by destruct first|]. cbn [dump_pieces concat map join].
  rewrite IH. destruct array as [|b' array]; [by destruct first|]. cbn [map]. by destruct first.
Qed.

Lemma feeds_string ts (s : CFmtString) : feeds ts s = s ++ concat ts.
Proof.
  unfold feeds. revert s. induction ts as [|t ts IH]; intros s; cbn [fold_left concat]; [by rewrite app_nil_r|].
  rewrite IH. unfold feed_st. rewrite feed_string. cbn [fst]. by rewrite app_assoc.
Qed.

Lemma feeds_buffer sz ts : forall b T, fmt_buf_inv sz b T -> fmt_buf_inv sz (feeds ts b) (T ++ concat ts).
Proof.
  unfold feeds. induction ts as [|t ts IH]; intros b T Hb; cbn [fold_left concat]; [by rewrite app_nil_r|].
  rewrite app_assoc. by apply IH, feed_buffer.
Qed.

Lemma dumpToString_text wide ext data d : long_width wide -> is_sep d -> Forall is_byte data ->
  dumpToString wide ext data d = Some (dump_text data d).
Proof.
  intros Hw Hd Hb. unfold dumpToString, printDump. cbn [print_opt mbind option_bind].
  assert (c_str [d; 0] = [d]) as -> by (cbn; destruct (Z.eqb_spec d 0); [by destruct Hd|done]).
  rewrite (dump_loop_feeds _ _ _ _ Hw Hd Hb). cbn [mbind option_bind print_opt].
  rewrite feeds_string, dump_pieces_text. done.
Qed.

Lemma length_dump_text data d : data <> [] -> length (dump_text data d) = (3 * length data - 1)%nat.
Proof.
  unfold dump_text. induction data as [|b data IH]; [done|]. intros _. cbn [map join].
  destruct data as [|b' data]; [done|]. cbn [map] in *. rewrite !length_app, (IH ltac:(done)). cbn [length hex2]. lia.
Qed.

(** A digit is one of sixteen. *)
Lemma low_digits_facts d : 0 <= d < 16 ->
  isxdigit (low_digits d) = true /\ low_digits d <> 0 /\ isspace (low_digits d) = false /\ hexCh2bin (low_digits d) = d /\
  (if isdigit (low_digits d) then low_digits d - ch_0 else tolower (low_digits d) - ch_a + 10) = d /\ low_digits d <> ch_dash /\ low_digits d <> ch_colon.
Proof.
  intros Hd. assert (d = 0 \/ d = 1 \/ d = 2 \/ d = 3 \/ d = 4 \/ d = 5 \/ d = 6 \/ d = 7 \/ d = 8 \/ d = 9 \/
    d = 10 \/ d = 11 \/ d = 12 \/ d = 13 \/ d = 14 \/ d = 15) as Hcases by lia.
  repeat (destruct Hcases as [->|Hcases]; [by vm_compute|]). subst. by vm_compute.
Qed.

Lemma byte_nibbles b : is_byte b -> 0 <= b / 16 < 16 /\ 0 <= b mod 16 < 16 /\ b = b / 16 * 16 + b mod 16.
Proof. unfold is_byte. intros Hb. dlia. Qed.

(** ** Reading the text back *)
Lemma alter_mid {A} (f : A -> A) (a : list A) x b : alter f (length a) (a ++ x :: b) = a ++ f x :: b.
Proof. induction a as [|y a IH]; [done|]. cbn [length app]. change (y :: alter f (length a) (a ++ x :: b) = y :: a ++ f x :: b). by rewrite IH. Qed.

Definition hex_sep (d : Z) : Prop := d = ch_dash \/ d = ch_colon.

Lemma hex_sep_is_sep d : hex_sep d -> is_sep d.
Proof. by intros [->| ->]. Qed.

Lemma nibbles_add b : is_byte b -> u8 (Z.shiftl (u8 (Z.shiftl 0 4 + b / 16)) 4 + b mod 16) = b.
Proof. apply (bytes_enum (fun b => u8 (Z.shiftl (u8 (Z.shiftl 0 4 + b / 16)) 4 + b mod 16)) (fun b => b)). by vm_compute. Qed.

(** The two digits of a byte. *)
Lemma hexToBin_byte b rest pre post len : is_byte b -> (length pre < len)%nat ->
  hexToBin_loop (hex2 b ++ rest) (pre ++ 0 :: post) len (length pre) 0 false =
  hexToBin_loop rest (pre ++ b :: post) len (length pre) 2 true.
Proof.
  intros Hb Hl. destruct (byte_nibbles b Hb) as (H1 & H2 & H3).
  destruct (low_digits_facts _ H1) as (Hx1 & _ & _ & _ & Hv1 & _). destruct (low_digits_facts _ H2) as (Hx2 & _ & _ & _ & Hv2 & _).
  unfold hex2. cbn [app hexToBin_loop]. rewrite Hx1, Hx2, Hv1, Hv2, !orb_true_r. cbn [negb orb Nat.eqb andb].
  by rewrite (proj2 (Nat.ltb_lt _ _) Hl), !alter_mid, nibbles_add.
Qed.

Lemma hexToBin_sep d rest pRes len idx : hex_sep d ->
  hexToBin_loop (d :: rest) pRes len idx 2 true = hexToBin_loop rest pRes len (S idx) 0 false.
Proof. by intros [->| ->]. Qed.

Lemma hexToBin_dump d data : hex_sep d -> Forall is_byte data -> forall pre n, data <> [] ->
  hexToBin_loop (dump_text data d) (pre ++ replicate (length data + n) 0) (length pre + length data + n) (length pre) 0 false =
  ((length pre + length data)%nat, pre ++ data ++ replicate n 0).
Proof.
  intros Hd. unfold dump_text. induction 1 as [|b data Hb _ IH]; intros pre n Hne; [done|]. cbn [map join length Nat.add replicate].
  destruct data as [|b' data].
  - cbn [map length]. rewrite <- (app_nil_r (hex2 b)), hexToBin_byte by (done || lia). cbn. f_equal. lia.
  - cbn [map] in *. rewrite hexToBin_byte by (done || (cbn [length]; lia)).
    specialize (IH (pre ++ [b]) n ltac:(done)). rewrite length_app in IH. cbn [length] in IH |- *.
    replace (length pre + 1 + S (length data) + n)%nat with (length pre + S (S (length data)) + n)%nat in IH by lia.
    replace (length pre + 1 + S (length data))%nat with (length pre + S (S (length data)))%nat in IH by lia.
    rewrite <- !app_assoc in IH. cbn [app] in IH |- *. rewrite hexToBin_sep by done.
    replace (S (length pre)) with (length pre + 1)%nat by lia. exact IH.
Qed.

(** [hexStr2bin] reads from the last character. *)
Lemma nibbles_or b : is_byte b -> Z.lor (Z.lor 0 (b mod 16)) (u8 (Z.shiftl (b / 16) 4)) = b.
Proof. apply (bytes_enum (fun b => Z.lor (Z.lor 0 (b mod 16)) (u8 (Z.shiftl (b / 16) 4))) (fun b => b)). by vm_compute. Qed.

Lemma hexStr2bin_byte b rest pre post idx sub isDel :
  is_byte b -> (idx = Z.of_nat (length pre) /\ sub = 0) \/ (idx = Z.of_nat (length pre) + 1 /\ sub = 2) -> idx < 2 ^ 32 ->
  hexStr2bin_loop (rev (hex2 b) ++ rest) (pre ++ 0 :: post) idx sub isDel =
  hexStr2bin_loop rest (pre ++ b :: post) (Z.of_nat (length pre)) 2 false.
Proof.
  intros Hb Hidx Hi. destruct (byte_nibbles b Hb) as (H1 & H2 & H3).
  destruct (low_digits_facts _ H1) as (_ & _ & _ & Hv1 & _ & Hn1 & Hn1').
  destruct (low_digits_facts _ H2) as (_ & _ & _ & Hv2 & _ & Hn2 & Hn2').
  unfold hex2. cbn [rev app hexStr2bin_loop]. rewrite (proj2 (Z.eqb_neq _ _) Hn1), (proj2 (Z.eqb_neq _ _) Hn1'),
    (proj2 (Z.eqb_neq _ _) Hn2), (proj2 (Z.eqb_neq _ _) Hn2'), Hv1, Hv2. cbn [orb andb].
  rewrite !(proj2 (Z.eqb_neq _ 0xFF)) by lia. cbn [negb].
  assert ((sub =? 2) && (idx =? 0) = false /\ (if sub =? 2 then (u32 (idx - 1), 0) else (idx, sub)) = (Z.of_nat (length pre), 0)) as [-> ->].
  { destruct Hidx as [[-> ->]|[-> ->]]; cbn [Z.eqb Pos.eqb andb]; [done|]. rewrite u32_small by lia.
    split; [by apply Z.eqb_neq; lia|]. f_equal. lia. }
  change (0 =? 1) with false. change (0 + 1 =? 1) with true. change (0 + 1 =? 2) with false. cbn [andb].
  rewrite Nat2Z.id, !alter_mid, nibbles_or by done. done.
Qed.

Lemma dump_text_snoc data d b : data <> [] -> dump_text (data ++ [b]) d = dump_text data d ++ d :: hex2 b.
Proof.
  unfold dump_text. induction data as [|a data IH]; [done|]. intros _. destruct data as [|a' data]; [done|].
  cbn [app map join] in *. rewrite IH by done. by rewrite <- !app_assoc.
Qed.

Lemma hexStr2bin_dump d data : hex_sep d -> Forall is_byte data -> data <> [] -> Z.of_nat (length data) < 2 ^ 32 ->
  forall post idx sub isDel,
  (idx = Z.of_nat (length data) - 1 /\ sub = 0) \/ (idx = Z.of_nat (length data) /\ sub = 2) ->
  hexStr2bin_loop (rev (dump_text data d)) (replicate (length data) 0 ++ post) idx sub isDel = (true, data ++ post).
Proof.
  intros Hd. induction data as [|b data IH] using rev_ind; [done|]. intros [Hds Hb%Forall_inv]%Forall_app _ Hl post idx sub isDel Hi.
  rewrite length_app, Nat.add_1_r in *. rewrite replicate_S_end, <- !app_assoc. cbn [app].
  assert (Hidx : (idx = Z.of_nat (length (replicate (length data) 0)) /\ sub = 0) \/
    (idx = Z.of_nat (length (replicate (length data) 0)) + 1 /\ sub = 2)) by (rewrite length_replicate; lia).
  destruct (decide (data = [])) as [->|Hne].
  - cbn [length replicate] in Hidx, Hl. change (rev (dump_text ([] ++ [b]) d)) with (rev (hex2 b) ++ []).
    etransitivity; [apply (hexStr2bin_byte b [] [] post idx sub isDel Hb Hidx); cbn in *; lia|done].
  - rewrite dump_text_snoc, rev_app_distr by done. cbn [rev]. rewrite <- app_assoc.
    rewrite hexStr2bin_byte by (done || lia). cbn [app hexStr2bin_loop].
    assert ((d =? ch_dash) || (d =? ch_colon) = true) as -> by by destruct Hd as [->| ->].
    cbn [andb negb]. rewrite length_replicate. apply IH; [done|done|lia|]. by right.
Qed.

Lemma skipSpaces_dump d data : Forall is_byte data -> skipSpaces (dump_text data d) = dump_text data d.
Proof.
  intros Hb. unfold dump_text. destruct Hb as [|b data Hb _]; [done|]. destruct (byte_nibbles b Hb) as (H1 & _).
  destruct (low_digits_facts _ H1) as (_ & _ & Hs & _). cbn [map join]. destruct (map hex2 data); cbn; by rewrite Hs.
Qed.

(** The text has no zero in it. *)
Lemma c_str_app t rest : Forall (fun c => c <> 0) t -> c_str (t ++ 0 :: rest) = t.
Proof. induction 1 as [|c t Hc _ IH]; [done|]. cbn [app c_str]. destruct (Z.eqb_spec c 0); [done|]. by rewrite IH. Qed.

Lemma c_str_dump data d rest : d <> 0 -> Forall is_byte data -> c_str (dump_text data d ++ 0 :: rest) = dump_text data d.
Proof.
  intros Hd Hb. apply c_str_app. unfold dump_text.
  assert (Hx : forall b, is_byte b -> Forall (fun c => c <> 0) (hex2 b)).
  { intros b H. destruct (byte_nibbles b H) as (H1 & H2 & _). repeat constructor; by apply low_digits_facts. }
  induction Hb as [|b data Hb0 _ IH]; [constructor|]. cbn [map join]. destruct data as [|b' data]; [by apply Hx|].
  cbn [map] in *. apply Forall_app. split; [by apply Hx|]. by constructor.
Qed.

(** ** Properties *)

(** Addresses survive printing.  [dumpToString] of any bytes with a dash or a colon
    between them is read back by [hexToBin], which also returns their number and leaves
    the rest of its buffer zero, and, for the exact size, by [hexStr2bin]; so
    [macToString] of a MAC address is read back as that address by both. *)
Theorem dump_roundtrip wide ext data d n : long_width wide -> hex_sep d -> Forall is_byte data -> data <> [] ->
  exists text, dumpToString wide ext data d = Some text /\
    hexToBin text (length data + n) = (length data, data ++ replicate n 0) /\
    (Z.of_nat (length data) < 2 ^ 32 -> hexStr2bin text (Z.of_nat (length data)) = (true, data)).
Proof.
  intros Hw Hd Hb Hne. exists (dump_text data d).
  rewrite dumpToString_text by (done || by apply hex_sep_is_sep). split_and!; [done| |].
  - unfold hexToBin. rewrite skipSpaces_dump by done. apply (hexToBin_dump d data Hd Hb [] n Hne).
  - intros Hl. unfold hexStr2bin. rewrite Nat2Z.id, <- (app_nil_r (replicate _ _)), <- (app_nil_r data) at 1.
    assert (length data <> 0%nat) by by destruct data.
    rewrite app_nil_r at 1. rewrite hexStr2bin_dump; [by rewrite app_nil_r|done|done|done|done|].
    left. split; [|done]. apply u32_small. lia.
Qed.

Lemma dump_roundtrip_witness :
  macToString 32 no_extensions [0x00; 0x17; 0x0d; 0x00; 0x00; 0x30; 0xab; 0xcd] =
    Some (dump_text [0x00; 0x17; 0x0d; 0x00; 0x00; 0x30; 0xab; 0xcd] (chr "-")) /\
  exists text, dumpToString 32 no_extensions [0x00; 0x17; 0x0d; 0x00; 0x00; 0x30; 0xab; 0xcd] (chr "-") = Some text /\
    hexStr2bin text 8 = (true, [0x00; 0x17; 0x0d; 0x00; 0x00; 0x30; 0xab; 0xcd]).
Proof.
  split; [vm_compute; reflexivity|].
  destruct (dump_roundtrip 32 no_extensions [0x00; 0x17; 0x0d; 0x00; 0x00; 0x30; 0xab; 0xcd] (chr "-") 0) as (text & H1 & _ & H2).
  - left. reflexivity.
  - left. reflexivity.
  - repeat constructor; unfold is_byte; lia.
  - discriminate.
  - exists text. split; [exact H1|]. apply H2. cbn. lia.
Defined.

(** [show_hex] prints every byte of a buffer that is not empty, and its own buffer of
    three bytes per byte shown is exactly large enough; for an empty buffer it writes in
    front of an allocation of no bytes, which is undefined. *)
Theorem show_hex_text wide ext ar div buf : long_width wide -> hex_sep div -> Forall is_byte ar ->
  length buf = (length ar * 3)%nat ->
  show_hex wide ext ar div buf = if decide (ar = []) then None else Some (dump_text ar div).
Proof.
  intros Hw Hd Hb Hl. unfold show_hex. case_decide as Hne.
  - subst. by destruct buf.
  - destruct (newCFmtBufferWrap buf) as [wb|] eqn:E; [|by destruct buf, ar].
    apply clear_buffer in E. cbn [mbind option_bind]. unfold printDump. cbn [print_opt mbind option_bind].
    assert (c_str [div; 0] = [div]) as -> by by destruct Hd as [->| ->].
    rewrite (dump_loop_feeds _ _ _ _ Hw (hex_sep_is_sep _ Hd) Hb). cbn [mbind option_bind print_opt].
    pose proof (feeds_buffer _ (dump_pieces ar true [div]) _ _ E) as Hf. rewrite dump_pieces_text in Hf. cbn [app] in Hf.
    destruct (flush_buffer _ _ _ Hf) as [[_ Hp Ht _] H0]. set (b := fst (flush _)) in *. f_equal.
    assert (length (dump_text ar div) = length buf - 1)%nat as Hlen by (rewrite length_dump_text, Hl by done; lia).
    rewrite Hlen, Nat.min_id in Hp. rewrite (take_ge (dump_text ar div)) in Ht by lia.
    unfold fmt_str. rewrite <- (take_drop_middle _ _ _ H0), Ht. apply c_str_dump; [|done]. by destruct Hd as [->| ->].
Qed.

Lemma show_hex_text_witness :
  show_hex 32 no_extensions [0xab; 0xcd] (chr "-") (replicate 6 0) = Some (dump_text [0xab; 0xcd] (chr "-")) /\
  show_hex 32 no_extensions [] (chr "-") [] = None.
Proof.
  split.
  - refine (show_hex_text 32 no_extensions [0xab; 0xcd] (chr "-") (replicate 6 0) _ _ _ _).
    + left. reflexivity.
    + left. reflexivity.
    + repeat constructor; unfold is_byte; lia.
    + reflexivity.
  - refine (show_hex_text 32 no_extensions [] (chr "-") [] _ _ _ _).
    + left. reflexivity.
    + left. reflexivity.
    + constructor.
    + reflexivity.
Defined.
