(* ===== verification/Coupler.v ===== *)
(** The AP coupler (APInterface/APCoupler.cpp, APCoupler.h): joins the manager's
    client, the AP transport and the GPS, and runs the state machine that brings
    the AP into a defined state before each session with the manager.

    The handlers are commands over the coupler's state; what they do to the
    transport, the client, the GPS and the watchdog are events.  The state machine
    thread is a step function between its waits. *)
From stdpp Require Import base numbers list option strings.
From Stdlib Require Import ZArith Lia.
From S2P Require Import Prelude Gps Common ApcProto ApmProto ApmSerializer ApmTransport.

Local Open Scope Z_scope.

(** ** Constants *)
Definition SEND_TIME_TIMEOUT : Z := 60000.
Definition MAX_NUM_RESET : Z := 3.
Definition UTC_MIDNIGHT : Z := (23 * 60 + 59) * 60 + 59.
Definition AP_BLACKOUT : Z := UTC_MIDNIGHT - 30.
Definition LEAP_CHECK_TIME : Z := UTC_MIDNIGHT - 180.
Definition AP_BLACKOUT_DURATION : Z := 60.

Definition E_APM_BOOT : Z := 0x1.
Definition E_APM_REBOOT : Z := 0x2.
Definition E_APM_LOST : Z := 0x4.
Definition E_MNGR_CONNECT : Z := 0x8.
Definition E_MNGR_DISCONNECT : Z := 0x10.
Definition E_TIMEOUT : Z := 0x20.
Definition E_AP_RESET : Z := 0x40.
Definition E_AP_DISCONNECT : Z := 0x80.
Definition E_AP_END_BLACKOUT : Z := 0x100.
Definition E_STOP : Z := 0x200.

Definition CLOCKSOURCR_NONE : Z := 0xFF.
Definition MIN_VERSION : list Z := [1; 4; 0; 81].

(** [RETRY_INTERVAL] of apc_common.h. *)
Definition RETRY_INTERVAL : Z := 1000.

(** ** State *)

Record SAPMInfo : Set := mkAPMInfo {
  ai_mac : list Z;
  ai_swVersion : list Z;
  ai_appVersion : list Z;
  ai_clksource : Z;
  ai_networkId : Z;
  ai_apState : Z
}.
#[export] Instance SAPMInfo_eta : Eta SAPMInfo := fun s =>
  mkAPMInfo (ai_mac s) (ai_swVersion s) (ai_appVersion s) (ai_clksource s) (ai_networkId s) (ai_apState s).

Record gps_info_t : Set := mkGpsInfo { satellites_visible : Z; satellites_used : Z }.
#[export] Instance gps_info_t_eta : Eta gps_info_t := fun s => mkGpsInfo (satellites_visible s) (satellites_used s).

(** Parameters of [open]; the other parts are given or not. *)
Record cpl_param_t : Set := mkCplParam {
  cp_gps : bool;
  cp_gpsd_conn : bool;
  cp_resetBootTimeoutMsec : Z;
  cp_disconnectShortBootTimeoutMsec : Z;
  cp_disconnectLongBootTimeoutMsec : Z;
  cp_apClkSource : EAPClockSource
}.

(** Where the state machine thread is: at a wait, or at a call whose outcome it
    depends on. *)
Inductive sm_pc : Set :=
| PcNone                                       (** no thread *)
| PcBegin
| PcBlackout (timeoutMsec : Z)                 (** [waitEvents_p(0, ...)] *)
| PcWaitBoot (maxNumResets timeoutMsec : Z)    (** the loop of [prepareAP_p] *)
| PcClientStart
| PcRetryWait                                  (** [synchStop_p] after a failed start *)
| PcWaitConn
| PcWaitRun
| PcSynchStop (events : Z)
| PcStopWait (events : Z)                      (** [synchStop_p] at the end of a session *)
| PcFinal                                      (** [prepareAP_p(E_STOP)] *)
| PcDone.

#[export] Instance sm_pc_eq_dec : EqDecision sm_pc.
Proof. solve_decision. Defined.

Record CAPCoupler : Set := mkCoupler {
  m_apInfo : SAPMInfo;
  m_transport : bool;                  (** not null *)
  m_mngrClient : bool;
  m_gps : bool;
  m_apConnected : bool;
  m_hwResetTimeoutMsec : Z;
  m_disconnectTimeoutShortMsec : Z;
  m_disconnectTimeoutLongMsec : Z;
  m_apClkSource : EAPClockSource;
  m_gpsd_conn : bool;                  (** of [m_gps_start_param] *)
  m_cur_gps_status : gps_status_t;
  m_gps_info : gps_info_t;
  m_events : Z;
  m_smThread : sm_pc;
  m_blackoutStart : option Z;          (** microseconds; [SYSTIME_EMPTY] is [None] *)
  m_leapCheckTimer : option Z;         (** seconds until the pending wait ends *)
  m_pWDdClient : bool;
  m_isIntClkSrc : bool
}.
#[export] Instance CAPCoupler_eta : Eta CAPCoupler := fun c =>
  mkCoupler (m_apInfo c) (m_transport c) (m_mngrClient c) (m_gps c) (m_apConnected c)
    (m_hwResetTimeoutMsec c) (m_disconnectTimeoutShortMsec c) (m_disconnectTimeoutLongMsec c)
    (m_apClkSource c) (m_gpsd_conn c) (m_cur_gps_status c) (m_gps_info c) (m_events c)
    (m_smThread c) (m_blackoutStart c) (m_leapCheckTimer c) (m_pWDdClient c) (m_isIntClkSrc c).

Definition newCAPCoupler : CAPCoupler :=
  mkCoupler (mkAPMInfo (repeat 0 8) (repeat 0 5) (repeat 0 5) 0 0 0) false false false false 0 0 0 INTERNAL
    false GPS_ST_NO_DEVICE (mkGpsInfo 0 0) 0 PcNone None None false false.

(** ** Events *)
Inductive cpl_callback : Set := CcNone | CcSetClkSrcResponse | CcSetClkSrcErrorResponse.

(** Calls on the transport. *)
Inductive tr_call : Set :=
| TcInsertMsg (cmd : Z) (data : list Z) (isHighPriority : bool) (resCallback errResCallback : cpl_callback)
| TcSetAPMState (st : apm_flow_control_t)
| TcDisableJoin
| TcEnableJoin (netId : Z)
| TcDisconnectAP (isSynch : bool)
| TcHwResetAP
| TcEnableAbort
| TcDisableAbort
| TcStop.

(** Calls on the manager's client. *)
Inductive cl_call : Set :=
| ClStart | ClStop
| ClSendData (data : list Z)
| ClSendTxDone (txDone : ap_intf_txdone_t)
| ClSendTimeMap (timeMap : ap_time_map_t)
| ClSendGpsLock (lock : ap_int_gpslockstat_t)
| ClSendPause | ClSendResume | ClSendApLost.

Inductive cpl_event : Set :=
| CTransport (c : tr_call)
| CClient (c : cl_call)
| CGpsStart | CGpsStop
| CWatchdogDisconnect                     (** [STOP_FATAL_ERROR] *)
| CStopNode                               (** ["No AP-boot event"] *)
| CSleep (msec : Z)
| CNullDeref.                             (** a call through a null pointer *)

Notation CM := (M CAPCoupler cpl_event) (only parsing).

(** What a call meets: the system clock (microseconds), the leap seconds, whether
    the port is ready, the transport's answers, and its last response time. *)
Record CplEnv : Set := mkCplEnv {
  ce_now : Z;
  ce_leapSecs : Z;
  ce_isLeapDay : bool;
  ce_portReady : bool;
  ce_insert : apc_error_t;
  ce_lastRspTime : Z;
  ce_netId : Z
}.

(** ** Calls to the other components *)
Definition nullCheck (present : CAPCoupler -> bool) (e : cpl_event) : CM unit :=
  c ← get; emit (if present c then e else CNullDeref).

Definition transport (t : tr_call) : CM unit := nullCheck m_transport (CTransport t).
Definition mngrClient (t : cl_call) : CM unit := nullCheck m_mngrClient (CClient t).

(** A call on the transport if there is one; [dflt] is the result without it. *)
Definition insertMsgIf (env : CplEnv) (dflt : apc_error_t) (cmd : Z) (data : list Z) (hi : bool)
  (cb ecb : cpl_callback) : CM apc_error_t :=
  c ← get;
  if m_transport c then emit (CTransport (TcInsertMsg cmd data hi cb ecb)) ;; mret (ce_insert env)
  else mret dflt.

Definition upd_info (f : SAPMInfo -> SAPMInfo) : CM unit := modify (fun c => c <| m_apInfo := f (m_apInfo c) |>).

(** ** Messages to the AP *)
Definition sendCmd (env : CplEnv) (cmdId : Z) (data : list Z) (cb ecb : cpl_callback) : CM apc_error_t :=
  insertMsgIf env APC_ERR_INIT cmdId data false cb ecb.

(** The control structure in host order; the bit fields are in [bits]. *)
Record apsend_ctrl : Set := mkApSend {
  as_priority : Z; as_linkCtrl : Z; as_packetId : Z; as_frameId : Z; as_timeslot : Z; as_channel : Z; as_dest : Z
}.

(** The bytes of the packed structure; byte swaps of the multi-byte fields as in [sendApSend]. *)
Definition apsend_bytes (h : apsend_ctrl) : list Z :=
  le_bytes 1 (Z.lor (Z.land (as_priority h) 3) (Z.shiftl (Z.land (as_linkCtrl h) 1) 2)) ++
  le_bytes 2 (htons (as_packetId h)) ++ le_bytes 1 (as_frameId h) ++ le_bytes 4 (htonl (as_timeslot h)) ++
  le_bytes 1 (as_channel h) ++ le_bytes 2 (htons (as_dest h)).

Definition sendApSend (env : CplEnv) (h : apsend_ctrl) (data : list Z) : CM apc_error_t :=
  insertMsgIf env APC_ERR_INIT DN_API_LOC_CMD_AP_SEND (apsend_bytes h ++ data) false CcNone CcNone.

Definition sendSetParam (env : CplEnv) (paramId : Z) (data : list Z) (cb ecb : cpl_callback) : CM apc_error_t :=
  insertMsgIf env APC_ERR_INIT DN_API_LOC_CMD_SETPARAM (paramId :: data) false cb ecb.

Definition sendSetApClkSource (env : CplEnv) (clkSource : Z) (isResetAP : bool) : CM apc_error_t :=
  sendSetParam env DN_API_PARAM_AP_CLKSRC [clkSource] (if isResetAP then CcSetClkSrcResponse else CcNone)
    CcSetClkSrcErrorResponse.

Definition sendGetParam (env : CplEnv) (paramId : Z) : CM apc_error_t :=
  insertMsgIf env APC_OK DN_API_LOC_CMD_GETPARAM [paramId] false CcNone CcNone.

Definition sendGetApNetId (env : CplEnv) : CM apc_error_t := sendGetParam env DN_API_PARAM_NETID.
Definition sendGetApMoteInfo (env : CplEnv) : CM apc_error_t := sendGetParam env DN_API_PARAM_MOTEINFO.
Definition sendGetApAppInfo (env : CplEnv) : CM apc_error_t := sendGetParam env DN_API_PARAM_APPINFO.
Definition sendGetApStatus (env : CplEnv) : CM apc_error_t := sendGetParam env DN_API_PARAM_AP_STATUS.
Definition sendGetNetId (env : CplEnv) : CM apc_error_t := sendGetParam env DN_API_PARAM_NETID.
Definition sendGetApClkSource (env : CplEnv) : CM apc_error_t :=
  upd_info (fun i => i <| ai_clksource := CLOCKSOURCR_NONE |>) ;; sendGetParam env DN_API_PARAM_AP_CLKSRC.

(** The set-time structure with the clock [ce_now]; [utcTime] is in network order. *)
Definition set_time_bytes (env : CplEnv) (seqNum : Z) : list Z :=
  let seconds := s64 (Z.quot (ce_now env) 1000000 - ce_leapSecs env) in
  let useconds := u32 (Z.rem (ce_now env) 1000000) in
  le_bytes 1 DN_API_PARAM_TIME ++ le_bytes 1 seqNum ++
  le_bytes 8 (CONVERT_LL HOST_TO_NET (u64 seconds)) ++ le_bytes 4 (CONVERT_L HOST_TO_NET useconds).

Definition sendSetSystime (env : CplEnv) (seqNum : Z) : CM unit :=
  c ← get;
  when (m_transport c)
    (emit (CTransport (TcInsertMsg DN_API_LOC_CMD_SETPARAM (set_time_bytes env seqNum) true CcNone CcNone))).

(** ** Events of the state machine *)
Definition sendEvent_p (e : Z) : CM unit :=
  when (negb (Z.land e (Z.lor (Z.lor (Z.lor (Z.lor E_MNGR_DISCONNECT E_APM_LOST) E_APM_REBOOT) E_AP_DISCONNECT)
    E_AP_RESET) =? 0)) (transport TcDisableJoin) ;;
  modify (fun c => c <| m_events := Z.lor (m_events c) e |>).

(** ** Opening and starting *)
Definition open (param : cpl_param_t) : CM apc_error_t :=
  c ← get;
  if decide (m_smThread c = PcNone) then
    modify (fun c => c <| m_transport := true |> <| m_mngrClient := true |> <| m_gps := cp_gps param |>
      <| m_gpsd_conn := cp_gpsd_conn param |> <| m_gps_info := mkGpsInfo 0 0 |>
      <| m_hwResetTimeoutMsec := cp_resetBootTimeoutMsec param |>
      <| m_disconnectTimeoutShortMsec := cp_disconnectShortBootTimeoutMsec param |>
      <| m_disconnectTimeoutLongMsec := cp_disconnectLongBootTimeoutMsec param |>
      <| m_apClkSource := cp_apClkSource param |>) ;;
    mret APC_OK
  else mret APC_ERR_STATE.

Definition start : CM unit := modify (fun c => c <| m_smThread := PcBegin |>).

(** [stop] up to the join, and after it. *)
Definition stop_signal : CM unit :=
  c ← get; when (negb (bool_decide (m_smThread c = PcNone))) (sendEvent_p E_STOP).

Definition stop_rest : CM unit :=
  modify (fun c => c <| m_smThread := PcNone |>) ;;
  c ← get;
  when (m_gps c) (emit CGpsStop) ;;
  when (m_mngrClient c) (emit (CClient ClStop)) ;;
  when (m_transport c) (emit (CTransport TcStop)) ;;
  modify (fun c => c <| m_gps := false |> <| m_transport := false |> <| m_mngrClient := false |>).

(** ** Clock source *)

(** [CcSetClkSrcResponse] and [CcSetClkSrcErrorResponse]. *)
Definition handleSetClkSrcErrorResponse_p : CM unit :=
  c ← get; when (m_pWDdClient c) (emit CWatchdogDisconnect).
Definition handleSetClkSrcResponse_p : CM unit := transport TcHwResetAP.

(** The wait of at most 100 times 10 ms for [handleParamClkSrc] on the transport's
    thread; [arrives]: the source that arrives meanwhile. *)
Definition waitClkSource (arrives : option Z) : CM unit :=
  c ← get;
  match arrives with
  | Some v => when (ai_clksource (m_apInfo c) =? CLOCKSOURCR_NONE) (upd_info (fun i => i <| ai_clksource := v |>))
  | None => mret tt
  end.

Definition setClockSource_p (env : CplEnv) (arrives : option Z) (isIntClk : bool) : CM unit :=
  waitClkSource arrives ;;
  c ← get;
  let src := ai_clksource (m_apInfo c) in
  if src =? CLOCKSOURCR_NONE then transport TcHwResetAP
  else if bool_decide (m_apClkSource c = PPS) && (src =? DN_API_AP_CLK_SOURCE_PPS) then mret tt
  else
    let clkSrc := if bool_decide (m_apClkSource c = PPS) then DN_API_AP_CLK_SOURCE_PPS
                  else if negb (src =? DN_API_AP_CLK_SOURCE_AUTO) then DN_API_AP_CLK_SOURCE_AUTO
                  else CLOCKSOURCR_NONE in
    if negb (clkSrc =? CLOCKSOURCR_NONE) then
      upd_info (fun i => i <| ai_clksource := clkSrc |>) ;;
      _ ← sendSetApClkSource env clkSrc true; mret tt
    else
      let isIntClk := if bool_decide (m_apClkSource c = MNGRSET) then isIntClk
                      else bool_decide (m_apClkSource c = INTERNAL) in
      let v := if isIntClk then DN_API_AP_CLK_SOURCE_INTERNAL else DN_API_AP_CLK_SOURCE_NETWORK in
      upd_info (fun i => i <| ai_clksource := v |>) ;;
      _ ← sendSetApClkSource env v false; mret tt.

(** [setClockSrource], a request of the console. *)
Definition setClockSrource (newClkSrc : EAPClockSource) : CM unit :=
  c ← get;
  if decide (newClkSrc = m_apClkSource c) then mret tt
  else modify (fun c => c <| m_apClkSource := newClkSrc |>) ;; transport TcHwResetAP.

(** The names, compared in upper case. *)
Definition clkSrcStringToEnum (upperStr : string) : option EAPClockSource :=
  if String.eqb upperStr "GPS" then Some PPS else if String.eqb upperStr "AUTO" then Some MNGRSET else None.
Definition clkSrcEnumToString (clkSrc : EAPClockSource) : string :=
  match clkSrc with PPS => "GPS" | MNGRSET => "AUTO" | _ => "UNKNOWN" end.

(** ** Input from the manager's client *)
Definition connected (env : CplEnv) (arrives : option Z) (fl : Z) : CM unit :=
  let b := Z.land fl APC_FL_INTSYNCH_AP =? APC_FL_INTSYNCH_AP in
  modify (fun c => c <| m_isIntClkSrc := b |>) ;;
  setClockSource_p env arrives b ;;
  sendEvent_p E_MNGR_CONNECT.

Definition disconnected : CM unit :=
  modify (fun c => c <| m_isIntClkSrc := false |>) ;; sendEvent_p E_MNGR_DISCONNECT.

Definition dataRx (env : CplEnv) (hdr : ap_intf_sendhdr_t) (payload : list Z) : CM unit :=
  _ ← sendApSend env
    (mkApSend (priority_val (sh_priority hdr)) (if sh_isLinkInfoSpecified hdr then 1 else 0) (sh_txDoneId hdr)
      (sh_frId hdr) (sh_slot hdr) (sh_offset hdr) (sh_dst hdr)) payload;
  mret tt.

Definition transportIf (t : tr_call) : CM unit := c ← get; when (m_transport c) (emit (CTransport t)).

Definition resume : CM unit := transportIf (TcSetAPMState APM_FLOW_NORMAL).
Definition pause : CM unit := transportIf (TcSetAPMState APM_FLOW_PAUSE).
Definition offline : CM unit := transportIf (TcSetAPMState APM_FLOW_PAUSE).
Definition online : CM unit := transportIf (TcSetAPMState APM_FLOW_NORMAL).
Definition resetAP : CM unit := sendEvent_p E_AP_RESET.
Definition disconnectAP : CM unit := sendEvent_p E_AP_DISCONNECT.
Definition getTime : CM unit :=
  transportIf (TcInsertMsg DN_API_LOC_CMD_GETPARAM [DN_API_PARAM_TIME] false CcNone CcNone).

(** ** Input from the AP *)
Definition clientIf (t : cl_call) : CM unit := c ← get; when (m_mngrClient c) (emit (CClient t)).

Definition handleAPPause : CM unit := clientIf ClSendPause.
Definition handleAPResume : CM unit := clientIf ClSendResume.

Definition handleAPLost : CM unit :=
  modify (fun c => c <| m_apConnected := false |>) ;; clientIf ClSendApLost ;; sendEvent_p E_APM_LOST.

Definition handleAPBoot (env : CplEnv) : CM unit :=
  _ ← sendGetApClkSource env; _ ← sendGetNetId env;
  modify (fun c => c <| m_apConnected := true |>) ;;
  _ ← sendGetApMoteInfo env; _ ← sendGetApAppInfo env; _ ← sendGetApStatus env;
  sendEvent_p E_APM_BOOT ;;
  upd_info (fun i => i <| ai_apState := DN_API_ST_IDLE |>).

Definition handleAPReboot (env : CplEnv) : CM unit :=
  _ ← sendGetApClkSource env; _ ← sendGetNetId env;
  modify (fun c => c <| m_apConnected := true |>) ;;
  _ ← sendGetApMoteInfo env; _ ← sendGetApAppInfo env;
  sendEvent_p E_APM_REBOOT ;;
  upd_info (fun i => i <| ai_apState := DN_API_ST_IDLE |>).

(** [handleError] and [handleTimeIndication] only log. *)
Definition handleError (cmdId rc : Z) : CM unit := mret tt.
Definition handleTimeIndication (msg : list Z) : CM unit := mret tt.

Definition handleAPReceive (data : list Z) : CM unit := clientIf (ClSendData data).
Definition handleEvent (env : CplEnv) (msg : list Z) : CM unit := _ ← sendGetApStatus env; mret tt.

(** A field of bytes of a message. *)
Definition seg (l : layout) (f : string) (n : nat) (msg : list Z) : list Z := take n (drop (offsetof l f) msg).

Definition inBlackout (env : CplEnv) (c : CAPCoupler) : bool :=
  match m_blackoutStart c with
  | Some b => (b <? ce_now env) && (ce_now env <? b + AP_BLACKOUT_DURATION * 1000000)
  | None => false
  end.

Definition internalSync (c : CAPCoupler) : bool :=
  let src := ai_clksource (m_apInfo c) in
  (src =? DN_API_AP_CLK_SOURCE_INTERNAL) ||
  ((src =? DN_API_AP_CLK_SOURCE_AUTO) &&
   ((bool_decide (m_apClkSource c = MNGRSET) && m_isIntClkSrc c) || bool_decide (m_apClkSource c = INTERNAL))).

Definition handleReadyForTime (env : CplEnv) (msg : list Z) : CM unit :=
  c ← get;
  if inBlackout env c then mret tt
  else if internalSync c then sendSetSystime env 0
  else if ai_clksource (m_apInfo c) =? DN_API_AP_CLK_SOURCE_PPS then
    when (negb (m_gpsd_conn c)) (modify (fun c => c <| m_cur_gps_status := GPS_ST_SYNC |>)) ;;
    c ← get;
    when (bool_decide (m_cur_gps_status c = GPS_ST_SYNC))
      (sendSetSystime env (fld dn_api_loc_notif_ready_for_time_t "seqNum" msg))
  else mret tt.

Definition handleTXDone (msg : list Z) : CM unit :=
  let l := dn_api_loc_notif_txdone_t in
  clientIf (ClSendTxDone (mkTxDone (fld l "packetId" msg)
    (if fld l "status" msg =? 0 then APINTF_TXDONE_OK else APINTF_TXDONE_ERR))).

Definition handleParamMacAddress (msg : list Z) : CM unit :=
  upd_info (fun i => i <| ai_mac := seg dn_api_rsp_get_macaddr_t "macAddr" 8 msg |>).
Definition handleParamMoteInfo (msg : list Z) : CM unit :=
  upd_info (fun i => i <| ai_swVersion := seg dn_api_rsp_get_moteinfo_t "swVer" 5 msg |>).

(** The loop over the four parts: is the version too old? *)
Fixpoint tooOld (ver min : list Z) : bool :=
  match ver, min with
  | v :: ver, m :: min => if m <? v then false else if v <? m then true else tooOld ver min
  | _, _ => false
  end.

Definition app_version (msg : list Z) : list Z :=
  let l := dn_api_rsp_get_appinfo_t in
  [fld l "appVer.major" msg; fld l "appVer.minor" msg; fld l "appVer.patch" msg; ntohs (fld l "appVer.build" msg)].

Definition handleParamAppInfo (msg : list Z) : CM unit :=
  upd_info (fun i => i <| ai_appVersion := seg dn_api_rsp_get_appinfo_t "appVer.major" 5 msg |>) ;;
  c ← get;
  when (tooOld (app_version msg) MIN_VERSION && m_pWDdClient c) (emit CWatchdogDisconnect).

Definition handleParamApStatus (msg : list Z) : CM unit :=
  upd_info (fun i => i <| ai_apState := fld dn_api_rsp_get_apstatus_t "state" msg |>).

Definition handleParamClkSrc (msg : list Z) : CM unit :=
  upd_info (fun i => i <| ai_clksource := fld dn_api_rsp_get_ap_clksrc_t "apClkSrc" msg |>) ;;
  c ← get;
  when (m_gpsd_conn c)
    (nullCheck m_gps
       (if (ai_clksource (m_apInfo c) =? DN_API_AP_CLK_SOURCE_PPS) && bool_decide (m_apClkSource c = PPS)
        then CGpsStart else CGpsStop)).

Definition handleParamNetId (msg : list Z) : CM unit :=
  upd_info (fun i => i <| ai_networkId := fld dn_api_rsp_get_netid_t "netId" msg |>).

(** The time of the response is estimated as now less half the last round trip. *)
Definition handleParamGetTime (env : CplEnv) (msg : list Z) : CM unit :=
  c ← get;
  when (m_transport c && m_mngrClient c)
    (let systime := ce_now env - Z.quot (ce_lastRspTime env) 2 in
     emit (CClient (ClSendTimeMap (mkTimeMap (Z.quot systime 1000000) (u32 (Z.rem systime 1000000))
       (ntoh_asn (seg dn_api_rsp_get_time_t "asn" DN_ASN_SIZE msg) DN_ASN_SIZE)
       (fld dn_api_rsp_get_time_t "offset" msg))))).

(** All notifications of the serializer; the loss of the AP and its boot come through the transport. *)
Definition handleNotif (env : CplEnv) (n : apm_notif) : CM unit :=
  match n with
  | NAPReceive data => handleAPReceive data
  | NEvent msg => handleEvent env msg
  | NTimeIndication msg => handleTimeIndication msg
  | NReadyForTime msg => handleReadyForTime env msg
  | NTXDone msg => handleTXDone msg
  | NParamMacAddress msg => handleParamMacAddress msg
  | NParamMoteInfo msg => handleParamMoteInfo msg
  | NParamAppInfo msg => handleParamAppInfo msg
  | NParamClkSrc msg => handleParamClkSrc msg
  | NParamNetId msg => handleParamNetId msg
  | NParamGetTime msg => handleParamGetTime env msg
  | NParamApStatus msg => handleParamApStatus msg
  | NAPLost => handleAPLost
  | NAPBoot => handleAPBoot env
  | NError cmdId rc => handleError cmdId rc
  end.

(** ** Input from the GPS *)

(** The lock state is written to the AP as the four bytes of the enumeration. *)
Definition handleGPSStatusChanged (env : CplEnv) (newstatus : gps_status_t) : CM unit :=
  c ← get;
  when (m_gpsd_conn c)
    (modify (fun c => c <| m_cur_gps_status := newstatus |>) ;;
     when (m_transport c && m_mngrClient c && (ai_clksource (m_apInfo c) =? DN_API_AP_CLK_SOURCE_PPS)
           && ce_portReady env)
       (let lock := if decide (newstatus = GPS_ST_SYNC) then APINTF_GPS_LOCK else APINTF_GPS_NOLOCK in
        emit (CClient (ClSendGpsLock lock)) ;;
        emit (CTransport (TcInsertMsg DN_API_LOC_CMD_WRITE_GPS_STATUS (le_bytes 4 (gpslock_val lock)) false CcNone CcNone)))).

Definition handleSatellitesUsedChanged (used : Z) : CM unit :=
  modify (fun c => c <| m_gps_info := m_gps_info c <| satellites_used := used |> |>).
Definition handleSatellitesVisibleChanged (visible : Z) : CM unit :=
  modify (fun c => c <| m_gps_info := m_gps_info c <| satellites_visible := visible |> |>).

(** ** Leap seconds *)

(** [utcSec] and the result are seconds; the clock's second of the day is UTC's. *)
Definition secSinceMidnight_p (env : CplEnv) (utcSec : Z) (borrowDay : bool) : Z :=
  let res := utcSec - (Z.div (ce_now env) 1000000) mod 86400 in
  if (res <=? 0) && borrowDay then res + 24 * 60 * 60 else res.

Definition leapCheckingTimer_p (env : CplEnv) (error : bool) : CM unit :=
  if error then mret tt
  else
    (if ce_isLeapDay env then
       modify (fun c => c <| m_blackoutStart :=
         Some (ce_now env + secSinceMidnight_p env AP_BLACKOUT true * 1000000) |>)
     else modify (fun c => c <| m_blackoutStart := None |>)) ;;
    modify (fun c => c <| m_leapCheckTimer := Some (secSinceMidnight_p env LEAP_CHECK_TIME true) |>).

(** ** The state machine thread

    What ends a wait with [mask]: the events collected so far, all at once. *)
Inductive wait_result : Set := WStop | WEvents (e : Z) | WTimeout | WAgain.

Definition waitResult (mask : Z) (timed late : bool) (e : Z) : wait_result :=
  if negb (Z.land e E_STOP =? 0) then WStop
  else if negb (Z.land e mask =? 0) then WEvents e
  else if timed && (e =? 0) && late then WTimeout
  else WAgain.

(** One round of [waitEvents_p]: the thread wakes for an event, or, in a wait
    with a timeout ([timeoutMsec <> 0]), because the time is over ([late]). *)
Definition waitEvents_p (mask timeoutMsec : Z) (late : bool) : CM wait_result :=
  c ← get;
  let timed := negb (timeoutMsec =? 0) in
  if (m_events c =? 0) && negb (timed && late) then mret WAgain
  else
    modify (fun c => c <| m_events := 0 |>) ;;
    mret (waitResult mask timed late (m_events c)).

Definition setPc (pc : sm_pc) : CM unit := modify (fun c => c <| m_smThread := pc |>).

Definition BOOT_MASK : Z := Z.lor E_APM_BOOT E_APM_REBOOT.

(** [prepareAP_p] up to its first wait. *)
Definition prepareAP_p (e : Z) : CM unit :=
  c ← get;
  if negb (Z.land e E_STOP =? 0) then
    transport TcDisableAbort ;; transport TcDisableJoin ;; transport (TcDisconnectAP true) ;; setPc PcFinal
  else if negb (Z.land e BOOT_MASK =? 0) then setPc PcClientStart
  else
    transport TcDisableAbort ;;
    if negb (Z.land e E_APM_LOST =? 0) then
      transport TcHwResetAP ;; setPc (PcWaitBoot MAX_NUM_RESET (m_hwResetTimeoutMsec c))
    else
      transport (TcDisconnectAP true) ;;
      setPc (PcWaitBoot MAX_NUM_RESET
        (if negb (Z.land e E_AP_RESET =? 0) then m_disconnectTimeoutShortMsec c else m_disconnectTimeoutLongMsec c)).

(** [exeption_stop] reaches the thread function. *)
Definition stopped : CM unit := prepareAP_p E_STOP.

(** What moves the thread on: its first run, the end of a wait, the outcome of
    [m_mngrClient->start], and [m_mngrClient->isConnected] in [synchStop_p]. *)
Inductive sm_input : Set :=
| InGo
| InWake (late : bool)
| InStart (res : apc_error_t) (isConnected : bool)
| InStop (isConnected : bool).

Definition smThreadFun_p (env : CplEnv) : CM unit :=
  leapCheckingTimer_p env false ;; transport TcDisableJoin ;; prepareAP_p E_AP_RESET.

(** Waits of the session. *)
Definition CONN_MASK : Z :=
  Z.lor (Z.lor (Z.lor (Z.lor E_MNGR_CONNECT E_MNGR_DISCONNECT) E_APM_BOOT) E_APM_LOST) E_AP_RESET.
Definition RUN_MASK : Z :=
  Z.lor (Z.lor (Z.lor (Z.lor (Z.lor E_MNGR_DISCONNECT E_APM_LOST) E_APM_REBOOT) E_APM_BOOT) E_AP_DISCONNECT) E_AP_RESET.

(** The loop of [prepareAP_p] after a timeout. *)
Definition bootTimeout (maxNumResets timeoutMsec : Z) : CM unit :=
  if maxNumResets =? 0 then emit CStopNode
  else
    c ← get;
    transport TcHwResetAP ;; setPc (PcWaitBoot (maxNumResets - 1) (m_hwResetTimeoutMsec c)).

(** One step of the thread; inputs that do not fit its place change nothing. *)
Definition smStep (env : CplEnv) (i : sm_input) : CM unit :=
  c ← get;
  match m_smThread c, i with
  | PcBegin, InGo =>
      let sec := secSinceMidnight_p env AP_BLACKOUT false in
      if (sec <? 0) && ce_isLeapDay env then setPc (PcBlackout ((AP_BLACKOUT_DURATION + sec) * 1000))
      else smThreadFun_p env
  | PcBlackout t, InWake late =>
      r ← waitEvents_p 0 t late;
      match r with WStop => stopped | WAgain => mret tt | _ => smThreadFun_p env end
  | PcWaitBoot n t, InWake late =>
      r ← waitEvents_p BOOT_MASK t late;
      match r with
      | WStop => stopped
      | WAgain => mret tt
      | WTimeout => bootTimeout n t
      | WEvents _ => transport TcEnableAbort ;; setPc PcClientStart
      end
  | PcClientStart, InStart res isConnected =>
      mngrClient ClStart ;;
      if decide (res = APC_OK) then setPc PcWaitConn
      else
        mngrClient ClStop ;;
        if isConnected then setPc PcRetryWait else emit (CSleep RETRY_INTERVAL)
  | PcRetryWait, InWake late =>
      r ← waitEvents_p E_MNGR_DISCONNECT 1000 late;
      match r with
      | WStop => stopped
      | WAgain => mret tt
      | _ => emit (CSleep RETRY_INTERVAL) ;; setPc PcClientStart
      end
  | PcWaitConn, InWake late =>
      r ← waitEvents_p CONN_MASK 0 late;
      match r with
      | WStop => stopped
      | WEvents e =>
          if Z.lxor e E_MNGR_CONNECT =? 0 then transport (TcEnableJoin (ce_netId env)) ;; setPc PcWaitRun
          else setPc (PcSynchStop e)
      | _ => mret tt
      end
  | PcWaitRun, InWake late =>
      r ← waitEvents_p RUN_MASK 0 late;
      match r with
      | WStop => stopped
      | WEvents e => setPc (PcSynchStop e)
      | _ => mret tt
      end
  | PcSynchStop e, InStop isConnected =>
      mngrClient ClStop ;;
      if isConnected then setPc (PcStopWait e) else prepareAP_p e
  | PcStopWait e, InWake late =>
      r ← waitEvents_p E_MNGR_DISCONNECT 1000 late;
      match r with
      | WStop => stopped
      | WAgain => mret tt
      | _ => prepareAP_p e
      end
  | PcFinal, InWake late =>
      r ← waitEvents_p BOOT_MASK (m_disconnectTimeoutLongMsec c) late;
      match r with
      | WStop => setPc PcDone
      | WAgain => mret tt
      | _ => transport TcEnableAbort ;; setPc PcDone
      end
  | _, _ => mret tt
  end.

(** ** Operations *)
Inductive cpl_op : Set :=
| CoNotif (n : apm_notif)
| CoAPReboot
| CoAPPause | CoAPResume
| CoConnected (arrives : option Z) (fl : Z)
| CoDisconnected
| CoDataRx (hdr : ap_intf_sendhdr_t) (payload : list Z)
| CoResume | CoPause | CoOffline | CoOnline | CoResetAP | CoDisconnectAP | CoGetTime
| CoGps (st : gps_status_t) | CoSatUsed (n : Z) | CoSatVisible (n : Z)
| CoSetClkSrc (s : EAPClockSource)
| CoSetClkRsp | CoSetClkErr
| CoLeapTimer (error : bool)
| CoStop                            (** [stop] up to the join *)
| CoThread (i : sm_input).

Definition exec (env : CplEnv) (op : cpl_op) : CM unit :=
  match op with
  | CoNotif n => handleNotif env n
  | CoAPReboot => handleAPReboot env
  | CoAPPause => handleAPPause
  | CoAPResume => handleAPResume
  | CoConnected a f => connected env a f
  | CoDisconnected => disconnected
  | CoDataRx h d => dataRx env h d
  | CoResume => resume | CoPause => pause | CoOffline => offline | CoOnline => online
  | CoResetAP => resetAP | CoDisconnectAP => disconnectAP | CoGetTime => getTime
  | CoGps st => handleGPSStatusChanged env st
  | CoSatUsed n => handleSatellitesUsedChanged n
  | CoSatVisible n => handleSatellitesVisibleChanged n
  | CoSetClkSrc s => setClockSrource s
  | CoSetClkRsp => handleSetClkSrcResponse_p
  | CoSetClkErr => handleSetClkSrcErrorResponse_p
  | CoLeapTimer e => leapCheckingTimer_p env e
  | CoStop => stop_signal
  | CoThread i => smStep env i
  end.

Fixpoint execs (l : list (CplEnv * cpl_op)) : CM unit :=
  match l with [] => mret tt | (env, op) :: l => exec env op ;; execs l end.

(** ** Facts *)
Lemma execs_app l1 l2 c : execs (l1 ++ l2) c = (execs l1 ;; execs l2) c.
Proof.
  revert c. induction l1 as [|[env op] l1 IH]; intros c; [by rewrite (bind_pure _ _ c c tt)|]. cbn [app execs].
  rewrite !run_bind. unfold st_of, out_of, res_of in *. rewrite !IH, !run_bind. cbn [fst snd].
  unfold st_of, out_of, res_of. by rewrite app_assoc.
Qed.

Lemma bswap_le_bytes n v : 0 <= v < 256 ^ Z.of_nat n -> bswap n (le_val (le_bytes n (bswap n v))) = v.
Proof.
  intros Hv. rewrite le_val_le_bytes, Z.mod_small by (apply bswap_range). by apply bswap_involutive.
Qed.

Lemma le_val_small n v : 0 <= v < 256 ^ Z.of_nat n -> le_val (le_bytes n v) = v.
Proof. intros. rewrite le_val_le_bytes. by apply Z.mod_small. Qed.

(** The control structure as the AP reads it: fields in network order. *)
Record apsend_decoded (b : list Z) (h : apsend_ctrl) : Prop := {
  ad_priority : Z.land (fld dn_api_loc_apsend_ctrl_t "bits" b) 3 = as_priority h;
  ad_linkCtrl : Z.land (Z.shiftr (fld dn_api_loc_apsend_ctrl_t "bits" b) 2) 1 = as_linkCtrl h;
  ad_packetId : ntohs (fld dn_api_loc_apsend_ctrl_t "packetId" b) = as_packetId h;
  ad_frameId : fld dn_api_loc_apsend_ctrl_t "frameId" b = as_frameId h;
  ad_timeslot : ntohl (fld dn_api_loc_apsend_ctrl_t "timeslot" b) = as_timeslot h;
  ad_channel : fld dn_api_loc_apsend_ctrl_t "channel" b = as_channel h;
  ad_dest : ntohs (fld dn_api_loc_apsend_ctrl_t "dest" b) = as_dest h
}.

Lemma apsend_bytes_decoded h data :
  0 <= as_priority h < 4 -> 0 <= as_linkCtrl h < 2 -> 0 <= as_packetId h < 2 ^ 16 -> 0 <= as_frameId h < 2 ^ 8 ->
  0 <= as_timeslot h < 2 ^ 32 -> 0 <= as_channel h < 2 ^ 8 -> 0 <= as_dest h < 2 ^ 16 ->
  apsend_decoded (apsend_bytes h ++ data) h.
Proof.
  intros Hp Hl Hi Hf Ht Hc Hd.
  assert (Hbits : forall p l, 0 <= p < 4 -> 0 <= l < 2 ->
    let v := Z.lor (Z.land p 3) (Z.shiftl (Z.land l 1) 2) in 0 <= v < 256 /\ Z.land v 3 = p /\ Z.land (Z.shiftr v 2) 1 = l).
  { intros p l H1 H2. assert (p = 0 \/ p = 1 \/ p = 2 \/ p = 3) as [-> |[-> |[-> | ->]]] by lia;
      assert (l = 0 \/ l = 1) as [-> | ->] by lia; by vm_compute. }
  destruct (Hbits _ _ Hp Hl) as (B1 & B2 & B3).
  set (v := Z.lor _ _) in *. unfold apsend_bytes. fold v.
  split; unfold fld.
  - change (get_field _ _ _) with (le_val (le_bytes 1 v)). by rewrite le_val_small.
  - change (get_field _ _ _) with (le_val (le_bytes 1 v)). by rewrite le_val_small.
  - change (get_field _ _ _) with (le_val (le_bytes 2 (bswap 2 (as_packetId h)))). by apply bswap_le_bytes.
  - change (get_field _ _ _) with (le_val (le_bytes 1 (as_frameId h))). by apply le_val_small.
  - change (get_field _ _ _) with (le_val (le_bytes 4 (bswap 4 (as_timeslot h)))). by apply bswap_le_bytes.
  - change (get_field _ _ _) with (le_val (le_bytes 1 (as_channel h))). by apply le_val_small.
  - change (get_field _ _ _) with (le_val (le_bytes 2 (bswap 2 (as_dest h)))). by apply bswap_le_bytes.
Qed.

(** The prefix of a run that was quiet. *)
Lemma insertMsgIf_run env dflt cmd data hi cb ecb c :
  m_transport c = true ->
  insertMsgIf env dflt cmd data hi cb ecb c = (c, [CTransport (TcInsertMsg cmd data hi cb ecb)], ce_insert env).
Proof. intros H. unfold insertMsgIf. runM. by rewrite H. Qed.

Lemma transport_run t c : m_transport c = true -> transport t c = (c, [CTransport t], tt).
Proof. intros H. unfold transport, nullCheck. runM. by rewrite H. Qed.

Lemma mngrClient_run t c : m_mngrClient c = true -> mngrClient t c = (c, [CClient t], tt).
Proof. intros H. unfold mngrClient, nullCheck. runM. by rewrite H. Qed.

(** *** Setting the AP's time *)
Lemma set_time_decoded env seqNum :
  let secs := Z.quot (ce_now env) 1000000 - ce_leapSecs env in
  let b := set_time_bytes env seqNum in
  0 <= ce_now env -> 0 <= seqNum < 256 -> 0 <= secs < 2 ^ 63 ->
  fld dn_api_set_time_t "paramId" b = DN_API_PARAM_TIME /\ fld dn_api_set_time_t "seqNum" b = seqNum /\
  ntohll (fld dn_api_set_time_t "utcTime.seconds" b) = secs /\
  ntohl (fld dn_api_set_time_t "utcTime.useconds" b) = ce_now env mod 1000000 /\
  length b = sizeof dn_api_set_time_t.
Proof.
  intros secs b Hn Hs Hr. unfold b, set_time_bytes. fold secs.
  assert (Hsec : u64 (s64 secs) = secs).
  { rewrite u64_small; unfold s64, swrap; rewrite Z.mod_small; lia. }
  assert (Hus : u32 (Z.rem (ce_now env) 1000000) = ce_now env mod 1000000).
  { rewrite Z.rem_mod_nonneg by lia. apply u32_small. pose proof (Z.mod_pos_bound (ce_now env) 1000000). lia. }
  rewrite Hsec, Hus. unfold fld. split_and!; [done|..].
  - change (get_field _ _ _) with (le_val (le_bytes 1 seqNum)). by apply le_val_small.
  - change (get_field _ _ _) with (le_val (le_bytes 8 (htonll secs))). unfold ntohll.
    rewrite (htonll_bswap secs) by lia. rewrite htonll_bswap; [apply (bswap_le_bytes 8); lia|].
    rewrite le_val_le_bytes. apply Z.mod_pos_bound. lia.
  - change (get_field _ _ _) with (le_val (le_bytes 4 (htonl (ce_now env mod 1000000)))). apply (bswap_le_bytes 4).
    pose proof (Z.mod_pos_bound (ce_now env) 1000000). lia.
  - done.
Qed.

(** A command that sets the AP's time to the system clock, leap seconds taken off. *)
Definition sets_time (env : CplEnv) (seqNum : Z) (e : cpl_event) : Prop :=
  exists b, e = CTransport (TcInsertMsg DN_API_LOC_CMD_SETPARAM b true CcNone CcNone) /\
    fld dn_api_set_time_t "paramId" b = DN_API_PARAM_TIME /\ fld dn_api_set_time_t "seqNum" b = seqNum /\
    ntohll (fld dn_api_set_time_t "utcTime.seconds" b) * 1000000 + ntohl (fld dn_api_set_time_t "utcTime.useconds" b) =
      ce_now env - ce_leapSecs env * 1000000.

(** The clock of a call is after the epoch and its leap seconds. *)
Definition clock_ok (env : CplEnv) : Prop :=
  0 <= ce_leapSecs env <= Z.quot (ce_now env) 1000000 /\ 0 <= ce_now env < 2 ^ 63.

Lemma sendSetSystime_run env seqNum c :
  m_transport c = true -> clock_ok env -> 0 <= seqNum < 256 ->
  exists e, sendSetSystime env seqNum c = (c, [e], tt) /\ sets_time env seqNum e.
Proof.
  intros Ht [Hl Hn] Hs. eexists. split.
  - unfold sendSetSystime. runM. rewrite Ht. reflexivity.
  - eexists. split; [reflexivity|].
    assert (Hq : Z.quot (ce_now env) 1000000 = ce_now env / 1000000) by (apply Z.quot_div_nonneg; lia).
    destruct (set_time_decoded env seqNum) as (-> & -> & -> & -> & _).
    + lia.
    + done.
    + pose proof (Z.quot_le_upper_bound (ce_now env) 1000000 (ce_now env)). lia.
    + split_and!; try done. rewrite Hq. pose proof (Z.div_mod (ce_now env) 1000000). lia.
Qed.

Lemma readyForTime_cases env msg c :
  m_transport c = true -> clock_ok env -> 0 <= fld dn_api_loc_notif_ready_for_time_t "seqNum" msg < 256 ->
  let r := handleReadyForTime env msg in
  (out_of r c = [] \/ exists s e, out_of r c = [e] /\ sets_time env s e) /\
  (inBlackout env c = true -> out_of r c = []) /\
  (inBlackout env c = false -> internalSync c = true -> exists e, out_of r c = [e] /\ sets_time env 0 e).
Proof.
  intros Ht Hc Hs r. unfold r, handleReadyForTime. rewrite out_read.
  destruct (inBlackout env c); [by split_and!; [left| |]|].
  destruct (internalSync c).
  { destruct (sendSetSystime_run env 0 c Ht Hc ltac:(lia)) as (e & He & Hset). unfold out_of. rewrite He. cbn [fst snd].
    split_and!; [right; by eexists _, _|done|intros _ _; by eexists]. }
  split_and!; [|done|done]. destruct (_ =? DN_API_AP_CLK_SOURCE_PPS); [|by left].
  rewrite out_bind. set (c1 := st_of (when _ _) c).
  assert (Hc1 : m_transport c1 = true) by (unfold c1, when; by destruct (negb (m_gpsd_conn c))).
  replace (out_of (when _ _) c) with (@nil cpl_event) by (unfold when; by destruct (negb (m_gpsd_conn c))).
  rewrite out_read. cbn [app]. destruct (bool_decide _); [|by left]. right.
  destruct (sendSetSystime_run env _ c1 Hc1 Hc Hs) as (e & He & Hset). exists (fld dn_api_loc_notif_ready_for_time_t "seqNum" msg), e.
  unfold when, out_of. by rewrite He.
Qed.

(** The blackout begins at the next 23:59:29 UTC. *)
Lemma secSinceMidnight_next env utcSec :
  0 <= utcSec < 86400 ->
  let d := secSinceMidnight_p env utcSec true in
  0 < d <= 86400 /\ (ce_now env / 1000000 + d) mod 86400 = utcSec.
Proof.
  intros Hu d. unfold d, secSinceMidnight_p. set (n := ce_now env / 1000000).
  pose proof (Z.mod_pos_bound n 86400 ltac:(lia)). pose proof (Z.div_mod n 86400 ltac:(lia)) as Hn.
  destruct (Z.leb_spec (utcSec - n mod 86400) 0); cbn [andb].
  - split; [lia|]. replace (n + (utcSec - n mod 86400 + 24 * 60 * 60)) with (utcSec + (n / 86400 + 1) * 86400) by lia.
    rewrite Z.mod_add by lia. apply Z.mod_small. lia.
  - split; [lia|]. replace (n + (utcSec - n mod 86400)) with (utcSec + n / 86400 * 86400) by lia.
    rewrite Z.mod_add by lia. apply Z.mod_small. lia.
Qed.

(** *** The clock source *)
Definition set_clk (v : Z) (cb : cpl_callback) : cpl_event :=
  CTransport (TcInsertMsg DN_API_LOC_CMD_SETPARAM [DN_API_PARAM_AP_CLKSRC; v] false cb CcSetClkSrcErrorResponse).

(** The current source that the coupler wants of an AP that leaves the choice open. *)
Definition wanted_clk (s : EAPClockSource) (isInt : bool) : Z :=
  if (if bool_decide (s = MNGRSET) then isInt else bool_decide (s = INTERNAL))
  then DN_API_AP_CLK_SOURCE_INTERNAL else DN_API_AP_CLK_SOURCE_NETWORK.

Lemma setClockSource_run env b c :
  m_transport c = true ->
  let src := ai_clksource (m_apInfo c) in
  src <> CLOCKSOURCR_NONE ->
  exists i, setClockSource_p env None b c = (c <| m_apInfo := i |>,
    (if bool_decide (m_apClkSource c = PPS) then
       (if src =? DN_API_AP_CLK_SOURCE_PPS then [] else [set_clk DN_API_AP_CLK_SOURCE_PPS CcSetClkSrcResponse])
     else if src =? DN_API_AP_CLK_SOURCE_AUTO then [set_clk (wanted_clk (m_apClkSource c) b) CcNone]
     else [set_clk DN_API_AP_CLK_SOURCE_AUTO CcSetClkSrcResponse]), tt).
Proof.
  intros Ht src Hsrc. unfold setClockSource_p, waitClkSource, upd_info, sendSetApClkSource, sendSetParam, insertMsgIf. runM.
  fold src. rewrite (proj2 (Z.eqb_neq _ _) Hsrc). destruct c as [i ? ? ? ? ? ? ? s ? ? ? ? ? ? ? ? ?].
  cbn [m_transport m_apClkSource m_apInfo upd] in *. subst. unfold wanted_clk.
  destruct (bool_decide_reflect (s = PPS)) as [->|Hp]; cbn [andb].
  - destruct (src =? DN_API_AP_CLK_SOURCE_PPS); eexists; reflexivity.
  - destruct (src =? DN_API_AP_CLK_SOURCE_AUTO); cbn [negb Z.eqb]; eexists; reflexivity.
Qed.

(** A session's begin as far as the clock source is concerned. *)
Lemma connected_run env fl c :
  m_transport c = true -> ai_clksource (m_apInfo c) <> CLOCKSOURCR_NONE ->
  let b := Z.land fl APC_FL_INTSYNCH_AP =? APC_FL_INTSYNCH_AP in
  out_of (connected env None fl) c = out_of (setClockSource_p env None b) c /\
  m_transport (st_of (connected env None fl) c) = true /\
  m_apClkSource (st_of (connected env None fl) c) = m_apClkSource c /\
  m_gpsd_conn (st_of (connected env None fl) c) = m_gpsd_conn c /\
  m_gps (st_of (connected env None fl) c) = m_gps c.
Proof.
  intros Ht Hs b. unfold connected. fold b. set (c1 := c <| m_isIntClkSrc := b |>).
  assert (Hc1 : forall k : unit -> CM unit, (modify (fun c => c <| m_isIntClkSrc := b |>) ≫= k) c = k tt c1)
    by (intros k; by apply bind_pure).
  unfold out_of, st_of. rewrite Hc1. clear Hc1.
  destruct (setClockSource_run env b c1 Ht Hs) as [i Hr]. destruct (setClockSource_run env b c Ht Hs) as [i' Hr'].
  rewrite (bind_run _ _ _ _ _ _ Hr). unfold out_of, st_of. rewrite Hr'. cbn [fst snd].
  split_and!; [apply app_nil_r|exact Ht|done..].
Qed.

(** *** The thread: what the other operations leave alone *)
Definition is_enableJoin (e : cpl_event) : bool :=
  match e with CTransport (TcEnableJoin _) => true | _ => false end.

Definition no_join (e : cpl_event) : Prop := is_enableJoin e = false.

Definition count_joins (l : list cpl_event) : nat := length (filter (fun e => is_enableJoin e = true) l).

Section OtherOps.
Context (pc : sm_pc).
Notation I := (fun c => m_smThread c = pc).

Lemma nullCheck_keeps f e : no_join e -> keeps I no_join (nullCheck f e).
Proof. intros He. unfold nullCheck. keeps_auto. by destruct (f a). Qed.

Lemma transport_keeps t : no_join (CTransport t) -> keeps I no_join (transport t).
Proof. apply nullCheck_keeps. Qed.

Lemma sendEvent_keeps e : keeps I no_join (sendEvent_p e).
Proof. unfold sendEvent_p. keeps_auto; [by apply transport_keeps|done]. Qed.

Lemma insertMsgIf_keeps env dflt cmd data hi cb ecb : keeps I no_join (insertMsgIf env dflt cmd data hi cb ecb).
Proof. unfold insertMsgIf. by keeps_auto. Qed.

Lemma getParam_keeps env id : keeps I no_join (sendGetParam env id).
Proof. apply insertMsgIf_keeps. Qed.

Lemma clientIf_keeps t : keeps I no_join (clientIf t).
Proof. unfold clientIf. by keeps_auto. Qed.

Ltac other_auto :=
  repeat (cbv zeta; first
    [ apply sendEvent_keeps | apply insertMsgIf_keeps | apply getParam_keeps | apply clientIf_keeps
    | apply transport_keeps | apply nullCheck_keeps | keeps_step ]);
  try done.

Lemma setClockSource_keeps env a b : keeps I no_join (setClockSource_p env a b).
Proof.
  unfold setClockSource_p, waitClkSource, upd_info, sendSetApClkSource, sendSetParam. other_auto.
Qed.

Lemma boot_keeps env : keeps I no_join (handleAPBoot env) /\ keeps I no_join (handleAPReboot env).
Proof.
  unfold handleAPBoot, handleAPReboot, sendGetApClkSource, sendGetNetId, sendGetApMoteInfo, sendGetApAppInfo,
    sendGetApStatus, upd_info. split; other_auto.
Qed.

Lemma readyForTime_keeps env msg : keeps I no_join (handleReadyForTime env msg).
Proof. unfold handleReadyForTime, sendSetSystime. other_auto. Qed.

Lemma notif_keeps env n : keeps I no_join (handleNotif env n).
Proof.
  destruct n; cbn [handleNotif]; unfold handleEvent, sendGetApStatus, handleTimeIndication, handleAPReceive, handleTXDone,
    handleParamMacAddress, handleParamMoteInfo, handleParamAppInfo, handleParamClkSrc, handleParamNetId,
    handleParamGetTime, handleParamApStatus, handleAPLost, handleError, upd_info;
    repeat (apply readyForTime_keeps || apply (proj1 (boot_keeps env)) || other_auto).
  by destruct (_ && _).
Qed.

Lemma other_keeps env op : (forall i, op <> CoThread i) -> keeps I no_join (exec env op).
Proof.
  intros Hop. destruct op; cbn [exec]; try (by destruct (Hop i));
    unfold handleAPPause, handleAPResume, connected, disconnected, dataRx, sendApSend, resume, pause, offline, online,
      resetAP, disconnectAP, getTime, transportIf, handleGPSStatusChanged, handleSatellitesUsedChanged,
      handleSatellitesVisibleChanged, setClockSrource, handleSetClkSrcResponse_p, handleSetClkSrcErrorResponse_p,
      leapCheckingTimer_p, stop_signal;
    repeat (apply notif_keeps || apply (proj2 (boot_keeps env)) || apply setClockSource_keeps || other_auto).
Qed.
End OtherOps.

(** *** The thread's steps *)
Lemma count_joins_app l1 l2 : count_joins (l1 ++ l2) = (count_joins l1 + count_joins l2)%nat.
Proof. unfold count_joins. by rewrite filter_app, length_app. Qed.

Lemma count_joins_none l : Forall no_join l -> count_joins l = 0%nat.
Proof.
  induction 1 as [|e l He _ IH]; [done|]. unfold count_joins in *. rewrite filter_cons_False; [done|].
  unfold no_join in He. by rewrite He.
Qed.

Definition booted (e : Z) : nat := if Z.land e BOOT_MASK =? 0 then 0 else 1.

(** A boot of the AP that the thread has seen and not yet used to let it join. *)
Definition credit (pc : sm_pc) : nat :=
  match pc with
  | PcClientStart | PcRetryWait | PcWaitConn => 1
  | PcSynchStop e | PcStopWait e => booted e
  | _ => 0
  end.

Definition waiting (pc : sm_pc) : bool :=
  match pc with
  | PcBlackout _ | PcWaitBoot _ _ | PcRetryWait | PcWaitConn | PcWaitRun | PcStopWait _ | PcFinal => true
  | _ => false
  end.

(** The step takes notice of a boot. *)
Definition boot_seen (op : cpl_op) (c : CAPCoupler) : nat :=
  match op with
  | CoThread (InWake _) => if waiting (m_smThread c) then booted (m_events c) else 0
  | _ => 0
  end.

Fixpoint boots_seen (l : list (CplEnv * cpl_op)) (c : CAPCoupler) : nat :=
  match l with
  | [] => 0
  | (env, op) :: l => boot_seen op c + boots_seen l (st_of (exec env op) c)
  end.

(** Joins of a command and the credit it leaves are covered by [n]. *)
Definition costs (m : CM unit) (n : nat) (c : CAPCoupler) : Prop :=
  (count_joins (out_of m c) + credit (m_smThread (st_of m c)) <= n)%nat.

Lemma costs_quiet_bind (pc : sm_pc) (m : CM unit) (k : unit -> CM unit) n c :
  keeps (fun c => m_smThread c = pc) no_join m -> m_smThread c = pc ->
  (forall c', m_smThread c' = pc -> costs (k tt) n c') -> costs (m ≫= k) n c.
Proof.
  intros Hm Hc Hk. destruct (Hm c Hc) as [H1 H2]. unfold costs. rewrite out_bind, st_bind, count_joins_app.
  rewrite (count_joins_none _ H2). destruct (res_of m c). by apply Hk.
Qed.

Lemma costs_setPc pc n c : (credit pc <= n)%nat -> costs (setPc pc) n c.
Proof. done. Qed.

Lemma costs_ret n c : (credit (m_smThread c) <= n)%nat -> costs (mret tt) n c.
Proof. done. Qed.

Lemma costs_read (k : CAPCoupler -> CM unit) n c : costs (k c) n c -> costs (get ≫= k) n c.
Proof. unfold costs. by rewrite out_read, st_read. Qed.

Lemma costs_call (m : CM unit) (k : unit -> CM unit) n c :
  (forall pc, keeps (fun c => m_smThread c = pc) no_join m) ->
  (forall c', m_smThread c' = m_smThread c -> costs (k tt) n c') -> costs (m ≫= k) n c.
Proof. intros Hm Hk. by apply (costs_quiet_bind (m_smThread c)). Qed.

Lemma costs_emit e n c : no_join e -> (credit (m_smThread c) <= n)%nat -> costs (emit e) n c.
Proof. intros He Hn. unfold costs. rewrite count_joins_none; [done|by repeat constructor]. Qed.

Ltac call := apply costs_call; [intros ?; apply nullCheck_keeps; done|intros ? ?].

Lemma costs_prepare e n c : (booted e <= n)%nat -> costs (prepareAP_p e) n c.
Proof.
  intros Hn. unfold prepareAP_p. apply costs_read. unfold transport.
  destruct (negb (Z.land e E_STOP =? 0)); [repeat call; apply costs_setPc; cbn; lia|].
  unfold booted in Hn. destruct (Z.eqb_spec (Z.land e BOOT_MASK) 0); cbn [negb]; [|by apply costs_setPc].
  call. destruct (negb (Z.land e E_APM_LOST =? 0)); call; apply costs_setPc; cbn; lia.
Qed.

Lemma costs_stopped n c : costs stopped n c.
Proof. apply costs_prepare. change (0 <= n)%nat. lia. Qed.

Lemma leap_keeps env pc : keeps (fun c => m_smThread c = pc) no_join (leapCheckingTimer_p env false).
Proof. unfold leapCheckingTimer_p. by keeps_auto. Qed.

Lemma costs_thread env n c : costs (smThreadFun_p env) n c.
Proof.
  unfold smThreadFun_p, transport. apply costs_call; [intros pc; apply leap_keeps|intros c1 _]. call.
  apply costs_prepare. change (0 <= n)%nat. lia.
Qed.

(** A wait: what it returns, and that it clears the events. *)
Lemma costs_wait mask t late (k : wait_result -> CM unit) n c :
  (n = credit (m_smThread c) + (if waiting (m_smThread c) then booted (m_events c) else 0))%nat ->
  waiting (m_smThread c) = true ->
  (forall c', m_smThread c' = m_smThread c -> costs (k WStop) n c' /\ costs (k WTimeout) n c' /\ costs (k WAgain) n c') ->
  (forall c', m_smThread c' = m_smThread c -> negb (Z.land (m_events c) mask =? 0) = true -> costs (k (WEvents (m_events c))) n c') ->
  costs (waitEvents_p mask t late ≫= k) n c.
Proof.
  intros Hn Hw H1 H2.
  assert (Hr : exists c' r, waitEvents_p mask t late c = (c', [], r) /\ m_smThread c' = m_smThread c /\
    (r = WEvents (m_events c) -> negb (Z.land (m_events c) mask =? 0) = true) /\
    (forall e, r = WEvents e -> e = m_events c)).
  { unfold waitEvents_p. runM. destruct ((m_events c =? 0) && _); [by eexists _, _|].
    eexists _, _. split_and!; [reflexivity|done|..]; unfold waitResult; repeat case_match; try done. by intros e [= ->]. }
  destruct Hr as (c' & r & Hr & Hpc & Hm & He). unfold costs. unfold out_of, st_of. rewrite (bind_pure _ _ _ _ _ Hr).
  fold (out_of (k r) c') (st_of (k r) c'). fold (costs (k r) n c'). destruct r; try by apply H1.
  rewrite (He e eq_refl) in *. apply H2; [done|by apply Hm].
Qed.

Lemma step_costs env i c :
  costs (smStep env i) (credit (m_smThread c) + boot_seen (CoThread i) c) c.
Proof.
  unfold smStep. apply costs_read. unfold boot_seen, mngrClient, transport.
  destruct (m_smThread c) eqn:Hpc; destruct i; try (apply costs_ret; rewrite Hpc; lia).
  - destruct (_ && _); [by apply costs_setPc|apply costs_thread].
  - apply costs_wait; rewrite ?Hpc; [done|done|..].
    + intros c' Hc'. split_and!; [apply costs_stopped|apply costs_thread|apply costs_ret; rewrite Hc'; cbn; lia].
    + intros c' _ _. apply costs_thread.
  - apply costs_wait; rewrite ?Hpc; [done|done|..].
    + intros c' Hc'. split_and!; [apply costs_stopped| |apply costs_ret; rewrite Hc'; cbn; lia].
      unfold bootTimeout. destruct (_ =? 0); [apply costs_emit; [done|rewrite Hc'; cbn; lia]|].
      apply costs_read. unfold transport. call. apply costs_setPc. cbn. lia.
    + intros c' _ Hb. call. apply costs_setPc. cbn [credit waiting]. unfold booted. by destruct (_ =? 0).
  - call. destruct (decide (res = APC_OK)); [by apply costs_setPc|].
    call. destruct isConnected; [by apply costs_setPc|]. apply costs_emit; [done|].
    rewrite (eq_trans H0 (eq_trans H Hpc)). cbn. lia.
  - apply costs_wait; rewrite ?Hpc; [done|done|..].
    + intros c' Hc'. split_and!; [apply costs_stopped| |apply costs_ret; rewrite Hc'; cbn; lia].
      apply costs_call; [intros pc; by keeps_auto|intros ? _]. apply costs_setPc. cbn. lia.
    + intros c' _ _. apply costs_call; [intros pc; by keeps_auto|intros ? _]. apply costs_setPc. cbn. lia.
  - apply costs_wait; rewrite ?Hpc; [done|done|..].
    + intros c' Hc'. split_and!; [apply costs_stopped|apply costs_ret; rewrite Hc'; cbn; lia..].
    + intros c' _ _. destruct (Z.lxor _ _ =? 0); [|apply costs_setPc; cbn; unfold booted; case_match; lia].
      unfold costs. rewrite out_bind, st_bind. unfold nullCheck. rewrite out_read, st_read.
      destruct (m_transport c'); cbn; unfold booted; repeat case_match; cbn; lia.
  - apply costs_wait; rewrite ?Hpc; [done|done|..].
    + intros c' Hc'. split_and!; [apply costs_stopped|apply costs_ret; rewrite Hc'; cbn; lia..].
    + intros c' _ _. apply costs_setPc. cbn. lia.
  - call. destruct isConnected; [apply costs_setPc; cbn; lia|]. apply costs_prepare. cbn. lia.
  - apply costs_wait; rewrite ?Hpc; [done|done|..].
    + intros c' Hc'. split_and!; [apply costs_stopped|apply costs_prepare; cbn; lia|apply costs_ret; rewrite Hc'; cbn; lia].
    + intros c' _ _. apply costs_prepare. cbn. lia.
  - apply costs_wait; rewrite ?Hpc; [done|done|..].
    + intros c' Hc'. split_and!; [apply costs_setPc; cbn; lia| |apply costs_ret; rewrite Hc'; cbn; lia].
      call. apply costs_setPc; cbn; lia.
    + intros c' _ _. call. apply costs_setPc; cbn; lia.
Qed.

Lemma op_costs env op c : costs (exec env op) (credit (m_smThread c) + boot_seen op c) c.
Proof.
  assert (Hop : (exists i, op = CoThread i) \/ forall i, op <> CoThread i).
  { destruct op; try (by right). left. by eexists. }
  destruct Hop as [[i ->]|Hop]; [apply step_costs|].
  destruct (other_keeps (m_smThread c) env op Hop c eq_refl) as [H1 H2].
  unfold costs. rewrite (count_joins_none _ H2), H1. lia.
Qed.

Lemma execs_costs l : forall c,
  (count_joins (out_of (execs l) c) <= credit (m_smThread c) + boots_seen l c)%nat.
Proof.
  induction l as [|[env op] l IH]; intros c; [cbn; lia|]. cbn [execs boots_seen].
  rewrite out_bind, count_joins_app. pose proof (op_costs env op c) as H. unfold costs in H.
  pose proof (IH (st_of (exec env op) c)). lia.
Qed.

(** *** Waiting for the AP to boot *)
Record at_boot (n : Z) (c : CAPCoupler) : Prop := {
  ab_pc : exists t, m_smThread c = PcWaitBoot n t /\ t <> 0;
  ab_events : m_events c = 0;
  ab_transport : m_transport c = true;
  ab_timeout : m_hwResetTimeoutMsec c <> 0
}.

Lemma timeout_step env n c :
  at_boot n c ->
  let r := exec env (CoThread (InWake true)) in
  out_of r c = (if n =? 0 then [CStopNode] else [CTransport TcHwResetAP]) /\
  at_boot (if n =? 0 then 0 else n - 1) (st_of r c).
Proof.
  intros [(t & Hpc & Ht) He Htr Hh] r.
  assert (Hr : r c = if n =? 0 then (c <| m_events := 0 |>, [CStopNode], tt)
    else (c <| m_events := 0 |> <| m_smThread := PcWaitBoot (n - 1) (m_hwResetTimeoutMsec c) |>, [CTransport TcHwResetAP], tt)).
  { unfold r. cbn [exec]. unfold smStep, waitEvents_p, bootTimeout, transport, nullCheck, setPc. runM.
    rewrite Hpc, He, (proj2 (Z.eqb_neq _ _) Ht). cbn. destruct (n =? 0); [done|].
    change (waitResult BOOT_MASK true true 0) with WTimeout. cbn. by rewrite Htr. }
  unfold out_of, st_of. rewrite Hr. destruct (Z.eqb_spec n 0) as [->|]; cbn [fst snd]; (split; [done|]); split; try done.
  - by eexists.
  - by eexists.
Qed.

Lemma timeouts_run envs : forall n c,
  at_boot n c -> 0 <= n ->
  let r := execs (map (fun env => (env, CoThread (InWake true))) envs) in
  let k := length envs in
  out_of r c = replicate (k `min` Z.to_nat n) (CTransport TcHwResetAP) ++ replicate (k - Z.to_nat n) CStopNode /\
  at_boot (Z.max 0 (n - Z.of_nat k)) (st_of r c).
Proof.
  induction envs as [|env envs IH]; intros n c Hc Hn r k.
  { split; [done|]. unfold k. cbn [length]. replace (Z.max 0 (n - Z.of_nat 0)) with n by lia. exact Hc. }
  unfold r, k. cbn [map execs length]. rewrite out_bind, st_bind.
  destruct (timeout_step env n c Hc) as [-> H1]. destruct (Z.eqb_spec n 0) as [->|Hn0].
  - destruct (IH _ _ H1 ltac:(lia)) as [-> H2]. change (Z.to_nat 0) with 0%nat. rewrite Nat.min_0_r, Nat.min_0_r.
    split; [by rewrite !Nat.sub_0_r|]. replace (Z.max 0 (0 - Z.of_nat (S (length envs)))) with (Z.max 0 (0 - Z.of_nat (length envs))) by lia.
    exact H2.
  - destruct (IH _ _ H1 ltac:(lia)) as [-> H2].
    replace (Z.to_nat n) with (S (Z.to_nat (n - 1))) by lia. split; [done|].
    replace (Z.max 0 (n - Z.of_nat (S (length envs)))) with (Z.max 0 (n - 1 - Z.of_nat (length envs))) by lia. exact H2.
Qed.

(** A boot ends the wait. *)
Lemma wait_boot_step env late n c e :
  at_boot n c -> Z.land e E_STOP = 0 -> Z.land e BOOT_MASK <> 0 ->
  let r := exec env (CoThread (InWake late)) in
  let c1 := c <| m_events := e |> in
  out_of r c1 = [CTransport TcEnableAbort] /\ m_smThread (st_of r c1) = PcClientStart.
Proof.
  intros [(t & Hpc & Ht) _ Htr _] Hs Hb r c1.
  assert (He : e <> 0) by (intros ->; by rewrite Z.land_0_l in Hb).
  assert (Hr : r c1 = (c1 <| m_events := 0 |> <| m_smThread := PcClientStart |>, [CTransport TcEnableAbort], tt)).
  { unfold r. cbn [exec]. unfold smStep, waitEvents_p, waitResult, transport, nullCheck, setPc. runM.
    change (m_smThread c1) with (m_smThread c). rewrite Hpc. change (m_events c1) with e.
    rewrite (proj2 (Z.eqb_neq _ _) He), Hs, (proj2 (Z.eqb_neq _ _) Hb). cbn [negb andb Z.eqb].
    change (m_transport (c1 <| m_events := 0 |>)) with (m_transport c). rewrite Htr. reflexivity. }
  unfold out_of, st_of. rewrite Hr. done.
Qed.

(** *** Stopping *)
Lemma stop_wake env late c :
  waiting (m_smThread c) = true -> m_smThread c <> PcFinal -> Z.land (m_events c) E_STOP <> 0 -> m_transport c = true ->
  exec env (CoThread (InWake late)) c =
    (c <| m_events := 0 |> <| m_smThread := PcFinal |>,
     [CTransport TcDisableAbort; CTransport TcDisableJoin; CTransport (TcDisconnectAP true)], tt).
Proof.
  intros Hw Hf Hs Ht.
  assert (He : m_events c <> 0) by (intros E; by rewrite E, Z.land_0_l in Hs).
  assert (Hwait : forall mask t, waitEvents_p mask t late c = (c <| m_events := 0 |>, [], WStop)).
  { intros mask t. unfold waitEvents_p, waitResult. runM. by rewrite (proj2 (Z.eqb_neq _ _) He), (proj2 (Z.eqb_neq _ _) Hs). }
  assert (Hst : stopped (c <| m_events := 0 |>) = (c <| m_events := 0 |> <| m_smThread := PcFinal |>,
     [CTransport TcDisableAbort; CTransport TcDisableJoin; CTransport (TcDisconnectAP true)], tt)).
  { unfold stopped, prepareAP_p, transport, nullCheck, setPc. runM.
    change (negb (Z.land E_STOP E_STOP =? 0)) with true. cbv iota. cbn [m_transport upd]. by rewrite Ht. }
  cbn [exec]. unfold smStep. rewrite (bind_pure get _ c c c eq_refl).
  destruct (m_smThread c); try done; by rewrite (bind_pure _ _ _ _ _ (Hwait _ _)).
Qed.

(** The end of the last wait. *)
Lemma final_wake env c :
  m_smThread c = PcFinal -> m_events c = 0 -> m_transport c = true -> m_disconnectTimeoutLongMsec c <> 0 ->
  exec env (CoThread (InWake true)) c =
    (c <| m_events := 0 |> <| m_smThread := PcDone |>, [CTransport TcEnableAbort], tt).
Proof.
  intros Hf He Ht Hl. cbn [exec]. unfold smStep, waitEvents_p, waitResult, transport, nullCheck, setPc. runM.
  rewrite Hf, He, (proj2 (Z.eqb_neq _ _) Hl). cbn [negb andb Z.eqb Z.land orb]. rewrite !Z.land_0_l. cbn. by rewrite Ht.
Qed.

(** A failed start with nothing to disconnect. *)
Lemma failed_start env res c :
  m_smThread c = PcClientStart -> m_mngrClient c = true -> res <> APC_OK ->
  exec env (CoThread (InStart res false)) c = (c, [CClient ClStart; CClient ClStop; CSleep RETRY_INTERVAL], tt).
Proof.
  intros Hpc Hm Hr. cbn [exec]. unfold smStep, mngrClient, nullCheck. runM. rewrite Hpc. rewrite Hm.
  rewrite decide_False by done. cbn [app]. by rewrite Hm.
Qed.

(** *** A configuration, for examples *)
Definition ex_cenv (now : Z) : CplEnv := mkCplEnv now 27 true true APC_OK 0 1229.
Definition ex_coupler (pc : sm_pc) (src : Z) (s : EAPClockSource) : CAPCoupler :=
  mkCoupler (mkAPMInfo (repeat 0 8) (repeat 0 5) (repeat 0 5) src 0 0) true true false true 2000 1000 3000 s
    false GPS_ST_NO_DEVICE (mkGpsInfo 0 0) 0 pc None None true false.

(** * Theorems *)

(** The AP gets the manager's packets unchanged: the control structure in
    front of the payload decodes, in the AP's byte order and bit layout, to the
    fields of the manager's header. *)
Theorem dataRx_frame (env : CplEnv) (hdr : ap_intf_sendhdr_t) (payload : list Z) (c : CAPCoupler) :
  m_transport c = true -> 0 <= sh_txDoneId hdr < 2 ^ 16 -> 0 <= sh_frId hdr < 2 ^ 8 -> 0 <= sh_slot hdr < 2 ^ 32 ->
  0 <= sh_offset hdr < 2 ^ 8 -> 0 <= sh_dst hdr < 2 ^ 16 ->
  exists b, exec env (CoDataRx hdr payload) c =
      (c, [CTransport (TcInsertMsg DN_API_LOC_CMD_AP_SEND b false CcNone CcNone)], tt) /\
    apsend_decoded b (mkApSend (priority_val (sh_priority hdr)) (if sh_isLinkInfoSpecified hdr then 1 else 0)
      (sh_txDoneId hdr) (sh_frId hdr) (sh_slot hdr) (sh_offset hdr) (sh_dst hdr)) /\
    drop (sizeof dn_api_loc_apsend_ctrl_t) b = payload.
Proof.
  intros Ht H1 H2 H3 H4 H5. eexists. split_and!.
  - cbn [exec]. unfold dataRx, sendApSend. rewrite (bind_run _ _ _ _ _ _ (insertMsgIf_run _ _ _ _ _ _ _ _ Ht)). reflexivity.
  - apply apsend_bytes_decoded; cbn; try done; [by destruct (sh_priority hdr)|by destruct (sh_isLinkInfoSpecified hdr)].
  - reflexivity.
Qed.

Lemma dataRx_frame_witness :
  exists b, exec (ex_cenv 0) (CoDataRx (mkSendHdr APINTF_CMD true 0x1234 true 7 0x01020304 9 0xABCD) [42])
      (ex_coupler PcNone 0 PPS) =
    (ex_coupler PcNone 0 PPS, [CTransport (TcInsertMsg DN_API_LOC_CMD_AP_SEND b false CcNone CcNone)], tt) /\
    apsend_decoded b (mkApSend 3 1 0x1234 7 0x01020304 9 0xABCD) /\ drop 11 b = [42].
Proof.
  exact (dataRx_frame (ex_cenv 0) (mkSendHdr APINTF_CMD true 0x1234 true 7 0x01020304 9 0xABCD) [42]
    (ex_coupler PcNone 0 PPS) eq_refl ltac:(done) ltac:(done) ltac:(done) ltac:(done) ltac:(done)).
Defined.

(** C17: what a ready-for-time notification does: nothing, or one command that sets
    the AP's time to exactly the system's UTC less the leap seconds; always so for an
    internally synchronised AP, but never in the minute around a midnight with a leap
    second that the last leap check announced. *)
Theorem time_outside_blackout (env1 env : CplEnv) (msg : list Z) (c : CAPCoupler) :
  m_transport c = true -> clock_ok env -> 0 <= fld dn_api_loc_notif_ready_for_time_t "seqNum" msg < 256 ->
  let c1 := st_of (exec env1 (CoLeapTimer false)) c in
  let out := out_of (exec env (CoNotif (NReadyForTime msg))) c1 in
  let midnight29 := ce_now env1 / 1000000 + secSinceMidnight_p env1 AP_BLACKOUT true in
  (out = [] \/ exists s e, out = [e] /\ sets_time env s e) /\
  midnight29 mod 86400 = (23 * 60 + 59) * 60 + 29 /\
  (ce_isLeapDay env1 = true -> (midnight29 + 1) * 1000000 <= ce_now env < (midnight29 + 60) * 1000000 -> out = []) /\
  (ce_isLeapDay env1 = false \/ ce_now env < midnight29 * 1000000 \/ (midnight29 + 61) * 1000000 <= ce_now env ->
   internalSync c = true -> exists e, out = [e] /\ sets_time env 0 e).
Proof.
  intros Ht Hc Hs c1 out midnight29. set (d := secSinceMidnight_p env1 AP_BLACKOUT true).
  assert (Hc1 : m_transport c1 = true /\ internalSync c1 = internalSync c /\
    m_blackoutStart c1 = if ce_isLeapDay env1 then Some (ce_now env1 + d * 1000000) else None).
  { unfold c1. cbn [exec]. unfold leapCheckingTimer_p. by destruct (ce_isLeapDay env1). }
  destruct Hc1 as (Ht1 & Hi & Hb). destruct (readyForTime_cases env msg c1 Ht1 Hc Hs) as (R1 & R2 & R3).
  split; [exact R1|]. split; [by apply secSinceMidnight_next|].
  pose proof (Z.mod_pos_bound (ce_now env1) 1000000 ltac:(lia)). pose proof (Z.div_mod (ce_now env1) 1000000 ltac:(lia)).
  unfold inBlackout in R2, R3. rewrite Hb in R2, R3. unfold midnight29, AP_BLACKOUT_DURATION in *. fold d. split.
  - intros Hl Hw. rewrite Hl in R2. apply R2. apply andb_true_intro. split; apply Z.ltb_lt; lia.
  - intros Hout Hint. apply R3; [|by rewrite Hi]. destruct (ce_isLeapDay env1); [|done]. destruct Hout as [?|Hout]; [done|].
    apply andb_false_iff. rewrite !Z.ltb_ge. lia.
Qed.

Lemma time_outside_blackout_witness :
  let c1 := st_of (exec (ex_cenv (1483228000 * 1000000)) (CoLeapTimer false)) (ex_coupler PcNone DN_API_AP_CLK_SOURCE_INTERNAL PPS) in
  out_of (exec (ex_cenv (1483228799 * 1000000 + 5)) (CoNotif (NReadyForTime [1]))) c1 = [].
Proof.
  apply (time_outside_blackout (ex_cenv (1483228000 * 1000000)) (ex_cenv (1483228799 * 1000000 + 5)) [1]
    (ex_coupler PcNone DN_API_AP_CLK_SOURCE_INTERNAL PPS)); vm_compute; intuition congruence.
Defined.

(** A session as far as the clock source is concerned: the AP has booted and reports its permanent source [v]; the
    manager connects. *)
Definition clk_report (v : Z) : cpl_op := CoNotif (NParamClkSrc [DN_API_RC_OK; DN_API_PARAM_AP_CLKSRC; v]).
Definition clk_session (env : CplEnv) (v fl : Z) : list (CplEnv * cpl_op) := [(env, clk_report v); (env, CoConnected None fl)].

(** The report starts or stops the GPS, if the configuration has one. *)
Definition clk_gps (c : CAPCoupler) (v : Z) : list cpl_event :=
  if m_gpsd_conn c then [if (v =? DN_API_AP_CLK_SOURCE_PPS) && bool_decide (m_apClkSource c = PPS) then CGpsStart else CGpsStop]
  else [].

(** The fields that a session uses and keeps. *)
Definition clk_ready (s : EAPClockSource) (gpsd : bool) (c : CAPCoupler) : Prop :=
  m_transport c = true /\ m_apClkSource c = s /\ m_gpsd_conn c = gpsd /\ (gpsd = true -> m_gps c = true).

Lemma clk_session_run env v fl s gpsd c : clk_ready s gpsd c -> v <> CLOCKSOURCR_NONE ->
  let isInt := Z.land fl APC_FL_INTSYNCH_AP =? APC_FL_INTSYNCH_AP in
  out_of (execs (clk_session env v fl)) c = clk_gps c v ++
    (if bool_decide (s = PPS) then
       (if v =? DN_API_AP_CLK_SOURCE_PPS then [] else [set_clk DN_API_AP_CLK_SOURCE_PPS CcSetClkSrcResponse])
     else if v =? DN_API_AP_CLK_SOURCE_AUTO then [set_clk (wanted_clk s isInt) CcNone]
     else [set_clk DN_API_AP_CLK_SOURCE_AUTO CcSetClkSrcResponse]) /\
  clk_ready s gpsd (st_of (execs (clk_session env v fl)) c).
Proof.
  intros (Ht & Hs & Hg & Hgps) Hv isInt. unfold clk_session, clk_report. cbn [execs].
  set (c1 := c <| m_apInfo := m_apInfo c <| ai_clksource := v |> |>).
  assert (Hrep : exec env (CoNotif (NParamClkSrc [DN_API_RC_OK; DN_API_PARAM_AP_CLKSRC; v])) c = (c1, clk_gps c v, tt)).
  { cbn [exec handleNotif]. unfold handleParamClkSrc, upd_info, nullCheck, clk_gps. runM.
    assert (fld dn_api_rsp_get_ap_clksrc_t "apClkSrc" [DN_API_RC_OK; DN_API_PARAM_AP_CLKSRC; v] = v) as -> by (cbn; lia).
    cbn [m_gpsd_conn upd]. rewrite Hg. destruct gpsd; cbv beta iota; cbn [m_gps m_apInfo m_apClkSource ai_clksource upd];
      [rewrite Hgps by done|]; done. }
  unfold out_of at 1, st_of at 1. rewrite (bind_run _ _ _ _ _ _ Hrep). cbn [fst snd].
  destruct (connected_run env fl c1 Ht Hv) as (O1 & T1 & S1 & G1 & P1). destruct (setClockSource_run env isInt c1 Ht Hv) as [i Hr].
  rewrite out_bind, st_bind. cbn [exec mret M_ret out_of st_of fst snd].
  change (snd (fst (connected env None fl c1))) with (out_of (connected env None fl) c1).
  change (fst (fst (connected env None fl c1))) with (st_of (connected env None fl) c1).
  rewrite app_nil_r, O1. fold isInt. unfold out_of. rewrite Hr. cbn [fst snd].
  change (m_apClkSource c1) with (m_apClkSource c). rewrite Hs. split; [done|].
  split; [exact T1|]. split; [by rewrite S1|]. split; [by rewrite G1|]. rewrite P1. exact Hgps.
Qed.

(** C16: setting the clock source converges over any number of sessions, with or without GPS. A session begins with a boot,
    after which the AP reports its permanent source [src]. If that is the source [v] that the configuration needs
    (PPS for GPS, else AUTO), the first session already does what all later ones do. If it is not, the first session
    changes the permanent source, the response to the change resets the AP, and from then on, when the AP reports [v],
    every session does the same: nothing for GPS, and otherwise one choice of the current source that the
    configuration, or the manager, wants. None of them changes the permanent source or resets the AP again. (A session without a report of
    the AP before it is not one of these: the coupler then takes the current source that it chose itself
    for the permanent one, [clk_change_repeated].) *)
Theorem clock_source_settles (env : CplEnv) (src fl1 : Z) (fls : list Z) (gpsd : bool) (c : CAPCoupler) :
  clk_ready (m_apClkSource c) gpsd c -> src <> CLOCKSOURCR_NONE ->
  let s := m_apClkSource c in
  let v := if bool_decide (s = PPS) then DN_API_AP_CLK_SOURCE_PPS else DN_API_AP_CLK_SOURCE_AUTO in
  let want fl := wanted_clk s (Z.land fl APC_FL_INTSYNCH_AP =? APC_FL_INTSYNCH_AP) in
  let final fl := if bool_decide (s = PPS) then [] else [set_clk (want fl) CcNone] in
  let first := execs (clk_session env src fl1) in
  let reset := exec env CoSetClkRsp in
  let c1 := st_of first c in
  let c2 := if src =? v then c1 else st_of reset c1 in
  out_of first c = clk_gps c src ++ (if src =? v then final fl1 else [set_clk v CcSetClkSrcResponse]) /\
  (src <> v -> out_of reset c1 = [CTransport TcHwResetAP]) /\
  out_of (execs (flat_map (clk_session env v) fls)) c2 = flat_map (fun fl => clk_gps c v ++ final fl) fls.
Proof.
  intros Hc Hs s v want final first reset c1 c2.
  destruct (clk_session_run env src fl1 s gpsd c Hc Hs) as [O1 R1]. fold first c1 in O1, R1.
  assert (Hreset : reset c1 = (c1, [CTransport TcHwResetAP], tt)).
  { unfold reset. cbn [exec]. unfold handleSetClkSrcResponse_p, transport, nullCheck. runM. by destruct R1 as (-> & _). }
  split; [|split].
  - rewrite O1. f_equal. unfold v, final, want. by destruct (bool_decide (s = PPS)).
  - intros _. unfold out_of. by rewrite Hreset.
  - assert (R2 : clk_ready s gpsd c2) by (unfold c2, st_of; rewrite Hreset; by destruct (src =? v)).
    assert (Hv : v <> CLOCKSOURCR_NONE) by (unfold v; by destruct (bool_decide _)).
    assert (Hgps : forall c', clk_ready s gpsd c' -> clk_gps c' v = clk_gps c v).
    { intros c' (_ & E1 & E2 & _). unfold clk_gps. rewrite E1, E2. destruct Hc as (_ & _ & -> & _). done. }
    clearbody c2. clear -R2 Hv Hgps. revert c2 R2. induction fls as [|fl fls IH]; intros c2 R2; [done|].
    cbn [flat_map]. unfold out_of at 1. rewrite execs_app.
    destruct (clk_session_run env v fl s gpsd c2 R2 Hv) as [O2 R3].
    rewrite run_bind. cbn [fst snd]. rewrite O2, (IH _ R3), Hgps by done. f_equal. f_equal. unfold v, final, want. by destruct (bool_decide (s = PPS)).
Qed.

Lemma clock_source_settles_witness :
  let c := ex_coupler PcWaitConn DN_API_AP_CLK_SOURCE_PPS MNGRSET in
  out_of (execs (clk_session (ex_cenv 0) DN_API_AP_CLK_SOURCE_PPS 0)) c = [set_clk DN_API_AP_CLK_SOURCE_AUTO CcSetClkSrcResponse].
Proof.
  exact (proj1 (clock_source_settles (ex_cenv 0) DN_API_AP_CLK_SOURCE_PPS 0 [1; 0] false (ex_coupler PcWaitConn DN_API_AP_CLK_SOURCE_PPS MNGRSET)
    (conj eq_refl (conj eq_refl (conj eq_refl (fun H : false = true => match diff_false_true H with end)))) ltac:(discriminate))).
Defined.

(** The manager connects a second time without a report of the AP in between: the change of the permanent source, and with its
    response the reset of the AP, are repeated although the source is the right one. *)
Fact clk_change_repeated :
  let e := ex_cenv 0 in
  let c := ex_coupler PcWaitConn DN_API_AP_CLK_SOURCE_AUTO MNGRSET in
  out_of (execs (clk_session e DN_API_AP_CLK_SOURCE_AUTO 0 ++ [(e, CoConnected None 0)])) c =
    [set_clk DN_API_AP_CLK_SOURCE_NETWORK CcNone; set_clk DN_API_AP_CLK_SOURCE_AUTO CcSetClkSrcResponse].
Proof. by vm_compute. Qed.

(** C14: the AP is let into the network only after a boot: from the thread's
    start on, whatever arrives from the AP, the manager and the GPS and in
    whatever order, joins are enabled at most as often as the thread has seen the
    AP boot. *)
Theorem join_needs_boot (l : list (CplEnv * cpl_op)) (c : CAPCoupler) :
  m_smThread c = PcBegin -> (count_joins (out_of (execs l) c) <= boots_seen l c)%nat.
Proof. intros Hpc. pose proof (execs_costs l c) as H. by rewrite Hpc in H. Qed.

Lemma join_needs_boot_witness :
  let e := ex_cenv 0 in
  let l := [(e, CoThread InGo); (e, CoNotif NAPBoot); (e, CoThread (InWake false)); (e, CoThread (InStart APC_OK true));
            (e, CoConnected None 0); (e, CoThread (InWake false)); (e, CoConnected None 0); (e, CoThread (InWake false))] in
  let c := ex_coupler PcBegin DN_API_AP_CLK_SOURCE_AUTO INTERNAL in
  count_joins (out_of (execs l) c) = 1%nat /\ (1 <= boots_seen l c)%nat.
Proof. intros e l c. split; [by vm_compute|]. exact (join_needs_boot l c eq_refl). Defined.

(** C15: preparing the AP for a session is bounded: it is disconnected, or reset
    if it was lost; if it does not boot after that it is reset three more times, one reset per
    timeout (four resets in all for an AP that was lost); then every further timeout asks the whole node to stop; a boot at any
    point ends it and re-enables aborting. *)
Theorem prepare_bounded (env : CplEnv) (envs : list CplEnv) (late : bool) (e e' : Z) (c : CAPCoupler) :
  m_transport c = true -> m_events c = 0 -> Z.land e E_STOP = 0 -> Z.land e BOOT_MASK = 0 ->
  m_hwResetTimeoutMsec c <> 0 -> m_disconnectTimeoutShortMsec c <> 0 -> m_disconnectTimeoutLongMsec c <> 0 ->
  Z.land e' E_STOP = 0 -> Z.land e' BOOT_MASK <> 0 ->
  let lost := negb (Z.land e E_APM_LOST =? 0) in
  let c1 := st_of (prepareAP_p e) c in
  let timeouts := execs (map (fun env => (env, CoThread (InWake true))) envs) in
  let c2 := st_of timeouts c1 <| m_events := e' |> in
  let k := length envs in
  out_of (prepareAP_p e) c = [CTransport TcDisableAbort; CTransport (if lost then TcHwResetAP else TcDisconnectAP true)] /\
  out_of timeouts c1 = replicate (k `min` 3) (CTransport TcHwResetAP) ++ replicate (k - 3) CStopNode /\
  out_of (exec env (CoThread (InWake late))) c2 = [CTransport TcEnableAbort] /\
  m_smThread (st_of (exec env (CoThread (InWake late))) c2) = PcClientStart.
Proof.
  intros Ht He Hs Hb Hh Hsh Hl Hs' Hb' lost c1 timeouts c2 k.
  assert (Hp : out_of (prepareAP_p e) c =
      [CTransport TcDisableAbort; CTransport (if lost then TcHwResetAP else TcDisconnectAP true)] /\ at_boot MAX_NUM_RESET c1).
  { unfold c1. unfold prepareAP_p. rewrite out_read, st_read, Hs, Hb. cbn [negb Z.eqb]. fold lost.
    unfold transport, nullCheck, setPc, out_of, st_of. runM. rewrite Ht.
    destruct lost; cbn [m_transport upd]; rewrite Ht; cbn [fst snd]; (split; [done|]); split; try done.
    - by eexists.
    - eexists. split; [reflexivity|]. by destruct (negb _). }
  destruct Hp as [Hp1 Hp2]. destruct (timeouts_run envs MAX_NUM_RESET c1 Hp2 ltac:(done)) as [T1 T2].
  destruct (wait_boot_step env late _ _ e' T2 Hs' Hb') as [B1 B2]. by split_and!.
Qed.

Lemma prepare_bounded_witness :
  let e := ex_cenv 0 in
  let c1 := st_of (prepareAP_p E_AP_RESET) (ex_coupler PcBegin 0 PPS) in
  out_of (execs (repeat (e, CoThread (InWake true)) 5)) c1 =
    repeat (CTransport TcHwResetAP) 3 ++ [CStopNode; CStopNode].
Proof.
  exact (proj1 (proj2 (prepare_bounded (ex_cenv 0) (repeat (ex_cenv 0) 5) false E_AP_RESET E_APM_BOOT (ex_coupler PcBegin 0 PPS)
    eq_refl eq_refl eq_refl eq_refl ltac:(discriminate) ltac:(discriminate) ltac:(discriminate) eq_refl ltac:(discriminate)))).
Defined.

(** Stopping: at every wait the stop event makes the thread disconnect the AP
    and end after the last wait; but while the client cannot be started -- the
    manager is not reachable -- the thread does not look at its events, so the stop
    event waits as long as that lasts, and [stop], which joins the thread, with it. *)
Theorem stop_waits_for_manager (env : CplEnv) (late : bool) (starts : list (CplEnv * apc_error_t)) (c : CAPCoupler) :
  m_transport c = true -> m_mngrClient c = true -> Z.land (m_events c) E_STOP <> 0 -> m_disconnectTimeoutLongMsec c <> 0 ->
  Forall (fun s => snd s <> APC_OK) starts ->
  (waiting (m_smThread c) = true -> m_smThread c <> PcFinal ->
   let run := execs [(env, CoThread (InWake late)); (env, CoThread (InWake true))] in
   out_of run c = [CTransport TcDisableAbort; CTransport TcDisableJoin; CTransport (TcDisconnectAP true);
                   CTransport TcEnableAbort] /\ m_smThread (st_of run c) = PcDone) /\
  (m_smThread c = PcClientStart ->
   st_of (execs (map (fun s => (fst s, CoThread (InStart (snd s) false))) starts)) c = c).
Proof.
  intros Ht Hm Hs Hl Hst. split.
  - intros Hw Hf run. unfold run. cbn [execs]. pose proof (stop_wake env late c Hw Hf Hs Ht) as H1.
    set (c1 := c <| m_events := 0 |> <| m_smThread := PcFinal |>) in *.
    assert (H2 : exec env (CoThread (InWake true)) c1 =
      (c1 <| m_events := 0 |> <| m_smThread := PcDone |>, [CTransport TcEnableAbort], tt)) by (by apply final_wake).
    unfold out_of, st_of. rewrite (bind_run _ _ _ _ _ _ H1). unfold out_of, st_of. rewrite (bind_run _ _ _ _ _ _ H2). done.
  - intros Hpc. induction Hst as [|[env' res] starts Hres _ IH]; [done|]. cbn [map execs fst snd]. rewrite st_bind.
    unfold st_of at 2. rewrite failed_start by done. exact IH.
Qed.

Lemma stop_waits_for_manager_witness :
  let c pc := st_of stop_signal (ex_coupler pc 0 PPS) in
  m_smThread (st_of (execs [(ex_cenv 0, CoThread (InWake false)); (ex_cenv 0, CoThread (InWake true))]) (c PcWaitRun)) = PcDone /\
  st_of (execs (repeat (ex_cenv 0, CoThread (InStart APC_ERR_INIT false)) 100)) (c PcClientStart) = c PcClientStart.
Proof.
  intros c. split.
  - apply (stop_waits_for_manager (ex_cenv 0) false [] (c PcWaitRun)); vm_compute; try done.
  - exact (proj2 (stop_waits_for_manager (ex_cenv 0) false (repeat (ex_cenv 0, APC_ERR_INIT) 100) (c PcClientStart)
      eq_refl eq_refl ltac:(discriminate) ltac:(discriminate) ltac:(by repeat constructor)) eq_refl).
Defined.
