(* ===== verification/Bridge.v ===== *)
(** The bridge: the AP transport, the coupler and the manager's client composed.

    The components call each other while they work: a frame of the AP makes the
    transport notify the coupler, which sends commands to the AP and packets to the
    manager; a message of the manager goes the other way.  Here these calls are
    connected: an event of one component that is a call of another is executed there.
    The output of a step of the bridge is the list of the component steps it consists
    of ([br_step]), so that a run of the bridge is, for each component, a run of that
    component, and what is known of its runs holds in the composition. *)
From stdpp Require Import base numbers list option strings gmap.
From Stdlib Require Import ZArith Lia.
From S2P Require Import Prelude Gps Common ApcProto ApcSerializer ApcCache ApcConnector ApcClient ApcHistory.
From S2P Require Import ApmProto ApmSerializer ApmTransport Coupler.

Local Open Scope Z_scope.

Record Bridge := mkBridge {
  b_tr : CAPMTransport;
  b_cpl : CAPCoupler;
  b_cl : CAPCClient
}.
#[export] Instance Bridge_eta : Eta Bridge := fun b => mkBridge (b_tr b) (b_cpl b) (b_cl b).

(** What the calls of one step of the bridge meet: the environments of the components,
    the parameters of the client's start, and the clock source that arrives while the
    coupler waits for it. *)
Record BrEnv := mkBrEnv {
  be_tr : TrEnv;
  be_cpl : CplEnv;
  be_cl : ClEnv;
  be_start : ApcClient.start_param_t;
  be_arrives : option Z
}.

(** One step of a component and the calls it made. *)
Inductive br_step :=
| StTr (upper : upper_t) (op : tr_op) (evs : list tr_event)
| StCpl (env : CplEnv) (op : cpl_op) (evs : list cpl_event)
| StCl (env : ClEnv) (op : client_op) (evs : list client_event).

Notation BM := (M Bridge br_step).

(** ** Calls of one component as operations of another *)
Definition callback_of (c : cpl_callback) : callback :=
  match c with CcNone => CbNone | CcSetClkSrcResponse => CbUser 0 | CcSetClkSrcErrorResponse => CbUser 1 end.

(** The coupler on the transport; stopping it is not one of the calls during a run. *)
Definition up_of (env : BrEnv) (c : tr_call) : list up_call :=
  match c with
  | TcInsertMsg cmd data hi cb ecb => [UcInsert (be_tr env) cmd data hi (callback_of cb) (callback_of ecb) false]
  | TcSetAPMState st => [UcSetAPMState st]
  | TcDisableJoin => [UcDisableJoin]
  | TcEnableJoin netId => [UcEnableJoin (be_tr env) netId]
  | TcDisconnectAP b => [UcDisconnect (be_tr env) b]
  | TcHwResetAP => [UcHwReset]
  | TcEnableAbort => [UcAbort true]
  | TcDisableAbort => [UcAbort false]
  | TcStop => []
  end.

(** The coupler on the client. *)
Definition cl_of (env : BrEnv) (c : cl_call) : client_op :=
  match c with
  | ClStart => CStart (be_start env)
  | ClStop => ApcClient.CStop
  | ClSendData data => CSend data
  | ClSendTxDone p => CTxDone p
  | ClSendTimeMap p => CTimeMap p
  | ClSendGpsLock g => CGpsLock g
  | ClSendPause => CPause
  | ClSendResume => CResume
  | ClSendApLost => CApLost
  end.

(** The transport on the coupler: notifications and flow control, and callbacks of commands. *)
Definition cpl_of_tr (e : tr_event) : list cpl_op :=
  match e with
  | EvNotif n => [CoNotif n]
  | EvFlow FlAPLost => [CoNotif NAPLost]
  | EvFlow FlAPPause => [CoAPPause]
  | EvFlow FlAPResume => [CoAPResume]
  | EvReboot => [CoAPReboot]
  | _ => []
  end.

Definition callback_op (e : tr_event) : option cpl_op :=
  match e with
  | EvRespCb cb _ _ => if cb =? 0 then Some CoSetClkRsp else None
  | EvErrCb cb _ _ => if cb =? 1 then Some CoSetClkErr else None
  | _ => None
  end.

(** The client on the coupler. *)
Definition cpl_of_input (env : BrEnv) (i : input_call) : cpl_op :=
  match i with
  | InConnected _ flags => CoConnected (be_arrives env) flags
  | InDisconnected _ => CoDisconnected
  | InDataRx hdr payload => CoDataRx hdr payload
  | InResume => CoResume
  | InPause => CoPause
  | InOffline _ => CoOffline
  | InOnline => CoOnline
  | InResetAP => CoResetAP
  | InDisconnectAP => CoDisconnectAP
  | InGetTime => CoGetTime
  end.

(** ** Component steps *)
Definition onTr (upper : upper_t) (op : tr_op) : BM (list tr_event) := fun b =>
  let r := ApmTransport.exec (fun _ => mret tt) upper op (b_tr b) in
  (b <| b_tr := fst (fst r) |>, [StTr upper op (snd (fst r))], snd (fst r)).

Definition onCpl (env : CplEnv) (op : cpl_op) : BM (list cpl_event) := fun b =>
  let r := Coupler.exec env op (b_cpl b) in
  (b <| b_cpl := fst (fst r) |>, [StCpl env op (snd (fst r))], snd (fst r)).

Definition onCl (env : ClEnv) (op : client_op) : BM (list client_event) := fun b =>
  let r := ApcClient.exec env op (b_cl b) in
  (b <| b_cl := fst (fst r) |>, [StCl env op (snd (fst r))], snd (fst r)).

(** ** Connected calls, innermost first *)
Section Connected.
Context (env : BrEnv).

(** The coupler calls the client; nothing comes back during the call. *)
Definition clientCall (c : cl_call) : BM unit := _ ← onCl (be_cl env) (cl_of env c); mret tt.

Definition forwardClient (e : cpl_event) : BM unit :=
  match e with CClient c => clientCall c | _ => mret tt end.

(** The transport calls the coupler; the commands the coupler then gives to the
    transport were executed by the transport during the call. *)
Definition cplCall (op : cpl_op) : BM unit :=
  evs ← onCpl (be_cpl env) op; each forwardClient evs.

(** A callback of a command may reset the AP, in which the transport calls nobody. *)
Definition no_upper : upper_t := fun _ _ => [].

Definition forwardCallback (e : cpl_event) : BM unit :=
  match e with
  | CTransport c => each (fun u => _ ← onTr no_upper (OpCall u); mret tt) (up_of env c)
  | _ => mret tt
  end.

Definition callbackCall (op : cpl_op) : BM unit :=
  evs ← onCpl (be_cpl env) op; each forwardCallback evs.

Definition afterEvent (e : tr_event) : BM unit :=
  each cplCall (cpl_of_tr e) ;;
  match callback_op e with Some op => callbackCall op | None => mret tt end.

Definition afterTr (evs : list tr_event) : BM unit := each afterEvent evs.

(** The coupler calls the transport. *)
Definition trCall (c : up_call) : BM unit := evs ← onTr no_upper (OpCall c); afterTr evs.

Definition forward (e : cpl_event) : BM unit :=
  match e with
  | CTransport c => each trCall (up_of env c)
  | CClient c => clientCall c
  | _ => mret tt
  end.

Definition cplStep (op : cpl_op) : BM unit := evs ← onCpl (be_cpl env) op; each forward evs.

Definition forwardInput (e : client_event) : BM unit :=
  match e with EvInput i => cplStep (cpl_of_input env i) | _ => mret tt end.

Definition clStep (op : client_op) : BM unit := evs ← onCl (be_cl env) op; each forwardInput evs.

(** The transport's commands during a notification are those of the coupler's handler.
    At most one notification arrives in a step, and of the flow control calls before it
    no handler of a notification sees an effect. *)
Definition tr_calls (evs : list cpl_event) : list up_call :=
  flat_map (fun e => match e with CTransport c => up_of env c | _ => [] end) evs.

Definition upperOf (c : CAPCoupler) : upper_t := fun n _ =>
  tr_calls (out_of (Coupler.exec (be_cpl env) (match n with Some n => CoNotif n | None => CoAPReboot end)) c).

Definition trStep (op : tr_op) : BM unit :=
  b ← get; evs ← onTr (upperOf (b_cpl b)) op; afterTr evs.
End Connected.

(** ** Operations of the bridge: what reaches it from outside

    Frames and timers of the transport, the coupler's threads, timers and the GPS, and
    the threads of the client. *)
Inductive br_op :=
| BrTr (op : tr_op)
| BrCpl (op : cpl_op)
| BrCl (op : client_op).

Definition br_exec (env : BrEnv) (op : br_op) : BM unit :=
  match op with
  | BrTr op => trStep env op
  | BrCpl op => cplStep env op
  | BrCl op => clStep env op
  end.

Fixpoint br_execs (l : list (BrEnv * br_op)) : BM unit :=
  match l with [] => mret tt | (env, op) :: l => br_exec env op ;; br_execs l end.

(** ** The parts of a run *)
Definition tr_part (s : br_step) : list (upper_t * tr_op) := match s with StTr u op _ => [(u, op)] | _ => [] end.
Definition cpl_part (s : br_step) : list (CplEnv * cpl_op) := match s with StCpl e op _ => [(e, op)] | _ => [] end.
Definition cl_part (s : br_step) : list (ClEnv * client_op) := match s with StCl e op _ => [(e, op)] | _ => [] end.

Definition tr_out (s : br_step) : list tr_event := match s with StTr _ _ evs => evs | _ => [] end.
Definition cpl_out (s : br_step) : list cpl_event := match s with StCpl _ _ evs => evs | _ => [] end.
Definition cl_out (s : br_step) : list client_event := match s with StCl _ _ evs => evs | _ => [] end.

(** ** A run of the bridge is a run of each component *)

Definition tr_runs (l : list (upper_t * tr_op)) : M CAPMTransport tr_event unit :=
  each (fun o => ApmTransport.exec (fun _ => mret tt) (fst o) (snd o)) l.
Definition cpl_runs (l : list (CplEnv * cpl_op)) : M CAPCoupler cpl_event unit :=
  each (fun o => Coupler.exec (fst o) (snd o)) l.
Definition cl_runs (l : list (ClEnv * client_op)) : M CAPCClient client_event unit :=
  each (fun o => ApcClient.exec (fst o) (snd o)) l.

Lemma tr_runs_eq l : tr_runs l = runs (fun _ => mret tt) l.
Proof. unfold tr_runs. induction l as [|[u op] l IH]; [done|]. cbn [each runs fst snd]. by rewrite IH. Qed.

Lemma cl_runs_st l : forall c, st_of (cl_runs l) c = run_ops l c.
Proof.
  unfold cl_runs, run_ops. induction l as [|o l IH]; intros c; [done|]. cbn [each fold_left].
  by rewrite st_bind, IH.
Qed.

(** [m]'s output is, part by part, a run of each component between its states. *)
Definition logged {A} (m : BM A) : Prop := forall b,
  let out := out_of m b in let b' := st_of m b in
  tr_runs (flat_map tr_part out) (b_tr b) = (b_tr b', flat_map tr_out out, tt) /\
  cpl_runs (flat_map cpl_part out) (b_cpl b) = (b_cpl b', flat_map cpl_out out, tt) /\
  cl_runs (flat_map cl_part out) (b_cl b) = (b_cl b', flat_map cl_out out, tt).

Lemma logged_ret {A} (a : A) : logged (mret a).
Proof. by intros b. Qed.

Lemma logged_bind {A B} (m : BM A) (k : A -> BM B) : logged m -> (forall a, logged (k a)) -> logged (m ≫= k).
Proof.
  intros Hm Hk b out b'. unfold out, b'. rewrite out_bind, st_bind, !flat_map_app.
  destruct (Hm b) as (H1 & H2 & H3). destruct (Hk (res_of m b) (st_of m b)) as (K1 & K2 & K3).
  split_and!; by eapply each_app.
Qed.

Lemma logged_each {A} (f : A -> BM unit) l : (forall a, logged (f a)) -> logged (each f l).
Proof. intros Hf. induction l as [|a l IH]; [apply logged_ret|]. by apply logged_bind. Qed.

Lemma logged_onTr u op : logged (onTr u op).
Proof.
  intros b. cbn. split; [|done]. unfold mbind, M_bind.
  destruct (ApmTransport.exec _ u op (b_tr b)) as [[t evs] []]. cbn. by rewrite !app_nil_r.
Qed.
Lemma logged_onCpl e op : logged (onCpl e op).
Proof.
  intros b. cbn. split; [done|split; [|done]]. unfold mbind, M_bind.
  destruct (Coupler.exec e op (b_cpl b)) as [[t evs] []]. cbn. by rewrite !app_nil_r.
Qed.
Lemma logged_onCl e op : logged (onCl e op).
Proof.
  intros b. cbn. split; [done|split; [done|]]. unfold mbind, M_bind.
  destruct (ApcClient.exec e op (b_cl b)) as [[t evs] []]. cbn. by rewrite !app_nil_r.
Qed.
Section LoggedSteps.
Context (env : BrEnv).

Lemma clientCall_logged c : logged (clientCall env c).
Proof. apply logged_bind; [apply logged_onCl|intros; apply logged_ret]. Qed.

Lemma cplCall_logged op : logged (cplCall env op).
Proof.
  apply logged_bind; [apply logged_onCpl|intros evs]. apply logged_each.
  intros []; cbn [forwardClient]; first [apply clientCall_logged|apply logged_ret].
Qed.

Lemma callbackCall_logged op : logged (callbackCall env op).
Proof.
  apply logged_bind; [apply logged_onCpl|intros evs]. apply logged_each.
  intros []; cbn [forwardCallback]; try apply logged_ret.
  apply logged_each. intros u. apply logged_bind; [apply logged_onTr|intros; apply logged_ret].
Qed.

Lemma afterTr_logged evs : logged (afterTr env evs).
Proof.
  apply logged_each. intros e. apply logged_bind; [apply logged_each, cplCall_logged|intros _].
  destruct (callback_op e); [apply callbackCall_logged|apply logged_ret].
Qed.

Lemma cplStep_logged op : logged (cplStep env op).
Proof.
  apply logged_bind; [apply logged_onCpl|intros evs]. apply logged_each.
  intros []; cbn [forward]; try apply logged_ret; [|apply clientCall_logged].
  apply logged_each. intros u. apply logged_bind; [apply logged_onTr|intros; apply afterTr_logged].
Qed.

Lemma br_exec_logged op : logged (br_exec env op).
Proof.
  destruct op as [op|op|op]; cbn [br_exec].
  - intros b. unfold trStep. rewrite out_read, st_read.
    apply (logged_bind (onTr _ op)); [apply logged_onTr|intros; apply afterTr_logged].
  - apply cplStep_logged.
  - apply logged_bind; [apply logged_onCl|intros evs]. apply logged_each.
    intros []; cbn [forwardInput]; first [apply cplStep_logged|apply logged_ret].
Qed.
End LoggedSteps.

Lemma br_execs_logged l : logged (br_execs l).
Proof. induction l as [|[env op] l IH]; [apply logged_ret|]. apply logged_bind; [apply br_exec_logged|done]. Qed.

(** ** Packets of the AP on their way *)
Definition rx_data (n : apm_notif) : list (list Z) := match n with NAPReceive data => [data] | _ => [] end.

(** Packets that the transport hands to the coupler, and those that the client is given to send. *)
Definition received (s : br_step) : list (list Z) := flat_map rx_data (flat_map told (tr_out s)).
Definition sent_data (s : br_step) : list (list Z) := match s with StCl _ (CSend data) _ => [data] | _ => [] end.

Definition data_call (e : cpl_event) : list (list Z) := match e with CClient (ClSendData data) => [data] | _ => [] end.
Definition rx_op (op : cpl_op) : list (list Z) := match op with CoNotif n => rx_data n | _ => [] end.

(** The coupler passes a packet to the client exactly when it receives one. *)
Notation no_data := (fun e => data_call e = []).
Notation has_client := (fun c => m_mngrClient c = true).

Lemma data_keeps I (m : M CAPCoupler cpl_event unit) c : keeps I no_data m -> I c -> flat_map data_call (out_of m c) = [].
Proof.
  intros Hm Hc. destruct (Hm c Hc) as [_ Ho]. induction Ho as [|e l He _ IH]; [done|]. cbn [flat_map]. by rewrite He, IH.
Qed.

Section NoData.
Notation quiet m := (keeps has_client no_data m).

Lemma nullCheck_nd f e : data_call e = [] -> quiet (nullCheck f e).
Proof. intros He. unfold nullCheck. keeps_auto. by destruct (f a). Qed.

Ltac nd_auto := repeat (cbv zeta; first [by apply nullCheck_nd|keeps_step]); try done.

Lemma sendEvent_nd e : quiet (sendEvent_p e).
Proof. unfold sendEvent_p, transport. nd_auto. Qed.

Lemma clientIf_nd t : data_call (CClient t) = [] -> quiet (clientIf t).
Proof. intros Ht. unfold clientIf. nd_auto. Qed.

Lemma insertMsg_nd env dflt cmd data hi cb ecb : quiet (insertMsgIf env dflt cmd data hi cb ecb).
Proof. unfold insertMsgIf. nd_auto. Qed.

Lemma waitEvents_nd mask t late : quiet (waitEvents_p mask t late).
Proof. unfold waitEvents_p. nd_auto. Qed.

Lemma leap_nd env b : quiet (leapCheckingTimer_p env b).
Proof. unfold leapCheckingTimer_p. nd_auto. Qed.

Ltac nd_step :=
  repeat (cbv zeta; first
    [apply sendEvent_nd | apply insertMsg_nd | by apply clientIf_nd | apply waitEvents_nd | apply leap_nd
    | by apply nullCheck_nd | keeps_step]); try done.

Lemma prepareAP_nd e : quiet (prepareAP_p e).
Proof. unfold prepareAP_p, transport, setPc. nd_step. Qed.

Lemma smThreadFun_nd env : quiet (smThreadFun_p env).
Proof. unfold smThreadFun_p, transport. repeat first [apply prepareAP_nd|apply leap_nd|by apply nullCheck_nd|keeps_step]. Qed.

Lemma smStep_nd env i : quiet (smStep env i).
Proof.
  unfold smStep, stopped, bootTimeout, transport, mngrClient, setPc.
  repeat (cbv zeta; first [apply prepareAP_nd|apply smThreadFun_nd|apply waitEvents_nd|by apply nullCheck_nd|keeps_step]); done.
Qed.

Lemma setClockSource_nd env a b : quiet (setClockSource_p env a b).
Proof. unfold setClockSource_p, waitClkSource, upd_info, sendSetApClkSource, sendSetParam, transport. nd_step. Qed.

Lemma notif_nd env n : rx_data n = [] -> quiet (handleNotif env n).
Proof.
  intros Hn. destruct n; cbn [handleNotif]; try done;
    unfold handleEvent, handleTimeIndication, handleTXDone, handleReadyForTime, handleAPBoot,
      handleParamMacAddress, handleParamMoteInfo, handleParamAppInfo, handleParamClkSrc, handleParamNetId,
      handleParamGetTime, handleParamApStatus, handleAPLost, handleError, upd_info, sendSetSystime, sendGetApClkSource,
      sendGetNetId, sendGetApMoteInfo, sendGetApAppInfo, sendGetApStatus, sendGetParam; nd_step.
  apply nullCheck_nd. by destruct (_ && _).
Qed.

Lemma coupler_nd env op : rx_op op = [] -> quiet (Coupler.exec env op).
Proof.
  intros Hop. destruct op; cbn [Coupler.exec]; try (by apply notif_nd); try apply smStep_nd; try apply leap_nd;
    unfold handleAPReboot, handleAPPause, handleAPResume, connected, disconnected, dataRx, sendApSend, resume, pause, offline, online,
      resetAP, disconnectAP, getTime, transportIf, handleGPSStatusChanged, handleSatellitesUsedChanged,
      handleSatellitesVisibleChanged, setClockSrource, handleSetClkSrcResponse_p, handleSetClkSrcErrorResponse_p,
      stop_signal, sendGetApClkSource, sendGetNetId, sendGetApMoteInfo, sendGetApAppInfo, sendGetParam, upd_info, transport;
    repeat first [apply setClockSource_nd|nd_step].
Qed.
End NoData.

(** What the coupler asks the client to send. *)
Lemma coupler_data env op c : has_client c ->
  has_client (st_of (Coupler.exec env op) c) /\ flat_map data_call (out_of (Coupler.exec env op) c) = rx_op op.
Proof.
  intros Hc. destruct (rx_op op) as [|d l] eqn:Hop.
  - pose proof (coupler_nd env op Hop) as Hk. split; [by apply (keeps_st _ _ _ c Hk)|by apply (data_keeps _ _ c Hk)].
  - destruct op as [[]| | | | | | | | | | | | | | | | | | | | | |]; try done. injection Hop as <- <-.
    unfold Coupler.exec, handleNotif, handleAPReceive, clientIf. rewrite st_read, out_read. cbv beta in Hc. by rewrite Hc.
Qed.

(** ** Packets through the bridge

    [passes m Q]: [Q] holds of the result of [m], of the packets the client was given
    and of the packets the transport handed over, in order. *)
Definition passes {A} (m : BM A) (Q : A -> list (list Z) -> list (list Z) -> Prop) : Prop :=
  forall b, has_client (b_cpl b) -> has_client (b_cpl (st_of m b)) /\
    Q (res_of m b) (flat_map sent_data (out_of m b)) (flat_map received (out_of m b)).

Lemma passes_ret {A} (a : A) (Q : A -> list (list Z) -> list (list Z) -> Prop) : Q a [] [] -> passes (mret a) Q.
Proof. intros HQ b Hb. by split. Qed.

Lemma passes_bind {A B} (m : BM A) (k : A -> BM B) R (Q : B -> list (list Z) -> list (list Z) -> Prop) :
  passes m R -> (forall a c1 r1, R a c1 r1 -> passes (k a) (fun x c2 r2 => Q x (c1 ++ c2) (r1 ++ r2))) -> passes (m ≫= k) Q.
Proof.
  intros Hm Hk b Hb. destruct (Hm b Hb) as [H1 H2]. destruct (Hk _ _ _ H2 _ H1) as [H3 H4].
  rewrite st_bind, out_bind, res_bind, !flat_map_app. by split.
Qed.

Lemma passes_weaken {A} (m : BM A) (Q Q' : A -> list (list Z) -> list (list Z) -> Prop) :
  passes m Q -> (forall a c r, Q a c r -> Q' a c r) -> passes m Q'.
Proof. intros Hm HQ b Hb. destruct (Hm b Hb). auto. Qed.

(** A loop whose rounds give the client the packets [f] and receive none. *)
Lemma passes_each {A} (f : A -> BM unit) (g : A -> list (list Z)) l :
  (forall a, passes (f a) (fun _ c r => c = g a /\ r = [])) ->
  passes (each f l) (fun _ c r => c = flat_map g l /\ r = []).
Proof.
  intros Hf. induction l as [|a l IH]; [by apply passes_ret|].
  apply (passes_bind _ _ _ _ (Hf a)). intros u c r [-> ->].
  apply (passes_weaken _ _ _ IH). by intros v c r [-> ->].
Qed.

(** A loop whose rounds pass on what they receive. *)
Notation passed := (fun _ c r => c = r).
Lemma passed_each {A} (f : A -> BM unit) l : (forall a, a ∈ l -> passes (f a) passed) -> passes (each f l) passed.
Proof.
  induction l as [|a l IH]; intros Hf; [by apply passes_ret|].
  apply (passes_bind _ _ _ _ (Hf a ltac:(left))). intros u c r ->.
  eapply passes_weaken; [apply IH; intros x Hx; apply Hf; by right|]. by intros v c r' ->.
Qed.

Lemma passes_onTr u op : passes (onTr u op) (fun evs c r => c = [] /\ r = flat_map rx_data (flat_map told evs)).
Proof. intros b Hb. split; [done|]. cbn. by rewrite app_nil_r. Qed.

Lemma passes_onCl e op : passes (onCl e op) (fun _ c r => c = sent_data (StCl e op []) /\ r = []).
Proof. intros b Hb. split; [done|]. cbn. by rewrite app_nil_r. Qed.

Lemma passes_onCpl e op : passes (onCpl e op) (fun evs c r => c = [] /\ r = [] /\ flat_map data_call evs = rx_op op).
Proof. intros b Hb. by destruct (coupler_data e op (b_cpl b) Hb) as [H1 H2]. Qed.

Section Passes.
Context (env : BrEnv).

Lemma passes_clientCall c : passes (clientCall env c) (fun _ s r => s = data_call (CClient c) /\ r = []).
Proof.
  apply (passes_bind _ _ _ _ (passes_onCl _ _)). intros evs s r [-> ->]. apply passes_ret. split; [|done].
  rewrite app_nil_r. by destruct c.
Qed.

Lemma passes_cplCall op : passes (cplCall env op) (fun _ c r => c = rx_op op /\ r = []).
Proof.
  apply (passes_bind _ _ _ _ (passes_onCpl _ _)). intros evs c r (-> & -> & <-). cbn [app].
  apply passes_each. intros []; cbn [forwardClient]; first [apply passes_clientCall|by apply passes_ret].
Qed.

(** A callback: at most a reset of the AP. *)
Lemma passes_callback e op : callback_op e = Some op -> passes (callbackCall env op) (fun _ c r => c = [] /\ r = []).
Proof.
  intros Hop. assert (Hcases : op = CoSetClkRsp \/ op = CoSetClkErr).
  { destruct e; cbn in Hop; try done; case_match; simplify_eq; auto. }
  set (reset := fun e => match e with CTransport c => c = TcHwResetAP | _ => True end).
  apply (passes_bind _ _ (fun evs c r => c = [] /\ r = [] /\ Forall reset evs)).
  - intros b Hb. destruct Hcases as [-> | ->]; unfold onCpl, st_of, res_of, out_of;
      cbv [Coupler.exec handleSetClkSrcResponse_p handleSetClkSrcErrorResponse_p transport nullCheck]; runM; cbn [fst snd].
    + destruct (m_transport (b_cpl b)); split_and!; try done; by repeat constructor.
    + destruct (m_pWDdClient (b_cpl b)); split_and!; try done; by repeat constructor.
  - intros evs c r (-> & -> & Hevs). cbn [app]. clear Hop Hcases. induction Hevs as [|x l Hx _ IH]; [by apply passes_ret|].
    cbn [each]. apply (passes_bind _ _ (fun _ c r => c = [] /\ r = [])).
    + destruct x; try (by apply passes_ret). cbn in Hx. subst. intros b Hb. by split.
    + intros u c r [-> ->]. exact IH.
Qed.

Lemma passes_afterEvent e : passes (afterEvent env e) (fun _ c r => c = flat_map rx_data (told e) /\ r = []).
Proof.
  apply (passes_bind _ _ (fun _ c r => c = flat_map rx_op (cpl_of_tr e) /\ r = [])).
  { apply passes_each. intros op. apply passes_cplCall. }
  intros u c r [-> ->]. assert (flat_map rx_op (cpl_of_tr e) = flat_map rx_data (told e)) as -> by (destruct e as [n|[]| | | | | | | | | |]; done || by rewrite app_nil_r).
  destruct (callback_op e) as [op|] eqn:Hop.
  - eapply passes_weaken; [by apply (passes_callback e)|]. intros v c r [-> ->]. by rewrite app_nil_r.
  - apply passes_ret. by rewrite app_nil_r.
Qed.

Lemma passes_afterTr evs : passes (afterTr env evs) (fun _ c r => c = flat_map rx_data (flat_map told evs) /\ r = []).
Proof.
  eapply passes_weaken; [apply (passes_each _ (fun e => flat_map rx_data (told e))), passes_afterEvent|].
  intros u c r [-> ->]. split; [|done]. induction evs as [|e evs IH]; [done|]. cbn [flat_map]. by rewrite flat_map_app, IH.
Qed.

(** A transport step hands over what the client then gets. *)
Lemma passed_tr u op : passes (evs ← onTr u op; afterTr env evs) passed.
Proof.
  apply (passes_bind _ _ _ _ (passes_onTr _ _)). intros evs c r [-> ->].
  eapply passes_weaken; [apply passes_afterTr|]. intros v c r [-> ->]. by rewrite app_nil_r.
Qed.

Lemma passed_cplStep op : rx_op op = [] -> passes (cplStep env op) passed.
Proof.
  intros Hop. apply (passes_bind _ _ _ _ (passes_onCpl _ _)). intros evs c r (-> & -> & Hevs). rewrite Hop in Hevs. cbn [app].
  apply passed_each. intros e He.
  assert (Hd : data_call e = []).
  { apply list_elem_of_split in He as (l1 & l2 & ->). rewrite flat_map_app in Hevs. cbn [flat_map] in Hevs.
    by apply app_eq_nil in Hevs as [_ [? _]%app_eq_nil]. }
  destruct e; cbn [forward]; try (by apply passes_ret).
  - apply passed_each. intros u _. apply passed_tr.
  - eapply passes_weaken; [apply passes_clientCall|]. intros v c' r' [-> ->]. by rewrite Hd.
Qed.
End Passes.

(** What reaches the bridge from outside: notifications come from the transport, and the
    client sends what the coupler gives it. *)
Definition outside (op : br_op) : Prop :=
  match op with
  | BrTr _ => True
  | BrCpl op => rx_op op = []
  | BrCl op => packet_of op = None
  end.

Lemma passed_exec env op : outside op -> passes (br_exec env op) passed.
Proof.
  intros Hop. destruct op as [op|op|op]; cbn [br_exec outside] in *.
  - intros b Hb. unfold trStep. rewrite st_read, out_read. apply (passed_tr env (upperOf env (b_cpl b)) op b Hb).
  - by apply passed_cplStep.
  - apply (passes_bind _ _ _ _ (passes_onCl _ _)). intros evs c r [-> ->].
    eapply passes_weaken; [apply (passed_each (forwardInput env))|].
    + intros e _. destruct e; cbn [forwardInput]; try (by apply passes_ret). apply passed_cplStep. by destruct c.
    + intros v c r ->. by destruct op.
Qed.

Lemma passed_execs l : Forall (fun o => outside (snd o)) l -> passes (br_execs l) passed.
Proof.
  induction 1 as [|[env op] l Hop _ IH]; [by apply passes_ret|]. cbn [snd] in Hop.
  apply (passes_bind _ _ _ _ (passed_exec env op Hop)). intros u c r ->.
  eapply passes_weaken; [exact IH|]. by intros v c r' ->.
Qed.

(** ** The session on the serial line and what the manager's cache holds *)
#[export] Instance no_flow : FlowHandler (fun _ => mret tt).
Proof. split; [|by constructor]. intros f t. exists (ApmTransport.m_isMngrConnected t). by destruct t. Qed.

(** The packets in a run of notifications. *)
Definition packet_notif (m : Z * list Z * list (upper_t * tr_op)) : list (list Z) :=
  if fst (fst m) =? DN_API_LOC_NOTIF_AP_RECEIVE then [snd (fst m)] else [].

Lemma rx_cast l conv n data : (forall m, rx_data (n m) = []) -> flat_map rx_data (cast_notif l conv n data) = [].
Proof. intros Hn. unfold cast_notif. destruct (bufferCast_p l data); cbn; by rewrite ?Hn. Qed.

Lemma rx_notifs cmd data : plain cmd = true ->
  flat_map rx_data (notifs_of cmd data) = if cmd =? DN_API_LOC_NOTIF_AP_RECEIVE then [data] else [].
Proof.
  unfold plain, notifs_of, handleCmd. intros [H1 H2]%andb_true_iff. apply bool_decide_eq_true in H2.
  destruct (cmd =? DN_API_LOC_NOTIF_EVENTS) eqn:E1; [done|]. unfold uncheckedReads in H2.
  destruct (Z.eqb_spec cmd DN_API_LOC_NOTIF_AP_RECEIVE) as [->|Hne]; [done|].
  destruct (cmd =? DN_API_LOC_CMD_GETPARAM); [done|]. cbv iota beta.
  destruct (cmd =? DN_API_LOC_NOTIF_TXDONE); [apply rx_cast; reflexivity|].
  destruct (cmd =? DN_API_LOC_NOTIF_TIME); [apply rx_cast; reflexivity|].
  destruct (cmd =? DN_API_LOC_NOTIF_READY_FOR_TIME); [apply rx_cast; reflexivity|reflexivity].
Qed.

(** At every packet the client accepts it. *)
Fixpoint taken (l : list (ClEnv * client_op)) (c : CAPCClient) : bool :=
  match l with
  | [] => true
  | (env, op) :: r =>
      match op with CSend data => accepts c && (length data <=? APC_MAX_MSG_SIZE)%nat | _ => true end &&
      taken r (st_of (ApcClient.exec env op) c)
  end.

Definition rx_packet (tp : Z * list Z) : list (list Z) := if fst tp =? APC_NET_RX then [snd tp] else [].
Definition send_of (o : ClEnv * client_op) : list (list Z) := match snd o with CSend data => [data] | _ => [] end.

Lemma taken_history l : forall c, taken l c = true -> flat_map rx_packet (history l c) = flat_map send_of l.
Proof.
  induction l as [|[env op] l IH]; intros c Ht; [done|]. cbn [taken history flat_map] in *.
  apply andb_true_iff in Ht as [H1 H2]. rewrite flat_map_app, (IH _ H2). f_equal. unfold accepted_packets.
  destruct op; cbn [packet_of send_of snd]; try done; try (by destruct (_ && _)).
  apply andb_true_iff in H1 as [-> H1]. apply Nat.leb_le in H1. unfold APC_MAX_MSG_SIZE in *.
  assert (Hlen : Z.of_nat (length payload) < 65536) by (cbn in H1; lia).
  rewrite u16_small, Nat2Z.id, firstn_all by lia. rewrite (proj2 (Nat.leb_le _ _)) by done. done.
Qed.

Lemma sent_parts l : flat_map sent_data l = flat_map send_of (flat_map cl_part l).
Proof. induction l as [|s l IH]; [done|]. cbn [flat_map]. rewrite flat_map_app, IH. by destruct s as [| |e [] ?]. Qed.

(** ** A packet of the manager on its way to the AP *)

(** The transport has nothing in flight, and room. *)
Record idle (t : CAPMTransport) : Prop := {
  id_queue : m_outputQueue t = [];
  id_pending : m_pending t = false;
  id_room : m_capacity t <> 0%nat;
  id_mark : 1 < highQueueWatermark (m_init_params t)
}.

(** The command goes to the serial port during the call. *)
Lemma insert_idle u env cmd data t : idle t -> te_ready env = true ->
  exists t', ApmTransport.exec (fun _ => mret tt) u (OpCall (UcInsert env cmd data false CbNone CbNone false)) t =
    (t', [EvOut (serialize (apt_hdr cmd (Z.of_nat (length data)) (m_respPacketId t)) ++ data)], tt) /\
    m_outputQueue t' = [mkCommand cmd data false CbNone CbNone (te_now env)] /\ m_pending t' = true.
Proof.
  intros [H1 H2 H3 H4] Hr. destruct t. cbn in H1, H2, H3, H4 |- *. subst.
  eexists. cbv [ApmTransport.exec upCall insertMsg full send sendCommand enqueue upd_stats startRetryTimer startPingTimer
    startQueueCheckTimer flow when queueSize get mbind M_bind mret M_ret modify emit].
  rewrite Hr. cbn -[Z.leb]. destruct m_capacity as [|cap]; [done|]. cbn -[Z.leb].
  change (Z.of_nat 1) with 1. rewrite (proj2 (Z.leb_gt _ 1) H4), andb_false_r. cbn. split; [reflexivity|done].
Qed.

Lemma received_run env p payload c : m_pInput c = true -> pr_type p = APC_NET_TX ->
  exists c', ApcClient.exec env (CReceived p payload) c =
    (c', [EvInput (InDataRx (sendHdrOf payload) (drop (sizeof apc_msg_net_tx_s) payload))], tt).
Proof.
  intros Hin Ht. cbn [ApcClient.exec]. unfold ApcClient.messageReceived. unfold input. runM.
  destruct (Z.land (pr_flags p) APC_HDR_FLAGS_NOTRACK =? 0); cbn [m_pInput upd]; rewrite Hin, Ht; cbn; by eexists.
Qed.

Definition with_client (c : CAPCClient) (b : Bridge) : Bridge := b <| b_cl := c |>.

Lemma clStep_input env op b c' i : ApcClient.exec (be_cl env) op (b_cl b) = (c', [EvInput i], tt) ->
  let m := cplStep env (cpl_of_input env i) in
  out_of (br_exec env (BrCl op)) b = StCl (be_cl env) op [EvInput i] :: out_of m (with_client c' b) /\
  st_of (br_exec env (BrCl op)) b = st_of m (with_client c' b).
Proof.
  intros Hrun m. cbn [br_exec]. unfold clStep. rewrite out_bind, st_bind.
  assert (Hcl : onCl (be_cl env) op b = (with_client c' b, [StCl (be_cl env) op [EvInput i]], [EvInput i]))
    by (unfold onCl; by rewrite Hrun).
  unfold out_of at 1, st_of at 1, st_of at 2, res_of at 1, res_of at 1. rewrite Hcl. cbn [fst snd each forwardInput].
  rewrite out_bind, st_bind. fold m. cbn. by rewrite app_nil_r.
Qed.

(** A field is bounded by its width also where the message ends before it. *)
Lemma fld_bounded l f bs : Forall is_byte bs -> 0 <= fld l f bs < 256 ^ Z.of_nat (widthof l f).
Proof.
  intros Hb. unfold fld, get_field. set (x := take _ _).
  assert (Hx : Forall is_byte x) by by apply Forall_take, Forall_drop.
  pose proof (le_val_range x Hx) as H. assert (Hl : (length x <= widthof l f)%nat) by (unfold x; rewrite length_take; lia).
  pose proof (Z.pow_le_mono_r 256 (Z.of_nat (length x)) (Z.of_nat (widthof l f)) ltac:(lia) ltac:(lia)). lia.
Qed.

Definition ap_header (hdr : ap_intf_sendhdr_t) : apsend_ctrl :=
  mkApSend (priority_val (sh_priority hdr)) (if sh_isLinkInfoSpecified hdr then 1 else 0)
    (sh_txDoneId hdr) (sh_frId hdr) (sh_slot hdr) (sh_offset hdr) (sh_dst hdr).

Lemma header_decoded payload data : Forall is_byte payload ->
  apsend_decoded (apsend_bytes (ap_header (sendHdrOf payload)) ++ data) (ap_header (sendHdrOf payload)).
Proof.
  intros Hb. apply apsend_bytes_decoded; unfold ap_header, sendHdrOf;
    cbn [as_priority as_linkCtrl as_packetId as_frameId as_timeslot as_channel as_dest
      sh_priority sh_isLinkInfoSpecified sh_txDoneId sh_frId sh_slot sh_offset sh_dst].
  - by destruct (priorityOf _).
  - by destruct (Z.land _ APC_NETTX_FL_USETXINFO =? _).
  - exact (fld_bounded apc_msg_net_tx_s "txDoneId" payload Hb).
  - exact (fld_bounded apc_msg_net_tx_s "frame" payload Hb).
  - exact (fld_bounded apc_msg_net_tx_s "slot" payload Hb).
  - exact (fld_bounded apc_msg_net_tx_s "offset" payload Hb).
  - exact (fld_bounded apc_msg_net_tx_s "dst" payload Hb).
Qed.

Lemma dataRx_run env hdr data c : m_transport c = true ->
  Coupler.exec env (CoDataRx hdr data) c =
    (c, [CTransport (TcInsertMsg DN_API_LOC_CMD_AP_SEND (apsend_bytes (ap_header hdr) ++ data) false CcNone CcNone)], tt).
Proof.
  intros Ht. cbn [Coupler.exec]. unfold dataRx, sendApSend.
  by rewrite (bind_run _ _ _ _ _ _ (insertMsgIf_run _ _ _ _ _ _ _ _ Ht)).
Qed.

(** Handing over a packet is one command, which goes out at once. *)
Lemma cplStep_dataRx env hdr data b : m_transport (b_cpl b) = true -> te_ready (be_tr env) = true -> idle (b_tr b) ->
  let body := apsend_bytes (ap_header hdr) ++ data in
  let r := cplStep env (CoDataRx hdr data) b in
  flat_map tr_out (snd (fst r)) =
    [EvOut (serialize (apt_hdr DN_API_LOC_CMD_AP_SEND (Z.of_nat (length body)) (m_respPacketId (b_tr b))) ++ body)] /\
  m_outputQueue (b_tr (fst (fst r))) = [mkCommand DN_API_LOC_CMD_AP_SEND body false CbNone CbNone (te_now (be_tr env))] /\
  m_pending (b_tr (fst (fst r))) = true.
Proof.
  intros Ht Hr Hi body r.
  destruct (insert_idle no_upper (be_tr env) DN_API_LOC_CMD_AP_SEND body (b_tr b) Hi Hr) as (t' & Hrun & Hq & Hpd).
  unfold r, cplStep, onCpl, mbind, M_bind. rewrite (dataRx_run _ _ _ _ Ht). fold body.
  cbn [fst snd forward up_of each callback_of]. unfold trCall, onTr, mbind, M_bind. cbn [b_tr upd]. rewrite Hrun.
  by cbn [fst snd flat_map tr_out app afterTr each afterEvent cpl_of_tr callback_op mret M_ret b_tr upd mbind M_bind].
Qed.

Definition ex_benv : BrEnv :=
  mkBrEnv ex_env (ex_cenv 1000000) (clenv0 5 true) (ApcClient.mkStartParam 1000 100 500 5000) None.
Definition ex_bridge : Bridge :=
  let c := run_ops demo_ops (newCAPCClient 4) in
  mkBridge (ex_state [ex_cmd 1 2]) (ex_coupler PcWaitRun 1 PPS)
    (c <| conns := (fun k => k <| m_isWorking := true |> <| m_isConnected := true |>) <$> conns c |>).

Definition ex_rx (k : Z) (data : list Z) : BrEnv * br_op :=
  (ex_benv, BrTr (OpData ex_env (nframe k DN_API_LOC_NOTIF_AP_RECEIVE data))).
Definition ex_seg1 : list (BrEnv * br_op) :=
  [ex_rx 2 [1; 2; 3]; (ex_benv, BrCpl (CoGps GPS_ST_SYNC)); (ex_benv, BrTr (OpRetryExpires ex_env)); ex_rx 2 [1; 2; 3];
   (ex_benv, BrCl (CReceived (mkReceived 7 0 1 1 APC_GET_TIME) []))].
Definition ex_seg2 : list (BrEnv * br_op) := [ex_rx 0 [4]].

Definition ex_session : list (Z * list Z * list (upper_t * tr_op)) :=
  let parts l b := flat_map tr_part (out_of (br_execs l) b) in
  [(DN_API_LOC_NOTIF_AP_RECEIVE, [1; 2; 3], parts ex_seg1 ex_bridge);
   (DN_API_LOC_NOTIF_AP_RECEIVE, [4], parts ex_seg2 (st_of (br_execs ex_seg1) ex_bridge))].

Lemma br_execs_app l1 l2 b : out_of (br_execs (l1 ++ l2)) b = out_of (br_execs l1) b ++ out_of (br_execs l2) (st_of (br_execs l1) b).
Proof.
  revert b. induction l1 as [|[env op] l1 IH]; intros b; [done|]. cbn [app br_execs].
  by rewrite !out_bind, !st_bind, IH, app_assoc.
Qed.

Lemma ex_session_ops : flat_map tr_part (out_of (br_execs (ex_seg1 ++ ex_seg2)) ex_bridge) = session_ops ex_session.
Proof. rewrite br_execs_app, flat_map_app. unfold session_ops, ex_session. cbn [flat_map snd]. by rewrite app_nil_r. Qed.

(** Which operations a session contains can be evaluated without the reactions. *)
Lemma carries_ops k cmd data (ops : list (upper_t * tr_op)) l : map snd ops = l -> Forall (carries k cmd data) l ->
  Forall (fun s => carries k cmd data (snd s)) ops.
Proof. intros <-. induction ops as [|s ops IH]; intros H; [done|]. inversion H; subst. by constructor; auto. Qed.

Lemma session_calls (l : list (ClEnv * client_op)) ops : map snd l = ops ->
  Forall (fun op => op_ok op /\ in_session op = true) ops -> Forall (fun o => op_ok (snd o) /\ in_session (snd o) = true) l.
Proof. intros <-. induction l as [|s l IH]; intros H; [done|]. inversion H; subst. by constructor; auto. Qed.

Lemma ex_bridge_ok : param_ok init_param_default /\ tr_reachable init_param_default (b_tr ex_bridge) /\
  exists log, cache_inv (m_cache (b_cl ex_bridge)) log /\ log = [(APC_NET_RX, [1; 2; 3])].
Proof.
  split; [apply ex_param_ok|]. split; [apply ex_reachable|]. exists [(APC_NET_RX, [1; 2; 3])]. split; [|done].
  assert (Hc : cache_inv (m_cache (run_ops (drop 2 demo_ops) (run_ops (take 2 demo_ops) (newCAPCClient 4)))) [(APC_NET_RX, [1; 2; 3])]).
  { apply (run_history_new _ _ (clear (newCAPCCache 4))); [repeat constructor; cbn; lia|by vm_compute| |by vm_compute|by vm_compute].
    apply (clear_inv _ []), newCAPCCache_inv; lia. }
  assert (E : m_cache (b_cl ex_bridge) = m_cache (run_ops (drop 2 demo_ops) (run_ops (take 2 demo_ops) (newCAPCClient 4)))) by by vm_compute.
  by rewrite E.
Qed.

(** * Theorems *)

(** Uplink. In any run of the bridge, whatever the manager, the GPS, the timers and
    the coupler's thread do meanwhile: if the AP repeats each notification until it is
    acknowledged and alternates its packet id, the client is given exactly the packets
    of the AP, each once and in order; and the client's cache, from which packets are
    replayed after a reconnection, then holds what it held before followed by the
    accepted packets, which are all packets of the AP if the client never was offline. *)
Theorem uplink_once (p : init_param_t) (b : Bridge) (l : list (BrEnv * br_op)) (k : Z)
  (ms : list (Z * list Z * list (upper_t * tr_op))) (log : list sent) :
  param_ok p -> tr_reachable p (b_tr b) -> m_mngrClient (b_cpl b) = true -> cache_inv (m_cache (b_cl b)) log ->
  Forall (fun o => outside (snd o)) l -> is_pktId k -> k <> m_notifPacketId (b_tr b) ->
  let b' := st_of (br_execs l) b in
  let out := out_of (br_execs l) b in
  let calls := flat_map cl_part out in
  flat_map tr_part out = session_ops ms -> session (fun _ => mret tt) k ms (b_tr b) ->
  Forall (fun o => op_ok (snd o) /\ in_session (snd o) = true) calls ->
  Z.of_nat (length log + length calls) < 2 ^ 64 - 2 ->
  flat_map sent_data out = flat_map packet_notif ms /\
  exists h, cache_inv (m_cache (b_cl b')) (log ++ h) /\
    (taken calls (b_cl b) = true -> flat_map rx_packet h = flat_map packet_notif ms).
Proof.
  intros Hp Ht Hc Hlog Hl Hk Hne b' out calls Hops Hs Hcl Hlen.
  destruct (br_execs_logged l b) as (R1 & R2 & R3). fold b' out in R1, R2, R3.
  destruct (passed_execs l Hl b Hc) as [_ Hpass]. fold out in Hpass.
  rewrite tr_runs_eq, Hops in R1.
  assert (Hsent : flat_map sent_data out = flat_map packet_notif ms).
  { rewrite Hpass. unfold received.
    assert (flat_map (fun s => flat_map rx_data (flat_map told (tr_out s))) out = flat_map rx_data (flat_map told (flat_map tr_out out))) as ->.
    { clear. induction out as [|s out IH]; [done|]. cbn [flat_map]. by rewrite !flat_map_app, IH. }
    assert (flat_map tr_out out = out_of (runs (fun _ => mret tt) (session_ops ms)) (b_tr b)) as -> by (unfold out_of; by rewrite R1).
    pose proof (tc_resp _ _ (proj1 (reachable_inv p _ Hp Ht))) as Hr.
    rewrite (session_delivers (m_respPacketId (b_tr b)) Hr _ ms (m_notifPacketId (b_tr b)) k (b_tr b)) by done.
    clear -Hs. revert k Hs. generalize (b_tr b). induction ms as [|[[cmd data] ops] ms IH]; intros t k Hs; [done|].
    destruct Hs as (Hpl & _ & _ & Hs). cbn [flat_map fst snd]. rewrite flat_map_app, (IH _ _ Hs). f_equal.
    rewrite rx_notifs by done. done. }
  split; [done|]. exists (history calls (b_cl b)). split.
  - assert (b_cl b' = run_ops calls (b_cl b)) as ->.
    { rewrite <- cl_runs_st. unfold st_of, calls. by rewrite R3. }
    by apply run_history.
  - intros Htk. by rewrite (taken_history _ _ Htk), <- Hsent, sent_parts.
Qed.


Lemma uplink_once_witness :
  let l := ex_seg1 ++ ex_seg2 in
  flat_map sent_data (out_of (br_execs l) ex_bridge) = [[1; 2; 3]; [4]] /\
  exists h, cache_inv (m_cache (b_cl (st_of (br_execs l) ex_bridge))) ((APC_NET_RX, [1; 2; 3]) :: h) /\
    flat_map rx_packet h = [[1; 2; 3]; [4]].
Proof.
  intros l. destruct ex_bridge_ok as (Hp & Ht & log & Hlog & ->).
  destruct (uplink_once init_param_default ex_bridge l 2 ex_session [(APC_NET_RX, [1; 2; 3])]) as (H1 & h & H2 & H3).
  - exact Hp.
  - exact Ht.
  - reflexivity.
  - exact Hlog.
  - repeat constructor.
  - by right.
  - by vm_compute.
  - apply ex_session_ops.
  - split; [done|]. split; [eapply carries_ops; [vm_compute; reflexivity|repeat constructor]|]. split; [by vm_compute|].
    split; [done|]. split; [eapply carries_ops; [vm_compute; reflexivity|repeat constructor]|]. by split; [vm_compute|].
  - eapply session_calls; [vm_compute; reflexivity|repeat constructor; cbn; lia].
  - by vm_compute.
  - split; [exact H1|]. exists h. split; [exact H2|]. apply H3. by vm_compute.
Defined.

(** C10: Downlink. A NET_TX message of the manager that meets an idle transport leaves at
    once, as one frame on the serial line, a send command under the packet id that the
    AP expects: its control structure decodes, in the AP's byte order, to the fields of
    the manager's header, and the rest of the frame is the packet. The command stays in
    the queue until the AP answers. *)
Theorem downlink_frame (env : BrEnv) (b : Bridge) (p : param_received_s) (payload : list Z) :
  m_pInput (b_cl b) = true -> pr_type p = APC_NET_TX -> m_transport (b_cpl b) = true ->
  te_ready (be_tr env) = true -> idle (b_tr b) -> Forall is_byte payload ->
  let b' := st_of (br_exec env (BrCl (CReceived p payload))) b in
  let hdr := sendHdrOf payload in
  exists body,
    flat_map tr_out (out_of (br_exec env (BrCl (CReceived p payload))) b) =
      [EvOut (serialize (apt_hdr DN_API_LOC_CMD_AP_SEND (Z.of_nat (length body)) (m_respPacketId (b_tr b))) ++ body)] /\
    apsend_decoded body (ap_header hdr) /\
    drop (sizeof dn_api_loc_apsend_ctrl_t) body = drop (sizeof apc_msg_net_tx_s) payload /\
    m_pending (b_tr b') = true /\ map c_payload (m_outputQueue (b_tr b')) = [body].
Proof.
  intros Hin Htype Ht Hr Hi Hb b' hdr.
  exists (apsend_bytes (ap_header hdr) ++ drop (sizeof apc_msg_net_tx_s) payload).
  destruct (received_run (be_cl env) p payload (b_cl b) Hin Htype) as (c' & Hrun).
  destruct (cplStep_dataRx env hdr (drop (sizeof apc_msg_net_tx_s) payload) (with_client c' b) Ht Hr Hi) as (H1 & H2 & H3).
  destruct (clStep_input env _ b c' _ Hrun) as [E1 E2]. unfold b'. rewrite E1, E2.
  split; [exact H1|]. unfold st_of. cbn [cpl_of_input]. fold hdr. rewrite H2, H3. split; [|by split; [reflexivity|]].
  by apply header_decoded.
Qed.

Lemma downlink_frame_witness :
  let b := mkBridge (ex_state []) (b_cpl ex_bridge) (b_cl ex_bridge) in
  let payload := [1; 0x34; 0x12; 1; 7; 4; 3; 2; 1; 9; 0xCD; 0xAB; 42; 43] in
  exists body,
    flat_map tr_out (out_of (br_exec ex_benv (BrCl (CReceived (mkReceived 7 0 1 1 APC_NET_TX) payload))) b) =
      [EvOut ([DN_API_LOC_CMD_AP_SEND; 13; 0] ++ body)] /\
    apsend_decoded body (mkApSend 1 1 0x1234 7 0x01020304 9 0xABCD) /\ drop 11 body = [42; 43].
Proof.
  intros b payload.
  destruct (downlink_frame ex_benv b (mkReceived 7 0 1 1 APC_NET_TX) payload) as (body & H1 & H2 & H3 & _).
  - by vm_compute.
  - done.
  - done.
  - done.
  - split; [by vm_compute..|]. by vm_compute.
  - repeat constructor; cbn; lia.
  - exists body. split; [|split; [exact H2|exact H3]].
    assert (Hb : match flat_map tr_out (out_of (br_exec ex_benv (BrCl (CReceived (mkReceived 7 0 1 1 APC_NET_TX) payload))) b) with
      EvOut f :: _ => drop 3 f | _ => [] end = body) by by rewrite H1.
    assert (Hl : length body = 13%nat) by (rewrite <- Hb; by vm_compute).
    rewrite H1, Hl. by vm_compute.
Defined.
