(* ===== verification/Wire.v ===== *)
(** The serial line: the bridge behind its serial port, and the AP at the other end.

    The port gives the frames it decodes to the transport, and the transport's output,
    resets and reopenings go to the port ([Sys]).  The last part puts an access point at
    the other end of the line ([World]): bytes and frames are in flight in both
    directions, copies may be corrupted on the way to the port and acknowledgements lost
    on the way back, and what the port reads at once has no relation to the frames.  The
    AP's program is not part of the repository: the steps of [World] are what the
    transport (APMTransport.cpp) relies on, which are the alternating packet id and the
    repetition until an acknowledgement with result OK. *)
From stdpp Require Import base numbers list option strings gmap.
From Stdlib Require Import ZArith Lia.
From S2P Require Import Hdlc SerialPort.
From S2P Require Import Prelude Gps Common ApcProto ApcSerializer ApcCache ApcConnector ApcClient ApcHistory.
From S2P Require Import ApmProto ApmSerializer ApmTransport Coupler Bridge.

Local Open Scope Z_scope.

Notation CSerialPort := SerialPort.CSerialPort.
Notation port_op := SerialPort.port_op.
Notation serial_event := SerialPort.serial_event.

Record Sys := mkSys { s_port : CSerialPort; s_br : Bridge }.
#[export] Instance Sys_eta : Eta Sys := fun s => mkSys (s_port s) (s_br s).

(** One operation of the port or of the bridge, and what came of it. *)
Inductive sys_step :=
| SyPort (op : port_op) (evs : list serial_event)
| SyBr (env : BrEnv) (op : br_op) (steps : list br_step).

Notation SysM := (M Sys sys_step).

(** What the calls on the port meet: whether it opens and closes. *)
Record SysEnv := mkSysEnv { se_br : BrEnv; se_open : bool; se_close : bool; se_still : bool }.

Definition onPort (op : port_op) : SysM (list serial_event) := fun s =>
  let r := SerialPort.port_exec op (s_port s) in
  (s <| s_port := fst (fst r) |>, [SyPort op (snd (fst r))], snd (fst r)).

Definition portStep (op : port_op) : SysM unit := _ ← onPort op; mret tt.

Definition onBr (env : BrEnv) (op : br_op) : SysM (list br_step) := fun s =>
  let r := br_exec env op (s_br s) in
  (s <| s_br := fst (fst r) |>, [SyBr env op (snd (fst r))], snd (fst r)).

Section Connected.
Context (env : SysEnv).

(** The transport on the port. *)
Definition port_call (e : tr_event) : list port_op :=
  match e with
  | EvOut f => [SerialPort.PWrite f]
  | EvResetAP => [SerialPort.PReset]
  | EvClosePort => [SerialPort.PClose (se_close env) (se_still env)]
  | EvOpenPort => [SerialPort.POpen (se_open env)]
  | EvRestart => [SerialPort.PRestart]
  | _ => []
  end.

Definition port_calls (steps : list br_step) : list port_op := flat_map port_call (flat_map tr_out steps).

(** ** Whether the port is ready

    The transport asks the port before it sends.  In the one operation that reopens the
    port it does so afterwards; what it reopens does not depend on the answer. *)
Definition is_reopen (op : port_op) : bool :=
  match op with SerialPort.PClose _ _ | SerialPort.POpen _ => true | _ => false end.

Definition set_ready (ready : bool) (e : TrEnv) : TrEnv := mkTrEnv (te_now e) ready (te_garbage e) (te_portCalls e).

Definition tr_ready (ready : bool) (op : tr_op) : tr_op :=
  match op with
  | OpCall (UcInsert e cmd data hi cb ecb sy) => OpCall (UcInsert (set_ready ready e) cmd data hi cb ecb sy)
  | OpCall (UcEnableJoin e n) => OpCall (UcEnableJoin (set_ready ready e) n)
  | OpCall (UcDisconnect e b) => OpCall (UcDisconnect (set_ready ready e) b)
  | OpData e f => OpData (set_ready ready e) f
  | OpRetryExpires e => OpRetryExpires (set_ready ready e)
  | OpRetryStale e b => OpRetryStale (set_ready ready e) b
  | OpPing e b => OpPing (set_ready ready e) b
  | OpQueueCheck e b => OpQueueCheck (set_ready ready e) b
  | _ => op
  end.

Definition op_ready (ready : bool) (op : br_op) : br_op :=
  match op with BrTr op => BrTr (tr_ready ready op) | _ => op end.

Definition env_ready (ready : bool) : BrEnv :=
  let e := se_br env in mkBrEnv (set_ready ready (be_tr e)) (be_cpl e) (be_cl e) (be_start e) (be_arrives e).

Definition port_ready (op : br_op) (s : Sys) : bool :=
  let reopens := filter (fun o => is_reopen o = true) (port_calls (out_of (br_exec (se_br env) op) (s_br s))) in
  SerialPort.isReady (st_of (each SerialPort.port_exec reopens) (s_port s)).

(** ** Operations *)
Definition brStep (op : br_op) : SysM unit :=
  s ← get;
  let ready := port_ready op s in
  steps ← onBr (env_ready ready) (op_ready ready op);
  each portStep (port_calls steps).

(** A frame that the port completes. *)
Definition frameIn (e : serial_event) : SysM unit :=
  match e with
  | SerialPort.SpDataReceived f => brStep (BrTr (OpData (be_tr (se_br env)) f))
  | _ => mret tt
  end.

Definition sysRead (error : bool) (data : list Z) : SysM unit :=
  evs ← onPort (SerialPort.PRead error data); each frameIn evs.
End Connected.

(** What reaches the system from outside: bytes on the line, completed writes, and what
    reaches the bridge, frames excepted. *)
Inductive sys_op :=
| SyRead (error : bool) (data : list Z)
| SyComplete (bufId : nat) (error : bool)
| SyOther (op : br_op).

Definition sys_exec (env : SysEnv) (op : sys_op) : SysM unit :=
  match op with
  | SyRead error data => sysRead env error data
  | SyComplete id error => portStep (SerialPort.PComplete id error)
  | SyOther op => brStep env op
  end.

(** ** What shows at the ends *)
Definition br_steps (s : sys_step) : list br_step := match s with SyBr _ _ steps => steps | _ => [] end.

(** Bytes that the port gives to be written. *)
Definition line_out (s : sys_step) : list (list Z) :=
  match s with
  | SyPort _ evs => omap (fun e => match e with SerialPort.SpAsyncWrite _ data => Some data | _ => None end) evs
  | _ => []
  end.

(** Frames that the transport gets, and those that it puts out. *)
Definition frame_in (o : upper_t * tr_op) : list (list Z) := match snd o with OpData _ f => [f] | _ => [] end.
Definition frame_out (e : tr_event) : option (list Z) := match e with EvOut f => Some f | _ => None end.

(** Packets that the client is given to send. *)
Definition given (out : list sys_step) : list (list Z) := flat_map sent_data (flat_map br_steps out).

Definition is_command (cmd : Z) : bool := negb (cmd =? DN_API_LOC_NOTIF_EVENTS) && negb (cmd =? DN_API_LOC_NOTIF_AP_RECEIVE).

(** A response on the line: bit 0 of the flags is set, and it answers a command. *)
Definition is_response (f : list Z) : bool :=
  match f with cmd :: _ :: fl :: _ => negb (Z.land fl 1 =? 0) && is_command cmd | _ => false end.

(** ** The access point at the other end

    The AP sends one notification at a time: copies of it, as many as it likes, until an
    acknowledgement of it with result OK arrives; then the next one, with the other packet
    id.  In between it sends responses to commands.  Of what the APC writes it decodes the
    frames of each write. *)
Notation msg := (Z * list Z)%type.

Definition heard (w : list Z) : list (Z * Z * Z) :=
  omap (fun f => ack_of (EvOut f)) (snd (Hdlc.feed (Hdlc.newCHDLC 0 true) w)).

(** [w_k]: the packet id of the current or last notification; [w_up], [w_down]: what is in
    flight to the port and from it; [w_given]: packets that the client was given so far. *)
Record World := mkWorld {
  w_sys : Sys;
  w_todo : list msg;
  w_cur : option msg;
  w_k : Z;
  w_acked : bool;
  w_up : list Z;
  w_down : list (list Z);
  w_given : list (list Z)
}.
#[export] Instance World_eta : Eta World := fun w =>
  mkWorld (w_sys w) (w_todo w) (w_cur w) (w_k w) (w_acked w) (w_up w) (w_down w) (w_given w).

(** The frame on the line with one byte of its data or of its check sequence replaced. *)
Definition corrupted (src : list Z) (i : nat) (b : Z) : list Z :=
  [Hdlc.HDLC_PADDING] ++ flat_map Hdlc.stuff (<[i := b]> (Hdlc.frame_body src)) ++ [Hdlc.HDLC_PADDING].

Definition notification (w : World) (m : msg) : list Z := nframe (w_k w) (fst m) (snd m).

Definition matches (w : World) (acks : list (Z * Z * Z)) : bool :=
  match w_cur w with Some m => existsb (fun a => bool_decide (a = (fst m, w_k w, 0))) acks | None => false end.

(** One operation of the system, that reads [n] of the bytes in flight. *)
Definition sys_acts (env : SysEnv) (op : sys_op) (n : nat) (w : World) : World :=
  let s := st_of (sys_exec env op) (w_sys w) in
  let out := out_of (sys_exec env op) (w_sys w) in
  w <| w_sys := s |> <| w_up := drop n (w_up w) |> <| w_down := w_down w ++ flat_map line_out out |>
    <| w_given := w_given w ++ given out |>.

Definition no_frame (op : br_op) : bool := match op with BrTr (OpData _ _) => false | _ => true end.

(** What reaches the system otherwise than over the line. *)
Definition off_line (op : sys_op) : Prop :=
  match op with
  | SyRead error data => error = true \/ data = []
  | SyComplete _ _ => True
  | SyOther op => outside op /\ no_frame op = true
  end.

Inductive world_step : World -> World -> Prop :=
| WNext w m ms :
    w_acked w = true -> w_todo w = m :: ms ->
    world_step w (w <| w_todo := ms |> <| w_cur := Some m |> <| w_k := Z.lxor (w_k w) 2 |> <| w_acked := false |>)
| WCopy w m :
    w_cur w = Some m ->
    world_step w (w <| w_up := w_up w ++ Hdlc.encodeHDLC (notification w m) |>)
| WRespond w f :
    is_response f = true ->
    world_step w (w <| w_up := w_up w ++ Hdlc.encodeHDLC f |>)
| WCorrupt w src i b c :
    Forall is_byte src -> Hdlc.frame_body src !! i = Some b -> is_byte c -> c <> b ->
    world_step w (w <| w_up := w_up w ++ corrupted src i c |>)
| WRead w env n :
    world_step w (sys_acts env (SyRead false (take n (w_up w))) n w)
| WOther w env op :
    off_line op -> world_step w (sys_acts env op 0 w)
| WHear w f rest :
    w_down w = f :: rest ->
    world_step w (w <| w_down := rest |> <| w_acked := w_acked w || matches w (heard f) |>)
| WLose w f rest :
    w_down w = f :: rest -> world_step w (w <| w_down := rest |>).

(** The AP has the notifications [ms] to send to a system in state [s]. *)
Definition world_init (s : Sys) (ms : list msg) : World :=
  mkWorld s ms None (m_notifPacketId (b_tr (s_br s))) true [] [] [].

Inductive world_reach (s : Sys) (ms : list msg) : World -> Prop :=
| WInit : world_reach s ms (world_init s ms)
| WStep w w' : world_reach s ms w -> world_step w w' -> world_reach s ms w'.

(** * Facts *)

(** ** The port *)
Record linked (d : Hdlc.CHDLC) (p : CSerialPort) : Prop := {
  lk_enc : SerialPort.m_encoder p = Some d;
  lk_in : SerialPort.m_inputHandler p = true
}.

Definition written (e : serial_event) : option (list Z) :=
  match e with SerialPort.SpAsyncWrite _ data => Some data | _ => None end.

Lemma alloc_get pool pool' i : SerialPort.alloc pool = (pool', i) -> exists old, pool' !! i = Some (true, old).
Proof.
  intros H. destruct (SerialPort.alloc_spec _ _ _ H) as [(b & Hl & ->)|(-> & _ & ->)].
  - exists b. apply list_lookup_insert_eq. by eapply lookup_lt_Some.
  - exists []. by rewrite lookup_app_r, Nat.sub_diag by lia.
Qed.

Lemma port_write_run d p f : linked d p ->
  linked d (st_of (SerialPort.port_exec (SerialPort.PWrite f)) p) /\
  omap written (out_of (SerialPort.port_exec (SerialPort.PWrite f)) p) = [Hdlc.encodeHDLC f].
Proof.
  intros [H1 H2]. destruct (SerialPort.alloc (SerialPort.m_outbufPool p)) as [pool i] eqn:Ha.
  destruct (alloc_get _ _ _ Ha) as [old Hold]. cbn [SerialPort.port_exec].
  rewrite out_bind, st_bind. unfold st_of at 2, out_of at 1.
  rewrite (SerialPort.write_run _ _ _ _ f Ha Hold). unfold SerialPort.output. rewrite H1. by split.
Qed.

(** What the transport does to the port. *)
Lemma port_call_run env e d p : linked d p ->
  linked d (st_of (each SerialPort.port_exec (port_call env e)) p) /\
  omap written (out_of (each SerialPort.port_exec (port_call env e)) p) = option_list (Hdlc.encodeHDLC <$> frame_out e).
Proof.
  intros Hp. destruct e; cbn [port_call each frame_out fmap option_fmap option_map option_list]; try done.
  - rewrite st_bind, out_bind, omap_app. destruct (port_write_run d p frame Hp) as [H1 ->]. by split.
  - destruct p as [? ? ? []]; destruct Hp; by split.
  - cbn. destruct Hp. by destruct (se_close env).
  - cbn. destruct Hp. by destruct (se_open env).
Qed.

Notation sys_linked d s := (linked d (s_port s)).

Lemma onPorts_eq ops s :
  st_of (each portStep ops) s =
    s <| s_port := st_of (each SerialPort.port_exec ops) (s_port s) |> /\
  flat_map br_steps (out_of (each portStep ops) s) = [] /\
  flat_map line_out (out_of (each portStep ops) s) =
    omap written (out_of (each SerialPort.port_exec ops) (s_port s)).
Proof.
  revert s. induction ops as [|o ops IH]; intros s; [by destruct s|]. cbn [each].
  destruct (SerialPort.port_exec o (s_port s)) as [[p evs] []] eqn:Eo.
  assert (Hs : portStep o s = (s <| s_port := p |>, [SyPort o evs], tt)) by
    (unfold portStep, onPort, mbind, M_bind; by rewrite Eo).
  rewrite !st_bind, !out_bind, !flat_map_app, omap_app.
  assert (H1 : st_of (portStep o) s = s <| s_port := p |> /\ out_of (portStep o) s = [SyPort o evs]) by
    (unfold st_of, out_of; by rewrite Hs).
  assert (H2 : st_of (SerialPort.port_exec o) (s_port s) = p /\ out_of (SerialPort.port_exec o) (s_port s) = evs) by
    (unfold st_of, out_of; by rewrite Eo).
  destruct H1 as [-> ->], H2 as [-> ->]. set (s1 := s <| s_port := p |>) in *. destruct (IH s1) as (E1 & E2 & E3).
  rewrite E1, E2, E3. cbn [flat_map br_steps line_out app]. by rewrite app_nil_r.
Qed.

(** The output of the transport goes out encoded; the decoder keeps its place. *)
Lemma port_calls_run env evs d p : linked d p ->
  linked d (st_of (each SerialPort.port_exec (flat_map (port_call env) evs)) p) /\
  omap written (out_of (each SerialPort.port_exec (flat_map (port_call env) evs)) p) = map Hdlc.encodeHDLC (omap frame_out evs).
Proof.
  revert p. induction evs as [|e evs IH]; intros p Hp; [done|]. cbn [flat_map omap list_omap].
  destruct (port_call_run env e d p Hp) as [H1 H2].
  destruct (each SerialPort.port_exec (port_call env e) p) as [[p1 t1] []] eqn:E1.
  destruct (each SerialPort.port_exec (flat_map (port_call env) evs) p1) as [[p2 t2] []] eqn:E2.
  unfold st_of, out_of in *. rewrite E1 in H1, H2. cbn [fst snd] in H1, H2.
  rewrite (each_app _ _ _ _ _ _ _ _ E1 E2). cbn [fst snd]. rewrite omap_app, H2.
  specialize (IH p1 H1). rewrite E2 in IH. cbn [fst snd] in IH. destruct IH as [H3 ->].
  split; [done|]. by destruct (frame_out e).
Qed.

(** One step of the bridge behind the port. *)
Lemma brStep_run env op d s : sys_linked d s ->
  let ready := port_ready env op s in
  let m := br_exec (env_ready env ready) (op_ready ready op) in
  let s' := st_of (brStep env op) s in
  let out := out_of (brStep env op) s in
  s_br s' = st_of m (s_br s) /\ sys_linked d s' /\
  flat_map br_steps out = out_of m (s_br s) /\
  flat_map line_out out = map Hdlc.encodeHDLC (omap frame_out (flat_map tr_out (out_of m (s_br s)))).
Proof.
  intros Hs ready m s' out. unfold s', out, brStep. rewrite st_read, out_read. cbv zeta. fold ready.
  rewrite st_bind, out_bind, !flat_map_app. fold m.
  set (s1 := st_of (onBr (env_ready env ready) (op_ready ready op)) s).
  assert (H1 : s_port s1 = s_port s /\ s_br s1 = st_of m (s_br s)) by done.
  assert (H2 : res_of (onBr (env_ready env ready) (op_ready ready op)) s = out_of m (s_br s)) by done.
  assert (H3 : out_of (onBr (env_ready env ready) (op_ready ready op)) s =
    [SyBr (env_ready env ready) (op_ready ready op) (out_of m (s_br s))]) by done.
  rewrite H2, H3. clearbody s1. destruct H1 as [Hp Hb].
  destruct (onPorts_eq (port_calls env (out_of m (s_br s))) s1) as (E1 & E2 & E3). rewrite E1, E2, E3, Hp.
  destruct (port_calls_run env (flat_map tr_out (out_of m (s_br s))) d (s_port s) Hs) as [L1 L2].
  cbn [flat_map br_steps line_out app]. rewrite !app_nil_r. split_and!; [exact Hb|exact L1|done|exact L2].
Qed.

(** ** Bytes that are read *)
Lemma framesComplete_run fs p : SerialPort.m_inputHandler p = true ->
  SerialPort.framesComplete fs p = (p, map SerialPort.SpDataReceived fs, tt).
Proof.
  intros Hp. induction fs as [|f fs IH]; [done|]. cbn [SerialPort.framesComplete map].
  unfold SerialPort.frameComplete. unfold mbind, M_bind in *. cbn [get]. rewrite Hp. cbn [when emit fst snd].
  by rewrite IH.
Qed.

Lemma addBytes_run data : forall d p, linked d p ->
  SerialPort.addBytes data p =
    (p <| SerialPort.m_encoder := Some (fst (Hdlc.feed d data)) |>, map SerialPort.SpDataReceived (snd (Hdlc.feed d data)), tt).
Proof.
  induction data as [|b data IH]; intros d p Hp; cbn [SerialPort.addBytes Hdlc.feed].
  { destruct p as [i e o r q]. destruct Hp as [H1 H2]. cbn in H1. by subst. }
  destruct (Hdlc.addByte d b) as [d1 o1] eqn:Hb.
  pose proof Hp as [H1 H2]. rewrite (bind_silent get _ p eq_refl). cbn [res_of get snd]. rewrite H1, Hb.
  set (p1 := p <| SerialPort.m_encoder := Some d1 |>).
  assert (Hbyte : (modify (fun s => s <| SerialPort.m_encoder := Some d1 |>) ;; SerialPort.framesComplete o1) p =
    (p1, map SerialPort.SpDataReceived o1, tt)).
  { rewrite (bind_pure _ _ _ p1 tt) by done. by apply framesComplete_run. }
  rewrite (bind_run _ _ _ _ _ _ Hbyte).
  assert (Hp1 : linked d1 p1) by by split. specialize (IH d1 p1 Hp1). destruct (Hdlc.feed d1 data) as [d2 o2].
  cbn [fst snd] in IH |- *. unfold st_of, out_of, res_of. rewrite IH. cbn [fst snd]. by rewrite map_app.
Qed.

(** What a read leaves in the decoder, and the frames that it completes. *)
Definition read_dec (error : bool) (data : list Z) (d : Hdlc.CHDLC) : Hdlc.CHDLC :=
  if error then d else fst (Hdlc.feed d data).
Definition read_frames (error : bool) (data : list Z) (d : Hdlc.CHDLC) : list (list Z) :=
  if error then [] else snd (Hdlc.feed d data).

Definition read_events (error : bool) (data : list Z) (d : Hdlc.CHDLC) : list serial_event :=
  if error then [] else map SerialPort.SpDataReceived (read_frames error data d) ++ [SerialPort.SpAsyncRead].

Lemma handleRead_run error data d p : linked d p -> exists p',
  SerialPort.port_exec (SerialPort.PRead error data) p = (p', read_events error data d, tt) /\
  linked (read_dec error data d) p'.
Proof.
  intros Hp. cbn [SerialPort.port_exec]. unfold SerialPort.handleRead, read_events, read_frames, read_dec.
  destruct error; [by exists p|]. pose proof Hp as [H1 H2].
  exists (p <| SerialPort.m_encoder := Some (fst (Hdlc.feed d data)) |>). split; [|by split].
  rewrite (bind_silent get _ p eq_refl). cbn [res_of get snd]. rewrite H1, H2. cbn [when].
  by rewrite (bind_run _ _ _ _ _ _ (addBytes_run data d p Hp)).
Qed.

Definition frameStep (env : SysEnv) (f : list Z) : SysM unit := brStep env (BrTr (OpData (be_tr (se_br env)) f)).

Lemma each_frameIn env fs s :
  each (frameIn env) (map SerialPort.SpDataReceived fs ++ [SerialPort.SpAsyncRead]) s = each (frameStep env) fs s.
Proof.
  revert s. induction fs as [|f fs IH]; intros s; [done|]. cbn [map app each frameIn]. fold (frameStep env f).
  unfold mbind, M_bind. destruct (frameStep env f s) as [[s1 t1] []]. by rewrite IH.
Qed.

Lemma sysRead_run env error data d s : sys_linked d s -> exists s1,
  s_br s1 = s_br s /\ sys_linked (read_dec error data d) s1 /\
  let m := each (frameStep env) (read_frames error data d) in
  let r := sysRead env error data in
  st_of r s = st_of m s1 /\
  flat_map br_steps (out_of r s) = flat_map br_steps (out_of m s1) /\
  flat_map line_out (out_of r s) = flat_map line_out (out_of m s1).
Proof.
  intros Hs. destruct (handleRead_run error data d (s_port s) Hs) as (p' & Hrun & Hp').
  assert (Hport : onPort (SerialPort.PRead error data) s =
    (s <| s_port := p' |>, [SyPort (SerialPort.PRead error data) (read_events error data d)], read_events error data d)).
  { unfold onPort. by rewrite Hrun. }
  set (s1 := s <| s_port := p' |>) in *. exists s1. split; [done|]. split; [exact Hp'|]. intros m r.
  assert (Hm : each (frameIn env) (read_events error data d) s1 = m s1).
  { unfold m, read_events. destruct error; [done|]. apply each_frameIn. }
  assert (Hw : flat_map line_out [SyPort (SerialPort.PRead error data) (read_events error data d)] = []).
  { cbn [flat_map line_out app]. rewrite app_nil_r. unfold read_events. destruct error; [done|].
    clear. induction (read_frames false data d) as [|f fs IH]; [done|exact IH]. }
  unfold r, sysRead, st_of, out_of. rewrite (bind_run _ _ _ _ _ _ Hport). unfold st_of, out_of. rewrite Hm.
  cbn [fst snd]. rewrite !flat_map_app, Hw. by split_and!.
Qed.

(** ** The operations of the transport in one step of the bridge

    The first is the operation that the step began with, if it is one of the transport;
    all others are calls. *)
Definition calls (s : br_step) : Prop := match s with StTr _ (OpCall _) _ | StCpl _ _ _ | StCl _ _ _ => True | _ => False end.

Notation only_calls m := (keeps (fun _ : Bridge => True) calls m).

Lemma onTr_calls u c : only_calls (onTr u (OpCall c)).
Proof. intros b _. split; [done|]. by repeat constructor. Qed.
Lemma onCpl_calls e op : only_calls (onCpl e op).
Proof. intros b _. split; [done|]. by repeat constructor. Qed.
Lemma onCl_calls e op : only_calls (onCl e op).
Proof. intros b _. split; [done|]. by repeat constructor. Qed.

Lemma keeps_each {A} (f : A -> M Bridge br_step unit) l : (forall a, only_calls (f a)) -> only_calls (each f l).
Proof. intros Hf. induction l as [|a l IH]; [apply keeps_ret|]. apply keeps_bind; [apply Hf|by intros _]. Qed.

Section OnlyCalls.
Context (env : BrEnv).

Lemma clientCall_calls c : only_calls (clientCall env c).
Proof. apply keeps_bind; [apply onCl_calls|intros; apply keeps_ret]. Qed.
Lemma cplCall_calls op : only_calls (cplCall env op).
Proof.
  unfold cplCall. apply keeps_bind; [apply onCpl_calls|intros evs]. apply keeps_each. intros e.
  destruct e; cbn [forwardClient]; first [apply clientCall_calls|apply keeps_ret].
Qed.
Lemma callbackCall_calls op : only_calls (callbackCall env op).
Proof.
  unfold callbackCall. apply keeps_bind; [apply onCpl_calls|intros evs]. apply keeps_each. intros e.
  destruct e; cbn [forwardCallback]; try apply keeps_ret. apply keeps_each. intros u.
  apply keeps_bind; [apply onTr_calls|intros; apply keeps_ret].
Qed.
Lemma afterTr_calls evs : only_calls (afterTr env evs).
Proof.
  unfold afterTr, afterEvent. apply keeps_each. intros e. apply keeps_bind.
  - apply keeps_each, cplCall_calls.
  - intros _. destruct (callback_op e); [apply callbackCall_calls|apply keeps_ret].
Qed.
Lemma cplStep_calls op : only_calls (cplStep env op).
Proof.
  unfold cplStep. apply keeps_bind; [apply onCpl_calls|intros evs]. apply keeps_each. intros e.
  destruct e; cbn [forward]; try apply keeps_ret; [|apply clientCall_calls].
  apply keeps_each. intros u. apply keeps_bind; [apply onTr_calls|apply afterTr_calls].
Qed.
Lemma clStep_calls op : only_calls (clStep env op).
Proof.
  unfold clStep. apply keeps_bind; [apply onCl_calls|intros evs]. apply keeps_each. intros e.
  destruct e; cbn [forwardInput]; try apply keeps_ret. apply cplStep_calls.
Qed.
End OnlyCalls.

(** The transport's part of one step of the bridge. *)
Definition first_op (op : br_op) (l : list (upper_t * tr_op)) : Prop :=
  match op with BrTr o => exists u r, l = (u, o) :: r /\ Forall (fun x => exists c, snd x = OpCall c) r
  | _ => Forall (fun x => exists c, snd x = OpCall c) l end.

Lemma calls_ops l : Forall calls l -> Forall (fun x => exists c, snd x = OpCall c) (flat_map tr_part l).
Proof.
  induction 1 as [|s l Hs _ IH]; [constructor|]. cbn [flat_map]. apply Forall_app. split; [|exact IH].
  destruct s as [u [] ?| |]; try done; by repeat econstructor.
Qed.

Lemma br_exec_ops env op b : first_op op (flat_map tr_part (out_of (br_exec env op) b)).
Proof.
  destruct op as [op|op|op]; cbn [br_exec first_op].
  - unfold trStep. rewrite out_read, out_bind, flat_map_app. eexists _, _. split; [reflexivity|].
    apply calls_ops. by apply (afterTr_calls env).
  - apply calls_ops. by apply (cplStep_calls env).
  - apply calls_ops. by apply (clStep_calls env).
Qed.

Lemma received_all out : flat_map received out = flat_map rx_data (flat_map told (flat_map tr_out out)).
Proof. induction out as [|s out IH]; [done|]. cbn [flat_map]. unfold received at 1. by rewrite !flat_map_app, IH. Qed.

(** ** What the AP sees of one step, and what the manager gets *)
(** The packet id of the last accepted notification is [k]. *)
Definition near (k : Z) (t : CAPMTransport) : Prop := is_pktId (m_respPacketId t) /\ m_notifPacketId t = k.

Definition at_id (k : Z) (b : Bridge) : Prop := near k (b_tr b) /\ m_mngrClient (b_cpl b) = true.

Lemma steady_near r k t : is_pktId r -> steady r k t -> near k t.
Proof. by intros Hr [<- <-]. Qed.

(** A step of the bridge gives the client the packets [data], acknowledges [acks] and
    leaves [k] accepted. *)
Definition br_does (env : BrEnv) (op : br_op) (b : Bridge) (data : list (list Z)) (acks : list (Z * Z * Z)) (k : Z) : Prop :=
  let out := out_of (br_exec env op) b in
  flat_map sent_data out = data /\ omap ack_of (flat_map tr_out out) = acks /\ at_id k (st_of (br_exec env op) b).

(** From the transport's part to the step. *)
Lemma br_does_of env op b l acks k : outside op -> m_mngrClient (b_cpl b) = true ->
  does (tr_runs (flat_map tr_part (out_of (br_exec env op) b))) (b_tr b) l acks (fun _ => near k) ->
  br_does env op b (flat_map rx_data l) acks k.
Proof.
  intros Hop Hc Hd. destruct (br_exec_logged env op b) as [Hrun _]. destruct (passed_exec env op Hop b Hc) as [Hc' Hp].
  set (ops := flat_map tr_part _) in Hd, Hrun. clearbody ops.
  unfold does, out_of, st_of, res_of in Hd. rewrite Hrun in Hd. cbn [fst snd] in Hd. destruct Hd as (D1 & D2 & D3).
  split; [|split; [exact D2|split; [exact D3|exact Hc']]]. rewrite Hp, received_all. by rewrite <- D1.
Qed.

Notation call_ops l := (Forall (fun x : upper_t * tr_op => exists c, snd x = OpCall c) l).

Lemma runs_calls l k t : call_ops l -> near k t -> does (tr_runs l) t [] [] (fun _ => near k).
Proof.
  intros Hl. revert t. induction Hl as [|[u o] l [c Hc] _ IH]; intros t Ht; [by split_and!|].
  cbn in Hc. subst o. unfold tr_runs. cbn [each fst snd]. pose proof Ht as [Hr Hk].
  apply (does_then _ _ t [] [] (fun _ => steady (m_respPacketId t) k)).
  - apply (exec_other _ Hr _ _ (HF := no_flow)); [by intros|by split].
  - intros _ t1 Ht1. apply IH. by eapply steady_near.
Qed.

(** The rest of a step after the operation that it began with. *)
Lemma first_then u o r k k2 t l acks : call_ops r -> near k t ->
  does (ApmTransport.exec (fun _ => mret tt) u o) t l acks (fun _ => near k2) ->
  does (tr_runs ((u, o) :: r)) t l acks (fun _ => near k2).
Proof.
  intros Hc Ht Hd. unfold tr_runs. cbn [each fst snd]. eapply does_then; [exact Hd|]. intros ? t1 Ht1. by apply runs_calls.
Qed.

Lemma does_weaken {A} (m : TM A) t l acks (J J' : A -> CAPMTransport -> Prop) :
  does m t l acks J -> (forall a t', J a t' -> J' a t') -> does m t l acks J'.
Proof. intros (H1 & H2 & H3) HJ. split_and!; auto. Qed.

Lemma br_other env op b k : outside op -> no_frame op = true -> at_id k b -> br_does env op b [] [] k.
Proof.
  intros Hop Hno [Hk Hc]. apply (br_does_of env op b []); [done|done|].
  pose proof (br_exec_ops env op b) as Hops. destruct op as [o|o|o]; try by apply runs_calls.
  destruct Hops as (u & r & -> & Hr). apply (first_then _ _ _ k); [done|done|]. pose proof Hk as [Hp Hn].
  eapply does_weaken; [apply (exec_other _ Hp _ _ (HF := no_flow) k); [|by split]|].
  - by intros e f ->.
  - intros ? t'. by apply steady_near.
Qed.

(** Packets of a notification. *)
Definition packets_of (m : Z * list Z) : list (list Z) := if fst m =? DN_API_LOC_NOTIF_AP_RECEIVE then [snd m] else [].

Lemma br_frame env e m b k k' : plain (fst m) = true -> is_pktId k' -> at_id k b -> exists rc,
  let op := BrTr (OpData e (nframe k' (fst m) (snd m))) in
  if k' =? k then br_does env op b [] [(fst m, k', rc)] k /\ rc = 0
  else if rc =? 0 then br_does env op b (packets_of m) [(fst m, k', rc)] k'
  else br_does env op b [] [(fst m, k', rc)] k /\ m_apInputState (b_tr b) = APM_FLOW_PAUSE.
Proof.
  destruct m as [cmd data]. cbn [fst snd]. intros Hpl Hk [Hs Hc]. set (op := BrTr (OpData e (nframe k' cmd data))).
  destruct (br_exec_ops env op b) as (u & r & Eops & Hcalls). pose proof Hs as [Hr Hn].
  destruct (exec_nframe _ Hr (fun _ => mret tt) u (HF := no_flow) k k' e cmd data (b_tr b) Hpl Hk (conj eq_refl Hn))
    as (l & rc & k2 & Hd & Hcase).
  assert (Hd2 : br_does env op b (flat_map rx_data l) [(cmd, k', rc)] k2).
  { apply br_does_of; [done|done|]. rewrite Eops. apply (first_then _ _ _ k); [done|done|].
    eapply does_weaken; [exact Hd|]. intros ? t'. by apply steady_near. }
  exists rc. cbv zeta. destruct Hcase as [(-> & -> & -> & ->)|(Hne & [(-> & -> & -> & Hp)|(-> & -> & ->)])].
  - by rewrite Z.eqb_refl.
  - by rewrite (proj2 (Z.eqb_neq _ _) Hne).
  - rewrite (proj2 (Z.eqb_neq _ _) Hne). rewrite rx_notifs in Hd2 by done. exact Hd2.
Qed.

(** ** Responses of the AP

    Whatever a response says, no packet comes of it, nothing is acknowledged, and the
    packet id of the notifications stays. *)
Definition harmless (e : tr_event) : Prop := flat_map rx_data (told e) = [] /\ ack_of e = None.

Lemma near_of {A} k (m : TM A) : (forall r, is_pktId r -> keeps (steady r k) quiet m) -> keeps (near k) harmless m.
Proof.
  intros Hm t Ht. pose proof Ht as [Hr Hk]. destruct (Hm _ Hr t (conj eq_refl Hk)) as [H1 H2].
  split; [by eapply steady_near|]. eapply Forall_impl; [exact H2|]. intros e [E1 E2]. split; [by rewrite E1|done].
Qed.

Definition tame (n : apm_notif) : Prop := ordinary n /\ rx_data n = [].

Lemma cast_tame l conv n data : (forall m, tame (n m)) -> Forall tame (cast_notif l conv n data).
Proof. intros Hn. unfold cast_notif. destruct (bufferCast_p l data); by repeat constructor; apply Hn. Qed.

Lemma command_notifs g s cmd data : is_command cmd = true -> Forall tame (snd (fst (handleCmd g s cmd data))).
Proof.
  unfold is_command, handleCmd. intros [H1 H2]%andb_true_iff. apply negb_true_iff in H1, H2. rewrite H1, H2. cbn [negb].
  repeat (case_match; simplify_eq; cbn [fst snd]; try done); try (by apply cast_tame);
    unfold handleGetParam in *; repeat case_match; simplify_eq; try done; by apply cast_tame.
Qed.

Section Response.
Context (upper : upper_t) (k : Z).
Notation react := (fun n => reaction (fun _ => mret tt) upper (Some n)).
Notation reactReboot := (reaction (fun _ => mret tt) upper None).
Notation tmeek m := (keeps (near k) harmless m).

Ltac meek := repeat (cbv zeta; keeps_step); try (by split); try (by intros ? [? ?]; split).

Lemma reaction_meek n : tmeek (reaction (fun _ => mret tt) upper n).
Proof. apply near_of. intros r Hr. by apply (reaction_steady r k Hr _ _ (HF := no_flow)). Qed.

Lemma send_meek env b : tmeek (send env b).
Proof. apply near_of. intros r Hr. by apply send_steady. Qed.

Lemma notifyAll_meek env l : Forall tame l -> tmeek (notifyAll (fun _ => mret tt) react reactReboot env l).
Proof.
  induction 1 as [|n l [[H1 H2] H3] _ IH]; cbn [notifyAll]; [apply keeps_ret|].
  apply keeps_bind; [|by intros _]. destruct n; try done; cbn [notify];
    (apply keeps_bind; [apply keeps_emit; by split|intros _; apply reaction_meek]).
Qed.

Lemma emits_meek l : Forall harmless l -> tmeek (emits l).
Proof. induction 1; [apply keeps_ret|]. apply keeps_bind; [by apply keeps_emit|by intros _]. Qed.

Lemma cmdHandler_meek env cmd data : is_command cmd = true ->
  tmeek (cmdHandler (fun _ => mret tt) react reactReboot env cmd data).
Proof.
  intros Hc. unfold cmdHandler. apply keeps_bind; [|intros _].
  { apply emits_meek. unfold overreads. apply Forall_map, Forall_forall. by intros. }
  apply keeps_bind; [apply keeps_get|intros t].
  pose proof (command_notifs (te_garbage env) (m_cmdHandler t) cmd data Hc) as Hn.
  destruct (handleCmd (te_garbage env) (m_cmdHandler t) cmd data) as [[s ns] res]. cbn [fst snd] in Hn.
  apply keeps_bind; [by apply keeps_modify|intros _]. apply keeps_bind; [by apply notifyAll_meek|intros _; apply keeps_ret].
Qed.

Lemma settle_meek env cmd rc : tmeek (settle env cmd rc).
Proof. unfold settle, upd_stats, startNackRetryTimer. meek. Qed.

Lemma deliver_meek env cmd id rc data : is_command id = true ->
  tmeek (deliverResponse (fun _ => mret tt) react reactReboot env cmd id rc data).
Proof.
  intros Hc. unfold deliverResponse, callResponse, callError. meek; try by apply cmdHandler_meek.
  apply notifyAll_meek. by repeat constructor.
Qed.

Lemma handleResponse_meek env id data : is_command id = true ->
  tmeek (handleResponse (fun _ => mret tt) react reactReboot env id data).
Proof.
  intros Hc. unfold handleResponse, stopRetryTimer, countResponse, upd_stats, flow. meek.
  - apply emits_meek. destruct (_ =? _)%nat; by repeat constructor.
  - intros t [H1 H2]. split; [|done]. by apply toggle_pktId.
  - apply settle_meek.
  - by apply deliver_meek.
  - apply send_meek.
Qed.

Lemma exec_response env f : is_response f = true -> tmeek (ApmTransport.exec (fun _ => mret tt) upper (OpData env f)).
Proof.
  destruct f as [|cmd [|n [|fl data]]]; try done. cbn [is_response]. intros [H1 H2]%andb_true_iff.
  cbn [ApmTransport.exec]. unfold dataReceived, startPingTimer. cbn [parse HDR_LENGTH drop].
  unfold handleMsg. cbn [flags cmdId]. rewrite H1. meek. by apply handleResponse_meek.
Qed.
End Response.

Lemma harmless_list l : Forall harmless l -> flat_map rx_data (flat_map told l) = [] /\ omap ack_of l = [].
Proof.
  induction 1 as [|e l [H1 H2] _ [IH1 IH2]]; [done|]. cbn [flat_map omap list_omap]. by rewrite flat_map_app, H1, H2, IH1, IH2.
Qed.

Lemma br_response env e f b k : is_response f = true -> at_id k b -> br_does env (BrTr (OpData e f)) b [] [] k.
Proof.
  intros Hf [Hk Hc]. destruct (br_exec_ops env (BrTr (OpData e f)) b) as (u & r & Eops & Hcalls).
  destruct (exec_response u k e f Hf (b_tr b) Hk) as [H1 [H2 H3]%harmless_list].
  rewrite <- H2. apply br_does_of; [done|done|]. rewrite Eops. apply (first_then _ _ _ k); [done|done|]. by split_and!.
Qed.

(** ** One operation of the system *)
Definition closed : Hdlc.CHDLC := Hdlc.newCHDLC 0 true.

Lemma heard_encode f : heard (Hdlc.encodeHDLC f) = option_list (ack_of (EvOut f)).
Proof.
  unfold heard. destruct f as [|b f]; [by vm_compute|].
  assert (E : Hdlc.feed (Hdlc.newCHDLC 0 true) (Hdlc.encodeHDLC (b :: f)) = (Hdlc.newCHDLC 0 true, [b :: f])).
  { rewrite <- (app_nil_r (Hdlc.encodeHDLC (b :: f))). apply (Hdlc.hdlc_stream 0 [b :: f]). by constructor. }
  rewrite E. cbn [snd omap list_omap]. by destruct (ack_of (EvOut (b :: f))).
Qed.

(** The AP hears the acknowledgements of the transport, and no others. *)
Lemma heard_out evs : flat_map heard (map Hdlc.encodeHDLC (omap frame_out evs)) = omap ack_of evs.
Proof.
  induction evs as [|e evs IH]; [done|]. cbn [omap list_omap]. unfold frame_out at 1.
  destruct e; try exact IH. cbn [map flat_map]. rewrite heard_encode, IH. by destruct (ack_of (EvOut frame)).
Qed.

Lemma heard_in ws acks : flat_map heard ws = acks -> Forall (fun w => forall a, a ∈ heard w -> a ∈ acks) ws.
Proof.
  intros <-. apply Forall_forall. intros w Hw a Ha. apply list_elem_of_In, in_flat_map. exists w.
  by split; apply list_elem_of_In.
Qed.

(** A step of the system gives the client [data], and the AP will hear [acks]. *)
Definition sys_does (m : SysM unit) (s : Sys) (d : Hdlc.CHDLC) (data : list (list Z)) (acks : list (Z * Z * Z)) (k : Z) : Prop :=
  let out := out_of m s in
  sys_linked d (st_of m s) /\ at_id k (s_br (st_of m s)) /\ given out = data /\
  flat_map heard (flat_map line_out out) = acks.

Lemma brStep_does env op d s data acks k :
  sys_linked d s ->
  (let ready := port_ready env op s in br_does (env_ready env ready) (op_ready ready op) (s_br s) data acks k) ->
  sys_does (brStep env op) s d data acks k.
Proof.
  intros Hs Hd. destruct (brStep_run env op d s Hs) as (H1 & H2 & H3 & H4).
  destruct Hd as (D1 & D2 & D3).
  split; [exact H2|]. split; [by rewrite H1|]. split; [unfold given; by rewrite H3|].
  by rewrite H4, heard_out.
Qed.

Lemma other_does env op d s k : outside op -> no_frame op = true -> sys_linked d s -> at_id k (s_br s) ->
  sys_does (brStep env op) s d [] [] k.
Proof.
  intros H1 H2 Hs Hk. apply brStep_does; [done|]. apply br_other; [|by destruct op as [[[]| | | | | | |]| |]|done].
  by destruct op.
Qed.

Lemma complete_does id error d s k : sys_linked d s -> at_id k (s_br s) ->
  sys_does (portStep (SerialPort.PComplete id error)) s d [] [] k.
Proof.
  intros Hs Hk.
  assert (Hrun : exists p evs, SerialPort.port_exec (SerialPort.PComplete id error) (s_port s) = (p, evs, tt) /\ linked d p /\
    omap written evs = []).
  { cbn [SerialPort.port_exec]. unfold SerialPort.handleWriteComplete. rewrite (bind_silent get _ _ eq_refl).
    cbn [res_of st_of get fst snd]. destruct (SerialPort.free _ id); eexists _, _; split_and!; try reflexivity; by destruct Hs. }
  destruct Hrun as (p & evs & Hrun & Hp & Hw).
  assert (Hm : portStep (SerialPort.PComplete id error) s = (s <| s_port := p |>, [SyPort (SerialPort.PComplete id error) evs], tt)).
  { unfold portStep, onPort, mbind, M_bind. by rewrite Hrun. }
  unfold sys_does, st_of, out_of. rewrite Hm. cbn [fst snd]. split_and!; [exact Hp|exact Hk|done|].
  cbn [flat_map line_out]. rewrite app_nil_r. unfold written in Hw. by rewrite Hw.
Qed.

Lemma response_does env f d s k : is_response f = true -> sys_linked d s -> at_id k (s_br s) ->
  sys_does (frameStep env f) s d [] [] k.
Proof. intros Hf Hs Hk. apply brStep_does; [done|]. by apply br_response. Qed.

Lemma frame_does env m d s k k' : plain (fst m) = true -> is_pktId k' -> sys_linked d s -> at_id k (s_br s) -> exists rc,
  let r := frameStep env (nframe k' (fst m) (snd m)) in
  if k' =? k then sys_does r s d [] [(fst m, k', rc)] k /\ rc = 0
  else if rc =? 0 then sys_does r s d (packets_of m) [(fst m, k', rc)] k'
  else sys_does r s d [] [(fst m, k', rc)] k /\ m_apInputState (b_tr (s_br s)) = APM_FLOW_PAUSE.
Proof.
  intros Hm Hk' Hs Hk. set (f := nframe k' (fst m) (snd m)).
  set (ready := port_ready env (BrTr (OpData (be_tr (se_br env)) f)) s).
  destruct (br_frame (env_ready env ready) (set_ready ready (be_tr (se_br env))) m (s_br s) k k' Hm Hk' Hk) as (rc & Hrc).
  exists rc. cbv zeta in *. destruct (k' =? k); [|destruct (rc =? 0)]; try (destruct Hrc as [Hrc Hp]; split; [|done]);
    by apply brStep_does.
Qed.

(** ** The protocol

    [cur] is being sent with packet id [k], [prev] was before it with the other one;
    [acc]: the transport has accepted [cur]. *)
Definition other (k : Z) : Z := Z.lxor k 2.

Lemma other_id k : is_pktId k -> is_pktId (other k) /\ other k <> k /\ other (other k) = k.
Proof. intros [-> | ->]; split_and!; try done; [by right|by left]. Qed.

(** A frame in flight: a response or a copy of the notification. *)
Definition okf (k : Z) (o : option msg) (f : list Z) : Prop :=
  is_response f = true \/ exists m, o = Some m /\ plain (fst m) = true /\ f = nframe k (fst m) (snd m).

(** Late copies of [prev] come first; once [cur] is accepted there are none. *)
Definition pending (k : Z) (prev cur : option msg) (acc : bool) (P : list (list Z)) : Prop :=
  if acc then Forall (okf k cur) P
  else exists l1 l2, P = l1 ++ l2 /\ Forall (okf (other k) prev) l1 /\ Forall (okf k cur) l2.

(** Writes in flight that do not acknowledge [cur], and those that acknowledge nothing else. *)
Definition unmatching (k : Z) (w : list Z) : Prop := forall a, a ∈ heard w -> snd (fst a) = k -> snd a <> 0.
Definition own (k : Z) (w : list Z) : Prop := forall a, a ∈ heard w -> snd (fst a) = k.

Definition in_flight (k : Z) (acc acked : bool) (down : list (list Z)) : Prop :=
  if acc then exists d1 d2, down = d1 ++ d2 /\ Forall (unmatching k) d1 /\ Forall (own k) d2 /\ (acked = true -> d1 = [])
  else acked = false /\ Forall (unmatching k) down.

Lemma in_flight_app k acc acked down ws : in_flight k acc acked down ->
  Forall (fun w => if acc then own k w else unmatching k w) ws -> in_flight k acc acked (down ++ ws).
Proof.
  destruct acc; cbn.
  - intros (d1 & d2 & -> & H1 & H2 & H3) Hw. exists d1, (d2 ++ ws). rewrite app_assoc. split_and!; try done.
    by apply Forall_app.
  - intros [H1 H2] Hw. split; [done|]. by apply Forall_app.
Qed.

(** Where the transport is: the packet id that it accepted last. *)
Definition id_of (k : Z) (acc : bool) : Z := if acc then k else other k.

Section Frames.
Context (env : SysEnv) (k : Z) (prev cur : option msg) (acked : bool) (Hk : is_pktId k).

(** The frames [fs] are handled: [cur] may become accepted. *)
Definition handled (m : SysM unit) (s : Sys) (d : Hdlc.CHDLC) (down : list (list Z)) (P : list (list Z)) (acc acc' : bool) : Prop :=
  sys_linked d (st_of m s) /\ at_id (id_of k acc') (s_br (st_of m s)) /\ pending k prev cur acc' P /\
  in_flight k acc' acked (down ++ flat_map line_out (out_of m s)) /\
  given (out_of m s) = (if acc' && negb acc then flat_map packets_of (option_list cur) else []) /\
  (acc = true -> acc' = true).

Lemma handled_same m s d down P acc acks :
  sys_does m s d [] acks (id_of k acc) -> pending k prev cur acc P -> in_flight k acc acked down ->
  (forall a, a ∈ acks -> if acc then snd (fst a) = k else snd (fst a) = k -> snd a <> 0) ->
  handled m s d down P acc acc.
Proof.
  intros (D1 & D2 & D3 & D4%heard_in) HP Hd Ha. split; [done|]. split; [done|]. split; [done|]. split; [|by rewrite D3; destruct acc].
  apply in_flight_app; [done|]. eapply Forall_impl; [exact D4|]. intros w Hw. destruct acc.
  - intros a Hin. by apply (Ha a), Hw.
  - intros a Hin. by apply (Ha a), Hw.
Qed.

Lemma frame_handled f P acc down d s :
  sys_linked d s -> at_id (id_of k acc) (s_br s) -> pending k prev cur acc (f :: P) -> in_flight k acc acked down ->
  exists acc', handled (frameStep env f) s d down P acc acc'.
Proof.
  intros Hs Hid HP Hd. destruct (other_id k Hk) as (Ho & Hne & _).
  assert (Hresp : is_response f = true -> pending k prev cur acc P -> handled (frameStep env f) s d down P acc acc).
  { intros Hf HP'. eapply (handled_same _ _ _ _ _ _ []); [by apply response_does|exact HP'|exact Hd|]. intros a Ha. by apply elem_of_nil in Ha. }
  destruct acc; cbn [pending] in HP; cbn [id_of] in Hid.
  - apply Forall_cons_1 in HP as [[Hf|(m & Hcur & Hm & ->)] HP]; [exists true; by apply Hresp|].
    destruct (frame_does env m d s k k Hm Hk Hs Hid) as (rc & Hrc). cbv zeta in Hrc. rewrite Z.eqb_refl in Hrc.
    exists true. eapply handled_same; [exact (proj1 Hrc)|exact HP|exact Hd|]. by intros a ->%list_elem_of_singleton.
  - destruct HP as ([|f' l1] & l2 & E & H1 & H2).
    + cbn in E. subst l2. apply Forall_cons_1 in H2 as [[Hf|(m & Hcur & Hm & ->)] H2].
      { exists false. apply Hresp; [done|]. by exists [], P. }
      destruct (frame_does env m d s (other k) k Hm Hk Hs Hid) as (rc & Hrc). cbv zeta in Hrc.
      rewrite (proj2 (Z.eqb_neq k (other k))) in Hrc by done. destruct (Z.eqb_spec rc 0) as [Hrc0|Hrc0].
      * exists true. destruct Hrc as (D1 & D2 & D3 & D4%heard_in), Hd as [Hd1 Hd2]. split_and!; try done.
        -- exists down, (flat_map line_out (out_of (frameStep env (nframe k m.1 m.2)) s)). split_and!; try done; [|by rewrite Hd1].
           eapply Forall_impl; [exact D4|]. intros w Hw a Ha. apply Hw, list_elem_of_singleton in Ha as ->. done.
        -- rewrite Hcur. cbn. by rewrite app_nil_r.
      * exists false. eapply handled_same; [exact (proj1 Hrc)|by exists [], P|exact Hd|]. by intros a ->%list_elem_of_singleton.
    + injection E as -> ->. apply Forall_cons_1 in H1 as [[Hf|(m & Hprev & Hm & ->)] H1].
      { exists false. apply Hresp; [done|]. by exists l1, l2. }
      destruct (frame_does env m d s (other k) (other k) Hm Ho Hs Hid) as (rc & Hrc). cbv zeta in Hrc. rewrite Z.eqb_refl in Hrc.
      exists false. eapply handled_same; [exact (proj1 Hrc)|by exists l1, l2|exact Hd|]. by intros a ->%list_elem_of_singleton.
Qed.

Lemma frames_handled fs P : forall acc down d s,
  sys_linked d s -> at_id (id_of k acc) (s_br s) -> pending k prev cur acc (fs ++ P) -> in_flight k acc acked down ->
  exists acc', handled (each (frameStep env) fs) s d down P acc acc'.
Proof.
  induction fs as [|f fs IH]; intros acc down d s Hs Hid HP Hd.
  - exists acc. split_and!; try done; [by cbn; rewrite app_nil_r|by destruct acc].
  - destruct (frame_handled f (fs ++ P) acc down d s Hs Hid HP Hd) as (acc1 & A1 & A2 & A3 & A4 & A5 & A6).
    destruct (IH acc1 _ d _ A1 A2 A3 A4) as (acc2 & B1 & B2 & B3 & B4 & B5 & B6).
    exists acc2. unfold handled. cbn [each]. rewrite st_bind, out_bind. split; [done|]. split; [done|]. split; [done|].
    split; [by rewrite flat_map_app, app_assoc|]. split; [|by auto].
    unfold given in *. rewrite !flat_map_app, A5, B5. destruct acc, acc1, acc2; cbn in *; try done; rewrite ?app_nil_r; try done;
      by (discriminate A6 || discriminate B6 || auto).
Qed.

(** Bytes that are read. *)
Lemma read_handled bytes rest P acc down d s :
  sys_linked d s -> Hdlc.feed d (bytes ++ rest) = (closed, P) ->
  at_id (id_of k acc) (s_br s) -> pending k prev cur acc P -> in_flight k acc acked down ->
  exists acc' d' P', Hdlc.feed d' rest = (closed, P') /\ handled (sysRead env false bytes) s d' down P' acc acc'.
Proof.
  intros Hs Hfeed Hid HP Hd. rewrite Hdlc.feed_app in Hfeed.
  destruct (sysRead_run env false bytes d s Hs) as (s1 & Hb & Hs1 & Hst & Hbr & Hline). cbn [read_dec read_frames] in *.
  destruct (Hdlc.feed d bytes) as [d' fs]. cbn [fst snd] in *. destruct (Hdlc.feed d' rest) as [d2 P'] eqn:Hrest.
  injection Hfeed as -> <-. rewrite <- Hb in Hid.
  destruct (frames_handled fs P' acc down d' s1 Hs1 Hid HP Hd) as (acc' & A1 & A2 & A3 & A4 & A5 & A6).
  exists acc', d', P'. split; [done|]. unfold handled, given in *. rewrite Hst, Hbr, Hline. by split_and!.
Qed.
End Frames.

(** ** The invariant of the world *)
Record world_inv (ms : list msg) (prev : option msg) (acc : bool) (w : World) : Prop := {
  wi_k : is_pktId (w_k w);
  wi_id : at_id (id_of (w_k w) acc) (s_br (w_sys w));
  wi_line : exists d P, sys_linked d (w_sys w) /\ Hdlc.feed d (w_up w) = (closed, P) /\ pending (w_k w) prev (w_cur w) acc P;
  wi_down : in_flight (w_k w) acc (w_acked w) (w_down w);
  wi_hist : exists sent, ms = sent ++ (if acc then [] else option_list (w_cur w)) ++ w_todo w /\
    w_given w = flat_map packets_of sent;
  wi_plain : forall m, w_cur w = Some m -> plain (fst m) = true
}.

Lemma pending_app k prev cur acc P l : pending k prev cur acc P -> Forall (okf k cur) l -> pending k prev cur acc (P ++ l).
Proof.
  destruct acc; cbn; [by intros; apply Forall_app|]. intros (l1 & l2 & -> & H1 & H2) Hl. exists l1, (l2 ++ l).
  rewrite app_assoc. split_and!; try done. by apply Forall_app.
Qed.

(** The AP puts on the line what the decoder reads as the frames [l]. *)
Lemma inv_up ms prev acc w bytes l : world_inv ms prev acc w ->
  Hdlc.feed closed bytes = (closed, l) -> Forall (okf (w_k w) (w_cur w)) l ->
  world_inv ms prev acc (w <| w_up := w_up w ++ bytes |>).
Proof.
  intros [H1 H2 (d & P & L1 & L2 & L3) H4 H5 H7] Hb Hl. split; try done. exists d, (P ++ l). split; [done|].
  cbn [w_up w_k w_cur upd]. split; [by rewrite Hdlc.feed_app, L2, Hb|by apply pending_app].
Qed.

Lemma feed_encoded f : f <> [] -> Hdlc.feed closed (Hdlc.encodeHDLC f) = (closed, [f]).
Proof.
  intros Hf. rewrite <- (app_nil_r (Hdlc.encodeHDLC f)). apply (Hdlc.hdlc_stream 0 [f]). by constructor.
Qed.

Lemma feed_corrupted src i b c : Forall is_byte src -> Hdlc.frame_body src !! i = Some b -> is_byte c -> c <> b ->
  Hdlc.feed closed (corrupted src i c) = (closed, []).
Proof.
  intros Hs Hi Hc Hne. unfold corrupted. apply Hdlc.feed_dropped.
  pose proof (list_elem_of_split_length _ _ _ Hi) as (l1 & l2 & E & Hl). rewrite E.
  rewrite Hl, Nat.add_0_r || rewrite Hl. rewrite (insert_app_r_alt l1) by lia. rewrite Nat.sub_diag. cbn [insert list_insert].
  by eapply Hdlc.body_changed.
Qed.

Lemma unmatching_matches w f : unmatching (w_k w) f -> matches w (heard f) = false.
Proof.
  intros Hu. unfold matches. destruct (w_cur w) as [m|]; [|done]. apply not_true_iff_false.
  intros (a & Ha & Heq)%existsb_exists. apply bool_decide_eq_true in Heq. subst a.
  by apply (Hu (fst m, w_k w, 0)); [apply list_elem_of_In|..].
Qed.

(** One write leaves the line. *)
Lemma in_flight_tail w f rest acc : in_flight (w_k w) acc (w_acked w) (f :: rest) ->
  in_flight (w_k w) acc (w_acked w) rest /\ in_flight (w_k w) acc (w_acked w || matches w (heard f)) rest.
Proof.
  destruct acc; cbn.
  - intros ([|g d1] & d2 & E & H1 & H2 & H3); cbn in E.
    + subst d2. apply Forall_cons_1 in H2 as [_ H2]. split; by exists [], rest.
    + injection E as -> ->. apply Forall_cons_1 in H1 as [Hu H1]. rewrite (unmatching_matches _ _ Hu), orb_false_r.
      assert (H4 : w_acked w = true -> d1 = []) by (intros Ha; by specialize (H3 Ha)). split; by exists d1, d2.
  - intros [Ha [Hu Hd]%Forall_cons_1]. rewrite (unmatching_matches _ _ Hu), orb_false_r. by split.
Qed.

(** The system acts. *)
Lemma inv_acts ms prev acc env op n w : world_inv ms prev acc w ->
  (exists acc' d' P', Hdlc.feed d' (drop n (w_up w)) = (closed, P') /\
    handled (w_k w) prev (w_cur w) (w_acked w) (sys_exec env op) (w_sys w) d' (w_down w) P' acc acc') ->
  exists acc', world_inv ms prev acc' (sys_acts env op n w).
Proof.
  intros [H1 H2 H3 H4 (sent & H5 & H6) H7] (acc' & d' & P' & Hf & A1 & A2 & A3 & A4 & A5 & A6). exists acc'.
  split; try done; [by exists d', P'|]. unfold sys_acts. cbn [w_cur w_todo w_given upd]. rewrite A5, H6.
  destruct acc, acc'; cbn [andb negb].
  - exists sent. by rewrite app_nil_r.
  - by discriminate A6.
  - exists (sent ++ option_list (w_cur w)). split; [by rewrite <- app_assoc|by rewrite flat_map_app].
  - exists sent. by rewrite app_nil_r.
Qed.

(** What does not come over the line. *)
Lemma off_line_handled env op prev acc d P w : off_line op ->
  sys_linked d (w_sys w) -> Hdlc.feed d (w_up w) = (closed, P) -> at_id (id_of (w_k w) acc) (s_br (w_sys w)) ->
  pending (w_k w) prev (w_cur w) acc P -> in_flight (w_k w) acc (w_acked w) (w_down w) ->
  exists acc' d' P', Hdlc.feed d' (drop 0 (w_up w)) = (closed, P') /\
    handled (w_k w) prev (w_cur w) (w_acked w) (sys_exec env op) (w_sys w) d' (w_down w) P' acc acc'.
Proof.
  intros Hop Hs Hf Hid HP Hd. exists acc, d, P. split; [done|].
  assert (Hdoes : sys_does (sys_exec env op) (w_sys w) d [] [] (id_of (w_k w) acc) ->
    handled (w_k w) prev (w_cur w) (w_acked w) (sys_exec env op) (w_sys w) d (w_down w) P acc acc).
  { intros H. eapply handled_same; [exact H|exact HP|exact Hd|]. intros a Ha. by apply elem_of_nil in Ha. }
  apply Hdoes. destruct op as [error data|id error|op]; cbn [sys_exec off_line] in *.
  - destruct (sysRead_run env error data d (w_sys w) Hs) as (s1 & Hb & Hs1 & Hst & Hbr & Hline).
    assert (Hno : read_frames error data d = [] /\ read_dec error data d = d) by (by destruct Hop as [-> | ->]; [|destruct error]).
    destruct Hno as [Hno Hno']. rewrite Hno in Hst, Hbr, Hline. rewrite Hno' in Hs1. cbn [each] in Hst, Hbr, Hline.
    unfold sys_does, given. rewrite Hst, Hbr, Hline. split; [exact Hs1|]. split; [|by split].
    unfold st_of. cbn. by rewrite Hb.
  - by apply complete_does.
  - destruct Hop. by apply other_does.
Qed.

Lemma inv_step ms prev acc w w' : Forall (fun m => plain (fst m) = true) ms -> world_inv ms prev acc w ->
  world_step w w' -> exists prev' acc', world_inv ms prev' acc' w'.
Proof.
  intros Hms Hi Hstep. pose proof Hi as [H1 H2 (d & P & L1 & L2 & L3) H4 (sent & H5 & H6) H7].
  destruct (other_id _ H1) as (Ho & Hne & Hoo).
  destruct Hstep as [w m ms' Ha Ht|w m Hm|w f Hf|w src i b c Hsrc Hb Hc Hbc|w env n|w env op Hop|w f rest Hd|w f rest Hd].
  - destruct acc; [|by destruct H4 as [? _]; congruence]. exists (w_cur w), false. cbn [in_flight pending id_of] in *.
    destruct H4 as (d1 & d2 & E & _ & H4 & Hnil). rewrite (Hnil Ha) in E. cbn in E. subst d2.
    split; cbn [w_k w_sys w_up w_cur w_acked w_down w_todo w_given upd id_of in_flight pending]; fold (other (w_k w)).
    + done.
    + by rewrite Hoo.
    + exists d, P. split_and!; try done. exists P, []. rewrite app_nil_r, Hoo. by split_and!.
    + split; [done|]. eapply Forall_impl; [exact H4|]. intros f Hf a Hin Hid. by rewrite (Hf a Hin) in Hid.
    + exists sent. by rewrite H5, Ht.
    + intros m1 [= <-]. rewrite H5, Ht in Hms. by apply Forall_app in Hms as [_ [Hm _]%Forall_cons_1].
  - exists prev, acc. apply (inv_up _ _ _ _ _ [notification w m]); [done|by apply feed_encoded|].
    constructor; [|done]. right. exists m. split_and!; try done. by apply H7.
  - exists prev, acc. apply (inv_up _ _ _ _ _ [f]); [done|apply feed_encoded; by destruct f|]. constructor; [by left|done].
  - exists prev, acc. apply (inv_up _ _ _ _ _ []); [done|by eapply feed_corrupted|done].
  - edestruct (inv_acts ms prev acc env (SyRead false (take n (w_up w))) n w Hi) as [acc' Hacc]; [|by exists prev, acc'].
    apply (read_handled env (w_k w) prev (w_cur w) (w_acked w) H1 _ _ P acc (w_down w) d); try done. by rewrite take_drop.
  - edestruct (inv_acts ms prev acc env op 0 w Hi) as [acc' Hacc]; [|by exists prev, acc'].
    by apply (off_line_handled _ _ _ _ d P).
  - destruct (in_flight_tail w f rest acc) as [_ Hq]; [by rewrite <- Hd|]. exists prev, acc. split; try done; [by exists d, P|by exists sent].
  - destruct (in_flight_tail w f rest acc) as [Hq _]; [by rewrite <- Hd|]. exists prev, acc. split; try done; [by exists d, P|by exists sent].
Qed.

Lemma inv_reach p n s ms w :
  param_ok p -> tr_reachable p (b_tr (s_br s)) -> m_mngrClient (b_cpl (s_br s)) = true ->
  linked (Hdlc.newCHDLC n true) (s_port s) -> Forall (fun m => plain (fst m) = true) ms ->
  world_reach s ms w -> exists prev acc, world_inv ms prev acc w.
Proof.
  intros Hp Ht Hc Hs Hms. destruct (reachable_inv p _ Hp Ht) as [[_ _ _ Hresp Hnotif _ _] _].
  induction 1 as [|w w' _ (prev & acc & Hi) Hstep]; [|by eapply inv_step].
  exists None, true. split; try done.
  - exists closed, []. split; [exact Hs|]. split; [done|constructor].
  - by exists [], [].
  - by exists [].
Qed.

(** What was given, and what is left. *)
Lemma line_history ms prev acc w : world_inv ms prev acc w ->
  exists sent rest, ms = sent ++ rest /\ w_given w = flat_map packets_of sent /\
    (rest = w_todo w \/ w_acked w = false /\ exists m, w_cur w = Some m /\ rest = m :: w_todo w).
Proof.
  intros [_ _ _ Hd (sent & H1 & H2) _]. eexists sent, _. split; [exact H1|]. split; [exact H2|].
  destruct acc; [by left|]. destruct Hd as [Ha _]. destruct (w_cur w) as [m|]; [right; split; [done|by exists m]|by left].
Qed.

(** ** Runs that can be computed *)
Inductive choice := ChNext | ChCopy | ChRespond (f : list Z) | ChCorrupt (src : list Z) (i : nat) (c : Z)
| ChRead (env : SysEnv) (n : nat) | ChHear | ChLose.

Definition choose (c : choice) (w : World) : option World :=
  match c with
  | ChNext => match w_todo w with
      m :: ms => if w_acked w then Some (w <| w_todo := ms |> <| w_cur := Some m |> <| w_k := Z.lxor (w_k w) 2 |> <| w_acked := false |>) else None
    | [] => None end
  | ChCopy => m ← w_cur w; Some (w <| w_up := w_up w ++ Hdlc.encodeHDLC (notification w m) |>)
  | ChRespond f => if is_response f then Some (w <| w_up := w_up w ++ Hdlc.encodeHDLC f |>) else None
  | ChCorrupt src i c =>
      b ← Hdlc.frame_body src !! i;
      if forallb (fun x => (0 <=? x) && (x <? 256)) (c :: src) && negb (c =? b)
      then Some (w <| w_up := w_up w ++ corrupted src i c |>) else None
  | ChRead env n => Some (sys_acts env (SyRead false (take n (w_up w))) n w)
  | ChHear => match w_down w with
      f :: rest => Some (w <| w_down := rest |> <| w_acked := w_acked w || matches w (heard f) |>) | [] => None end
  | ChLose => match w_down w with f :: rest => Some (w <| w_down := rest |>) | [] => None end
  end.

Fixpoint choose_all (l : list choice) (w : World) : option World :=
  match l with [] => Some w | c :: l => w' ← choose c w; choose_all l w' end.

Lemma choose_step c w w' : choose c w = Some w' -> world_step w w'.
Proof.
  destruct c; cbn [choose].
  - destruct (w_todo w) as [|m ms] eqn:E; [done|]. destruct (w_acked w) eqn:Ha; [|done]. intros [= <-]. by apply WNext.
  - destruct (w_cur w) as [m|] eqn:E; [|done]. intros [= <-]. by apply WCopy.
  - destruct (is_response f) eqn:E; [|done]. intros [= <-]. by apply WRespond.
  - destruct (Hdlc.frame_body src !! i) as [b|] eqn:E; [|done]. cbn [mbind option_bind].
    destruct (_ && _) eqn:Hb; [|done]. intros [= <-]. apply andb_true_iff in Hb as [Hb Hne].
    cbn [forallb] in Hb. apply andb_true_iff in Hb as [Hc Hs].
    apply (WCorrupt _ _ _ b); [|done|unfold is_byte; lia|by apply negb_true_iff, Z.eqb_neq in Hne].
    apply Forall_forall. intros x Hx%list_elem_of_In. rewrite forallb_forall in Hs. specialize (Hs x Hx). unfold is_byte. lia.
  - intros [= <-]. apply WRead.
  - destruct (w_down w) as [|f rest] eqn:E; [done|]. intros [= <-]. by apply WHear.
  - destruct (w_down w) as [|f rest] eqn:E; [done|]. intros [= <-]. by eapply WLose.
Qed.

Lemma choose_all_reach s ms l : forall w w', world_reach s ms w -> choose_all l w = Some w' -> world_reach s ms w'.
Proof.
  induction l as [|c l IH]; intros w w' Hw; cbn [choose_all]; [by intros [= <-]|].
  destruct (choose c w) as [w1|] eqn:E; [|done]. intros H. apply (IH w1); [|exact H].
  by apply (WStep _ _ w); [|by eapply choose_step].
Qed.

(** ** A copy that arrives *)
Lemma hear_all w : exists w', choose_all (replicate (length (w_down w)) ChHear) w = Some w' /\
  w_down w' = [] /\ w_cur w' = w_cur w /\ w_todo w' = w_todo w /\
  w_given w' = w_given w /\ w_acked w' = w_acked w || matches w (flat_map heard (w_down w)).
Proof.
  remember (w_down w) as l eqn:E. revert w E. induction l as [|f l IH]; intros w E.
  - exists w. split; [done|]. split_and!; try done. unfold matches. cbn. by destruct (w_cur w); rewrite orb_false_r.
  - set (w1 := w <| w_down := l |> <| w_acked := w_acked w || matches w (heard f) |>).
    destruct (IH w1 eq_refl) as (w' & R & D & C & T & G & A). exists w'. split; [|split_and!; try done].
    + cbn [length replicate choose_all choose]. rewrite <- E. exact R.
    + rewrite A. unfold w1, matches. cbn [w_acked w_cur w_k upd]. destruct (w_cur w); [|by rewrite !orb_false_r].
      cbn [flat_map]. by rewrite existsb_app, orb_assoc.
Qed.

Lemma hear_up k : forall w w', choose_all (replicate k ChHear) w = Some w' -> w_up w' = w_up w.
Proof.
  induction k as [|k IH]; intros w w'; cbn [replicate choose_all choose]; [by intros [= ->]|].
  destruct (w_down w) as [|f l]; [done|]. intros H. by rewrite (IH _ _ H).
Qed.

(** The system of the examples: the port open and started. *)
Definition ex_port : CSerialPort :=
  st_of (each SerialPort.port_exec [SerialPort.POpen true; SerialPort.PStart]) (SerialPort.newCSerialPort SerialPort.AP_RESET_SIGNAL_TX true).
Definition ex_sys : Sys := mkSys ex_port ex_bridge.
Definition ex_senv : SysEnv := mkSysEnv ex_benv true true false.

(** Two packets: the first copy of the first is corrupted, the acknowledgement of the
    second copy is lost, and the third copy arrives together with a response. *)
Definition ex_msgs : list msg := [(DN_API_LOC_NOTIF_AP_RECEIVE, [1; 2; 0x7E]); (DN_API_LOC_NOTIF_AP_RECEIVE, [0x7D; 4])].
Definition ex_choices : list choice :=
  [ChNext; ChCorrupt (nframe 2 DN_API_LOC_NOTIF_AP_RECEIVE [1; 2; 0x7E]) 4 9; ChRead ex_senv 100;
   ChCopy; ChRead ex_senv 5; ChRead ex_senv 100; ChLose; ChCopy; ChRespond [1; 1; 1; 0]; ChRead ex_senv 100; ChHear;
   ChNext; ChCopy; ChRead ex_senv 7; ChRead ex_senv 100].

Example ex_choices_run :
  option_map (fun w => (w_given w, w_acked w, length (w_down w))) (choose_all ex_choices (world_init ex_sys ex_msgs)) =
    Some ([[1; 2; 0x7E]; [0x7D; 4]], false, 1%nat).
Proof. vm_compute. reflexivity. Qed.

(** * Theorems *)

(** C1: over the serial line, end to end. An AP that sends each notification until it
    hears its acknowledgement, with alternating packet ids and responses to commands in
    between, and a started system: whatever copies are corrupted on the line (one byte of
    the data or the check sequence), whatever acknowledgements are lost, in whatever pieces
    the bytes are read, and whatever timers, manager, GPS and coupler do meanwhile, the
    client is given exactly the packets of the first notifications, each once and in
    order; those are all that the AP has taken up once it has heard the acknowledgement of
    the last, and all but the last at any time. *)
Theorem line_exactly_once (p : init_param_t) (n : nat) (s : Sys) (ms : list msg) (w : World) :
  param_ok p -> tr_reachable p (b_tr (s_br s)) -> m_mngrClient (b_cpl (s_br s)) = true ->
  linked (Hdlc.newCHDLC n true) (s_port s) -> Forall (fun m => plain (fst m) = true) ms -> world_reach s ms w ->
  exists sent rest, ms = sent ++ rest /\ w_given w = flat_map packets_of sent /\
    (rest = w_todo w \/ w_acked w = false /\ exists m, w_cur w = Some m /\ rest = m :: w_todo w).
Proof.
  intros Hp Ht Hc Hs Hms Hw. destruct (inv_reach p n s ms w Hp Ht Hc Hs Hms Hw) as (prev & acc & Hi).
  by eapply line_history.
Qed.

Lemma ex_linked : linked (Hdlc.newCHDLC SerialPort.MAX_HDLC_BUFFER_LEN true) (s_port ex_sys).
Proof. by split; vm_compute. Qed.

Lemma line_exactly_once_witness :
  match choose_all ex_choices (world_init ex_sys ex_msgs) with
  | Some w => exists sent rest, ex_msgs = sent ++ rest /\ w_given w = flat_map packets_of sent /\
      (rest = w_todo w \/ w_acked w = false /\ exists m, w_cur w = Some m /\ rest = m :: w_todo w)
  | None => False
  end.
Proof.
  destruct (choose_all ex_choices (world_init ex_sys ex_msgs)) as [w|] eqn:E.
  - destruct ex_bridge_ok as (Hp & Ht & _).
    apply (line_exactly_once init_param_default SerialPort.MAX_HDLC_BUFFER_LEN ex_sys ex_msgs w).
    + exact Hp.
    + exact Ht.
    + reflexivity.
    + apply ex_linked.
    + by repeat constructor.
    + eapply choose_all_reach; [apply WInit|exact E].
  - by vm_compute in E.
Defined.

(** C5: one copy is enough. From every state that the world can reach in which the
    line to the port is empty and the manager has not paused the AP, and whatever the system meets when it reads:
    the run that puts one more copy of the current notification on the line, lets the port read its bytes in one piece
    and gives the AP the frames then on their way to it, leaves the AP with its acknowledgement and both lines empty. *)
Theorem line_progress (p : init_param_t) (n : nat) (s : Sys) (ms : list msg) (w : World) (m : msg) (env : SysEnv) :
  param_ok p -> tr_reachable p (b_tr (s_br s)) -> m_mngrClient (b_cpl (s_br s)) = true ->
  linked (Hdlc.newCHDLC n true) (s_port s) -> Forall (fun m => plain (fst m) = true) ms -> world_reach s ms w ->
  w_cur w = Some m -> w_up w = [] -> m_apInputState (b_tr (s_br (w_sys w))) = APM_FLOW_NORMAL ->
  exists frames w',
    choose_all (ChCopy :: ChRead env (length (Hdlc.encodeHDLC (notification w m))) :: replicate frames ChHear) w = Some w' /\
    w_acked w' = true /\ w_up w' = [] /\ w_down w' = [] /\ w_cur w' = Some m /\ w_todo w' = w_todo w.
Proof.
  intros Hp Ht Hc Hs Hms Hw Hcur Hup Hflow. destruct (inv_reach p n s ms w Hp Ht Hc Hs Hms Hw) as (prev & acc & Hi).
  destruct Hi as [Hk Hid (d & P & L1 & L2 & _) _ _ Hpl]. rewrite Hup in L2. injection L2 as -> _.
  set (bytes := Hdlc.encodeHDLC (notification w m)). set (w1 := w <| w_up := w_up w ++ bytes |>).
  assert (Hlen : take (length bytes) (w_up w1) = bytes) by (unfold w1; cbn [w_up upd]; rewrite Hup; apply firstn_all).
  set (w2 := sys_acts env (SyRead false (take (length bytes) (w_up w1))) (length bytes) w1).
  assert (Hacks : flat_map heard (flat_map line_out (out_of (sysRead env false bytes) (w_sys w))) = [(fst m, w_k w, 0)]).
  { destruct (sysRead_run env false bytes closed (w_sys w) L1) as (s1 & Hb & Hs1 & _ & _ & ->).
    cbn [read_frames read_dec] in *. unfold bytes. rewrite feed_encoded by done. cbn [snd each].
    rewrite out_bind. cbn [mret M_ret out_of fst snd]. rewrite app_nil_r. rewrite <- Hb in Hid, Hflow.
    destruct (frame_does env m _ s1 _ (w_k w) (Hpl m Hcur) Hk Hs1 Hid) as (rc & Hrc). cbv zeta in Hrc.
    destruct (_ =? _); [by destruct Hrc as [(_ & _ & _ & Ha) ->]|].
    destruct (Z.eqb_spec rc 0) as [Hr|Hr]; [subst; by destruct Hrc as (_ & _ & _ & Ha)|].
    destruct Hrc as [_ Hx]. congruence. }
  destruct (hear_all w2) as (w' & R & D & C & T & _ & A).
  exists (length (w_down w2)), w'. split; [|split_and!; [| |done|by rewrite C|by rewrite T]].
  - cbn [choose_all choose]. rewrite Hcur. exact R.
  - rewrite A. unfold w2. rewrite Hlen. unfold sys_acts, matches. cbn [w_acked w_cur w_k w_down upd w1 sys_exec].
    change (w_sys w1) with (w_sys w). rewrite Hcur, flat_map_app, existsb_app, Hacks. cbn [existsb]. rewrite bool_decide_true by done.
    by rewrite !orb_true_r.
  - rewrite (hear_up _ _ _ R). unfold w2, sys_acts. cbn [w_up upd w1]. rewrite Hup. apply drop_all.
Qed.

(** One copy after the first packet was acknowledged. *)
Definition ex_next : list choice := take 11 ex_choices ++ [ChNext].

Lemma line_progress_witness :
  match choose_all ex_next (world_init ex_sys ex_msgs) with
  | Some w => exists frames w',
      choose_all (ChCopy :: ChRead ex_senv (length (Hdlc.encodeHDLC (notification w (DN_API_LOC_NOTIF_AP_RECEIVE, [0x7D; 4])))) ::
                  replicate frames ChHear) w = Some w' /\ w_acked w' = true /\ w_todo w' = []
  | None => False
  end.
Proof.
  destruct (choose_all ex_next (world_init ex_sys ex_msgs)) as [w|] eqn:E; [|by vm_compute in E].
  assert (Hw : option_map (fun w => (w_cur w, w_up w, m_apInputState (b_tr (s_br (w_sys w))), w_todo w))
    (choose_all ex_next (world_init ex_sys ex_msgs)) = Some (Some (DN_API_LOC_NOTIF_AP_RECEIVE, [0x7D; 4]), [], APM_FLOW_NORMAL, []))
    by (vm_compute; reflexivity).
  rewrite E in Hw. cbn [option_map] in Hw. injection Hw as Hc Hu Hf Ht. destruct ex_bridge_ok as (Hp & Htr & _).
  destruct (line_progress init_param_default SerialPort.MAX_HDLC_BUFFER_LEN ex_sys ex_msgs w (DN_API_LOC_NOTIF_AP_RECEIVE, [0x7D; 4]) ex_senv)
    as (k & w' & H1 & H2 & _ & _ & _ & H4).
  - exact Hp.
  - exact Htr.
  - reflexivity.
  - apply ex_linked.
  - by repeat constructor.
  - eapply choose_all_reach; [apply WInit|exact E].
  - exact Hc.
  - exact Hu.
  - exact Hf.
  - exists k, w'. rewrite H4, Ht. split; [exact H1|]. split; [exact H2|reflexivity].
Defined.
