(* ===== verification/Uplink.v ===== *)
(** All of it: the AP on its serial line (Wire), the bridge, and the manager at the
    other end of connections that are lost and made again (ApcSession).

    The client belongs to both compositions.  A step of one side that calls the client,
    or is called by it, is a step of the other side too: the packets that the coupler
    gives to the client go on the connection, and what the manager sends reaches the
    coupler. *)
From stdpp Require Import base numbers list option strings gmap.
From Stdlib Require Import ZArith Lia.
From S2P Require Import Hdlc SerialPort.
From S2P Require Import Prelude Gps Common ApcProto ApcSerializer ApcCache ApcConnector NotifThread ApcClient ApcHistory ApcOrder.
From S2P Require Import ApcSession.
From S2P Require Import ApmProto ApmSerializer ApmTransport Coupler Bridge Wire.

Local Open Scope Z_scope.

Notation Net := ApcSession.Net.

Record Whole : Type := mkWhole {
  x_w : World;                          (** the AP, its line, the bridge with the client *)
  x_thread : NotifThread.CAPCCtrlNotifThread;
  x_live : option Z;                    (** as in [Net] *)
  x_answered : Z;
  x_wire : list (Z * Z * list Z);
  x_rx : list (Z * Z * list Z);
  x_log : list sent;
  x_skipped : Z
}.
#[export] Instance Whole_eta : Eta Whole := fun x =>
  mkWhole (x_w x) (x_thread x) (x_live x) (x_answered x) (x_wire x) (x_rx x) (x_log x) (x_skipped x).

Definition client_at (w : World) : CAPCClient := b_cl (s_br (w_sys w)).

(** The manager's side, and the state with another one. *)
Definition netOf (x : Whole) : Net :=
  mkNet (client_at (x_w x)) (x_thread x) (x_live x) (x_answered x) (x_wire x) (x_rx x) (x_log x) (x_skipped x).
Definition withNet (w : World) (n : Net) : Whole :=
  mkWhole w (n_thread n) (n_live n) (n_answered n) (n_wire n) (n_rx n) (n_log n) (n_skipped n).
Definition setClient (c : CAPCClient) (w : World) : World :=
  w <| w_sys := w_sys w <| s_br := s_br (w_sys w) <| b_cl := c |> |> |>.

(** One operation of the client, on the manager's side. *)
Definition clientStep (n : Net) (o : ClEnv * client_op) : Net :=
  clientRun (ApcClient.exec (fst o) (snd o)) n <| n_log := n_log n ++ accepted_packets (snd o) (n_client n) |>.

(** The operations of the client in a run of the system. *)
Definition cl_parts (t : list sys_step) : list (ClEnv * client_op) := flat_map cl_part (flat_map br_steps t).
Definition calls_in (env : SysEnv) (op : sys_op) (w : World) : list (ClEnv * client_op) :=
  cl_parts (out_of (sys_exec env op) (w_sys w)).

(** The system acts, and reads [m] of the bytes in flight from the AP. *)
Definition acts (env : SysEnv) (op : sys_op) (m : nat) (x : Whole) : Whole :=
  withNet (sys_acts env op m (x_w x)) (fold_left clientStep (calls_in env op (x_w x)) (netOf x)).

(** The environment is quiet, and nobody starts the client anew. *)
Definition one_session (env : SysEnv) (op : sys_op) (w : World) : Prop :=
  env_quiet (be_cl (se_br env)) /\ Forall (fun o => in_session (snd o) = true) (calls_in env op w).

(** Operations of the client that begin outside: the reconnection timer, if it is armed. *)
Definition armed (op : sys_op) (w : World) : Prop :=
  match op with
  | SyOther (BrCl op) => op = CTimer false /\ m_reconnectTimer (client_at w) = true
  | _ => True
  end.

(** What happens between connectors, notification thread and manager alone. *)
Definition manager_side (o : net_op) : Prop :=
  match o with NUp _ _ | NTimer _ | NProcess _ => False | _ => True end.

Definition is_read (c : choice) : bool := match c with ChRead _ _ => true | _ => false end.

Inductive whole_step : Whole -> Whole -> Prop :=
| XLine x c w :                      (** the AP, and the line *)
    is_read c = false -> choose c (x_w x) = Some w -> whole_step x (x <| x_w := w |>)
| XRead x env m :                    (** the port reads *)
    one_session env (SyRead false (take m (w_up (x_w x)))) (x_w x) ->
    whole_step x (acts env (SyRead false (take m (w_up (x_w x)))) m x)
| XOther x env op :                  (** timers, GPS, coupler's thread *)
    off_line op -> armed op (x_w x) -> one_session env op (x_w x) -> whole_step x (acts env op 0 x)
| XProcess x env th call :           (** the notification thread calls the client *)
    NotifThread.exec NotifThread.AProcess (x_thread x) = Some (th, [call]) ->
    one_session env (SyOther (BrCl (opOf call))) (x_w x) ->
    whole_step x (acts env (SyOther (BrCl (opOf call))) 0 (x <| x_thread := th |>))
| XNet x o n :                       (** connectors and manager *)
    manager_side o -> net_op_ok o -> net_exec o (netOf x) = Some n ->
    whole_step x (withNet (setClient (n_client n) (x_w x)) n).

(** The system in state [s], whose client was made, opened and started just now, and an AP
    with the notifications [ms] to send. *)
Definition whole_init (cap : nat) (name : list Z) (env : ClEnv) (p : start_param_t) (s : Sys) (ms : list msg) : Whole :=
  let n := net0 cap name env p in
  withNet (setClient (n_client n) (world_init s ms)) n.

Inductive whole_reach (x0 : Whole) : Whole -> Prop :=
| XInit : whole_reach x0 x0
| XStep x x' : whole_reach x0 x -> whole_step x x' -> whole_reach x0 x'.

(** The packets of the AP that the manager has received. *)
Definition received_packets (rx : list (Z * Z * list Z)) : list (list Z) :=
  flat_map (fun m => rx_packet (fst (fst m), snd m)) rx.

(** * Facts *)

(** ** A run of the system runs the client *)
Definition tracks {A} (m : M Sys sys_step A) : Prop := forall s,
  run_ops (cl_parts (out_of m s)) (b_cl (s_br s)) = b_cl (s_br (st_of m s)).

Lemma cl_parts_app t1 t2 : cl_parts (t1 ++ t2) = cl_parts t1 ++ cl_parts t2.
Proof. unfold cl_parts. by rewrite !flat_map_app. Qed.

Lemma tracks_ret {A} (a : A) : tracks (mret a).
Proof. done. Qed.

Lemma tracks_bind {A B} (m : M Sys sys_step A) (k : A -> M Sys sys_step B) :
  tracks m -> (forall a, tracks (k a)) -> tracks (m ≫= k).
Proof.
  intros Hm Hk s. rewrite st_bind, out_bind, cl_parts_app. unfold run_ops. rewrite fold_left_app.
  fold (run_ops (cl_parts (out_of m s)) (b_cl (s_br s))). rewrite Hm. apply Hk.
Qed.

Lemma tracks_each {A} (f : A -> M Sys sys_step unit) l : (forall a, tracks (f a)) -> tracks (each f l).
Proof. intros Hf. induction l as [|a l IH]; [apply tracks_ret|]. apply tracks_bind; [apply Hf|done]. Qed.

Lemma tracks_port op : tracks (portStep op).
Proof. apply tracks_bind; [by intros s|done]. Qed.

Lemma tracks_onBr env op : tracks (onBr env op).
Proof.
  intros s. destruct (br_exec_logged env op (s_br s)) as (_ & _ & H). unfold onBr, cl_parts, st_of at 1, out_of at 1.
  cbn [fst snd flat_map br_steps s_br upd]. rewrite app_nil_r, <- cl_runs_st.
  exact (f_equal (fun r => fst (fst r)) H).
Qed.

Lemma tracks_brStep env op : tracks (brStep env op).
Proof.
  intros s. unfold brStep. rewrite st_read, out_read. revert s.
  enough (H : forall ready, tracks (steps ← onBr (env_ready env ready) (op_ready ready op); each portStep (port_calls env steps)))
    by (intros s; apply H).
  intros ready. apply tracks_bind; [apply tracks_onBr|intros steps]. apply tracks_each, tracks_port.
Qed.

Lemma tracks_exec env op : tracks (sys_exec env op).
Proof.
  destruct op as [error data|id error|op]; cbn [sys_exec]; [|apply tracks_port|apply tracks_brStep].
  unfold sysRead. apply tracks_bind; [by intros s|intros evs]. apply tracks_each. intros e.
  destruct e; cbn [frameIn]; first [apply tracks_brStep|apply tracks_ret].
Qed.

(** ** The operations of the client in a run come from the coupler, but for the first *)
Definition cpl_call (env : BrEnv) (s : br_step) : Prop :=
  match s with StCl e op _ => e = be_cl env /\ (is_upper op = true \/ in_session op = false) | _ => True end.

Notation from_cpl env m := (keeps (fun _ : Bridge => True) (cpl_call env) m).

Section FromCoupler.
Context (env : BrEnv).

Lemma from_each {A} (f : A -> M Bridge br_step unit) l : (forall a, from_cpl env (f a)) -> from_cpl env (each f l).
Proof. intros Hf. induction l as [|a l IH]; [apply keeps_ret|]. apply keeps_bind; [apply Hf|by intros _]. Qed.
Lemma from_onTr u op : from_cpl env (onTr u op).
Proof. intros b _. split; [done|]. by repeat constructor. Qed.
Lemma from_onCpl e op : from_cpl env (onCpl e op).
Proof. intros b _. split; [done|]. by repeat constructor. Qed.
Lemma from_clientCall c : from_cpl env (clientCall env c).
Proof.
  apply keeps_bind; [|intros; apply keeps_ret]. intros b _. split; [done|]. constructor; [|done].
  split; [done|]. destruct c; first [by left|by right].
Qed.
Lemma from_cplCall op : from_cpl env (cplCall env op).
Proof.
  unfold cplCall. apply keeps_bind; [apply from_onCpl|intros evs]. apply from_each. intros e.
  destruct e; cbn [forwardClient]; first [apply from_clientCall|apply keeps_ret].
Qed.
Lemma from_callbackCall op : from_cpl env (callbackCall env op).
Proof.
  unfold callbackCall. apply keeps_bind; [apply from_onCpl|intros evs]. apply from_each. intros e.
  destruct e; cbn [forwardCallback]; try apply keeps_ret. apply from_each. intros u.
  apply keeps_bind; [apply from_onTr|intros; apply keeps_ret].
Qed.
Lemma from_afterTr evs : from_cpl env (afterTr env evs).
Proof.
  unfold afterTr, afterEvent. apply from_each. intros e. apply keeps_bind.
  - apply from_each, from_cplCall.
  - intros _. destruct (callback_op e); [apply from_callbackCall|apply keeps_ret].
Qed.
Lemma from_cplStep op : from_cpl env (cplStep env op).
Proof.
  unfold cplStep. apply keeps_bind; [apply from_onCpl|intros evs]. apply from_each. intros e.
  destruct e; cbn [forward]; try apply keeps_ret; [|apply from_clientCall].
  apply from_each. intros u. apply keeps_bind; [apply from_onTr|apply from_afterTr].
Qed.
Lemma from_trStep op : from_cpl env (trStep env op).
Proof.
  unfold trStep. apply keeps_read. intros b Hb. apply keeps_to_at; [|done].
  apply keeps_bind; [apply from_onTr|apply from_afterTr].
Qed.
Lemma from_inputs evs : from_cpl env (each (forwardInput env) evs).
Proof. apply from_each. intros e. destruct e; cbn [forwardInput]; try apply keeps_ret. apply from_cplStep. Qed.
End FromCoupler.

Notation later_calls env l := (Forall (fun o => fst o = be_cl (se_br env) /\ (is_upper (snd o) = true \/ in_session (snd o) = false)) l).

Lemma cpl_parts env l : Forall (cpl_call env) l ->
  Forall (fun o => fst o = be_cl env /\ (is_upper (snd o) = true \/ in_session (snd o) = false)) (flat_map cl_part l).
Proof. induction 1 as [|s l Hs _ IH]; [constructor|]. cbn [flat_map]. apply Forall_app. split; [|done]. destruct s; cbn [cl_part]; [constructor..|by constructor]. Qed.

Definition own_call (op : sys_op) : option client_op := match op with SyOther (BrCl op) => Some op | _ => None end.

(** What goes to the port has no part of the client. *)
Lemma no_parts_port env steps s : cl_parts (out_of (each portStep (port_calls env steps)) s) = [].
Proof.
  unfold cl_parts. destruct (onPorts_eq (port_calls env steps) s) as (_ & -> & _). done.
Qed.

Lemma brStep_parts env op s :
  exists ready, cl_parts (out_of (brStep env op) s) = flat_map cl_part (out_of (br_exec (env_ready env ready) (op_ready ready op)) (s_br s)).
Proof.
  unfold brStep. rewrite out_read. cbv zeta. exists (port_ready env op s).
  rewrite out_bind, cl_parts_app, no_parts_port, app_nil_r. unfold cl_parts, onBr, out_of at 1. cbn [fst snd flat_map br_steps].
  by rewrite app_nil_r.
Qed.

Lemma brStep_later env op s :
  match op with BrCl _ => False | _ => True end -> later_calls env (cl_parts (out_of (brStep env op) s)).
Proof.
  intros Hop. destruct (brStep_parts env op s) as [ready ->].
  apply (cpl_parts (env_ready env ready)). destruct op as [op|op|op]; [..|done]; cbn [op_ready br_exec];
    [apply (from_trStep _ _ (s_br s))|apply (from_cplStep _ _ (s_br s))]; done.
Qed.

Lemma later_each {A} env (f : A -> M Sys sys_step unit) l : (forall a s, later_calls env (cl_parts (out_of (f a) s))) ->
  forall s, later_calls env (cl_parts (out_of (each f l) s)).
Proof.
  intros Hf. induction l as [|a l IH]; intros s; [constructor|]. cbn [each].
  rewrite out_bind, cl_parts_app. apply Forall_app. by split.
Qed.

Lemma calls_split env op w :
  exists rest, calls_in env op w = option_list (option_map (pair (be_cl (se_br env))) (own_call op)) ++ rest /\ later_calls env rest.
Proof.
  unfold calls_in. destruct op as [error data|id error|[op|op|op]]; cbn [own_call option_map option_list app sys_exec].
  - exists (cl_parts (out_of (sysRead env error data) (w_sys w))). split; [done|]. unfold sysRead.
    rewrite out_bind, cl_parts_app. apply Forall_app. split; [by repeat constructor|].
    apply later_each. intros e s. destruct e; cbn [frameIn]; try constructor. by apply brStep_later.
  - exists []. split; [|constructor]. unfold portStep. by rewrite out_bind, cl_parts_app.
  - eexists. split; [reflexivity|]. by apply brStep_later.
  - eexists. split; [reflexivity|]. by apply brStep_later.
  - destruct (brStep_parts env (BrCl op) (w_sys w)) as [ready ->]. cbn [op_ready br_exec]. unfold clStep.
    rewrite out_bind, flat_map_app. eexists. split; [reflexivity|].
    apply (cpl_parts (env_ready env ready)). by apply (from_inputs (env_ready env ready)).
Qed.

(** ** The line does not look at the client *)
Lemma world_inv_client ms prev acc c w : world_inv ms prev acc w -> world_inv ms prev acc (setClient c w).
Proof. by intros [H1 H2 H3 H4 H5 H6]. Qed.

Lemma choose_same c w w' : is_read c = false -> choose c w = Some w' -> w_sys w' = w_sys w /\ w_given w' = w_given w.
Proof.
  destruct c; try done; intros _; cbn [choose].
  - destruct (w_todo w); [done|]. destruct (w_acked w); [|done]. by intros [= <-].
  - destruct (w_cur w); [|done]. by intros [= <-].
  - destruct (is_response f); [|done]. by intros [= <-].
  - destruct (Hdlc.frame_body src !! i); [|done]. cbn [mbind option_bind]. destruct (_ && _); [|done]. by intros [= <-].
  - destruct (w_down w); [done|]. by intros [= <-].
  - destruct (w_down w); [done|]. by intros [= <-].
Qed.

(** ** The manager's side of a run of the system *)


Lemma fold_fields l : forall n,
  n_client (fold_left clientStep l n) = run_ops l (n_client n) /\
  n_log (fold_left clientStep l n) = n_log n ++ history l (n_client n).
Proof.
  induction l as [|[env op] l IH]; intros n; [by rewrite app_nil_r|]. cbn [fold_left history].
  destruct (IH (clientStep n (env, op))) as [-> ->]. split; [done|].
  cbn [clientStep n_log n_client upd fst snd]. rewrite <- app_assoc. done.
Qed.

Lemma fold_inv cap l : forall n,
  Forall (fun o => env_quiet (fst o) /\ is_upper (snd o) = true) l -> side_inv cap n ->
  Z.of_nat (length (n_log (fold_left clientStep l n))) < 2 ^ 64 - 4 -> side_inv cap (fold_left clientStep l n).
Proof.
  induction l as [|[env op] l IH]; intros n Hl Hn Hb; [done|]. cbn [fold_left] in *.
  inversion Hl as [|? ? [H1 H2] Hl']; subst. apply IH; [done| |done].
  destruct (fold_fields l (clientStep n (env, op))) as [_ E]. rewrite E, length_app in Hb.
  cbn [clientStep n_log upd fst snd] in Hb. rewrite length_app in Hb.
  eapply side_inv_of, upper_step; [exact Hn|done|done|]. unfold sent in *. lia.
Qed.

(** An operation that gives the client no packet. *)
Lemma clientStep_none n env op : accepted_packets op (n_client n) = [] ->
  clientStep n (env, op) = clientRun (ApcClient.exec env op) n.
Proof. intros H. unfold clientStep. cbn [fst snd]. rewrite H, app_nil_r. done. Qed.

(** What the client accepts of what it is given. *)
Lemma accepted_of_given l : forall c,
  Forall (fun d => Z.of_nat (length d) < 65536) (flat_map send_of l) ->
  flat_map rx_packet (history l c) `sublist_of` flat_map send_of l.
Proof.
  induction l as [|[env op] l IH]; intros c Hl; [done|]. cbn [history flat_map] in *.
  apply Forall_app in Hl as [H1 H2]. rewrite flat_map_app. apply sublist_app; [|by apply IH].
  unfold accepted_packets. destruct op; cbn [packet_of send_of snd] in *; try done; try (by destruct (_ && _)).
  apply Forall_cons_1 in H1 as [H1 _]. rewrite u16_small, Nat2Z.id, firstn_all by lia. by destruct (_ && _); [|apply sublist_nil_l].
Qed.

(** ** The invariant of the whole *)
Record whole_inv (cap : Z) (ms : list msg) (x : Whole) : Prop := {
  wh_line : exists prev acc, world_inv ms prev acc (x_w x);
  wh_side : side_inv cap (netOf x);
  wh_log : flat_map rx_packet (x_log x) `sublist_of` w_given (x_w x)
}.

Definition short (m : msg) : Prop := Z.of_nat (length (snd m)) < 65536.

Lemma given_short ms prev acc w : Forall short ms -> world_inv ms prev acc w ->
  Forall (fun d => Z.of_nat (length d) < 65536) (w_given w).
Proof.
  intros Hms [_ _ _ _ (l & E & ->) _]. rewrite E in Hms. apply Forall_app in Hms as [Hl _]. clear E.
  induction Hl as [|m l Hm _ IH]; [constructor|]. cbn [flat_map]. apply Forall_app. split; [|done].
  unfold packets_of. destruct (_ =? _); by repeat constructor.
Qed.

Lemma netOf_with w n : client_at w = n_client n -> netOf (withNet w n) = n.
Proof. intros H. unfold netOf, withNet. cbn [x_w x_thread x_live x_answered x_wire x_rx x_log x_skipped]. rewrite H. by destruct n. Qed.

(** The system acts: [n1] is the manager's side after the operation that it began with. *)
Lemma acts_inv cap ms prev acc env op m x :
  Forall short ms -> world_inv ms prev acc (sys_acts env op m (x_w x)) ->
  flat_map rx_packet (x_log x) `sublist_of` w_given (x_w x) -> one_session env op (x_w x) ->
  side_inv cap (fold_left clientStep (option_list (option_map (pair (be_cl (se_br env))) (own_call op))) (netOf x)) ->
  Z.of_nat (length (x_log (acts env op m x))) < 2 ^ 64 - 4 -> whole_inv cap ms (acts env op m x).
Proof.
  intros Hms Hw Hlog [Hq Hses] Hn1 Hb. set (l := calls_in env op (x_w x)) in *.
  destruct (fold_fields l (netOf x)) as [Hcl Hl].
  assert (Hclient : client_at (sys_acts env op m (x_w x)) = n_client (fold_left clientStep l (netOf x))).
  { rewrite Hcl. symmetry. apply (tracks_exec env op (w_sys (x_w x))). }
  assert (Hgiven : w_given (sys_acts env op m (x_w x)) = w_given (x_w x) ++ flat_map send_of l).
  { unfold sys_acts, given. cbn [w_given upd]. by rewrite sent_parts. }
  split; cbn [acts withNet x_w].
  - by exists prev, acc.
  - unfold acts. fold l. rewrite netOf_with by done.
    destruct (calls_split env op (x_w x)) as (rest & E & Hrest). fold l in E.
    cbn [acts withNet x_log] in Hb. fold l in Hb. rewrite E, fold_left_app in *. apply fold_inv; [|done|done].
    apply Forall_app in Hses as [_ Hses]. rewrite Forall_forall in *. intros o Ho.
    destruct (Hrest o Ho) as [-> [H|H]]; [done|]. specialize (Hses o Ho). congruence.
  - change (x_log (acts env op m x)) with (n_log (fold_left clientStep l (netOf x))). rewrite Hl, Hgiven, flat_map_app. apply sublist_app; [done|].
    apply accepted_of_given. pose proof (given_short _ _ _ _ Hms Hw) as Hs. rewrite Hgiven in Hs.
    by apply Forall_app in Hs as [_ Hs].
Qed.

Lemma manager_log o n n' : manager_side o -> net_exec o n = Some n' -> n_log n' = n_log n.
Proof. intros Hm. apply exec_log. by destruct o. Qed.

Lemma log_grows x x' : whole_step x x' -> (length (x_log x) <= length (x_log x'))%nat.
Proof.
  intros Hs. destruct Hs as [x c w _ _|x env m _|x env op _ _ _|x env th call _ _|x o n Hm _ He]; [done|..].
  1-3: cbn [acts withNet x_log]; match goal with |- context [fold_left clientStep ?l ?n] => destruct (fold_fields l n) as [_ ->] end;
    rewrite length_app; cbn [netOf n_log x_log upd]; lia.
  cbn [withNet x_log]. by rewrite (manager_log _ _ _ Hm He).
Qed.

Lemma whole_step_inv cap ms x x' :
  Forall (fun m => plain (fst m) = true /\ short m) ms -> whole_inv cap ms x -> whole_step x x' ->
  Z.of_nat (length (x_log x')) < 2 ^ 64 - 4 -> whole_inv cap ms x'.
Proof.
  intros Hms Hi Hstep Hb. pose proof Hi as [(prev & acc & Hline) Hside Hlog]. pose proof (log_grows _ _ Hstep) as Hg.
  assert (Hpl : Forall (fun m => plain (fst m) = true) ms) by (eapply Forall_impl; [exact Hms|by intros m []]).
  assert (Hsh : Forall short ms) by (eapply Forall_impl; [exact Hms|by intros m []]).
  destruct Hstep as [x c w Hc Hw|x env m Hs|x env op Hop Ha Hs|x env th call Hth Hs|x o n Hm Ho He].
  - destruct (choose_same _ _ _ Hc Hw) as [E1 E2].
    destruct (inv_step ms prev acc (x_w x) w Hpl Hline (choose_step _ _ _ Hw)) as (prev' & acc' & Hline').
    split; cbn [x_w x_log upd]; [by exists prev', acc'| |by rewrite E2].
    unfold side_inv, netOf, client_at in *. cbn [x_w x_thread x_live x_answered x_wire x_rx x_log x_skipped upd] in *. by rewrite E1.
  - destruct (inv_step ms prev acc _ _ Hpl Hline (WRead (x_w x) env m)) as (prev' & acc' & Hline').
    by eapply acts_inv.
  - destruct (inv_step ms prev acc _ _ Hpl Hline (WOther (x_w x) env op Hop)) as (prev' & acc' & Hline').
    eapply acts_inv; try done. destruct op as [?|?|[?|?|op]]; try done. destruct Ha as [-> Ha].
    change (side_inv cap (clientStep (netOf x) (be_cl (se_br env), CTimer false))). rewrite clientStep_none by done.
    eapply side_inv_of, timer_step; [exact Hside|apply Hs| |exact Ha]. cbn [netOf n_log]. lia.
  - assert (Hop : off_line (SyOther (BrCl (opOf call)))) by (by destruct call).
    destruct (inv_step ms prev acc _ _ Hpl Hline (WOther (x_w x) env _ Hop)) as (prev' & acc' & Hline').
    eapply acts_inv; try done.
    change (side_inv cap (clientStep (netOf (x <| x_thread := th |>)) (be_cl (se_br env), opOf call))).
    rewrite clientStep_none by (by destruct call).
    eapply side_inv_of, (process_step cap _ (netOf x) _ (be_cl (se_br env))); [exact Hside|apply Hs| |].
    + cbn [netOf n_log]. lia.
    + cbn [net_exec]. change (n_thread (netOf x)) with (x_thread x). rewrite Hth. reflexivity.
  - split; cbn [withNet x_w].
    + exists prev, acc. by apply world_inv_client.
    + rewrite netOf_with by done. eapply side_inv_of, net_step; [exact Hside|exact Ho| |exact He]. cbn [netOf n_log]. lia.
    + cbn [withNet x_log]. by rewrite (manager_log _ _ _ Hm He).
Qed.

Lemma whole_init_inv cap name env p s ms n ip :
  0 < cap < 2 ^ 31 -> env_quiet env -> 0 <= sp_disconnectTimeoutMsec p ->
  param_ok ip -> tr_reachable ip (b_tr (s_br s)) -> m_mngrClient (b_cpl (s_br s)) = true ->
  linked (Hdlc.newCHDLC n true) (s_port s) -> Forall (fun m => plain (fst m) = true) ms ->
  whole_inv cap ms (whole_init (Z.to_nat cap) name env p s ms).
Proof.
  intros Hcap Hq Hp Hip Ht Hc Hl Hms. unfold whole_init.
  destruct (inv_reach ip n s ms _ Hip Ht Hc Hl Hms (WInit s ms)) as (prev & acc & Hw).
  pose proof (net0_inv cap name env p Hcap Hq Hp) as Hn. split.
  - exists prev, acc. by apply world_inv_client.
  - rewrite netOf_with by done. by eapply side_inv_of.
  - cbn [withNet x_log]. destruct (start_attempt env (proj1 Hq) name p (Z.to_nat cap)) as (_ & _ & _).
    apply sublist_nil_l.
Qed.

Lemma whole_reach_inv cap ms x0 x :
  Forall (fun m => plain (fst m) = true /\ short m) ms -> whole_inv cap ms x0 -> whole_reach x0 x ->
  Z.of_nat (length (x_log x)) < 2 ^ 64 - 4 -> whole_inv cap ms x.
Proof.
  intros Hms H0. induction 1 as [|x x' _ IH Hs]; [done|]. intros Hb. pose proof (log_grows _ _ Hs).
  eapply whole_step_inv; [exact Hms|apply IH|exact Hs|exact Hb]. unfold sent in *. lia.
Qed.

(** What the manager received is a beginning of what the client accepted. *)
Lemma packets_numbered s l : received_packets (numbered s l) = flat_map rx_packet l.
Proof. revert s. induction l as [|[ty d] l IH]; intros s; [done|]. cbn. by rewrite <- (IH (s + 1)). Qed.

Lemma packets_app l1 l2 : received_packets (l1 ++ l2) = received_packets l1 ++ received_packets l2.
Proof. apply flat_map_app. Qed.

Lemma sublist_packets l1 l2 : l1 `sublist_of` l2 -> received_packets l1 `sublist_of` received_packets l2.
Proof.
  unfold received_packets. induction 1 as [|x l1 l2 _ IH|x l1 l2 _ IH]; cbn [flat_map]; [done|by apply sublist_app|].
  by apply sublist_inserts_l.
Qed.

(** The client is online on a connection that works and that the manager reads. *)
Definition current (n : Net) : Prop :=
  m_state (n_client n) = APCCLIENT_STATE_ONLINE /\ isConnected (n_client n) = true /\ n_live n = m_pConnector (n_client n).

(** The manager's side, as packets of the AP. *)
Lemma packets_split cap n : side_inv cap n ->
  let got := received_packets (n_rx n) ++ received_packets (n_wire n) in
  got `sublist_of` flat_map rx_packet (n_log n) /\
  (current n -> position (n_rx n ++ n_wire n) = Z.of_nat (length (n_log n))) /\
  (n_skipped n = 0 -> exists cached, flat_map rx_packet (n_log n) = got ++ cached /\ (current n -> cached = [])).
Proof.
  intros Hn got. destruct (session_split cap _ n Hn) as (H1 & H2 & H3). cbv zeta in *. unfold got.
  rewrite <- packets_app, <- (packets_numbered 0). change (numbered 0 (n_log n)) with (messages (n_log n)).
  pose proof (picked_bounds _ _ _ H1) as Hb. rewrite length_messages in Hb.
  split; [|split; [by intros (? & ? & ?); apply H3|]].
  - apply sublist_packets. etrans; [by apply picked_sublist|apply sublist_take].
  - intros Hs. destruct (picked_all _ _ _ H1) as [rest Hr]; [lia|]. exists (received_packets rest).
    rewrite Hr at 1. rewrite packets_app. split; [done|]. intros (? & ? & ?).
    rewrite H3 in H2 by done. destruct rest as [|y rest]; [done|]. apply (f_equal length) in Hr.
    rewrite length_messages, (length_app _ (y :: rest)) in Hr. cbn [length] in Hr. lia.
Qed.

(** ** Runs that can be computed *)
Inductive whole_choice :=
| WcLine (c : choice)
| WcRead (env : SysEnv) (m : nat)
| WcTimer (env : SysEnv)
| WcProcess (env : SysEnv)
| WcNet (o : net_op).

(** What has to hold of a choice whatever the state. *)
Definition choice_ok (c : whole_choice) : Prop :=
  match c with
  | WcLine c => is_read c = false
  | WcRead env _ | WcTimer env | WcProcess env => env_quiet (be_cl (se_br env))
  | WcNet o => manager_side o /\ net_op_ok o
  end.

Definition same_session (env : SysEnv) (op : sys_op) (w : World) : bool :=
  forallb (fun o => in_session (snd o)) (calls_in env op w).

Definition whole_choose (c : whole_choice) (x : Whole) : option Whole :=
  match c with
  | WcLine c => w ← choose c (x_w x); Some (x <| x_w := w |>)
  | WcRead env m =>
      let op := SyRead false (take m (w_up (x_w x))) in
      if same_session env op (x_w x) then Some (acts env op m x) else None
  | WcTimer env =>
      let op := SyOther (BrCl (CTimer false)) in
      if m_reconnectTimer (client_at (x_w x)) && same_session env op (x_w x) then Some (acts env op 0 x) else None
  | WcProcess env =>
      match NotifThread.exec NotifThread.AProcess (x_thread x) with
      | Some (th, [call]) =>
          let op := SyOther (BrCl (opOf call)) in
          if same_session env op (x_w x) then Some (acts env op 0 (x <| x_thread := th |>)) else None
      | _ => None
      end
  | WcNet o => n ← net_exec o (netOf x); Some (withNet (setClient (n_client n) (x_w x)) n)
  end.

Fixpoint whole_choose_all (l : list whole_choice) (x : Whole) : option Whole :=
  match l with [] => Some x | c :: l => x' ← whole_choose c x; whole_choose_all l x' end.

Lemma same_session_one env op w : env_quiet (be_cl (se_br env)) -> same_session env op w = true -> one_session env op w.
Proof. intros Hq H. split; [done|]. rewrite Forall_forall. intros o Ho. apply (proj1 (forallb_forall _ _) H), list_elem_of_In, Ho. Qed.

Lemma whole_choose_step c x x' : choice_ok c -> whole_choose c x = Some x' -> whole_step x x'.
Proof.
  intros Hc H. destruct c as [c|env m|env|env|o]; cbn [whole_choose choice_ok] in *.
  - apply bind_Some in H as (w & Hw & H). injection H as <-. by apply (XLine x c).
  - destruct (same_session _ _ _) eqn:E; [|done]. injection H as <-. by apply XRead, same_session_one.
  - destruct (_ && _) eqn:E; [|done]. apply andb_true_iff in E as [E1 E2]. injection H as <-.
    apply XOther; [done|done|by apply same_session_one].
  - destruct (NotifThread.exec _ _) as [[th [|call [|]]]|] eqn:Eth; try done.
    destruct (same_session _ _ _) eqn:E; [|done]. injection H as <-. apply (XProcess _ _ _ call); [done|by apply same_session_one].
  - destruct Hc as [H1 H2]. apply bind_Some in H as (n & Hn & H). injection H as <-. by apply (XNet x o).
Qed.

Lemma whole_choose_reach l : forall x0 x x', Forall choice_ok l ->
  whole_reach x0 x -> whole_choose_all l x = Some x' -> whole_reach x0 x'.
Proof.
  induction l as [|c l IH]; intros x0 x x' Hl Hx H; [by injection H as <-|]. inversion_clear Hl as [|? ? Hc Hl'].
  cbn [whole_choose_all] in H. apply bind_Some in H as (x1 & H1 & H2).
  apply (IH _ x1); [done| |done]. by eapply XStep, whole_choose_step.
Qed.

(** The session of [session_demo], with the AP and the line of [ex_choices]: the first packet
    reaches the client on the first connection and the second one just before the client
    hears that the connection is lost; the second connection delivers it. *)
Definition whole_demo : list whole_choice :=
  let cl := clenv0 5 true in
  let process := [WcNet NTake; WcProcess ex_senv] in
  process ++ [WcNet (NRead env0 0 false (answerBytes 0))] ++ process ++ [WcNet (NWritten env0 0 false)] ++
  [WcLine ChNext; WcLine (ChCorrupt (nframe 2 DN_API_LOC_NOTIF_AP_RECEIVE [1; 2; 0x7E]) 4 9); WcRead ex_senv 100;
   WcLine ChCopy; WcRead ex_senv 5; WcRead ex_senv 100; WcLine ChLose; WcLine ChCopy; WcRead ex_senv 100; WcLine ChHear;
   WcNet NDeliver; WcNet NBreak; WcLine ChNext; WcLine ChCopy; WcRead ex_senv 100;
   WcNet (NRead env0 0 true [])] ++ process ++
  [WcTimer ex_senv] ++ process ++ [WcNet (NWritten env0 1 false); WcNet (NRead env0 1 false (answerBytes 1))] ++ process ++
  [WcNet NDeliver].
Definition whole_demo0 : Whole :=
  whole_init 4 [65] (clenv0 1 true) (mkStartParam 1000 100 500 5000) ex_sys ex_msgs.

Lemma whole_demo_ok : Forall choice_ok whole_demo.
Proof. repeat constructor; cbn; lia. Qed.

(** * Theorems *)


