(* ===== verification/ZMessage.v ===== *)
(** Multi-part messages of the RPC layer (rpc/public/zmqUtils.h).

    The program's class [zmessage] wraps CZMQ, a library: its operations are the class
    [CZMQ] and what its documentation says of them the class [CZMQ_laws].  A frame is
    the list of its bytes.  [CzmqList] is an implementation by lists that satisfies the
    laws; the theorems about the RPC layer use the laws only. *)
From stdpp Require Import base numbers list option strings.
From Stdlib Require Import ZArith Lia.
From S2P Require Import Prelude Common FmtConv.

Local Open Scope Z_scope.

(** The characters of a literal. *)
Definition text (s : string) : list Z := map chr (String.list_ascii_of_string s).

Notation zframe_t := (list Z) (only parsing).

(** ** The library *)
Class CZMQ (zmsg_t : Type) := {
  zmsg_new : zmsg_t;
  zmsg_pop : zmsg_t -> option zframe_t * zmsg_t;
  zmsg_push : zframe_t -> zmsg_t -> zmsg_t;
  zmsg_add : zframe_t -> zmsg_t -> zmsg_t;
  zmsg_wrap : zframe_t -> zmsg_t -> zmsg_t;
  zmsg_unwrap : zmsg_t -> option zframe_t * zmsg_t;
  zmsg_first : zmsg_t -> option zframe_t * zmsg_t;      (** sets the cursor *)
  zmsg_next : zmsg_t -> option zframe_t * zmsg_t;       (** advances the cursor *)
  zmsg_last : zmsg_t -> option zframe_t * zmsg_t;       (** sets the cursor *)
  zmsg_size : zmsg_t -> nat
}.

(** What [zmsg_unwrap] leaves: an empty frame behind the one it takes goes as well. *)
Definition unwrapped (fs : list zframe_t) : list zframe_t :=
  match fs with _ :: [] :: r => r | _ :: r => r | [] => [] end.

Class CZMQ_laws (zmsg_t : Type) `{CZMQ zmsg_t} := {
  frames : zmsg_t -> list zframe_t;
  frames_new : frames zmsg_new = [];
  frames_pop m : frames (snd (zmsg_pop m)) = tail (frames m);
  pop_head m : fst (zmsg_pop m) = head (frames m);
  frames_push f m : frames (zmsg_push f m) = f :: frames m;
  frames_add f m : frames (zmsg_add f m) = (frames m ++ [f])%list;
  frames_wrap f m : frames (zmsg_wrap f m) = f :: [] :: frames m;
  frames_unwrap m : frames (snd (zmsg_unwrap m)) = unwrapped (frames m);
  unwrap_head m : fst (zmsg_unwrap m) = head (frames m);
  frames_next m : frames (snd (zmsg_next m)) = frames m;
  (** Taking off the envelope, a frame with its empty delimiter, leaves no cursor: the next frame is the first one. *)
  next_unwrap m f r : frames m = f :: [] :: r -> fst (zmsg_next (snd (zmsg_unwrap m))) = head r;
  size_frames m : zmsg_size m = length (frames m)
}.

(** ** [zmessage] *)
Section Zmessage.
Context {zmsg_t : Type} `{CZMQ zmsg_t}.

(** [pop], [push], [add], [front], [next], [last] and [size] are the library's. *)
Definition popstr (m : zmsg_t) : list Z * zmsg_t :=
  let '(frame, m) := zmsg_pop m in (default [] frame, m).

(** The library takes a C string. *)
Definition pushstr (value : list Z) (m : zmsg_t) : zmsg_t := zmsg_push (c_str value) m.
Definition addstr (value : list Z) (m : zmsg_t) : zmsg_t := zmsg_add (c_str value) m.

(** [-1] without a frame of the size of an [int]; the frame is gone either way. *)
Definition popint (m : zmsg_t) : Z * zmsg_t :=
  let '(frame, m) := zmsg_pop m in
  (match frame with
   | Some f => if (4 <=? length f)%nat then s32 (ntohl (get_field 0 4 f)) else -1
   | None => -1
   end, m).

Definition addint (value : Z) (m : zmsg_t) : zmsg_t := zmsg_add (le_bytes 4 (htonl (u32 value))) m.

Definition addbytearray (buf : list Z) (m : zmsg_t) : zmsg_t := zmsg_add buf m.

Definition wrap_msg (value delimiter : list Z) (m : zmsg_t) : zmsg_t :=
  let m := match delimiter with [] => m | _ => zmsg_push (c_str delimiter) m end in
  zmsg_wrap value m.

(** ** Facts *)
Context {L : CZMQ_laws zmsg_t}.

Lemma frames_popstr m : frames (snd (popstr m)) = tail (frames m).
Proof. unfold popstr. rewrite <- frames_pop. by destruct (zmsg_pop m). Qed.
Lemma popstr_head m : fst (popstr m) = default [] (head (frames m)).
Proof. unfold popstr. rewrite <- pop_head. by destruct (zmsg_pop m). Qed.
Lemma frames_pushstr v m : frames (pushstr v m) = c_str v :: frames m.
Proof. apply frames_push. Qed.
Lemma frames_addstr v m : frames (addstr v m) = (frames m ++ [c_str v])%list.
Proof. apply frames_add. Qed.
Lemma frames_addint v m : frames (addint v m) = (frames m ++ [le_bytes 4 (htonl (u32 v))])%list.
Proof. apply frames_add. Qed.
Lemma frames_wrap_msg v m : frames (wrap_msg v [] m) = v :: [] :: frames m.
Proof. apply frames_wrap. Qed.

(** An integer of the message survives. *)
Lemma popint_addint v m : frames m = [] -> - 2 ^ 31 <= v < 2 ^ 31 -> fst (popint (addint v m)) = v.
Proof.
  intros Hm Hv. pose proof (pop_head (addint v m)) as Hp. unfold popint. destruct (zmsg_pop _) as [f m'] eqn:E. cbn [fst] in *.
  rewrite frames_addint, Hm in Hp. cbn [app head] in Hp. subst f. rewrite length_le_bytes. cbn [Nat.leb].
  unfold get_field. rewrite drop_0, take_ge by (by rewrite length_le_bytes).
  unfold ntohl, htonl. rewrite le_val_le_bytes. change (256 ^ Z.of_nat 4) with (2 ^ 32).
  pose proof (bswap_range 4 (u32 v)). pose proof (u32_range v). rewrite Z.mod_small by lia.
  rewrite bswap_involutive by lia. unfold s32, u32. transitivity (swrap 32 v); [apply swrap_congr; [lia|]|apply swrap_small; lia].
  unfold wrap. by rewrite Z.mod_mod by lia.
Qed.
End Zmessage.

(** ** An implementation by lists *)
Module CzmqList.
(** The frames and the cursor: the number of the frame that [zmsg_next] returned last. *)
Record zmsg : Set := mkZmsg { z_frames : list zframe_t; z_cursor : option nat }.

Definition at_cursor (m : zmsg) (i : nat) : option zframe_t * zmsg :=
  (z_frames m !! i, mkZmsg (z_frames m) (if decide (i < length (z_frames m))%nat then Some i else None)).

#[export] Instance czmq : CZMQ zmsg := {
  zmsg_new := mkZmsg [] None;
  zmsg_pop m := (head (z_frames m), mkZmsg (tail (z_frames m)) None);
  zmsg_push f m := mkZmsg (f :: z_frames m) None;
  zmsg_add f m := mkZmsg (z_frames m ++ [f]) None;
  zmsg_wrap f m := mkZmsg (f :: [] :: z_frames m) None;
  zmsg_unwrap m := (head (z_frames m), mkZmsg (unwrapped (z_frames m)) None);
  zmsg_first m := at_cursor m 0;
  zmsg_next m := at_cursor m (match z_cursor m with Some i => S i | None => 0%nat end);
  zmsg_last m := at_cursor m (length (z_frames m) - 1);
  zmsg_size m := length (z_frames m)
}.

#[export, refine] Instance czmq_laws : CZMQ_laws zmsg := { frames := z_frames }.
Proof. all: try done. intros m f r E. cbn in *. rewrite E. by destruct r. Defined.
End CzmqList.
