(* ===== verification/RpcProtocol.v ===== *)
(** The RPC protocol (rpc/public/RpcProtocol.h, RpcCommon.h, rpc/RpcProtocol.cpp):
    commands and results, and the log of timestamps and nonces that recognises a
    request that is sent again. *)
From stdpp Require Import base numbers list option strings sets.
From Stdlib Require Import ZArith Lia.
From S2P Require Import Prelude Common FmtConv ZMessage.

Local Open Scope Z_scope.

(** ** Constants *)
Definition RPC_CLIENT : list Z := text "RPCC01".
Definition RPC_WORKER : list Z := text "RPCW01".
Definition TIMESTAMP_WINDOW_SIZE : Z := 60.

Inductive RpcCommands : Set :=
| RPC_REGISTER | RPC_REQUEST | RPC_REPLY | RPC_HEARTBEAT | RPC_DISCONNECT | RPC_NOTIFY.

#[export] Instance RpcCommands_eq_dec : EqDecision RpcCommands.
Proof. solve_decision. Defined.

Definition command_code (c : RpcCommands) : Z :=
  match c with
  | RPC_REGISTER => 1 | RPC_REQUEST => 2 | RPC_REPLY => 3
  | RPC_HEARTBEAT => 4 | RPC_DISCONNECT => 5 | RPC_NOTIFY => 6
  end.

(** The command with a code, as the [switch] statements look it up. *)
Definition command_of (code : Z) : option RpcCommands :=
  if code =? 1 then Some RPC_REGISTER else if code =? 2 then Some RPC_REQUEST
  else if code =? 3 then Some RPC_REPLY else if code =? 4 then Some RPC_HEARTBEAT
  else if code =? 5 then Some RPC_DISCONNECT else if code =? 6 then Some RPC_NOTIFY else None.

Lemma command_of_code c : command_of (command_code c) = Some c.
Proof. by destruct c. Qed.

(** ** Results, endpoints and services *)
Inductive RpcResult : Set :=
| RPC_OK | RPC_INVALID_COMMAND | RPC_INVALID_PARAMETERS | RPC_INVALID_NUM_PARAMETERS
| RPC_OBJECT_NOT_FOUND | RPC_CREATE_FAILED | RPC_MOTE_NOT_FOUND | RPC_PATH_NOT_FOUND
| RPC_LINK_NOT_FOUND | RPC_DELETE_FAILED | RPC_JOIN_FAILED | RPC_SEND_FAILED
| RPC_MOTE_CONNECT_ERROR | RPC_GET_ROUTE_ERROR | RPC_AP_NOT_FOUND | RPC_USER_NOT_FOUND
| RPC_USER_EXISTS | RPC_ENTRY_NOT_FOUND | RPC_MOTE_NOT_AP | RPC_TIMEOUT
| RPC_INVALID_JOINKEY | RPC_AP_EXISTS | RPC_SERVICE_NOT_AVAILABLE | RPC_MOTE_STATE
| RPC_CMD_OUTPUT_QUEUE_FULL | RPC_INVALID_AUTHENTICATION | RPC_CLIENT_NOT_FOUND | RPC_CLIENT_EXISTS
| RPC_ACCESSTOKEN_NOT_FOUND | RPC_ACCESSTOKEN_EXISTS | RPC_REQUESTTOKEN_NOT_FOUND | RPC_CMD_IN_PROGRESS
| RPC_INVALID_CMD_SIGNATURE | RPC_INVALID_SERVICE_ID | RPC_DB_ERROR | RPC_NOT_AUTHORIZED
| RPC_WD_STATE | RPC_WD_CLIENT_STATE | RPC_WD_NOTFOUND | RPC_WD_CLIENT_TYPE
| RPC_PARSE.

Definition result_code (x : RpcResult) : Z :=
  match x with
  | RPC_OK => 0 | RPC_INVALID_COMMAND => 1 | RPC_INVALID_PARAMETERS => 2
  | RPC_INVALID_NUM_PARAMETERS => 3 | RPC_OBJECT_NOT_FOUND => 4 | RPC_CREATE_FAILED => 5
  | RPC_MOTE_NOT_FOUND => 6 | RPC_PATH_NOT_FOUND => 7 | RPC_LINK_NOT_FOUND => 8
  | RPC_DELETE_FAILED => 9 | RPC_JOIN_FAILED => 10 | RPC_SEND_FAILED => 11
  | RPC_MOTE_CONNECT_ERROR => 12 | RPC_GET_ROUTE_ERROR => 13 | RPC_AP_NOT_FOUND => 14
  | RPC_USER_NOT_FOUND => 15 | RPC_USER_EXISTS => 16 | RPC_ENTRY_NOT_FOUND => 17
  | RPC_MOTE_NOT_AP => 18 | RPC_TIMEOUT => 19 | RPC_INVALID_JOINKEY => 20
  | RPC_AP_EXISTS => 21 | RPC_SERVICE_NOT_AVAILABLE => 22 | RPC_MOTE_STATE => 23
  | RPC_CMD_OUTPUT_QUEUE_FULL => 24 | RPC_INVALID_AUTHENTICATION => 25 | RPC_CLIENT_NOT_FOUND => 26
  | RPC_CLIENT_EXISTS => 27 | RPC_ACCESSTOKEN_NOT_FOUND => 28 | RPC_ACCESSTOKEN_EXISTS => 29
  | RPC_REQUESTTOKEN_NOT_FOUND => 30 | RPC_CMD_IN_PROGRESS => 31 | RPC_INVALID_CMD_SIGNATURE => 32
  | RPC_INVALID_SERVICE_ID => 33 | RPC_DB_ERROR => 34 | RPC_NOT_AUTHORIZED => 35
  | RPC_WD_STATE => 36 | RPC_WD_CLIENT_STATE => 37 | RPC_WD_NOTFOUND => 38
  | RPC_WD_CLIENT_TYPE => 39 | RPC_PARSE => 40
  end.

Inductive RpcEndpoints : Set :=
| TPLGDB_ENDPOINT_PATH | MNGR_NOTIFY_ENDPOINT_PATH | MNGR_LOG_ENDPOINT_PATH
| TPLGCMD_NOTIFY_ENDPOINT_PATH | AUTH_MNGR_ENDPOINT_PATH | AUTH_MNGR_LOG_ENDPOINT_PATH
| AUTH_MNGR_NOTIFY_ENDPOINT_PATH | APC_ENDPOINT_PATH | APC_LOG_ENDPOINT_PATH
| CONFIGDB_ENDPOINT_PATH | CONFIGDB_NOTIFY_ENDPOINT_PATH | WATCHDOG_ENDPOINT_PATH
| WATCHDOG_NOTIFY_ENDPOINT_PATH | CONFIGDB_LOG_ENDPOINT_PATH | WATCHDOG_LOG_ENDPOINT_PATH.

Definition endpoint_code (x : RpcEndpoints) : Z :=
  match x with
  | TPLGDB_ENDPOINT_PATH => 0 | MNGR_NOTIFY_ENDPOINT_PATH => 1 | MNGR_LOG_ENDPOINT_PATH => 2
  | TPLGCMD_NOTIFY_ENDPOINT_PATH => 3 | AUTH_MNGR_ENDPOINT_PATH => 4 | AUTH_MNGR_LOG_ENDPOINT_PATH => 5
  | AUTH_MNGR_NOTIFY_ENDPOINT_PATH => 6 | APC_ENDPOINT_PATH => 7 | APC_LOG_ENDPOINT_PATH => 8
  | CONFIGDB_ENDPOINT_PATH => 9 | CONFIGDB_NOTIFY_ENDPOINT_PATH => 10 | WATCHDOG_ENDPOINT_PATH => 11
  | WATCHDOG_NOTIFY_ENDPOINT_PATH => 12 | CONFIGDB_LOG_ENDPOINT_PATH => 13 | WATCHDOG_LOG_ENDPOINT_PATH => 14
  end.

Inductive RpcServices : Set :=
| TOPOLOGY_DB_SERVICE | MANAGER_RPC_SERVICE | TOPOLOGY_INPUTEVENT_SERVICE | CONFIG_RPC_SERVICE
| STATISTICS_RPC_SERVICE | LOG_RPC_SERVICE | SECURITY_RPC_SERVICE | NOTIF_GENERATOR_RPC_SERVICE
| INTERNALCMD_RPC_SERVICE | AUTHENTICATION_RPC_SERVICE | APC_RPC_SERVICE | WATCHDOG_RPC_SERVICE
| WD_USER_SERVICE | SIM_RPC_SERVER.

Definition service_code (x : RpcServices) : Z :=
  match x with
  | TOPOLOGY_DB_SERVICE => 0 | MANAGER_RPC_SERVICE => 1 | TOPOLOGY_INPUTEVENT_SERVICE => 2
  | CONFIG_RPC_SERVICE => 3 | STATISTICS_RPC_SERVICE => 4 | LOG_RPC_SERVICE => 5
  | SECURITY_RPC_SERVICE => 6 | NOTIF_GENERATOR_RPC_SERVICE => 7 | INTERNALCMD_RPC_SERVICE => 8
  | AUTHENTICATION_RPC_SERVICE => 9 | APC_RPC_SERVICE => 10 | WATCHDOG_RPC_SERVICE => 11
  | WD_USER_SERVICE => 12 | SIM_RPC_SERVER => 13
  end.

(** ** Limits of lists *)
Definition DEFAULT_MAX_SIZE : Z := 1000.

(** The variable [max_results_v] after [setMaxSizeListResp]. *)
Definition setMaxSizeListResp (val : Z) : Z := if val =? 0 then DEFAULT_MAX_SIZE else val.

(** [ListReq] of common.proto: both fields are optional. *)
Record ListReq : Set := mkListReq { startIndex : option Z; maxLength : option Z }.

(** [getListReqLimit]: the first index and the greatest number of results. *)
Definition getListReqLimit (max_results_v : Z) (listreq : option ListReq) : Z * Z :=
  match listreq with
  | None => (0, max_results_v)
  | Some r =>
      (default 0 (startIndex r),
       match maxLength r with
       | Some n => if (0 <? n) && (n <? max_results_v) then n else max_results_v
       | None => max_results_v
       end)
  end.

(** ** Timestamps and nonces *)
Record timestampNonce_t : Set := mkTimestampNonce { timeS : Z; nonce : list Z }.

#[export] Instance timestampNonce_eq_dec : EqDecision timestampNonce_t.
Proof. solve_decision. Defined.

(** [now]: what [getRpcTimestamp] returns, seconds since the epoch. *)
Definition inTimestampWindow (now timestamp refTime : Z) : bool :=
  let refTime := if refTime =? 0 then now else refTime in
  u64 (Z.abs (s64 (refTime - timestamp))) <? TIMESTAMP_WINDOW_SIZE.

(** Entries in front of the first one inside the window go. *)
Fixpoint purgeTimestampNonceLog (currentTime : Z) (log : list timestampNonce_t) : list timestampNonce_t :=
  match log with
  | [] => []
  | e :: r => if inTimestampWindow currentTime (timeS e) currentTime then log else purgeTimestampNonceLog currentTime r
  end.

(** The clock is read twice: [now1] by the purge, [now2] by the check. *)
Definition validateTimestampNoncePair (now1 now2 : Z) (new : timestampNonce_t) (log : list timestampNonce_t) :
    bool * list timestampNonce_t :=
  let log := purgeTimestampNonceLog now1 log in
  if negb (inTimestampWindow now2 (timeS new) 0) then (false, log)
  else if existsb (fun e => (timeS new =? timeS e) && bool_decide (nonce new = nonce e)) log then (false, log)
  else (true, log ++ [new]).

(** ** A history of calls *)

(** Each call with its two readings of the clock; the result has the log and the pairs
    that were accepted. *)
Definition call_t : Set := Z * Z * timestampNonce_t.

Fixpoint validate_all (calls : list call_t) (log : list timestampNonce_t) : list timestampNonce_t * list timestampNonce_t :=
  match calls with
  | [] => (log, [])
  | (now1, now2, new) :: calls =>
      let '(ok, log) := validateTimestampNoncePair now1 now2 new log in
      let '(log, acc) := validate_all calls log in
      (log, (if ok : bool then [new] else []) ++ acc)
  end.

(** The clock does not go back, and seconds fit into 62 bits. *)
Fixpoint clock_ok (t : Z) (calls : list call_t) : Prop :=
  match calls with
  | [] => True
  | (now1, now2, new) :: calls => t <= now1 <= now2 /\ now2 < 2 ^ 62 /\ - 2 ^ 62 < timeS new < 2 ^ 62 /\ clock_ok now2 calls
  end.

Definition in_window (now ts : Z) : Prop := Z.abs (now - ts) < TIMESTAMP_WINDOW_SIZE.

Lemma inTimestampWindow_spec now ts ref : 0 < now < 2 ^ 62 -> - 2 ^ 62 < ts < 2 ^ 62 -> ref = 0 \/ ref = now ->
  inTimestampWindow now ts ref = true <-> in_window now ts.
Proof.
  intros Hn Ht Hr. unfold inTimestampWindow, in_window.
  assert ((if ref =? 0 then now else ref) = now) as -> by (destruct Hr as [->| ->]; [done|]; by case_match).
  unfold s64. rewrite swrap_small by lia. rewrite u64_small by lia. apply Z.ltb_lt.
Qed.

(** An entry that is dropped was accepted long ago: it never comes back into the window. *)
Definition too_old (now : Z) (e : timestampNonce_t) : Prop := timeS e + TIMESTAMP_WINDOW_SIZE <= now.

Definition entry_ok (now : Z) (e : timestampNonce_t) : Prop :=
  - 2 ^ 62 < timeS e < 2 ^ 62 /\ timeS e < now + TIMESTAMP_WINDOW_SIZE.

Lemma purge_spec now log : 0 < now < 2 ^ 62 -> Forall (entry_ok now) log ->
  exists old, log = old ++ purgeTimestampNonceLog now log /\ Forall (too_old now) old.
Proof.
  intros Hn. induction 1 as [|e log [He1 He2] Hl IH]; [by exists []|]. cbn [purgeTimestampNonceLog].
  destruct (inTimestampWindow _ _ _) eqn:E; [by exists []|]. destruct IH as (old & Heq & Ho). exists (e :: old).
  assert (~ in_window now (timeS e)) as Hw
    by (intros Hw; apply (inTimestampWindow_spec now _ now) in Hw; [congruence|lia|lia|by right]).
  cbn [app]. split; [by rewrite <- Heq|]. constructor; [|done].
  unfold in_window, too_old, TIMESTAMP_WINDOW_SIZE in *. lia.
Qed.

(** The reference never forgets what it accepted. *)
Fixpoint reference (calls : list call_t) (seen : list timestampNonce_t) : list timestampNonce_t :=
  match calls with
  | [] => []
  | (_, now, new) :: calls =>
      if (Z.abs (now - timeS new) <? TIMESTAMP_WINDOW_SIZE) && negb (bool_decide (new ∈ seen))
      then new :: reference calls (seen ++ [new])
      else reference calls seen
  end.

(** The log against all that was accepted: what is missing is too old. *)
Definition log_inv (now : Z) (seen log : list timestampNonce_t) : Prop :=
  Forall (entry_ok now) log /\ Forall (fun e => e ∈ seen) log /\ Forall (fun e => e ∈ log \/ too_old now e) seen.

Lemma log_inv_later now now' seen log : now <= now' -> log_inv now seen log -> log_inv now' seen log.
Proof.
  intros Hn (H1 & H2 & H3). split_and!; [|done|].
  - eapply Forall_impl; [exact H1|]. unfold entry_ok. lia.
  - eapply Forall_impl; [exact H3|]. unfold too_old. intros e [?|?]; [by left|right; lia].
Qed.

Lemma log_inv_purge now seen log : 0 < now < 2 ^ 62 -> log_inv now seen log ->
  log_inv now seen (purgeTimestampNonceLog now log).
Proof.
  intros Hn (H1 & H2 & H3). destruct (purge_spec now log Hn H1) as (old & Heq & Ho). set (l := purgeTimestampNonceLog now log) in *.
  rewrite Heq in H1, H2. apply Forall_app in H1 as [_ H1], H2 as [_ H2]. split_and!; [done..|].
  eapply Forall_impl; [exact H3|]. intros e [He|He]; [|by right]. rewrite Heq in He.
  apply elem_of_app in He as [He|He]; [|by left]. right. by apply (Forall_forall (too_old now) old) in He.
Qed.

Lemma existsb_pair new log :
  existsb (fun e => (timeS new =? timeS e) && bool_decide (nonce new = nonce e)) log = bool_decide (new ∈ log).
Proof.
  symmetry. destruct (existsb _ log) eqn:E.
  - apply bool_decide_eq_true. apply existsb_exists in E as (e & He%list_elem_of_In & Hb). destruct new, e. cbn in *.
    apply andb_true_iff in Hb as [->%Z.eqb_eq ->%bool_decide_eq_true]. done.
  - apply bool_decide_eq_false. intros He%list_elem_of_In.
    assert (existsb (fun e => (timeS new =? timeS e) && bool_decide (nonce new = nonce e)) log = true) as Ht; [|congruence].
    apply existsb_exists. exists new. split; [done|]. by rewrite Z.eqb_refl, bool_decide_eq_true_2.
Qed.

(** What the log does not know and is in the window was never accepted. *)
Lemma log_seen now seen log new : log_inv now seen log -> in_window now (timeS new) ->
  bool_decide (new ∈ log) = bool_decide (new ∈ seen).
Proof.
  intros (_ & H2 & H3) Hw. apply bool_decide_ext. split; intros He.
  - by apply (Forall_forall _ _ ) with (x := new) in H2.
  - apply (Forall_forall _ _) with (x := new) in H3; [|done]. destruct H3 as [?|Ho]; [done|].
    unfold too_old, in_window, TIMESTAMP_WINDOW_SIZE in *. lia.
Qed.

Lemma validate_step now1 now2 new seen log : 0 < now1 <= now2 -> now2 < 2 ^ 62 -> - 2 ^ 62 < timeS new < 2 ^ 62 ->
  log_inv now1 seen log ->
  let ok := (Z.abs (now2 - timeS new) <? TIMESTAMP_WINDOW_SIZE) && negb (bool_decide (new ∈ seen)) in
  exists log', validateTimestampNoncePair now1 now2 new log = (ok, log') /\
    log_inv now2 (if ok then seen ++ [new] else seen) log'.
Proof.
  intros Hn H2 Ht Hi. apply log_inv_purge in Hi; [|lia]. apply (log_inv_later _ now2) in Hi; [|lia].
  unfold validateTimestampNoncePair. set (l := purgeTimestampNonceLog now1 log) in *. cbn zeta.
  destruct (Z.ltb_spec (Z.abs (now2 - timeS new)) TIMESTAMP_WINDOW_SIZE) as [Hw|Hw].
  - rewrite (proj2 (inTimestampWindow_spec now2 (timeS new) 0 ltac:(lia) Ht (or_introl eq_refl)) Hw). cbn [negb andb].
    rewrite existsb_pair, (log_seen now2 seen l new Hi Hw). case_bool_decide as Hs; cbn [negb]; [by exists l|].
    exists (l ++ [new]). split; [done|]. destruct Hi as (I1 & I2 & I3). split_and!.
    + apply Forall_app. split; [done|]. repeat constructor; unfold in_window in Hw; lia.
    + apply Forall_app. split; [|repeat constructor; set_solver].
      eapply Forall_impl; [exact I2|]. set_solver.
    + apply Forall_app. split; [|repeat constructor; set_solver].
      eapply Forall_impl; [exact I3|]. intros e [?|?]; [left; set_solver|by right].
  - destruct (inTimestampWindow now2 (timeS new) 0) eqn:E; cbn [negb andb]; [|by exists l].
    apply inTimestampWindow_spec in E; [|lia|lia|by left]. unfold in_window in E. lia.
Qed.

Lemma validate_all_reference calls : forall t seen log, 0 < t -> clock_ok t calls -> log_inv t seen log ->
  snd (validate_all calls log) = reference calls seen.
Proof.
  induction calls as [|[[now1 now2] new] calls IH]; [done|]. intros t seen log Ht (Hn & H2 & Hts & Hc) Hi. cbn [validate_all reference].
  apply (log_inv_later _ now1) in Hi; [|lia].
  destruct (validate_step now1 now2 new seen log ltac:(lia) H2 Hts Hi) as (log' & -> & Hi').
  specialize (IH now2 _ log' ltac:(lia) Hc Hi'). destruct (validate_all calls log') as [lf acc]. cbn [snd] in *. subst acc.
  by destruct (_ && _).
Qed.

Lemma reference_once calls : forall seen, NoDup (reference calls seen) /\ Forall (fun e => e ∉ seen) (reference calls seen).
Proof.
  induction calls as [|[[now1 now2] new] calls IH]; intros seen; [by split; constructor|]. cbn [reference].
  destruct (_ <? _) eqn:E1; [|by apply IH]. cbn [andb]. case_bool_decide as Hs; [by apply IH|]. cbn [negb].
  destruct (IH (seen ++ [new])) as [H1 H2]. split.
  - constructor; [|done]. intros Hin. apply (Forall_forall _ _) with (x := new) in H2; [|done]. set_solver.
  - constructor; [done|]. eapply Forall_impl; [exact H2|]. set_solver.
Qed.

(** ** Properties *)

(** C26: replays are recognised although the log is purged, as long as the clock does not go back.  Over any history of calls
    in which no reading of the clock is less than the one before (and times and timestamps
    fit into 62 bits), the log accepts exactly the calls that a
    validator with unlimited memory accepts: the timestamp is less than 60 seconds from
    the clock and the pair was never accepted before.  In particular no pair of
    timestamp and nonce is accepted twice. *)
Theorem nonce_once calls : clock_ok 1 calls ->
  snd (validate_all calls []) = reference calls [] /\ NoDup (snd (validate_all calls [])).
Proof.
  intros Hc. assert (snd (validate_all calls []) = reference calls []) as ->.
  { apply (validate_all_reference calls 1); [lia|done|]. by split_and!. }
  split; [done|]. apply reference_once.
Qed.

Lemma nonce_once_witness :
  let p := mkTimestampNonce 1000 [1] in
  snd (validate_all [(990, 990, p); (995, 995, p); (1059, 1059, p); (1065, 1066, p)] []) = [p] /\
  NoDup (snd (validate_all [(990, 990, p); (995, 995, p); (1059, 1059, p); (1065, 1066, p)] [])).
Proof.
  intros p. split; [reflexivity|]. refine (proj2 (nonce_once _ _)). cbn. lia.
Defined.

(** The code reads the system's clock, which may be set back: then a pair that was purged is accepted again. *)
Fact clock_back_replays :
  let p := mkTimestampNonce 1000 [1] in
  snd (validate_all [(990, 990, p); (1065, 1065, mkTimestampNonce 1065 [2]); (1000, 1000, p)] []) = [p; mkTimestampNonce 1065 [2]; p].
Proof. reflexivity. Qed.
