(* ===== verification/RpcDispatcher.v ===== *)
(** The RPC dispatcher (rpc/RpcDispatcherBase.cpp, RpcDispatcherBase.h).

    The dispatcher connects clients, who send requests for named services, with the
    workers that registered for them.  Workers are objects on a heap, referred to by
    pointers from the dispatcher's and the services' lists: a pointer is a number,
    [delete] removes the object, and the use of a pointer without an object is the
    crash [Dangling].  Services live as long as the dispatcher, under their names: a
    [service*] is the name.  A failed [assert] and the use of a null pointer are
    crashes as well.  [DELETE_EXPIRED_WORKERS] is not defined, so expired workers are
    only reported.  [now] is the clock in microseconds. *)
From stdpp Require Import base numbers list option strings gmap.
From Stdlib Require Import ZArith Lia.
From S2P Require Import Prelude Common FmtConv Crash ZMessage RpcProtocol.

Local Open Scope Z_scope.

Definition HEARTBEAT_LIVENESS : Z := 3.
Definition HEARTBEAT_INTERVAL : Z := 2500.
Definition HEARTBEAT_EXPIRY : Z := HEARTBEAT_INTERVAL * HEARTBEAT_LIVENESS.

Notation name_t := (list Z) (only parsing).

(** ** Workers *)
Record worker : Set := mkWorker {
  m_identity : name_t;
  m_service : option name_t;      (** [None]: the null pointer *)
  m_expiration : Z;
  m_logExp : Z
}.
#[export] Instance worker_eta : Eta worker := fun w =>
  mkWorker (m_identity w) (m_service w) (m_expiration w) (m_logExp w).

Definition newWorker (identity : name_t) : worker := mkWorker identity None 0 0.

Definition isExpired (now : Z) (w : worker) : bool * worker :=
  let w := if m_expiration w <? now then w <| m_logExp := 20 |> else w in
  let w := if 0 <? m_logExp w then w <| m_logExp := m_logExp w - 1 |> else w in
  (m_expiration w <? now, w).

Definition worker_setExpired (now offset : Z) (w : worker) : worker :=
  let w := w <| m_expiration := now + offset * 1000 |> in
  if 0 <? m_logExp w then w <| m_logExp := m_logExp w - 1 |> else w.

Section Dispatcher.
Context {zmsg_t : Type} `{CZMQ zmsg_t}.

(** ** State *)
Record service : Type := mkService {
  m_name : name_t;
  m_requests : list zmsg_t;
  sv_waiting : list nat;          (** the service's [m_waiting] *)
  m_numWorkers : Z
}.
#[export] Instance service_eta : Eta service := fun s =>
  mkService (m_name s) (m_requests s) (sv_waiting s) (m_numWorkers s).

Record RpcDispatcherBase : Type := mkDispatcher {
  m_services : gmap name_t service;
  m_workers : gmap name_t nat;
  d_heap : gmap nat worker;       (** the worker objects *)
  d_next : nat;                   (** the next pointer that [new] returns *)
  m_waiting : list nat;
  m_heartbeat_at : Z;
  m_done : bool;
  m_endpoint : list Z
}.
#[export] Instance dispatcher_eta : Eta RpcDispatcherBase := fun d =>
  mkDispatcher (m_services d) (m_workers d) (d_heap d) (d_next d) (m_waiting d) (m_heartbeat_at d) (m_done d)
    (m_endpoint d).

(** What goes out on the socket, and to whom. *)
Inductive disp_event : Type :=
| ToWorker (w : worker) (command : RpcCommands) (m : zmsg_t)
| ToClient (m : zmsg_t)
| DBind (endpoint : list Z).

Definition newRpcDispatcherBase (now : Z) : RpcDispatcherBase :=
  mkDispatcher ∅ ∅ ∅ 0 [] (now + HEARTBEAT_INTERVAL * 1000) false [].

(** ** Access to the objects *)
Notation DM := (CM RpcDispatcherBase disp_event).

Definition worker_at (p : nat) : DM worker := d ← cget; deref Dangling (d_heap d !! p).
Definition set_worker (p : nat) (w : worker) : DM unit := cmodify (fun d => d <| d_heap := <[p := w]> (d_heap d) |>).
Definition service_at (n : name_t) : DM service := d ← cget; deref Dangling (m_services d !! n).
Definition set_service (n : name_t) (s : service) : DM unit :=
  cmodify (fun d => d <| m_services := <[n := s]> (m_services d) |>).

(** ** Operations *)
Definition bind_endpoint (endpoint : list Z) : DM unit :=
  cmodify (fun d => d <| m_endpoint := endpoint |>) ;; cemit (DBind endpoint).

Definition getNumWorkers (d : RpcDispatcherBase) : nat := size (m_workers d).

Definition cancel : DM unit := cmodify (fun d => d <| m_done := true |>).

Definition setExpired (now offset : Z) : DM unit := cmodify (fun d => d <| m_heartbeat_at := now + offset * 1000 |>).

(** Without [DELETE_EXPIRED_WORKERS]: stops at the first worker alive. *)
Fixpoint purge_loop (now : Z) (ws : list nat) : DM unit :=
  match ws with
  | [] => mret tt
  | p :: ws =>
      w ← worker_at p;
      set_worker p (snd (isExpired now w)) ;;
      if fst (isExpired now w) then purge_loop now ws else mret tt
  end.
Definition purge_workers (now : Z) : DM unit := d ← cget; purge_loop now (m_waiting d).

Definition findService (name : name_t) : DM (option name_t) :=
  assert_ (negb (bool_decide (name = []))) ;;
  d ← cget;
  mret (if decide (is_Some (m_services d !! name)) then Some name else None).

Definition getService (name : name_t) : DM name_t :=
  assert_ (negb (bool_decide (name = []))) ;;
  srv ← findService name;
  match srv with
  | Some n => mret n
  | None => set_service name (mkService name [] [] 0) ;; mret name
  end.

Definition worker_send (p : nat) (command : RpcCommands) (msg : option zmsg_t) : DM unit :=
  let msg := default zmsg_new msg in
  let msg := zmsg_push [u8 (command_code command)] msg in
  let msg := pushstr RPC_WORKER msg in
  w ← worker_at p;
  cemit (ToWorker w command (wrap_msg (m_identity w) [] msg)).

(** The loop ends when the service has no request or no waiting worker; each round
    takes a request. *)
Fixpoint dispatch_loop (fuel : nat) (n : name_t) : DM unit :=
  match fuel with
  | O => mret tt
  | S fuel =>
      srv ← service_at n;
      match sv_waiting srv, m_requests srv with
      | wrk :: ws, msg :: rs =>
          set_service n (srv <| sv_waiting := ws |> <| m_requests := rs |>) ;;
          worker_send wrk RPC_REQUEST (Some msg) ;;
          cmodify (fun d => d <| m_waiting := filter (fun p => p <> wrk) (m_waiting d) |>) ;;
          dispatch_loop fuel n
      | _, _ => mret tt
      end
  end.

Definition service_dispatch (now : Z) (n : name_t) (msg : option zmsg_t) : DM unit :=
  srv ← service_at n;
  (match msg with Some m => set_service n (srv <| m_requests := m_requests srv ++ [m] |>) | None => mret tt end) ;;
  purge_workers now ;;
  srv ← service_at n;
  dispatch_loop (length (m_requests srv)) n.

Definition worker_require (identity : name_t) : DM nat :=
  assert_ (negb (bool_decide (identity = []))) ;;
  d ← cget;
  match m_workers d !! identity with
  | Some p => mret p
  | None =>
      cmodify (fun d => d <| d_heap := <[d_next d := newWorker identity]> (d_heap d) |>
                         <| m_workers := <[identity := d_next d]> (m_workers d) |>
                         <| d_next := S (d_next d) |>) ;;
      mret (d_next d)
  end.

Definition worker_delete (p : nat) (disconnect : bool) : DM unit :=
  (if disconnect then worker_send p RPC_DISCONNECT None else mret tt) ;;
  w ← worker_at p;
  (match m_service w with
   | Some n =>
       srv ← service_at n;
       set_service n (srv <| sv_waiting := filter (fun q => q <> p) (sv_waiting srv) |>
                          <| m_numWorkers := u64 (m_numWorkers srv - 1) |>)
   | None => mret tt
   end) ;;
  cmodify (fun d => d <| m_waiting := filter (fun q => q <> p) (m_waiting d) |>
                     <| m_workers := delete (m_identity w) (m_workers d) |>
                     <| d_heap := delete p (d_heap d) |>).

Definition worker_waiting (now : Z) (p : nat) : DM unit :=
  cmodify (fun d => d <| m_waiting := m_waiting d ++ [p] |>) ;;
  w ← worker_at p;
  n ← deref NullDeref (m_service w);
  srv ← service_at n;
  set_service n (srv <| sv_waiting := sv_waiting srv ++ [p] |>) ;;
  set_worker p (worker_setExpired now HEARTBEAT_EXPIRY w) ;;
  service_dispatch now n None.

(** [RPC_REGISTER] of a worker that is not known yet. *)
Definition worker_attach (now : Z) (p : nat) (service_name : name_t) : DM unit :=
  n ← getService service_name;
  w ← worker_at p;
  set_worker p (w <| m_service := Some n |>) ;;
  srv ← service_at n;
  set_service n (srv <| m_numWorkers := u64 (m_numWorkers srv + 1) |>) ;;
  worker_waiting now p.

(** [RPC_REPLY]: the client's envelope comes off, the header and the name of the service
    go in front of the body. *)
Definition worker_reply (now : Z) (p : nat) (msg : zmsg_t) : DM unit :=
  let '(frame, msg) := zmsg_unwrap msg in
  client ← deref NullDeref frame;
  w ← worker_at p;
  n ← deref NullDeref (m_service w);
  srv ← service_at n;
  let msg := pushstr (m_name srv) msg in
  let msg := pushstr RPC_CLIENT msg in
  cemit (ToClient (wrap_msg client [] msg)) ;;
  worker_waiting now p.

Definition worker_process (now : Z) (sender : name_t) (msg : zmsg_t) : DM unit :=
  assert_ (1 <=? zmsg_size msg)%nat ;;
  let '(frame, msg) := zmsg_pop msg in
  frame ← deref NullDeref frame;
  assert_ (length frame =? 1)%nat ;;
  d ← cget;
  let worker_ready := bool_decide (is_Some (m_workers d !! sender)) in
  wrk ← worker_require sender;
  match command_of (default 0 (head frame)) with
  | Some RPC_REGISTER =>
      if worker_ready then worker_delete wrk true
      else worker_attach now wrk (fst (popstr msg))
  | Some RPC_REPLY =>
      if worker_ready then worker_reply now wrk msg else worker_delete wrk true
  | Some RPC_HEARTBEAT =>
      if worker_ready then w ← worker_at wrk; set_worker wrk (worker_setExpired now HEARTBEAT_EXPIRY w)
      else worker_delete wrk true
  | Some RPC_DISCONNECT => worker_delete wrk false
  | _ => mret tt
  end.

Definition sendErrorResponse (reqMsg : zmsg_t) (srvId : name_t) (errorCode : RpcResult) (errorMsg : list Z) : DM unit :=
  let '(client, reqMsg) := zmsg_unwrap reqMsg in
  client ← deref NullDeref client;
  let '(frame, reqMsg) := zmsg_next reqMsg in
  frame ← deref NullDeref frame;
  cmdId ← deref Overread (head frame);
  let responseMsg := zmsg_push [cmdId] zmsg_new in
  let responseMsg := addint (result_code errorCode) responseMsg in
  let responseMsg := addstr errorMsg responseMsg in
  let responseMsg := pushstr srvId responseMsg in
  let responseMsg := pushstr RPC_CLIENT responseMsg in
  cemit (ToClient (wrap_msg client [] responseMsg)).

Definition client_process (now : Z) (sender : name_t) (msg : zmsg_t) : DM unit :=
  assert_ (2 <=? zmsg_size msg)%nat ;;
  let '(service_name, msg) := popstr msg in
  srv ← findService service_name;
  let msg := wrap_msg sender [] msg in
  match srv with
  | None => sendErrorResponse msg service_name RPC_INVALID_SERVICE_ID []
  | Some n => service_dispatch now n (Some msg)
  end.

(** ** The main loop *)
Inductive zmq_errno : Set := ETERM | EINTR | EOther.

(** What [zmq::poll] reports in one round. *)
Inductive poll_t : Type :=
| PollIn (m : zmsg_t)
| PollTimeout
| PollError (e : zmq_errno).

Definition process_input (now : Z) (msg : zmsg_t) : DM unit :=
  let '(sender, msg) := popstr msg in
  let '(_, msg) := popstr msg in
  let '(header, msg) := popstr msg in
  if bool_decide (header = RPC_CLIENT) then client_process now sender msg
  else if bool_decide (header = RPC_WORKER) then worker_process now sender msg
  else mret tt.

Fixpoint heartbeats (ws : list nat) : DM unit :=
  match ws with
  | [] => mret tt
  | p :: ws => worker_send p RPC_HEARTBEAT None ;; heartbeats ws
  end.

(** [now]: while the input is processed; [now2]: at the check of the heartbeat. *)
Definition run_round (now now2 : Z) (p : poll_t) : DM unit :=
  match p with
  | PollError ETERM => cmodify (fun d => d <| m_done := true |>)
  | PollError _ => mret tt
  | _ =>
      (match p with PollIn m => process_input now m | _ => mret tt end) ;;
      d ← cget;
      if m_heartbeat_at d <? now2 then
        purge_workers now2 ;;
        d ← cget;
        heartbeats (m_waiting d) ;;
        setExpired now2 HEARTBEAT_INTERVAL
      else mret tt
  end.

(** ** The destructor

    Each service deletes the workers that wait for it; the other objects stay behind. *)
Fixpoint delete_workers (ws : list nat) : DM unit :=
  match ws with
  | [] => mret tt
  | p :: ws => worker_at p ;; cmodify (fun d => d <| d_heap := delete p (d_heap d) |>) ;; delete_workers ws
  end.

Fixpoint delete_services (ss : list service) : DM unit :=
  match ss with [] => mret tt | s :: ss => delete_workers (sv_waiting s) ;; delete_services ss end.

Definition destroy : DM unit :=
  cmodify (fun d => d <| m_waiting := [] |>) ;;
  d ← cget;
  delete_services (snd <$> map_to_list (m_services d)) ;;
  cmodify (fun d => d <| m_services := ∅ |> <| m_workers := ∅ |>).

(** ** Histories *)
Inductive disp_op : Type :=
| OpRound (now now2 : Z) (p : poll_t)
| OpGetService (name : name_t)
| OpCancel
| OpBind (endpoint : list Z).

Definition exec (o : disp_op) : DM unit :=
  match o with
  | OpRound now now2 p => run_round now now2 p
  | OpGetService name => getService name ;; mret tt
  | OpCancel => cancel
  | OpBind e => bind_endpoint e
  end.

(** A crash ends the process. *)
Inductive disp_reachable : RpcDispatcherBase -> Prop :=
| disp_new now : disp_reachable (newRpcDispatcherBase now)
| disp_exec o d d' evs : disp_reachable d -> exec o d = (d', evs, inr tt) -> disp_reachable d'.

(** ** The invariant

    It looks at the workers through their identities and services, which the clock does
    not touch. *)
Definition view (d : RpcDispatcherBase) : gmap nat (name_t * option name_t) :=
  (fun w => (m_identity w, m_service w)) <$> d_heap d.

Definition serves (V : gmap nat (name_t * option name_t)) (n : name_t) (p : nat) : Prop :=
  exists id, V !! p = Some (id, Some n).

(** How many workers there are for a service. *)
Definition workers_of (V : gmap nat (name_t * option name_t)) (n : name_t) : nat :=
  size (filter (fun '(_, (_, s)) => s = Some n) V).

Definition service_ok (V : gmap nat (name_t * option name_t)) (n : name_t) (s : service) : Prop :=
  n <> [] /\ m_name s = n /\ Forall (serves V n) (sv_waiting s) /\ m_numWorkers s = u64 (Z.of_nat (workers_of V n)).

(** A service does not keep requests while it has a worker waiting. *)
Definition not_idle (s : service) : Prop := sv_waiting s = [] \/ m_requests s = [].

Record disp_inv (d : RpcDispatcherBase) : Prop := {
  di_workers id p : m_workers d !! id = Some p -> exists s, view d !! p = Some (id, s);
  di_heap p id s : view d !! p = Some (id, s) -> m_workers d !! id = Some p;
  di_waiting : Forall (fun p => exists n, serves (view d) n p) (m_waiting d);
  di_services n s : m_services d !! n = Some s -> service_ok (view d) n s;
  di_known p n : serves (view d) n p -> is_Some (m_services d !! n);
  di_next p : is_Some (view d !! p) -> (p < d_next d)%nat
}.

(** Work is not left lying, except at the service in [b]. *)
Definition busy (b : name_t -> Prop) (d : RpcDispatcherBase) : Prop :=
  forall n s, m_services d !! n = Some s -> ~ b n -> not_idle s.

(** ** Specifications

    Assertions about the events since the start and the state. *)
Notation asn := (list disp_event -> RpcDispatcherBase -> Prop).

(** Reading an object that is there. *)
Lemma h_worker_at {B} C P p (k : worker -> DM B) Q :
  (forall tr d, P tr d -> is_Some (d_heap d !! p)) ->
  (forall w, hoare (fun tr d => P tr d /\ d_heap d !! p = Some w) C (k w) Q) -> hoare P C (worker_at p ≫= k) Q.
Proof.
  intros Hs Hk tr d HP. destruct (Hs tr d HP) as [w Hw]. unfold worker_at, mbind, CM_bind, cget. rewrite Hw. cbn.
  specialize (Hk w tr d (conj HP Hw)). by destruct (k w d) as [[d2 t2] [c|b]].
Qed.

Lemma h_service_at {B} C P n (k : service -> DM B) Q :
  (forall tr d, P tr d -> is_Some (m_services d !! n)) ->
  (forall s, hoare (fun tr d => P tr d /\ m_services d !! n = Some s) C (k s) Q) -> hoare P C (service_at n ≫= k) Q.
Proof.
  intros Hs Hk tr d HP. destruct (Hs tr d HP) as [s Hw]. unfold service_at, mbind, CM_bind, cget. rewrite Hw. cbn.
  specialize (Hk s tr d (conj HP Hw)). by destruct (k s d) as [[d2 t2] [c|b]].
Qed.
(** ** Counting workers *)
Implicit Types (V : gmap nat (name_t * option name_t)) (n : name_t).

Lemma workers_of_new V p id n : V !! p = None -> workers_of (<[p := (id, None)]> V) n = workers_of V n.
Proof. intros Hp. unfold workers_of. rewrite map_filter_insert_not'; [done|done|]. intros y Hy. by rewrite Hp in Hy. Qed.

Lemma workers_of_attach V p id n n' : V !! p = Some (id, None) ->
  workers_of (<[p := (id, Some n)]> V) n' = ((if decide (n = n') then 1 else 0) + workers_of V n')%nat.
Proof.
  intros Hp. unfold workers_of. case_decide as Hn.
  - subst n'. rewrite map_filter_insert_True by done. rewrite map_size_insert_None; [done|].
    apply map_lookup_filter_None. right. intros x Hx. rewrite Hp in Hx. by injection Hx as <-.
  - rewrite map_filter_insert_not'; [done|by intros [= ->]|]. intros y Hy. rewrite Hp in Hy. by injection Hy as <-.
Qed.

Lemma workers_of_delete V p id s n : V !! p = Some (id, s) ->
  workers_of V n = ((if decide (s = Some n) then 1 else 0) + workers_of (delete p V) n)%nat.
Proof.
  intros Hp. rewrite <- (insert_delete_id V p (id, s) Hp) at 1. unfold workers_of. case_decide as Hs.
  - subst s. rewrite map_filter_insert_True by done. rewrite map_size_insert_None; [done|].
    apply map_lookup_filter_None. left. apply lookup_delete_eq.
  - rewrite map_filter_insert_not'; [done|done|]. intros y Hy. by rewrite lookup_delete_eq in Hy.
Qed.

(** ** Preservation of the invariant, state by state *)
Lemma view_lookup d p id s : view d !! p = Some (id, s) <->
  exists w, d_heap d !! p = Some w /\ m_identity w = id /\ m_service w = s.
Proof.
  unfold view. rewrite lookup_fmap, fmap_Some. split.
  - intros (w & Hw & [= -> ->]). by exists w.
  - intros (w & Hw & <- & <-). by exists w.
Qed.

Lemma view_insert d p w : view (d <| d_heap := <[p := w]> (d_heap d) |>) = <[p := (m_identity w, m_service w)]> (view d).
Proof. exact (fmap_insert (fun w => (m_identity w, m_service w)) (d_heap d) p w). Qed.

Lemma view_same d p w w' : d_heap d !! p = Some w -> m_identity w' = m_identity w -> m_service w' = m_service w ->
  view (d <| d_heap := <[p := w']> (d_heap d) |>) = view d.
Proof. intros Hw Hi Hs. rewrite view_insert, Hi, Hs. apply insert_id. apply view_lookup. eauto. Qed.

Lemma worker_there d n p : serves (view d) n p -> exists w, d_heap d !! p = Some w /\ m_service w = Some n.
Proof. intros [id Hp]. apply view_lookup in Hp as (w & ? & _ & ?). eauto. Qed.

(** Everything but the services, the waiting list, the clock and the heap's other fields. *)
Lemma inv_same_view d d' : view d' = view d -> m_workers d' = m_workers d -> m_services d' = m_services d ->
  m_waiting d' = m_waiting d -> d_next d' = d_next d -> disp_inv d -> disp_inv d'.
Proof. intros Hv Hw Hs Hq Hn [H1 H2 H3 H4 H5 H6]. split; rewrite ?Hv, ?Hw, ?Hs, ?Hq, ?Hn; auto. Qed.

Lemma inv_set_worker d p w w' : d_heap d !! p = Some w -> m_identity w' = m_identity w -> m_service w' = m_service w ->
  disp_inv d -> disp_inv (d <| d_heap := <[p := w']> (d_heap d) |>).
Proof. intros Hw Hi Hs. apply inv_same_view; [by eapply view_same|done..]. Qed.

Lemma inv_set_waiting d ws : Forall (fun p => exists n, serves (view d) n p) ws -> disp_inv d -> disp_inv (d <| m_waiting := ws |>).
Proof. intros Hw [H1 H2 H3 H4 H5 H6]. by split. Qed.

Lemma inv_set_service d n s : service_ok (view d) n s -> disp_inv d -> disp_inv (d <| m_services := <[n := s]> (m_services d) |>).
Proof.
  intros Hs [H1 H2 H3 H4 H5 H6]. split; [done..| | |done].
  - intros n' s' Hn. change (m_services _) with (<[n := s]> (m_services d)) in Hn.
    apply lookup_insert_Some in Hn as [[<- <-]|[? Hn]]; [done|by apply H4].
  - intros p n' Hp. apply lookup_insert_is_Some'. right. by apply (H5 p).
Qed.

Lemma serves_insert V p x n q : V !! p = None -> serves V n q -> serves (<[p := x]> V) n q.
Proof. intros Hp [id Hq]. exists id. rewrite lookup_insert_ne by congruence. done. Qed.

Lemma inv_new_worker d identity : identity <> [] -> m_workers d !! identity = None -> disp_inv d ->
  disp_inv (d <| d_heap := <[d_next d := newWorker identity]> (d_heap d) |>
              <| m_workers := <[identity := d_next d]> (m_workers d) |> <| d_next := S (d_next d) |>).
Proof.
  intros Hne Hid [H1 H2 H3 H4 H5 H6].
  assert (view d !! d_next d = None) as Hf by (apply eq_None_not_Some; intros Hs%H6; lia).
  set (V := view d) in *. assert (view (d <| d_heap := <[d_next d := newWorker identity]> (d_heap d) |>
    <| m_workers := <[identity := d_next d]> (m_workers d) |> <| d_next := S (d_next d) |>) =
    <[d_next d := (identity, None)]> V) as Hv by exact (view_insert d (d_next d) (newWorker identity)).
  split; rewrite ?Hv.
  - intros id p Hp. change (m_workers _) with (<[identity := d_next d]> (m_workers d)) in Hp.
    apply lookup_insert_Some in Hp as [[<- <-]|[Hne' Hp]]; [rewrite lookup_insert_eq; eauto|].
    destruct (H1 id p Hp) as [s Hs]. exists s. rewrite lookup_insert_ne; [done|]. intros <-. by rewrite Hf in Hs.
  - intros p id s Hp. change (m_workers _) with (<[identity := d_next d]> (m_workers d)).
    apply lookup_insert_Some in Hp as [[<- [= <- <-]]|[Hne' Hp]]; [apply lookup_insert_eq|].
    rewrite lookup_insert_ne; [by eapply H2|]. intros <-. apply H2 in Hp. congruence.
  - eapply Forall_impl; [exact H3|]. intros p [n Hn]. exists n. by apply serves_insert.
  - intros n s Hs. destruct (H4 n s Hs) as (S1 & S2 & S3 & S4). split_and!; [done..| |].
    + eapply Forall_impl; [exact S3|]. intros p Hp. by apply serves_insert.
    + by rewrite workers_of_new.
  - intros p n [id Hp]. apply lookup_insert_Some in Hp as [[_ ?]|[_ Hp]]; [done|]. apply (H5 p). by exists id.
  - intros p [x Hx]. change (d_next _) with (S (d_next d)). apply lookup_insert_Some in Hx as [[<- _]|[_ Hx]]; [lia|].
    assert (p < d_next d)%nat by (apply H6; eauto). lia.
Qed.

Lemma u64_succ c : u64 (u64 c + 1) = u64 (c + 1).
Proof. unfold u64, wrap. by rewrite Z.add_mod_idemp_l. Qed.
Lemma u64_pred c : u64 (u64 c - 1) = u64 (c - 1).
Proof. unfold u64, wrap. by rewrite Zminus_mod_idemp_l. Qed.

Lemma inv_new_service d n : n <> [] -> m_services d !! n = None -> disp_inv d ->
  disp_inv (d <| m_services := <[n := mkService n [] [] 0]> (m_services d) |>).
Proof.
  intros Hn Hs Hi. apply inv_set_service; [|done]. split_and!; [done..|constructor|]. cbn [m_numWorkers].
  assert (workers_of (view d) n = 0%nat) as ->; [|done].
  unfold workers_of. apply map_size_empty_iff, map_empty. intros p. apply map_lookup_filter_None. right. intros [id s] Hp ->.
  destruct (di_known d Hi p n) as [s Hs']; [by exists id|congruence].
Qed.

(** The state after [worker_attach] has linked worker and service. *)
Definition attached (d : RpcDispatcherBase) (p : nat) (w : worker) (n : name_t) (s : service) : RpcDispatcherBase :=
  d <| d_heap := <[p := w <| m_service := Some n |>]> (d_heap d) |>
    <| m_services := <[n := s <| m_numWorkers := u64 (m_numWorkers s + 1) |>]> (m_services d) |>.

Lemma attached_view d p w n s : view (attached d p w n s) = <[p := (m_identity w, Some n)]> (view d).
Proof. exact (view_insert d p (w <| m_service := Some n |>)). Qed.

Lemma inv_attach d p w n s : d_heap d !! p = Some w -> m_service w = None -> m_services d !! n = Some s -> disp_inv d ->
  disp_inv (attached d p w n s).
Proof.
  intros Hw Hws Hs [H1 H2 H3 H4 H5 H6]. set (V := view d) in *.
  assert (V !! p = Some (m_identity w, None)) as Hp by (apply view_lookup; eauto).
  assert (Hsv : forall n' q, serves V n' q -> serves (<[p := (m_identity w, Some n)]> V) n' q).
  { intros n' q [id Hq]. exists id. rewrite lookup_insert_ne; [done|]. intros <-. congruence. }
  split; rewrite ?attached_view; fold V.
  - intros id q Hq. destruct (H1 id q Hq) as [s' Hs']. destruct (decide (p = q)) as [<-|Hne].
    + rewrite lookup_insert_eq. exists (Some n). congruence.
    + rewrite lookup_insert_ne by done. eauto.
  - intros q id s' Hq. apply lookup_insert_Some in Hq as [[<- [= <- <-]]|[_ Hq]]; [|by eapply H2].
    by eapply H2.
  - eapply Forall_impl; [exact H3|]. intros q [n' Hn']. exists n'. by apply Hsv.
  - intros n' s' Hn'. change (m_services (attached d p w n s)) with
      (<[n := s <| m_numWorkers := u64 (m_numWorkers s + 1) |>]> (m_services d)) in Hn'.
    assert (service_ok V n s) as (S1 & S2 & S3 & S4) by by apply H4.
    apply lookup_insert_Some in Hn' as [[<- <-]|[Hne Hn']].
    + split_and!; [done..| |].
      * eapply Forall_impl; [exact S3|]. intros q. apply Hsv.
      * change (u64 (m_numWorkers s + 1) = u64 (Z.of_nat (workers_of (<[p := (m_identity w, Some n)]> V) n))).
        rewrite (workers_of_attach _ _ _ _ _ Hp), S4, u64_succ. rewrite decide_True by done. f_equal. lia.
    + destruct (H4 n' s' Hn') as (T1 & T2 & T3 & T4). split_and!; [done..| |].
      * eapply Forall_impl; [exact T3|]. intros q. apply Hsv.
      * by rewrite (workers_of_attach _ _ _ _ _ Hp), decide_False by done.
  - intros q n' [id Hq]. change (m_services (attached d p w n s)) with
      (<[n := s <| m_numWorkers := u64 (m_numWorkers s + 1) |>]> (m_services d)).
    apply lookup_insert_is_Some. apply lookup_insert_Some in Hq as [[<- [= <- <-]]|[_ Hq]]; [by left|].
    destruct (decide (n = n')); [by left|right]. split; [done|]. apply (H5 q). by exists id.
  - intros q [x Hx]. apply H6. apply lookup_insert_Some in Hx as [[<- _]|[_ Hx]]; eauto.
Qed.

(** The state after [worker_delete]: [S] are the services without the worker. *)
Definition detach (d : RpcDispatcherBase) (p : nat) (w : worker) : gmap name_t service :=
  match m_service w with
  | Some n => match m_services d !! n with
              | Some srv => <[n := srv <| sv_waiting := filter (fun q => q <> p) (sv_waiting srv) |>
                                       <| m_numWorkers := u64 (m_numWorkers srv - 1) |>]> (m_services d)
              | None => m_services d
              end
  | None => m_services d
  end.
Definition deleted (d : RpcDispatcherBase) (p : nat) (w : worker) : RpcDispatcherBase :=
  d <| m_services := detach d p w |> <| m_waiting := filter (fun q => q <> p) (m_waiting d) |>
    <| m_workers := delete (m_identity w) (m_workers d) |> <| d_heap := delete p (d_heap d) |>.

Lemma deleted_view d p w : view (deleted d p w) = delete p (view d).
Proof. exact (fmap_delete (fun w => (m_identity w, m_service w)) (d_heap d) p). Qed.

Lemma detach_lookup d p w n s' : disp_inv d -> d_heap d !! p = Some w -> detach d p w !! n = Some s' ->
  exists s, m_services d !! n = Some s /\ m_name s' = m_name s /\ m_requests s' = m_requests s /\
    sv_waiting s' = (if decide (m_service w = Some n) then filter (fun q => q <> p) (sv_waiting s) else sv_waiting s) /\
    m_numWorkers s' = if decide (m_service w = Some n) then u64 (m_numWorkers s - 1) else m_numWorkers s.
Proof.
  intros Hi Hw Hn. unfold detach in Hn. destruct (m_service w) as [n0|] eqn:Es.
  - assert (serves (view d) n0 p) as Hp by (exists (m_identity w); apply view_lookup; eauto).
    destruct (di_known d Hi _ _ Hp) as [srv Hsrv]. rewrite Hsrv in Hn.
    apply lookup_insert_Some in Hn as [[<- <-]|[Hne Hn]].
    + exists srv. rewrite !decide_True by done. done.
    + exists s'. rewrite !decide_False by congruence. done.
  - exists s'. rewrite !decide_False by done. done.
Qed.

Lemma detach_is_Some d p w n : is_Some (m_services d !! n) -> is_Some (detach d p w !! n).
Proof.
  intros Hs. unfold detach. destruct (m_service w) as [n0|]; [|done]. destruct (m_services d !! n0); [|done].
  apply lookup_insert_is_Some'. by right.
Qed.

Lemma inv_deleted d p w : d_heap d !! p = Some w -> disp_inv d -> disp_inv (deleted d p w).
Proof.
  intros Hw Hi. pose proof Hi as [H1 H2 H3 H4 H5 H6].
  assert (view d !! p = Some (m_identity w, m_service w)) as Hp by (apply view_lookup; eauto).
  assert (Hsv : forall n q, q <> p -> serves (view d) n q -> serves (delete p (view d)) n q).
  { intros n q Hne [id Hq]. exists id. by rewrite lookup_delete_ne. }
  split; rewrite ?deleted_view.
  - intros id q Hq. change (m_workers (deleted d p w)) with (delete (m_identity w) (m_workers d)) in Hq.
    apply lookup_delete_Some in Hq as [Hne Hq]. destruct (H1 id q Hq) as [s Hs]. exists s. rewrite lookup_delete_ne; [done|].
    intros <-. congruence.
  - intros q id s Hq. apply lookup_delete_Some in Hq as [Hne Hq].
    change (m_workers (deleted d p w)) with (delete (m_identity w) (m_workers d)).
    rewrite lookup_delete_ne; [by eapply H2|]. intros Heq. apply H2 in Hp, Hq. congruence.
  - change (m_waiting (deleted d p w)) with (filter (fun q => q <> p) (m_waiting d)). apply Forall_forall. intros q Hq.
    apply list_elem_of_filter in Hq as [Hne Hq]. rewrite Forall_forall in H3. destruct (H3 q Hq) as [n Hn]. exists n. by apply Hsv.
  - intros n s' Hn. destruct (detach_lookup d p w n s' Hi Hw Hn) as (s & Hs & E1 & E2 & E3 & E4).
    destruct (H4 n s Hs) as (S1 & S2 & S3 & S4). split_and!; [done|congruence| |].
    + rewrite E3. apply Forall_forall. intros q Hq. rewrite Forall_forall in S3. case_decide as Hd.
      * apply list_elem_of_filter in Hq as [Hne Hq]. by apply Hsv, S3.
      * apply Hsv; [|by apply S3]. intros ->. destruct (S3 p Hq) as [id Hid]. congruence.
    + rewrite E4. pose proof (workers_of_delete _ _ _ _ n Hp) as Hc. rewrite S4. case_decide as Hd.
      * rewrite u64_pred, Hc. f_equal. lia.
      * by rewrite Hc.
  - intros q n [id Hq]. apply lookup_delete_Some in Hq as [_ Hq]. apply detach_is_Some. apply (H5 q). by exists id.
  - intros q [x Hx]. apply H6. apply lookup_delete_Some in Hx as [_ Hx]. eauto.
Qed.

(** ** Requests

    What a service keeps for its workers, and what workers got as requests for it. *)
Context {L : CZMQ_laws zmsg_t}.

Definition pending (d : RpcDispatcherBase) (n : name_t) : list (list zframe_t) :=
  map frames (default [] (m_requests <$> m_services d !! n)).

(** The body of a request behind the envelope to the worker. *)
Definition dispatched1 (n : name_t) (e : disp_event) : list (list zframe_t) :=
  match e with
  | ToWorker w RPC_REQUEST m => if decide (m_service w = Some n) then [drop 4 (frames m)] else []
  | _ => []
  end.
Definition dispatched (n : name_t) (tr : list disp_event) : list (list zframe_t) := concat (map (dispatched1 n) tr).

Lemma dispatched_app n t1 t2 : dispatched n (t1 ++ t2) = dispatched n t1 ++ dispatched n t2.
Proof. unfold dispatched. by rewrite map_app, concat_app. Qed.

Definition worker_msg (w : worker) (command : RpcCommands) (msg : option zmsg_t) : zmsg_t :=
  wrap_msg (m_identity w) [] (pushstr RPC_WORKER (zmsg_push [u8 (command_code command)] (default zmsg_new msg))).

Lemma frames_worker_msg w c msg :
  frames (worker_msg w c msg) = m_identity w :: [] :: RPC_WORKER :: [command_code c] :: frames (default zmsg_new msg).
Proof. unfold worker_msg. rewrite frames_wrap_msg, frames_pushstr, frames_push. by destruct c. Qed.

(** [A n]: all requests that service [n] was given since the start of the trace. *)
Definition good (A : name_t -> list (list zframe_t)) (b : name_t -> Prop) : asn := fun tr d =>
  disp_inv d /\ busy b d /\ forall n, A n = dispatched n tr ++ pending d n.

Definition nobody : name_t -> Prop := fun _ => False.

Section Specs.
Context (C : crash -> Prop).

(** An assertion that looks at workers through [view] only. *)
Definition blind (P : asn) : Prop := forall tr d p w w', P tr d -> d_heap d !! p = Some w ->
  m_identity w' = m_identity w -> m_service w' = m_service w -> P tr (d <| d_heap := <[p := w']> (d_heap d) |>).

Lemma good_blind A b : blind (good A b).
Proof. intros tr d p w w' (H1 & H2 & H3) Hw Hi Hs. split_and!; [by eapply inv_set_worker|done|done]. Qed.

Lemma h_set_worker P p w w' : blind P -> m_identity w' = m_identity w -> m_service w' = m_service w ->
  hoare (fun tr d => P tr d /\ d_heap d !! p = Some w) C (set_worker p w') (fun _ => P).
Proof. intros HP Hi Hs. apply h_modify. intros tr d [Hd Hw]. by apply (HP tr d p w w'). Qed.

Definition live (ws : list nat) : asn := fun _ d => Forall (fun p => is_Some (view d !! p)) ws.

Lemma live_blind ws : blind (live ws).
Proof. intros tr d p w w' Hl Hw Hi Hs. unfold live. by rewrite (view_same d p w w'). Qed.

Lemma blind_and P Q : blind P -> blind Q -> blind (fun tr d => P tr d /\ Q tr d).
Proof. intros HP HQ tr d p w w' [H1 H2] Hw Hi Hs. eauto. Qed.

Lemma isExpired_same now w : m_identity (snd (isExpired now w)) = m_identity w /\ m_service (snd (isExpired now w)) = m_service w.
Proof. unfold isExpired. cbn. by repeat case_match. Qed.

Lemma setExpired_same now o w :
  m_identity (worker_setExpired now o w) = m_identity w /\ m_service (worker_setExpired now o w) = m_service w.
Proof. unfold worker_setExpired. by case_match. Qed.

Lemma h_purge_loop P now ws : blind P -> hoare (fun tr d => P tr d /\ live ws tr d) C (purge_loop now ws) (fun _ => P).
Proof.
  intros HP. induction ws as [|p ws IH]; cbn [purge_loop]; [apply h_ret; by intros tr d [? _]|].
  apply h_worker_at.
  - intros tr d [_ Hl]. apply Forall_cons in Hl as [[x Hx] _]. destruct x as [id s]. apply view_lookup in Hx as (w & ? & _). eauto.
  - intros w. destruct (isExpired_same now w) as [Hi Hs]. apply (h_bind C _ _ _ (fun _ tr d => P tr d /\ live ws tr d)).
    + eapply h_pre; [|apply (h_set_worker (fun tr d => P tr d /\ live ws tr d) p w)]; [|by apply blind_and, live_blind|done..].
      intros tr d [[H1 H2] H3]. apply Forall_cons in H2 as [_ H2]. done.
    + intros []. case_match; [exact IH|]. apply h_ret. by intros tr d [? _].
Qed.

Lemma h_purge P now : blind P -> (forall tr d, P tr d -> disp_inv d) -> hoare P C (purge_workers now) (fun _ => P).
Proof.
  intros HP Hi. apply h_get. intros d0. eapply h_pre; [|by apply h_purge_loop].
  intros tr d [H1 ->]. split; [done|]. unfold live. eapply Forall_impl; [apply (di_waiting _ (Hi _ _ H1))|].
  intros p (n & id & Hp). eauto.
Qed.

Lemma h_worker_send P p c msg : (forall tr d, P tr d -> is_Some (d_heap d !! p)) ->
  hoare P C (worker_send p c msg)
    (fun _ tr d => exists tr0 w, P tr0 d /\ d_heap d !! p = Some w /\ tr = tr0 ++ [ToWorker w c (worker_msg w c msg)]).
Proof. intros HP. apply h_worker_at; [done|]. intros w. apply h_emit. intros tr d [H1 H2]. by exists tr, w. Qed.

(** Other commands than requests do not count as dispatched. *)
Lemma good_emit A b tr d e : (forall n, dispatched1 n e = []) -> good A b tr d -> good A b (tr ++ [e]) d.
Proof.
  intros He (H1 & H2 & H3). split_and!; [done..|]. intros n. rewrite dispatched_app. unfold dispatched at 2. cbn [map concat].
  by rewrite He, app_nil_r.
Qed.

(** Changing a service's queues. *)
Lemma good_set_service A b n s s' tr d : m_services d !! n = Some s -> service_ok (view d) n s' -> (b n \/ not_idle s') ->
  m_requests s' = m_requests s -> good A b tr d -> good A b tr (d <| m_services := <[n := s']> (m_services d) |>).
Proof.
  intros Hs Hok Hb Hr (H1 & H2 & H3). split_and!; [by apply inv_set_service| |].
  - intros n' s0 Hn Hnb. change (m_services _) with (<[n := s']> (m_services d)) in Hn.
    apply lookup_insert_Some in Hn as [[<- <-]|[_ Hn]]; [by destruct Hb|by eapply H2].
  - intros n'. rewrite H3. f_equal. unfold pending. change (m_services (_ <| m_services := _ |>)) with (<[n := s']> (m_services d)).
    destruct (decide (n = n')) as [<-|Hne]; [|by rewrite lookup_insert_ne]. rewrite lookup_insert_eq, Hs. cbn. by rewrite Hr.
Qed.

Lemma busy_weaken (b b' : name_t -> Prop) d : (forall n, b n -> b' n) -> busy b d -> busy b' d.
Proof. intros Hb H1 n s Hn Hnb. apply (H1 n s Hn). auto. Qed.

(** One round of the loop takes the oldest request to the worker that waits longest. *)
Lemma dispatch_round {B} A n s wrk ws msg rs (k : DM B) Q :
  sv_waiting s = wrk :: ws -> m_requests s = msg :: rs ->
  hoare (fun tr d => good A (eq n) tr d /\ m_services d !! n = Some (s <| sv_waiting := ws |> <| m_requests := rs |>)) C k Q ->
  hoare (fun tr d => good A (eq n) tr d /\ m_services d !! n = Some s) C
    (set_service n (s <| sv_waiting := ws |> <| m_requests := rs |>) ;;
     worker_send wrk RPC_REQUEST (Some msg) ;;
     cmodify (fun d => d <| m_waiting := filter (fun p => p <> wrk) (m_waiting d) |>) ;; k) Q.
Proof.
  intros Hw Hr Hk. set (s' := s <| sv_waiting := ws |> <| m_requests := rs |>) in *.
  apply (h_bind C _ _ _ (fun _ tr d => exists d0, good A (eq n) tr d0 /\ m_services d0 !! n = Some s /\
    d = d0 <| m_services := <[n := s']> (m_services d0) |>)).
  { apply h_modify. intros tr d [Hg Hs]. by exists d. }
  intros []. apply (h_bind C _ _ _ (fun _ tr d => exists tr0 d0 w, good A (eq n) tr0 d0 /\ m_services d0 !! n = Some s /\
    d = d0 <| m_services := <[n := s']> (m_services d0) |> /\ m_service w = Some n /\
    tr = tr0 ++ [ToWorker w RPC_REQUEST (worker_msg w RPC_REQUEST (Some msg))])).
  { assert (Hlive : forall tr d0, good A (eq n) tr d0 -> m_services d0 !! n = Some s ->
      exists w, d_heap d0 !! wrk = Some w /\ m_service w = Some n).
    { intros tr d0 (Hi & _) Hs. destruct (di_services _ Hi _ _ Hs) as (_ & _ & Hv & _). rewrite Hw in Hv.
      apply Forall_cons in Hv as [Hv _]. by apply worker_there. }
    eapply h_post; [apply h_worker_send|].
    - intros tr d (d0 & Hg & Hs & ->). destruct (Hlive tr d0 Hg Hs) as (w & Hww & _). eauto.
    - intros [] tr d (tr0 & w & (d0 & Hg & Hs & ->) & Hww & ->). destruct (Hlive tr0 d0 Hg Hs) as (w' & Hw' & Hsv).
      exists tr0, d0, w. split_and!; [done..| |done]. change (d_heap d0 !! wrk = Some w) in Hww. congruence. }
  intros []. apply (h_bind C _ _ _ (fun _ tr d => good A (eq n) tr d /\ m_services d !! n = Some s')); [|done].
  apply h_modify. intros tr d (tr0 & d0 & w & (Hi & Hb & Hf) & Hs & -> & Hsv & ->).
  split; [|exact (lookup_insert_eq _ _ _)]. destruct (di_services _ Hi _ _ Hs) as (S1 & S2 & S3 & S4). split_and!.
  - apply inv_set_waiting.
    + apply Forall_forall. intros q [_ Hq]%list_elem_of_filter.
      pose proof (di_waiting _ Hi) as Hd. rewrite Forall_forall in Hd. by apply Hd.
    + apply inv_set_service; [|done]. split_and!; [done..| |done]. rewrite Hw in S3. by apply Forall_cons in S3 as [_ S3].
  - intros n' s0 Hn Hnb. change (m_services _) with (<[n := s']> (m_services d0)) in Hn.
    apply lookup_insert_Some in Hn as [[? _]|[_ Hn]]; [done|by eapply Hb].
  - intros n'. rewrite dispatched_app, Hf, <- app_assoc. f_equal. unfold pending, dispatched.
    change (m_services (_ <| m_waiting := _ |>)) with (<[n := s']> (m_services d0)). cbn [map concat dispatched1]. rewrite app_nil_r.
    destruct (decide (n = n')) as [<-|Hne].
    + rewrite decide_True, lookup_insert_eq, Hs, frames_worker_msg by done. cbn. by rewrite Hr.
    + by rewrite decide_False, lookup_insert_ne by congruence.
Qed.

Lemma h_dispatch_loop A n fuel :
  hoare (fun tr d => good A (eq n) tr d /\ exists s, m_services d !! n = Some s /\ (length (m_requests s) <= fuel)%nat) C
    (dispatch_loop fuel n) (fun _ => good A nobody).
Proof.
  assert (Hend : forall tr d s, good A (eq n) tr d -> m_services d !! n = Some s -> not_idle s -> good A nobody tr d).
  { intros tr d s (H1 & H2 & H3) Hs Hn. split_and!; [done| |done]. intros n' s' Hs' _.
    destruct (decide (n = n')) as [<-|Hne]; [congruence|by apply (H2 n')]. }
  induction fuel as [|fuel IH]; cbn [dispatch_loop].
  - apply h_ret. intros tr d [Hg (s & Hs & Hl)]. apply (Hend tr d s); [done|done|]. right.
    by apply nil_length_inv, Nat.le_0_r.
  - apply h_service_at; [intros tr d [_ (s & Hs & _)]; eauto|]. intros s.
    eapply (h_pre C _ (fun tr d => (length (m_requests s) <= S fuel)%nat /\ good A (eq n) tr d /\ m_services d !! n = Some s)).
    { intros tr d [[Hg (s' & Hs' & Hl)] Hs]. split_and!; [|done..]. congruence. }
    apply h_pure. intros Hl. destruct (sv_waiting s) as [|wrk ws] eqn:Ew; [|destruct (m_requests s) as [|msg rs] eqn:Er].
    + apply h_ret. intros tr d [Hg Hs]. eapply Hend; [done..|]. by left.
    + apply h_ret. intros tr d [Hg Hs]. eapply Hend; [done..|]. by right.
    + apply dispatch_round; [done..|]. eapply h_pre; [|exact IH]. intros tr d [Hg Hs]. split; [done|].
      eexists. split; [exact Hs|]. cbn in *. lia.
Qed.

(** [A] with one more request for [n]. *)
Definition plus (A : name_t -> list (list zframe_t)) (n : name_t) (r : list (list zframe_t)) (n' : name_t) :
    list (list zframe_t) := A n' ++ (if decide (n = n') then r else []).

Lemma h_service_dispatch A now n msg :
  hoare (fun tr d => good A (eq n) tr d /\ is_Some (m_services d !! n)) C (service_dispatch now n msg)
    (fun _ => good (plus A n (match msg with Some m => [frames m] | None => [] end)) nobody).
Proof.
  set (A' := plus A n _). apply h_service_at; [by intros tr d [_ ?]|]. intros s.
  apply (h_bind C _ _ _ (fun _ tr d => good A' (eq n) tr d /\ is_Some (m_services d !! n))).
  - destruct msg as [m|].
    + apply h_modify. intros tr d [[(Hi & Hb & Hf) _] Hs]. split; [|eexists; exact (lookup_insert_eq _ _ _)].
      destruct (di_services _ Hi _ _ Hs) as (S1 & S2 & S3 & S4). split_and!.
      * by apply inv_set_service.
      * intros n' s0 Hn Hnb. change (m_services _) with (<[n := s <| m_requests := m_requests s ++ [m] |>]> (m_services d)) in Hn.
        apply lookup_insert_Some in Hn as [[? _]|[_ Hn]]; [done|by eapply Hb].
      * intros n'. unfold A', plus, pending. rewrite Hf, <- app_assoc. f_equal. unfold pending.
        change (m_services (_ <| m_services := _ |>)) with (<[n := s <| m_requests := m_requests s ++ [m] |>]> (m_services d)).
        case_decide as Hd; [subst n'; rewrite lookup_insert_eq, Hs; cbn; by rewrite map_app|].
        by rewrite lookup_insert_ne, app_nil_r by done.
    + apply h_ret. intros tr d [[(Hi & Hb & Hf) Hn] _]. split; [|done]. split_and!; [done..|]. intros n'. unfold A', plus.
      by case_decide; rewrite app_nil_r.
  - intros []. apply (h_bind C _ _ _ (fun _ tr d => good A' (eq n) tr d /\ is_Some (m_services d !! n))).
    + apply h_purge; [|by intros tr d [[? _] _]]. apply blind_and; [apply good_blind|]. by intros tr d p w w' Hs _ _ _.
    + intros []. apply h_service_at; [by intros tr d [_ ?]|]. intros s'. eapply h_pre; [|apply h_dispatch_loop].
      intros tr d [[Hg _] Hs]. split; [done|]. by exists s'.
Qed.

Lemma good_ext A A' b tr d : (forall n, A n = A' n) -> good A b tr d -> good A' b tr d.
Proof. intros HA (H1 & H2 & H3). split_and!; [done..|]. intros n. by rewrite <- HA. Qed.

Lemma plus_nil A n n' : plus A n [] n' = A n'.
Proof. unfold plus. by case_decide; rewrite app_nil_r. Qed.

Lemma h_getService A b (F : gmap nat (name_t * option name_t) -> Prop) name : name <> [] ->
  hoare (fun tr d => good A b tr d /\ F (view d)) C (getService name)
    (fun n tr d => n = name /\ good A b tr d /\ F (view d) /\ is_Some (m_services d !! name)).
Proof.
  intros Hn. unfold getService, findService. rewrite !bool_decide_eq_false_2 by done.
  apply (h_bind C _ _ _ (fun _ tr d => good A b tr d /\ F (view d))); [by apply h_ret|]. intros [].
  apply (h_bind C _ _ _ (fun srv tr d => good A b tr d /\ F (view d) /\
    srv = if decide (is_Some (m_services d !! name)) then Some name else None)).
  { apply (h_bind C _ _ _ (fun _ tr d => good A b tr d /\ F (view d))); [by apply h_ret|]. intros [].
    apply h_get. intros d0. apply h_ret. by intros tr d [[? ?] ->]. }
  intros srv. eapply (h_pre C _ (fun tr d => good A b tr d /\ F (view d) /\
    srv = if decide (is_Some (m_services d !! name)) then Some name else None)); [done|].
  destruct srv as [n|].
  - apply h_ret. intros tr d (Hg & HF & Hs). case_decide as Hd; [|done]. injection Hs as ->. done.
  - apply (h_bind C _ _ _ (fun _ tr d => good A b tr d /\ F (view d) /\ is_Some (m_services d !! name))).
    + apply h_modify. intros tr d ((Hi & Hb & Hf) & HF & Hs). case_decide as Hd; [done|]. apply eq_None_not_Some in Hd.
      split; [|split; [done|eexists; exact (lookup_insert_eq _ _ _)]]. split_and!.
      * by apply inv_new_service.
      * intros n' s0 Hn' Hnb. change (m_services _) with (<[name := mkService name [] [] 0]> (m_services d)) in Hn'.
        apply lookup_insert_Some in Hn' as [[_ <-]|[_ Hn']]; [by left|by eapply Hb].
      * intros n'. rewrite Hf. f_equal. unfold pending.
        change (m_services (_ <| m_services := _ |>)) with (<[name := mkService name [] [] 0]> (m_services d)).
        destruct (decide (name = n')) as [<-|Hne]; [by rewrite lookup_insert_eq, Hd|by rewrite lookup_insert_ne].
    + intros []. apply h_ret. intros tr d (? & ? & ?). done.
Qed.

Lemma h_worker_waiting A n p now :
  hoare (fun tr d => good A nobody tr d /\ serves (view d) n p) C (worker_waiting now p) (fun _ => good A nobody).
Proof.
  apply (h_bind C _ _ _ (fun _ tr d => good A nobody tr d /\ serves (view d) n p)).
  { apply h_modify. intros tr d [(Hi & Hb & Hf) Hp]. split; [|done]. split_and!; [|done|done]. apply inv_set_waiting; [|done].
    apply Forall_app. split; [apply (di_waiting _ Hi)|]. repeat constructor. by exists n. }
  intros []. apply h_worker_at.
  { intros tr d [_ Hp]. apply worker_there in Hp as (w & ? & _). eauto. }
  intros w. eapply (h_pre C _ (fun tr d => m_service w = Some n /\ (good A nobody tr d /\ serves (view d) n p) /\ d_heap d !! p = Some w)).
  { intros tr d [[Hg Hp] Hw]. split; [|done]. apply worker_there in Hp as (w' & ? & ?). congruence. }
  apply h_pure. intros Hs. rewrite Hs. change (deref NullDeref (Some n)) with (mret n : DM name_t).
  apply (h_bind C _ _ _ (fun n' tr d => n' = n /\ (good A nobody tr d /\ serves (view d) n p) /\ d_heap d !! p = Some w));
    [by apply h_ret|]. intros n'. apply h_pure. intros ->.
  apply h_service_at. { intros tr d [[(Hi & _) Hp] _]. by apply (di_known _ Hi p). }
  intros s. set (P := fun tr d => good A (eq n) tr d /\ is_Some (m_services d !! n)).
  assert (HP : blind P) by (apply blind_and; [apply good_blind|by intros tr d q w1 w2 ? _ _ _]).
  apply (h_bind C _ _ _ (fun _ tr d => P tr d /\ d_heap d !! p = Some w)).
  { apply h_modify. intros tr d [[[Hg Hp] Hw] Hsv]. split; [|done]. split; [|eexists; exact (lookup_insert_eq _ _ _)].
    destruct Hg as (Hi & Hb & Hf). destruct (di_services _ Hi _ _ Hsv) as (S1 & S2 & S3 & S4).
    apply (good_set_service A (eq n) n s _ tr d Hsv); [|by left|done|].
    - split_and!; [done..| |done]. apply Forall_app. split; [done|by constructor].
    - split_and!; [done| |done]. eapply busy_weaken; [|exact Hb]. done. }
  intros []. destruct (setExpired_same now HEARTBEAT_EXPIRY w) as [E1 E2].
  apply (h_bind C _ _ _ (fun _ => P)); [by apply h_set_worker|]. intros [].
  eapply h_post; [apply h_service_dispatch|]. intros u tr d Hg. eapply good_ext; [|exact Hg]. apply plus_nil.
Qed.

Lemma h_worker_attach A id p now name : name <> [] ->
  hoare (fun tr d => good A nobody tr d /\ view d !! p = Some (id, None)) C (worker_attach now p name) (fun _ => good A nobody).
Proof.
  intros Hn. apply (h_bind C _ _ _ (fun n tr d => n = name /\ good A nobody tr d /\ view d !! p = Some (id, None) /\
    is_Some (m_services d !! name))).
  { by apply (h_getService A nobody (fun V => V !! p = Some (id, None))). }
  intros n. apply h_pure. intros ->. apply h_worker_at.
  { intros tr d (_ & Hp & _). apply view_lookup in Hp as (w & ? & _). eauto. }
  intros w. apply (h_bind C _ _ _ (fun _ tr d => exists d0, (good A nobody tr d0 /\ is_Some (m_services d0 !! name)) /\
    d_heap d0 !! p = Some w /\ m_service w = None /\ d = d0 <| d_heap := <[p := w <| m_service := Some name |>]> (d_heap d0) |>)).
  { apply h_modify. intros tr d [(Hg & Hp & Hs) Hw]. exists d. split_and!; [done..| |done].
    apply view_lookup in Hp as (w' & ? & ? & ?). congruence. }
  intros []. apply h_service_at. { by intros tr d (d0 & [_ Hs] & _ & _ & ->). }
  intros s. apply (h_bind C _ _ _ (fun _ tr d => good A nobody tr d /\ serves (view d) name p)); [|intros []; apply h_worker_waiting].
  apply h_modify. intros tr d [(d0 & [(Hi & Hb & Hf) _] & Hw & Hws & ->) Hs].
  change (m_services d0 !! name = Some s) in Hs. change (good A nobody tr (attached d0 p w name s) /\
    serves (view (attached d0 p w name s)) name p). split; [split_and!|].
  - by apply inv_attach.
  - intros n' s0 Hn' Hnb. change (m_services (attached d0 p w name s)) with
      (<[name := s <| m_numWorkers := u64 (m_numWorkers s + 1) |>]> (m_services d0)) in Hn'.
    apply lookup_insert_Some in Hn' as [[<- <-]|[_ Hn']]; [exact (Hb _ _ Hs Hnb)|by eapply Hb].
  - intros n'. rewrite Hf. f_equal. unfold pending. change (m_services (attached d0 p w name s)) with
      (<[name := s <| m_numWorkers := u64 (m_numWorkers s + 1) |>]> (m_services d0)).
    destruct (decide (name = n')) as [<-|Hne]; [by rewrite lookup_insert_eq, Hs|by rewrite lookup_insert_ne].
  - rewrite attached_view. exists (m_identity w). apply lookup_insert_eq.
Qed.

Lemma good_deleted A tr d p w : d_heap d !! p = Some w -> good A nobody tr d -> good A nobody tr (deleted d p w).
Proof.
  intros Hw (Hi & Hb & Hf). split_and!; [by apply inv_deleted| |].
  - intros n s' Hn Hnb. destruct (detach_lookup d p w n s' Hi Hw Hn) as (s & Hs & _ & E2 & E3 & _).
    destruct (Hb n s Hs Hnb) as [Hs'|Hs']; [left|right; congruence]. rewrite E3, Hs'. by case_decide.
  - intros n. rewrite Hf. f_equal. unfold pending. change (m_services (deleted d p w)) with (detach d p w).
    destruct (detach d p w !! n) as [s'|] eqn:E.
    + destruct (detach_lookup d p w n s' Hi Hw E) as (s & Hs & _ & E2 & _). rewrite Hs. cbn. by rewrite E2.
    + destruct (m_services d !! n) eqn:Es; [|done]. destruct (detach_is_Some d p w n) as [s' Hs']; [by rewrite Es|congruence].
Qed.

Lemma h_worker_delete A p disconnect :
  hoare (fun tr d => good A nobody tr d /\ is_Some (d_heap d !! p)) C (worker_delete p disconnect) (fun _ => good A nobody).
Proof.
  apply (h_bind C _ _ _ (fun _ tr d => good A nobody tr d /\ is_Some (d_heap d !! p))).
  { destruct disconnect; [|by apply h_ret]. eapply h_post; [apply h_worker_send; by intros tr d [_ ?]|].
    intros u tr d (tr0 & w & [Hg Hs] & Hw & ->). split; [|done]. by apply good_emit. }
  intros []. apply h_worker_at; [by intros tr d [_ ?]|]. intros w.
  apply (h_bind C _ _ _ (fun _ tr d => exists d0, good A nobody tr d0 /\ d_heap d0 !! p = Some w /\
    d = d0 <| m_services := detach d0 p w |>)).
  - unfold detach. destruct (m_service w) as [n|] eqn:Es.
    + apply h_service_at.
      { intros tr d [[(Hi & _) _] Hw]. apply (di_known _ Hi p). exists (m_identity w). apply view_lookup. eauto. }
      intros s. apply h_modify. intros tr d [[[Hg _] Hw] Hs]. exists d. by rewrite Hs.
    + apply h_ret. intros tr d [[Hg _] Hw]. exists d. by destruct d.
  - intros []. apply h_modify. intros tr d (d0 & Hg & Hw & ->). by apply (good_deleted A tr d0 p w).
Qed.

Lemma h_worker_require A b d0 sender : sender <> [] ->
  hoare (fun tr d => good A b tr d /\ d = d0) C (worker_require sender)
    (fun p tr d => good A b tr d /\ m_workers d !! sender = Some p /\
       match m_workers d0 !! sender with
       | Some p' => p = p' /\ d = d0
       | None => view d !! p = Some (sender, None)
       end).
Proof.
  intros Hn. unfold worker_require. rewrite bool_decide_eq_false_2 by done.
  apply (h_bind C _ _ _ (fun _ tr d => good A b tr d /\ d = d0)); [by apply h_ret|]. intros [].
  apply h_get. intros d1. destruct (m_workers d1 !! sender) as [p|] eqn:E.
  - apply h_ret. intros tr d [[Hg Hd] Hd']. subst d1. rewrite <- Hd, E. done.
  - apply (h_bind C _ _ _ (fun _ tr d => good A b tr d /\ m_workers d !! sender = Some (d_next d1) /\
      m_workers d0 !! sender = None /\ view d !! d_next d1 = Some (sender, None))).
    + apply h_modify. intros tr d [[(Hi & Hb & Hf) Hd] Hd']. subst d1. rewrite <- Hd. split_and!; [split_and!; [|done..]| |done|].
      * by apply inv_new_worker.
      * exact (lookup_insert_eq _ _ _).
      * change (view (d <| d_heap := <[d_next d := newWorker sender]> (d_heap d) |>) !! d_next d = Some (sender, None)).
        rewrite view_insert. apply lookup_insert_eq.
    + intros []. apply h_ret. intros tr d (? & ? & -> & ?). done.
Qed.
End Specs.

(** ** Which messages the dispatcher survives *)

(** [fs]: the frames behind the header; [sender]: the identity that the socket puts in front. *)
Definition worker_fault (d : RpcDispatcherBase) (sender : name_t) (fs : list zframe_t) : option crash :=
  match fs with
  | [c] :: rest =>
      if bool_decide (sender = []) then Some AssertFailed
      else match command_of c with
      | Some RPC_REGISTER =>
          if bool_decide (is_Some (m_workers d !! sender)) then None
          else if bool_decide (default [] (head rest) = []) then Some AssertFailed else None
      | Some RPC_REPLY =>
          match p ← m_workers d !! sender; d_heap d !! p with
          | Some w => if bool_decide (rest = []) then Some NullDeref
                      else if bool_decide (is_Some (m_service w)) then None else Some NullDeref
          | None => None
          end
      | _ => None
      end
  | _ => Some AssertFailed
  end.

Definition client_fault (d : RpcDispatcherBase) (fs : list zframe_t) : option crash :=
  match fs with
  | svc :: cmd :: _ =>
      if bool_decide (svc = []) then Some AssertFailed
      else if bool_decide (is_Some (m_services d !! svc)) then None
      else if bool_decide (cmd = []) then Some Overread else None
  | _ => Some AssertFailed
  end.

Definition frame_at (m : zmsg_t) (i : nat) : zframe_t := default [] (frames m !! i).

Definition input_fault (d : RpcDispatcherBase) (m : zmsg_t) : option crash :=
  let body := drop 3 (frames m) in
  if bool_decide (frame_at m 2 = RPC_CLIENT) then client_fault d body
  else if bool_decide (frame_at m 2 = RPC_WORKER) then worker_fault d (frame_at m 0) body
  else None.

Definition op_fault (d : RpcDispatcherBase) (o : disp_op) : option crash :=
  match o with
  | OpRound _ _ (PollIn m) => input_fault d m
  | OpGetService name => if bool_decide (name = []) then Some AssertFailed else None
  | _ => None
  end.

Lemma op_fault_dangling d o : op_fault d o <> Some Dangling.
Proof.
  destruct o as [now now2 [m| |e]|name| |e]; cbn [op_fault]; unfold input_fault, client_fault, worker_fault; try done;
    repeat case_match; done.
Qed.

(** The requests that an operation brings for service [n], in the form in which they are kept. *)
Definition arrivals (d : RpcDispatcherBase) (o : disp_op) (n : name_t) : list (list zframe_t) :=
  match o with
  | OpRound _ _ (PollIn m) =>
      match drop 3 (frames m) with
      | svc :: body =>
          if decide (frame_at m 2 = RPC_CLIENT /\ svc = n /\ is_Some (m_services d !! n))
          then [frame_at m 0 :: [] :: body] else []
      | [] => []
      end
  | _ => []
  end.

(** A crash is the announced one. *)
Definition bad (fault : option crash) (c : crash) : Prop := fault = Some c.

Lemma h_emit_good {B} A b F C e (k : DM B) Q : (forall n, dispatched1 n e = []) ->
  hoare (fun tr d => good A b tr d /\ F d) C k Q -> hoare (fun tr d => good A b tr d /\ F d) C (cemit e ;; k) Q.
Proof.
  intros He Hk. apply (h_bind C _ _ _ (fun _ tr d => good A b tr d /\ F d)); [|by intros []]. apply h_emit.
  intros tr d [Hg HF]. split; [|done]. by apply good_emit.
Qed.

Lemma h_worker_reply A now p w msg : (frames msg <> []) -> is_Some (m_service w) -> forall C,
  hoare (fun tr d => good A nobody tr d /\ d_heap d !! p = Some w) C (worker_reply now p msg) (fun _ => good A nobody).
Proof.
  intros Hm [n Hs] C. unfold worker_reply. pose proof (unwrap_head msg) as Hh. destruct (zmsg_unwrap msg) as [fr m'].
  cbn [fst] in Hh. destruct (frames msg) as [|client r]; [done|]. cbn [head] in Hh. rewrite Hh. apply h_deref_some.
  apply h_worker_at; [intros tr d [_ ?]; eauto|]. intros w'.
  eapply (h_pre C _ (fun tr d => w' = w /\ good A nobody tr d /\ serves (view d) n p)).
  { intros tr d [[Hg Hw] Hw']. split_and!; [congruence|done|]. exists (m_identity w). apply view_lookup. eauto. }
  apply h_pure. intros ->. rewrite Hs. apply h_deref_some. apply h_service_at.
  { intros tr d [(Hi & _) Hp]. by apply (di_known _ Hi p). }
  intros s. eapply (h_pre C _ (fun tr d => good A nobody tr d /\ serves (view d) n p)); [by intros tr d [? _]|].
  apply (h_emit_good A nobody (fun d => serves (view d) n p)); [done|]. apply h_worker_waiting.
Qed.

Lemma h_worker_process A d0 now sender msg :
  hoare (fun tr d => good A nobody tr d /\ d = d0) (bad (worker_fault d0 sender (frames msg))) (worker_process now sender msg)
    (fun _ tr d => good A nobody tr d /\ worker_fault d0 sender (frames msg) = None).
Proof.
  unfold worker_process. pose proof (size_frames msg) as Hsz. pose proof (pop_head msg) as Hh. pose proof (frames_pop msg) as Hf.
  destruct (zmsg_pop msg) as [fr m']. cbn [fst snd] in Hh, Hf. rewrite Hsz.
  destruct (frames msg) as [|f rest] eqn:E; [by apply h_assert_false|]. cbn [head tail length] in *.
  apply h_assert_true; [done|]. rewrite Hh. apply h_deref_some.
  destruct f as [|c [|? ?]]; [by apply h_assert_false|apply h_assert_true; [done|]|by apply h_assert_false]. cbn [head default].
  set (ok := worker_fault d0 sender ([c] :: rest)).
  apply h_get. intros d1. eapply (h_pre _ _ (fun tr d => d1 = d0 /\ good A nobody tr d /\ d = d0)).
  { intros tr d [[Hg ->] ->]. done. }
  apply h_pure. intros ->. destruct (decide (sender = [])) as [Hse|Hse].
  { unfold worker_require. rewrite (bool_decide_eq_true_2 (sender = [])) by done.
    apply (h_bind _ _ _ _ (fun _ _ _ => False)); [|by intros ? ? ? []]. apply h_assert_false; [done|].
    unfold bad, ok, worker_fault. by rewrite (bool_decide_eq_true_2 (sender = [])). }
  eapply h_bind; [by apply h_worker_require|]. intros wrk. cbn beta.
  assert (Hok : ok = match command_of c with
      | Some RPC_REGISTER => if bool_decide (is_Some (m_workers d0 !! sender)) then None
          else if bool_decide (default [] (head rest) = []) then Some AssertFailed else None
      | Some RPC_REPLY => match p ← m_workers d0 !! sender; d_heap d0 !! p with
          | Some w => if bool_decide (rest = []) then Some NullDeref
                      else if bool_decide (is_Some (m_service w)) then None else Some NullDeref
          | None => None end
      | _ => None end) by (unfold ok, worker_fault; by rewrite bool_decide_eq_false_2 by done).
  clearbody ok. set (Pre := fun tr d => good A nobody tr d /\ _).
  assert (Hlive : forall tr d, Pre tr d -> good A nobody tr d /\ is_Some (d_heap d !! wrk)).
  { intros tr d (Hg & Hw & _). split; [done|]. destruct Hg as (Hi & _). destruct (di_workers _ Hi _ _ Hw) as [s Hs].
    apply view_lookup in Hs as (w & ? & _). eauto. }
  assert (Hdel : forall b, hoare Pre (bad ok) (worker_delete wrk b) (fun _ => good A nobody)).
  { intros b. eapply h_pre; [exact Hlive|]. apply h_worker_delete. }
  change (id c) with c. revert Hok. destruct (command_of c) as [cmd|]; intros Hok;
    [|apply h_const; [done|]; apply h_ret; by intros tr d [? _]].
  destruct cmd; try (apply h_const; [done|]; apply h_ret; by intros tr d [? _]).
  - (* RPC_REGISTER *)
    destruct (m_workers d0 !! sender) as [p|] eqn:Ew; rewrite ?Ew in Hok; unfold Pre in *; clear Pre.
    { rewrite bool_decide_eq_true_2 in Hok |- * by done. by apply h_const. }
    rewrite bool_decide_eq_false_2 in Hok |- * by (by intros []).
    assert (fst (popstr m') = default [] (head rest)) as -> by (by rewrite popstr_head, Hf). cbn [orb] in Hok.
    destruct (decide (default [] (head rest) = [])) as [Hn|Hn].
    + rewrite bool_decide_eq_true_2 in Hok by done. unfold worker_attach, getService. rewrite Hn.
      apply (h_bind _ _ _ _ (fun _ _ _ => False)); [|by intros ? ? ? []]. by apply h_assert_false.
    + rewrite bool_decide_eq_false_2 in Hok by done. apply h_const; [done|].
      eapply h_pre; [|by apply (h_worker_attach _ A sender)]. by intros tr d (? & _ & ?).
  - (* RPC_REPLY *)
    destruct (m_workers d0 !! sender) as [p|] eqn:Ew; cbn [mbind option_bind] in Hok; unfold Pre in *; clear Pre.
    2: { rewrite bool_decide_eq_false_2 by (by intros []). by apply h_const. }
    rewrite bool_decide_eq_true_2 by done. destruct (d_heap d0 !! p) as [w|] eqn:Eh.
    2: { eapply (h_pre _ _ (fun _ _ => False)); [|by intros ? ? []]. intros tr d Hp. destruct (Hlive tr d Hp) as [_ [x Hx]].
         destruct Hp as (_ & _ & -> & ->). congruence. }
    eapply (h_pre _ _ (fun tr d => wrk = p /\ good A nobody tr d /\ d_heap d !! p = Some w)).
    { intros tr d (Hg & _ & -> & ->). done. }
    apply h_pure. intros ->. destruct (decide (rest = [])) as [Hr|Hr].
    + rewrite bool_decide_eq_true_2 in Hok by done. unfold worker_reply. pose proof (unwrap_head m') as Hu.
      destruct (zmsg_unwrap m') as [cl m2]. cbn [fst] in Hu. rewrite Hf, Hr in Hu. cbn in Hu. rewrite Hu. by apply h_deref_none.
    + rewrite bool_decide_eq_false_2 in Hok by done. cbn [negb andb] in Hok. destruct (m_service w) as [n|] eqn:Es.
      * apply h_const; [done|]. apply (h_worker_reply A now p w); [by rewrite Hf|by rewrite Es].
      * unfold worker_reply. pose proof (unwrap_head m') as Hu. destruct (zmsg_unwrap m') as [cl m2]. cbn [fst] in Hu.
        rewrite Hf in Hu. destruct rest as [|cl' r]; [done|]. cbn in Hu. rewrite Hu. apply h_deref_some.
        apply h_worker_at; [intros tr d [_ ?]; eauto|]. intros w'.
        eapply (h_pre _ _ (fun tr d => w' = w /\ True)); [|apply h_pure; intros ->; rewrite Es; by apply h_deref_none].
        intros tr d [[_ H1] H2]. split; [congruence|done].
  - (* RPC_HEARTBEAT *)
    apply h_const; [done|]. case_bool_decide; [|done]. apply h_worker_at; [intros tr d Hp; exact (proj2 (Hlive tr d Hp))|]. intros w.
    destruct (setExpired_same now HEARTBEAT_EXPIRY w) as [E1 E2].
    eapply h_pre; [|apply (h_set_worker _ (good A nobody) wrk w); [apply good_blind|done|done]].
    intros tr d [Hp Hw]. split; [exact (proj1 (Hlive tr d Hp))|done].
  - (* RPC_DISCONNECT *) by apply h_const.
Qed.

Lemma h_send_error A b C sender svc rest msg code txt : frames msg = sender :: [] :: rest ->
  match rest with [] => C NullDeref | [] :: _ => C Overread | _ => True end ->
  hoare (good A b) C (sendErrorResponse msg svc code txt)
    (fun _ tr d => good A b tr d /\ match rest with (_ :: _) :: _ => True | _ => False end).
Proof.
  intros Hm HC. unfold sendErrorResponse. pose proof (unwrap_head msg) as H1. pose proof (next_unwrap msg _ _ Hm) as H2.
  destruct (zmsg_unwrap msg) as [cl m1]. cbn [fst snd] in *. rewrite Hm in H1. cbn [head] in H1. rewrite H1.
  apply h_deref_some. destruct (zmsg_next m1) as [fr m2]. cbn [fst] in H2. rewrite H2.
  destruct rest as [|[|c f] r]; cbn [head]; [by apply h_deref_none|apply h_deref_some; by apply h_deref_none|].
  apply h_deref_some, h_deref_some. apply h_emit. intros tr d Hg. split; [|done]. by apply good_emit.
Qed.

Lemma h_client_process A d0 now sender msg :
  hoare (fun tr d => good A nobody tr d /\ d = d0) (bad (client_fault d0 (frames msg))) (client_process now sender msg)
    (fun _ tr d => good (fun n => A n ++ match frames msg with
        | svc :: body => if decide (svc = n /\ is_Some (m_services d0 !! n)) then [sender :: [] :: body] else []
        | [] => [] end) nobody tr d /\ client_fault d0 (frames msg) = None).
Proof.
  unfold client_process. pose proof (popstr_head msg) as Hh. pose proof (frames_popstr msg) as Hf. rewrite size_frames.
  destruct (popstr msg) as [svc m']. cbn [fst snd] in Hh, Hf.
  destruct (frames msg) as [|svc' [|cmd rest]]; [by apply h_assert_false..|]. cbn [head tail default] in Hh, Hf.
  change (id svc') with svc' in Hh. subst svc'. apply h_assert_true; [done|]. cbn [client_fault]. unfold findService.
  destruct (decide (svc = [])) as [Hn|Hn].
  { rewrite !(bool_decide_eq_true_2 (svc = [])) by done. apply (h_bind _ _ _ _ (fun _ _ _ => False)); [|by intros ? ? ? []].
    by apply h_assert_false. }
  rewrite !(bool_decide_eq_false_2 (svc = [])) by done. cbn [negb andb].
  apply (h_bind _ _ _ _ (fun srv tr d => srv = (if decide (is_Some (m_services d0 !! svc)) then Some svc else None) /\
    good A nobody tr d /\ d = d0)).
  { apply h_assert_true; [done|]. apply h_get. intros d1. apply h_ret. intros tr d [[Hg ->] <-]. done. }
  intros srv. apply h_pure. intros ->. pose proof (frames_wrap_msg sender m') as Hw. rewrite Hf in Hw.
  case_decide as Hs.
  - rewrite bool_decide_eq_true_2 by done. apply h_const; [done|].
    eapply h_post; [eapply h_pre; [|apply (h_service_dispatch _ A now svc)]|].
    + intros tr d [(H1 & H2 & H3) ->]. split; [|done]. split_and!; [done| |done]. eapply busy_weaken; [|exact H2]. by intros n [].
    + intros u tr d Hg. eapply good_ext; [|exact Hg]. intros n. unfold plus. f_equal. rewrite Hw.
      destruct (decide (svc = n)) as [<-|Hne]; [by rewrite decide_True by done|]. by rewrite decide_False by naive_solver.
  - rewrite bool_decide_eq_false_2 by done. cbn [orb].
    eapply h_post; [eapply h_pre; [|apply (h_send_error A nobody _ sender svc (cmd :: rest)); [exact Hw|]]|].
    + by intros tr d [? _].
    + destruct cmd; [|done]. done.
    + intros u tr d [Hg Hc]. destruct cmd; [done|]. split; [|done]. eapply good_ext; [|exact Hg]. intros n.
      rewrite decide_False by (by intros [-> ?]). by rewrite app_nil_r.
Qed.

Lemma process_frames msg : exists m1 m2 m3,
  popstr msg = (frame_at msg 0, m1) /\ popstr m1 = (frame_at msg 1, m2) /\ popstr m2 = (frame_at msg 2, m3) /\
  frames m3 = drop 3 (frames msg).
Proof.
  assert (Hp : forall m, popstr m = (default [] (head (frames m)), snd (popstr m)))
    by (intros m; rewrite <- popstr_head; by destruct (popstr m)).
  assert (Ht : forall m, frames (snd (popstr m)) = tail (frames m)) by (intros; apply frames_popstr).
  exists (snd (popstr msg)), (snd (popstr (snd (popstr msg)))), (snd (popstr (snd (popstr (snd (popstr msg)))))). unfold frame_at.
  split_and!; [rewrite (Hp msg) at 1|rewrite (Hp (snd (popstr msg))) at 1|rewrite (Hp (snd (popstr (snd (popstr msg))))) at 1|];
    rewrite ?Ht; by destruct (frames msg) as [|? [|? [|? ?]]].
Qed.

(** All requests of a service, with those that an operation brings. *)
Definition arrived (A : name_t -> list (list zframe_t)) d0 o (n : name_t) : list (list zframe_t) := A n ++ arrivals d0 o n.

Lemma h_process_input A d0 now now2 msg :
  hoare (fun tr d => good A nobody tr d /\ d = d0) (bad (input_fault d0 msg)) (process_input now msg)
    (fun _ tr d => good (arrived A d0 (OpRound now now2 (PollIn msg))) nobody tr d /\ input_fault d0 msg = None).
Proof.
  unfold process_input. destruct (process_frames msg) as (m1 & m2 & m3 & -> & -> & -> & Hf). unfold input_fault.
  set (header := frame_at msg 2). set (sender := frame_at msg 0).
  assert (Hq : header <> RPC_CLIENT -> forall tr d, good A nobody tr d -> good (arrived A d0 (OpRound now now2 (PollIn msg))) nobody tr d).
  { intros Hh tr d Hg. eapply good_ext; [|exact Hg]. intros n. unfold arrived. cbn [arrivals].
    destruct (drop 3 (frames msg)); [by rewrite app_nil_r|]. by rewrite decide_False, app_nil_r by (by intros [? _]). }
  case_bool_decide as Hc; [|case_bool_decide as Hw].
  - rewrite <- Hf. eapply h_post; [apply h_client_process|]. intros u tr d [Hg Hk]. split; [|done]. eapply good_ext; [|exact Hg].
    intros n. unfold arrived. cbn [arrivals]. rewrite <- Hf. f_equal. destruct (frames m3) as [|svc body]; [done|].
    repeat case_decide; naive_solver.
  - rewrite <- Hf. eapply h_post; [apply h_worker_process|]. intros u tr d [Hg Hk]. split; [|done]. by apply Hq.
  - apply h_ret. intros tr d [Hg _]. split; [|done]. by apply Hq.
Qed.

Lemma h_heartbeats A C ws : hoare (fun tr d => good A nobody tr d /\ Forall (fun p => is_Some (view d !! p)) ws) C (heartbeats ws)
  (fun _ => good A nobody).
Proof.
  induction ws as [|p ws IH]; cbn [heartbeats]; [apply h_ret; by intros tr d [? _]|].
  apply (h_bind _ _ _ _ (fun _ tr d => good A nobody tr d /\ Forall (fun p => is_Some (view d !! p)) ws)); [|by intros []].
  eapply h_post; [apply h_worker_send|].
  - intros tr d [_ [[[id s] Hx] _]%Forall_cons]. apply view_lookup in Hx as (w & ? & _). eauto.
  - intros u tr d (tr0 & w & [Hg [_ Hl]%Forall_cons] & Hw & ->). split; [|done]. by apply good_emit.
Qed.

Lemma h_run_tail A C now2 : hoare (good A nobody) C
  (d ← cget;
   if m_heartbeat_at d <? now2 then
     purge_workers now2 ;; d ← cget; heartbeats (m_waiting d) ;; setExpired now2 HEARTBEAT_INTERVAL
   else mret tt) (fun _ => good A nobody).
Proof.
  apply h_get. intros d0. eapply (h_pre _ _ (good A nobody)); [by intros tr d [? _]|]. case_match; [|by apply h_ret].
  apply (h_bind _ _ _ _ (fun _ => good A nobody)); [apply h_purge; [apply good_blind|by intros tr d [? _]]|]. intros [].
  apply h_get. intros d1. apply (h_bind _ _ _ _ (fun _ => good A nobody)).
  - eapply h_pre; [|apply h_heartbeats]. intros tr d [Hg <-]. split; [done|]. destruct Hg as (Hi & _).
    eapply Forall_impl; [apply (di_waiting _ Hi)|]. intros p (n & id & Hp). eauto.
  - intros []. apply h_modify. intros tr d (Hi & Hb & Hf). split_and!; [|done..]. by apply (inv_same_view d).
Qed.

(** One operation, for all of the invariant, the requests and the crashes. *)
Lemma h_exec A d0 o : hoare (fun tr d => good A nobody tr d /\ d = d0) (bad (op_fault d0 o)) (exec o)
  (fun _ tr d => good (arrived A d0 o) nobody tr d /\ op_fault d0 o = None).
Proof.
  assert (Hq : (forall n, arrivals d0 o n = []) -> forall tr d, good A nobody tr d -> good (arrived A d0 o) nobody tr d).
  { intros Ho tr d Hg. eapply good_ext; [|exact Hg]. intros n. unfold arrived. by rewrite Ho, app_nil_r. }
  destruct o as [now now2 p|name| |e]; cbn [exec op_fault].
  - destruct p as [m| |err]; cbn [run_round].
    + apply (h_bind _ _ _ _ (fun _ tr d => good (arrived A d0 (OpRound now now2 (PollIn m))) nobody tr d /\ input_fault d0 m = None));
        [apply h_process_input|]. intros [].
      eapply (h_pre _ _ (fun tr d => input_fault d0 m = None /\ good (arrived A d0 (OpRound now now2 (PollIn m))) nobody tr d));
        [by intros tr d [? ?]|]. apply h_pure. intros Hok. apply h_const; [done|]. apply h_run_tail.
    + apply h_const; [done|]. apply (h_bind _ _ _ _ (fun _ => good (arrived A d0 (OpRound now now2 PollTimeout)) nobody));
        [apply h_ret; intros tr d [? _]; by apply Hq|]. intros []. apply h_run_tail.
    + apply h_const; [done|]. destruct err; [|apply h_ret; intros tr d [? _]; by apply Hq..].
      apply h_modify. intros tr d [Hg _]. apply Hq; [done|]. destruct Hg as (Hi & Hb & Hf). split_and!; [|done..].
      by apply (inv_same_view d).
  - destruct (decide (name = [])) as [Hn|Hn].
    + rewrite bool_decide_eq_true_2 by done. unfold getService. rewrite bool_decide_eq_true_2 by done.
      apply (h_bind _ _ _ _ (fun _ _ _ => False)); [|by intros ? ? ? []]. by apply h_assert_false.
    + rewrite bool_decide_eq_false_2 by done. apply h_const; [done|].
      eapply h_bind; [eapply h_pre; [|by apply (h_getService _ A nobody (fun _ => True))]; by intros tr d [? _]|].
      intros n. apply h_ret. intros tr d (_ & Hg & _). by apply Hq.
  - apply h_const; [done|]. apply h_modify. intros tr d [Hg _]. apply Hq; [done|]. destruct Hg as (Hi & Hb & Hf).
    split_and!; [|done..]. by apply (inv_same_view d).
  - apply h_const; [done|]. apply (h_bind _ _ _ _ (fun _ => good A nobody)).
    + apply h_modify. intros tr d [(Hi & Hb & Hf) _]. split_and!; [|done..]. by apply (inv_same_view d).
    + intros []. apply h_emit. intros tr d Hg. apply Hq; [done|]. by apply good_emit.
Qed.

Lemma new_good now : good (fun _ => []) nobody [] (newRpcDispatcherBase now).
Proof.
  split_and!; [|by intros n s Hn|done]. split; cbn; try done.
  - intros p n [id Hp]. done.
  - intros p [x Hx]. done.
Qed.

(** ** Properties *)

Lemma reachable_good d : disp_reachable d -> exists A tr, good A nobody tr d.
Proof.
  induction 1 as [now|o d d' evs _ (A & tr & Hg) He]; [eexists _, []; apply new_good|].
  pose proof (h_exec A d o tr d (conj Hg eq_refl)) as Hx. rewrite He in Hx. destruct Hx as [Hx _]. eauto.
Qed.

(** C24: the dispatcher's bookkeeping is sound in every state it can reach, whatever
    arrives: the map of workers and the worker objects correspond; the waiting lists hold
    live workers only, a service's list only workers registered for it; a service counts
    its workers; and no service keeps a request while a worker waits for one. *)
Theorem dispatcher_reachable d : disp_reachable d -> disp_inv d /\ busy nobody d.
Proof. intros Hr. destruct (reachable_good d Hr) as (A & tr & H1 & H2 & _). done. Qed.

(** C25: the dispatcher crashes, or reads beyond a frame, exactly on the inputs for which
    [op_fault] says so, and in the way it says: an assertion fails on client messages without a service name and
    a command, worker messages without a one-byte
    command, and empty identities and service names; a null pointer is used by replies of a worker that never
    registered for a service or that lack an envelope; and an empty command for a service that does not exist is
    read beyond its end.  No operation while it runs uses a deleted worker (its destructor is not among the operations:
    [destroy_twice]). *)
Theorem dispatcher_crash d o : disp_reachable d ->
  match exec o d with
  | (_, _, inl c) => op_fault d o = Some c /\ c <> Dangling
  | (_, _, inr _) => op_fault d o = None
  end.
Proof.
  intros Hr. destruct (reachable_good d Hr) as (A & tr & Hg). pose proof (h_exec A d o tr d (conj Hg eq_refl)) as Hx.
  destruct (exec o d) as [[d' evs] [c|[]]]; [|by destruct Hx]. split; [exact Hx|]. intros ->. by apply (op_fault_dangling d o).
Qed.

Fixpoint exec_all (os : list disp_op) : DM unit :=
  match os with [] => mret tt | o :: os => exec o ;; exec_all os end.

(** The requests for [n] that a history brings. *)
Fixpoint all_arrivals (d : RpcDispatcherBase) (os : list disp_op) (n : name_t) : list (list zframe_t) :=
  match os with
  | [] => []
  | o :: os => arrivals d o n ++ match exec o d with (d', _, inr _) => all_arrivals d' os n | _ => [] end
  end.

Lemma exec_all_good os : forall A tr d d' evs, good A nobody tr d -> exec_all os d = (d', evs, inr tt) ->
  good (fun n => A n ++ all_arrivals d os n) nobody (tr ++ evs) d'.
Proof.
  induction os as [|o os IH]; intros A tr d d' evs Hg He; cbn [exec_all] in He.
  - injection He as <- <-. rewrite app_nil_r. eapply good_ext; [|exact Hg]. intros n. by rewrite app_nil_r.
  - pose proof (h_exec A d o tr d (conj Hg eq_refl)) as Hx. unfold mbind, CM_bind in He.
    destruct (exec o d) as [[d1 t1] [c|[]]] eqn:E; [done|]. destruct Hx as [Hx _].
    destruct (exec_all os d1) as [[d2 t2] [c|[]]] eqn:E2; [done|]. injection He as <- <-.
    rewrite app_assoc. eapply good_ext; [|exact (IH _ _ _ _ _ Hx E2)]. intros n. cbn [all_arrivals]. rewrite E.
    unfold arrived. by rewrite app_assoc.
Qed.

(** C23: requests are served first come, first served, without loss or repetition.  Over
    any history that does not end in a crash, the requests that reached workers of a
    service, in order, followed by those it still keeps are the ones it kept at the start
    followed by those that arrived, unchanged behind the envelope. *)
Theorem requests_fifo d os d' evs n : disp_reachable d -> exec_all os d = (d', evs, inr tt) ->
  dispatched n evs ++ pending d' n = pending d n ++ all_arrivals d os n.
Proof.
  intros Hr He. destruct (reachable_good d Hr) as (A & tr & Hi & Hb & _).
  destruct (exec_all_good os (pending d) [] d d' evs) as (_ & _ & Hf); [by split_and!|done|]. by rewrite Hf.
Qed.
End Dispatcher.

(** ** Concrete histories *)
Module DispDemo.
Import CzmqList.

Definition msg (fs : list (list Z)) : zmsg := mkZmsg fs None.
Definition disp0 : @RpcDispatcherBase zmsg := newRpcDispatcherBase 0.

(** Two requests, a worker that registers and answers the first one. *)
Definition demo : list (@disp_op zmsg) :=
  [OpGetService (text "apc");
   OpRound 10 10 (PollIn (msg [text "c1"; []; RPC_CLIENT; text "apc"; [1]; text "p1"]));
   OpRound 20 20 (PollIn (msg [text "c2"; []; RPC_CLIENT; text "apc"; [2]; text "p2"]));
   OpRound 30 30 (PollIn (msg [text "w"; []; RPC_WORKER; [1]; text "apc"]));
   OpRound 40 3000000 (PollIn (msg [text "w"; []; RPC_WORKER; [3]; text "c1"; []; [1]; [0; 0; 0; 0]]))].

(** A worker known by an unknown command only: its reply is fatal. *)
Definition stray : list (@disp_op zmsg) := [OpRound 10 10 (PollIn (msg [text "x"; []; RPC_WORKER; [7]]))].
Definition stray_reply : @disp_op zmsg :=
  OpRound 20 20 (PollIn (msg [text "x"; []; RPC_WORKER; [3]; text "c1"; []; [1]])).

Lemma reach_all os : forall (d d' : @RpcDispatcherBase zmsg) evs,
  disp_reachable d -> exec_all os d = (d', evs, inr tt) -> disp_reachable d'.
Proof.
  induction os as [|o os IH]; intros d d' evs Hr He; cbn [exec_all] in He; [by injection He as <- _|].
  unfold mbind, CM_bind in He. destruct (exec o d) as [[d1 t1] [c|[]]] eqn:E; [done|].
  destruct (exec_all os d1) as [[d2 t2] [c|[]]] eqn:E2; [done|]. injection He as <- <-.
  eapply IH; [|exact E2]. by eapply disp_exec.
Qed.

(** A worker that replies without a request waits twice. *)
Definition twice : list (@disp_op zmsg) :=
  [OpRound 10 10 (PollIn (msg [text "w"; []; RPC_WORKER; [1]; text "apc"]));
   OpRound 20 20 (PollIn (msg [text "w"; []; RPC_WORKER; [3]; text "c"; []; [1]]))].

(** The destructor then deletes it twice. *)
Fact destroy_twice : snd ((exec_all twice ;; destroy) disp0) = inl Dangling.
Proof. vm_compute. reflexivity. Qed.
End DispDemo.
Import CzmqList.

Lemma dispatcher_reachable_witness :
  exists d evs, exec_all DispDemo.demo DispDemo.disp0 = (d, evs, inr tt) /\ (disp_inv d /\ busy nobody d).
Proof.
  destruct (exec_all DispDemo.demo DispDemo.disp0) as [[d evs] [c|[]]] eqn:E; [vm_compute in E; discriminate E|].
  exists d, evs. split; [reflexivity|]. apply (dispatcher_reachable (zmsg_t := CzmqList.zmsg)).
  apply (DispDemo.reach_all DispDemo.demo DispDemo.disp0 d evs); [apply disp_new|exact E].
Defined.

Lemma dispatcher_crash_witness :
  exists d evs, exec_all DispDemo.stray DispDemo.disp0 = (d, evs, inr tt) /\
    snd (exec DispDemo.stray_reply d) = inl NullDeref /\ op_fault d DispDemo.stray_reply = Some NullDeref.
Proof.
  destruct (exec_all DispDemo.stray DispDemo.disp0) as [[d evs] [c|[]]] eqn:E; [vm_compute in E; discriminate E|].
  exists d, evs. split; [reflexivity|].
  assert (snd (exec DispDemo.stray_reply d) = inl NullDeref) as Hx.
  { vm_compute in E. injection E as <- _. vm_compute. reflexivity. }
  split; [exact Hx|].
  pose proof (dispatcher_crash (zmsg_t := CzmqList.zmsg) d DispDemo.stray_reply) as Hc.
  destruct (exec DispDemo.stray_reply d) as [[d1 t1] r]. simpl in Hx. subst r.
  apply Hc. apply (DispDemo.reach_all DispDemo.stray DispDemo.disp0 d evs); [apply disp_new|exact E].
Defined.

Lemma requests_fifo_witness :
  exists d evs, exec_all DispDemo.demo DispDemo.disp0 = (d, evs, inr tt) /\
    dispatched (text "apc") evs = [[text "c1"; []; [1]; text "p1"]; [text "c2"; []; [2]; text "p2"]] /\
    dispatched (text "apc") evs ++ pending d (text "apc") = all_arrivals DispDemo.disp0 DispDemo.demo (text "apc").
Proof.
  destruct (exec_all DispDemo.demo DispDemo.disp0) as [[d evs] [c|[]]] eqn:E; [vm_compute in E; discriminate E|].
  exists d, evs. split; [reflexivity|]. split; [vm_compute in E; injection E as _ <-; vm_compute; reflexivity|].
  exact (requests_fifo (zmsg_t := CzmqList.zmsg) DispDemo.disp0 DispDemo.demo d evs (text "apc") (disp_new 0) E).
Defined.
