(* ===== verification/RpcWorker.v ===== *)
(** Workers of the RPC layer (rpc/workers/RpcWorker.cpp, rpc/public/RpcWorker.h).

    A worker registers a service with the dispatcher, answers its requests and keeps the
    connection alive.  What a worker does with a command ([processCmdMsg], virtual) and
    the parser of the authorization structure (generated from common.proto) are
    parameters.  The socket operations are events; [now] is the clock in microseconds. *)
From stdpp Require Import base numbers list option strings gmap.
From Stdlib Require Import ZArith Lia.
From S2P Require Import Prelude Common FmtConv Crash ZMessage RpcProtocol.

Local Open Scope Z_scope.

(** This file's parameter, not the dispatcher's. *)
Definition HEARTBEAT_LIVENESS : Z := 10.
Definition DEFAULT_HEARTBEAT : Z := 2500.
Definition DEFAULT_RECONNECT_DELAY : Z := 1000.

(** common.proto. *)
Inductive UserPrivilege : Set := NONE | VIEWER | USER.

#[export] Instance UserPrivilege_eq_dec : EqDecision UserPrivilege.
Proof. solve_decision. Defined.

(** What the worker looks at in an [AuthReq]. *)
Record AuthReq : Set := mkAuthReq { IsInitialized : bool; privilege : UserPrivilege }.
(** A new object: nothing is set. *)
Definition newAuthReq : AuthReq := mkAuthReq false NONE.

Section Worker.
Context {zmsg_t : Type} `{CZMQ zmsg_t}.

(** [inl tt]: [CProtoBufParseErrorException]. *)
Context (processCmdMsg : Z -> list Z -> unit + zmsg_t) (parseAuth : list Z -> AuthReq).

Record RpcWorker : Set := mkRpcWorker {
  m_cmdPrivileges : option (gmap Z UserPrivilege);   (** [None]: the null pointer *)
  m_defaultCmdPrivilege : UserPrivilege;
  m_server : list Z;
  m_service : list Z;
  m_identity : list Z;
  m_worker : bool;                 (** is there a socket? *)
  m_heartbeat_at : Z;
  m_liveness : Z;                  (** [size_t] *)
  m_heartbeat : Z;
  m_reconnect : Z;
  m_allowUninitializedAuth : bool;
  m_reply_to : list Z;
  m_done : bool
}.
#[export] Instance RpcWorker_eta : Eta RpcWorker := fun w =>
  mkRpcWorker (m_cmdPrivileges w) (m_defaultCmdPrivilege w) (m_server w) (m_service w) (m_identity w) (m_worker w)
    (m_heartbeat_at w) (m_liveness w) (m_heartbeat w) (m_reconnect w) (m_allowUninitializedAuth w) (m_reply_to w) (m_done w).

Definition newRpcWorker (serverAddr serviceName : list Z) (pCmdPriv : option (gmap Z UserPrivilege))
    (defaultPriv : UserPrivilege) (identity : list Z) (allowUninitializedAuth : bool) : RpcWorker :=
  mkRpcWorker pCmdPriv defaultPriv serverAddr serviceName identity false 0 0 DEFAULT_HEARTBEAT DEFAULT_RECONNECT_DELAY
    allowUninitializedAuth [] false.

Inductive worker_event : Type :=
| WSocket (identity : list Z)           (** a new socket with this identity *)
| WIdentity (identity : list Z)
| WConnect (endpoint : list Z)
| WSend (m : zmsg_t)
| WSleep (msec : Z)
| WClose.

Notation WM := (CM RpcWorker worker_event).

Definition sendToServer (command : RpcCommands) (opt : list Z) (msg : option zmsg_t) : WM unit :=
  let msg := default zmsg_new msg in
  let msg := match opt with [] => msg | _ => pushstr opt msg end in
  let msg := zmsg_push [u8 (command_code command)] msg in
  let msg := pushstr RPC_WORKER msg in
  let msg := pushstr [] msg in
  w ← cget;
  if m_worker w then cemit (WSend msg) else crashes NullDeref.

(** The part of a string from the last occurrence of [c]. *)
Fixpoint from_last (c : Z) (s : list Z) : option (list Z) :=
  match s with
  | [] => None
  | x :: r => match from_last c r with Some t => Some t | None => if x =? c then Some s else None end
  end.

(** The endpoint to connect to: a TCP server is on this host.  Without a colon [substr]
    would throw. *)
Definition connect_endpoint (server : list Z) : option (list Z) :=
  if bool_decide (take 3 server = text "tcp") then
    port ← from_last ch_colon server; Some (text "tcp://127.0.0.1" ++ port)
  else Some server.

Definition connectToServer (now : Z) (serverAddr : list Z) : WM unit :=
  cmodify (fun w => w <| m_server := serverAddr |> <| m_worker := true |>) ;;
  w ← cget;
  cemit (WSocket (m_identity w)) ;;
  ep ← deref AssertFailed (connect_endpoint (m_server w));
  cemit (WConnect ep) ;;
  sendToServer RPC_REGISTER (m_service w) None ;;
  cmodify (fun w => w <| m_done := false |> <| m_liveness := HEARTBEAT_LIVENESS |>
                     <| m_heartbeat_at := now + m_heartbeat w * 1000 |>).

Definition setIdentity (identity : list Z) : WM unit :=
  cmodify (fun w => w <| m_identity := identity |>) ;;
  w ← cget;
  if m_worker w then cemit (WIdentity identity) else crashes NullDeref.

Definition set_heartbeat (v : Z) : WM unit := cmodify (fun w => w <| m_heartbeat := s32 v |>).
Definition set_reconnect (v : Z) : WM unit := cmodify (fun w => w <| m_reconnect := s32 v |>).
Definition setUninitializedAuthFlag (isAllow : bool) : WM unit := cmodify (fun w => w <| m_allowUninitializedAuth := isAllow |>).
Definition cancel : WM unit := cmodify (fun w => w <| m_done := true |>).

(** ** Requests *)
Definition getCommandPrivilege (w : RpcWorker) (cmdId : Z) : UserPrivilege :=
  match m_cmdPrivileges w with
  | Some l => default (m_defaultCmdPrivilege w) (l !! cmdId)
  | None => m_defaultCmdPrivilege w
  end.

Definition validatePrivilege (w : RpcWorker) (cmdId : Z) (auth : AuthReq) (allowUninitializedAuth : bool) : bool :=
  let priv := getCommandPrivilege w cmdId in
  if bool_decide (priv = NONE) then true
  else if negb (IsInitialized auth) then allowUninitializedAuth
  else
    match priv with
    | VIEWER => bool_decide (privilege auth = USER) || bool_decide (privilege auth = VIEWER)
    | USER => bool_decide (privilege auth = USER)
    | NONE => false
    end.

(** [createResponse] with an error code; with a message, its bytes are the frame. *)
Definition createResponse (cmdId : Z) (errorCode : RpcResult) (errorMsg : list Z) : zmsg_t :=
  addstr errorMsg (addint (result_code errorCode) (zmsg_push [cmdId] zmsg_new)).

(** [serialize2zmsg]: the bytes of the message are a frame of their own. *)
Definition serialize2zmsg (bytes : list Z) (m : zmsg_t) : zmsg_t := zmsg_add bytes m.

Definition createResponse_msg (cmdId : Z) (respMsg : list Z) : zmsg_t :=
  serialize2zmsg respMsg (addint (result_code RPC_OK) (zmsg_push [cmdId] zmsg_new)).

Definition processCall (msg : zmsg_t) : WM zmsg_t :=
  let '(cmdFrame, msg) := zmsg_pop msg in
  cmdFrame ← deref NullDeref cmdFrame;
  cmdId ← deref Overread (head cmdFrame);
  let '(requestParams, msg) := popstr msg in
  let auth := if (0 <? zmsg_size msg)%nat then parseAuth (fst (popstr msg)) else newAuthReq in
  w ← cget;
  if negb (validatePrivilege w cmdId auth (m_allowUninitializedAuth w)) then mret (createResponse cmdId RPC_NOT_AUTHORIZED [])
  else
    match processCmdMsg cmdId requestParams with
    | inr reply => mret reply
    | inl _ => mret (createResponse cmdId RPC_PARSE [])
    end.

Definition sendReply (reply : zmsg_t) : WM unit :=
  w ← cget;
  assert_ (negb (bool_decide (m_reply_to w = []))) ;;
  let reply := wrap_msg (m_reply_to w) [] reply in
  cmodify (fun w => w <| m_reply_to := [] |>) ;;
  sendToServer RPC_REPLY [] (Some reply).

Definition handleRequest (msg : zmsg_t) : WM unit :=
  let '(frame, msg) := zmsg_unwrap msg in
  frame ← deref NullDeref frame;
  cmodify (fun w => w <| m_reply_to := frame |>) ;;
  reply ← processCall msg;
  sendReply reply.

Definition handleInput (now : Z) (msg : zmsg_t) : WM unit :=
  cmodify (fun w => w <| m_liveness := HEARTBEAT_LIVENESS |>) ;;
  assert_ (3 <=? zmsg_size msg)%nat ;;
  let '(empty, msg) := popstr msg in
  assert_ (bool_decide (empty = [])) ;;
  let '(header, msg) := popstr msg in
  assert_ (bool_decide (header = RPC_WORKER)) ;;
  let '(frame, msg) := zmsg_pop msg in
  frame ← deref NullDeref frame;
  assert_ (length frame =? 1)%nat ;;
  match command_of (default 0 (head frame)) with
  | Some RPC_REQUEST => handleRequest msg
  | Some RPC_HEARTBEAT => mret tt
  | Some RPC_DISCONNECT => w ← cget; connectToServer now (m_server w)
  | _ => mret tt
  end.

(** A poll without input: one life less; the connection is made again at the last one. *)
Definition handleSilence (now : Z) : WM unit :=
  cmodify (fun w => w <| m_liveness := u64 (m_liveness w - 1) |>) ;;
  w ← cget;
  if m_liveness w =? 0 then cemit (WSleep (m_reconnect w)) ;; connectToServer now (m_server w) else mret tt.

Inductive wpoll_t : Type :=
| WPollIn (m : zmsg_t)
| WPollTimeout
| WPollError (terminated : bool).       (** [ETERM] or another error *)

(** A round of [run]; [now], [now2], [now3]: the clock when it connects, at the check of
    the heartbeat and at the next one. *)
Definition run_round (now now2 now3 : Z) (p : wpoll_t) : WM unit :=
  match p with
  | WPollError terminated => if terminated then cmodify (fun w => w <| m_done := true |>) else mret tt
  | _ =>
      (match p with WPollIn m => handleInput now m | _ => handleSilence now end) ;;
      w ← cget;
      if m_heartbeat_at w <? now2 then
        sendToServer RPC_HEARTBEAT [] None ;;
        cmodify (fun w => w <| m_heartbeat_at := now3 + m_heartbeat w * 1000 |>)
      else mret tt
  end.

(** ** Facts *)
Context {L : CZMQ_laws zmsg_t}.

(** The privileges in order. *)
Definition level (p : UserPrivilege) : Z := match p with NONE => 0 | VIEWER => 1 | USER => 2 end.

(** The reference for authorization. *)
Definition authorized (w : RpcWorker) (cmdId : Z) (auth : AuthReq) : bool :=
  let required := level (getCommandPrivilege w cmdId) in
  (required =? 0) ||
  (if IsInitialized auth then required <=? level (privilege auth) else m_allowUninitializedAuth w).

Lemma validate_authorized w cmdId auth :
  validatePrivilege w cmdId auth (m_allowUninitializedAuth w) = authorized w cmdId auth.
Proof.
  unfold validatePrivilege, authorized. destruct (getCommandPrivilege w cmdId), auth as [[] []]; cbn; try done;
    by destruct (m_allowUninitializedAuth w).
Qed.

(** The reply to a command. *)
Definition reply_to (w : RpcWorker) (cmdId : Z) (params : list Z) (auth : AuthReq) : zmsg_t :=
  if authorized w cmdId auth then
    match processCmdMsg cmdId params with inr reply => reply | inl _ => createResponse cmdId RPC_PARSE [] end
  else createResponse cmdId RPC_NOT_AUTHORIZED [].

Lemma frames_createResponse cmdId code txt :
  frames (createResponse cmdId code txt) = [[cmdId]; le_bytes 4 (htonl (u32 (result_code code))); c_str txt].
Proof. unfold createResponse. by rewrite frames_addstr, frames_addint, frames_push, frames_new. Qed.

Lemma c_str_RPC_WORKER : c_str RPC_WORKER = RPC_WORKER.
Proof. reflexivity. Qed.

(** What [sendToServer] sends. *)
Definition server_msg (command : RpcCommands) (opt : list Z) (msg : zmsg_t) : zmsg_t :=
  pushstr [] (pushstr RPC_WORKER (zmsg_push [u8 (command_code command)] (match opt with [] => msg | _ => pushstr opt msg end))).

Lemma frames_server_msg c msg : frames (server_msg c [] msg) = [] :: RPC_WORKER :: [command_code c] :: frames msg.
Proof. unfold server_msg. rewrite !frames_pushstr, frames_push, c_str_RPC_WORKER. by destruct c. Qed.

Lemma sendToServer_run c opt msg w : m_worker w = true ->
  sendToServer c opt msg w = (w, [WSend (server_msg c opt (default zmsg_new msg))], inr tt).
Proof. intros Hw. unfold sendToServer, mbind, CM_bind, cget. by rewrite Hw. Qed.

(** Taking a message apart. *)
Lemma popstr_frames m f fs : frames m = f :: fs -> exists m', popstr m = (f, m') /\ frames m' = fs.
Proof.
  intros Hm. pose proof (popstr_head m) as H1. pose proof (frames_popstr m) as H2. destruct (popstr m) as [s m'].
  cbn in *. rewrite Hm in *. exists m'. by subst.
Qed.
Lemma pop_frames m f fs : frames m = f :: fs -> exists m', zmsg_pop m = (Some f, m') /\ frames m' = fs.
Proof.
  intros Hm. pose proof (pop_head m) as H1. pose proof (frames_pop m) as H2. destruct (zmsg_pop m) as [s m'].
  cbn in *. rewrite Hm in *. exists m'. by subst.
Qed.
Lemma unwrap_frames m f fs : frames m = f :: [] :: fs -> exists m', zmsg_unwrap m = (Some f, m') /\ frames m' = fs.
Proof.
  intros Hm. pose proof (unwrap_head m) as H1. pose proof (frames_unwrap m) as H2. destruct (zmsg_unwrap m) as [s m'].
  cbn in *. rewrite Hm in *. exists m'. by subst.
Qed.

(** The frames of a request behind the client's envelope. *)
Definition auth_of (fs : list (list Z)) : AuthReq := match fs with [] => newAuthReq | a :: _ => parseAuth a end.

Lemma processCall_run m cmdId rest_cmd params auth w : frames m = (cmdId :: rest_cmd) :: params :: auth ->
  processCall m w = (w, [], inr (reply_to w cmdId params (auth_of auth))).
Proof.
  intros Hm. destruct (pop_frames m _ _ Hm) as (m1 & E1 & H1). destruct (popstr_frames m1 _ _ H1) as (m2 & E2 & H2).
  unfold processCall. rewrite E1. cbn [deref mbind CM_bind mret CM_ret head]. rewrite E2.
  assert ((if (0 <? zmsg_size m2)%nat then parseAuth (fst (popstr m2)) else newAuthReq) = auth_of auth) as ->.
  { rewrite size_frames, H2. destruct auth as [|a auth]; [done|]. cbn. by rewrite popstr_head, H2. }
  unfold mbind, CM_bind, cget, mret, CM_ret. cbn. unfold reply_to. rewrite <- validate_authorized.
  destruct (validatePrivilege _ _ _ _); cbn; [|done]. by destruct (processCmdMsg cmdId params).
Qed.

Lemma handleInput_request now msg client c rc params auth w :
  m_worker w = true -> client <> [] -> frames msg = [] :: RPC_WORKER :: [2] :: client :: [] :: (c :: rc) :: params :: auth ->
  handleInput now msg w =
    (w <| m_liveness := HEARTBEAT_LIVENESS |> <| m_reply_to := [] |>,
     [WSend (server_msg RPC_REPLY [] (wrap_msg client [] (reply_to w c params (auth_of auth))))], inr tt).
Proof.
  intros Hw Hc Hm. destruct (popstr_frames msg _ _ Hm) as (m1 & E1 & H1). destruct (popstr_frames m1 _ _ H1) as (m2 & E2 & H2).
  destruct (pop_frames m2 _ _ H2) as (m3 & E3 & H3). destruct (unwrap_frames m3 _ _ H3) as (m4 & E4 & H4).
  unfold handleInput, handleRequest. rewrite size_frames, Hm, E1, E2, E3, E4. cbn [length Nat.leb].
  unfold mbind, CM_bind, cmodify, assert_, mret, CM_ret. rewrite !bool_decide_eq_true_2 by done. cbn [deref Nat.eqb length head default].
  change (command_of (id 2)) with (Some RPC_REQUEST). cbn. unfold mret, CM_ret.
  rewrite (processCall_run m4 c rc params auth _ H4). cbn. unfold sendReply, mbind, CM_bind, cget, assert_, cmodify.
  cbn. rewrite bool_decide_eq_false_2 by done. cbn. by rewrite sendToServer_run.
Qed.

(** ** Silence *)
Fixpoint silent_rounds (ts : list (Z * Z * Z)) : WM unit :=
  match ts with
  | [] => mret tt
  | (now, now2, now3) :: ts => run_round now now2 now3 WPollTimeout ;; silent_rounds ts
  end.

Definition is_connect (e : worker_event) : bool := match e with WConnect _ => true | _ => false end.
Definition connects (evs : list worker_event) : Z := Z.of_nat (length (List.filter is_connect evs)).

Lemma connects_app a b : connects (a ++ b) = connects a + connects b.
Proof. unfold connects. rewrite List.filter_app, length_app. lia. Qed.

Definition connected (w : RpcWorker) : Prop :=
  m_worker w = true /\ is_Some (connect_endpoint (m_server w)) /\ 1 <= m_liveness w <= HEARTBEAT_LIVENESS.

Lemma connectToServer_run now w ep : connect_endpoint (m_server w) = Some ep ->
  exists w', connectToServer now (m_server w) w =
    (w', [WSocket (m_identity w); WConnect ep; WSend (server_msg RPC_REGISTER (m_service w) zmsg_new)], inr tt) /\
    m_server w' = m_server w /\ m_worker w' = true /\ m_liveness w' = HEARTBEAT_LIVENESS.
Proof.
  intros He. eexists. unfold connectToServer, mbind, CM_bind, cmodify, cget, cemit.
  change (connect_endpoint (m_server (w <| m_server := m_server w |> <| m_worker := true |>))) with (connect_endpoint (m_server w)).
  rewrite He. cbn [deref]. unfold mret, CM_ret. by rewrite sendToServer_run.
Qed.

Lemma heartbeat_run now2 now3 w : m_worker w = true ->
  exists w' evs, (w ← cget; if m_heartbeat_at w <? now2 then
        sendToServer RPC_HEARTBEAT [] None ;; cmodify (fun w => w <| m_heartbeat_at := now3 + m_heartbeat w * 1000 |>)
      else mret tt) w = (w', evs, inr tt) /\ connects evs = 0 /\
    m_server w' = m_server w /\ m_worker w' = m_worker w /\ m_liveness w' = m_liveness w.
Proof.
  intros Hw. unfold mbind, CM_bind, cget. destruct (_ <? _); [rewrite sendToServer_run by done|]; by eexists _, _.
Qed.

Lemma silent_round now now2 now3 w : connected w -> exists w' evs,
  run_round now now2 now3 WPollTimeout w = (w', evs, inr tt) /\ connected w' /\
  connects evs = (if m_liveness w =? 1 then 1 else 0) /\
  m_liveness w' = (if m_liveness w =? 1 then HEARTBEAT_LIVENESS else m_liveness w - 1).
Proof.
  intros (Hw & [ep He] & Hl). unfold HEARTBEAT_LIVENESS in Hl.
  assert (exists w1 t1, handleSilence now w = (w1, t1, inr tt) /\ m_server w1 = m_server w /\ m_worker w1 = true /\
    connects t1 = (if m_liveness w =? 1 then 1 else 0) /\
    m_liveness w1 = if m_liveness w =? 1 then HEARTBEAT_LIVENESS else m_liveness w - 1) as (w1 & t1 & E1 & S1 & W1 & C1 & L1).
  { unfold handleSilence, mbind, CM_bind, cmodify, cget. set (w0 := w <| m_liveness := u64 (m_liveness w - 1) |>).
    change (m_liveness w0) with (u64 (m_liveness w - 1)). rewrite u64_small by lia.
    destruct (Z.eqb_spec (m_liveness w) 1) as [H1|H1].
    - rewrite H1. unfold cemit. destruct (connectToServer_run now w0 ep He) as (w' & E & ? & ? & ?).
      change (1 - 1 =? 0) with true. cbn beta iota. rewrite E. eexists _, _. by split_and!.
    - assert (m_liveness w - 1 =? 0 = false) as -> by (apply Z.eqb_neq; lia). eexists _, _. split_and!; [done..|].
      change (u64 (m_liveness w - 1) = m_liveness w - 1). apply u64_small. lia. }
  destruct (heartbeat_run now2 now3 w1 W1) as (w2 & t2 & E2 & C2 & S2 & W2 & L2).
  exists w2, (t1 ++ t2). split; [|split; [split_and!|split]].
  - unfold run_round, mbind at 1, CM_bind at 1. rewrite E1. by rewrite E2.
  - by rewrite W2.
  - rewrite S2, S1. by exists ep.
  - rewrite L2, L1. unfold HEARTBEAT_LIVENESS. destruct (Z.eqb_spec (m_liveness w) 1); lia.
  - rewrite L2, L1. unfold HEARTBEAT_LIVENESS. destruct (Z.eqb_spec (m_liveness w) 1); lia.
  - rewrite connects_app, C1, C2. lia.
  - by rewrite L2, L1.
Qed.

(** ** Properties *)

(** A worker answers each request of the dispatcher with one reply, to the client
    that sent it: the command's result if the client's privilege reaches the one that the
    command requires (or none was given and none is needed), otherwise, without running
    the command, the error code "not authorized"; a request that does not parse is
    answered by its error code. *)
Theorem request_answered now msg client c rc params auth w : m_worker w = true -> client <> [] ->
  frames msg = [] :: RPC_WORKER :: [2] :: client :: [] :: (c :: rc) :: params :: auth ->
  exists w' r, handleInput now msg w = (w', [WSend r], inr tt) /\ m_liveness w' = HEARTBEAT_LIVENESS /\
    frames r = [] :: RPC_WORKER :: [3] :: client :: [] ::
      (if authorized w c (auth_of auth) then
         match processCmdMsg c params with
         | inr reply => frames reply
         | inl _ => [[c]; [0; 0; 0; 40]; []]
         end
       else [[c]; [0; 0; 0; 35]; []]).
Proof.
  intros Hw Hc Hm. eexists _, _. split; [by eapply handleInput_request|]. split; [done|].
  rewrite frames_server_msg, frames_wrap_msg. cbn [command_code]. do 5 f_equal. unfold reply_to.
  destruct (authorized _ _ _); [destruct (processCmdMsg c params); [|done]|]; by rewrite frames_createResponse.
Qed.

(** A worker that hears nothing registers again, on a new connection, after every
    ten silent polls, for ever, and never in between; its counter never runs below one. *)
Theorem silence_reconnects ts w : connected w ->
  exists w' evs, silent_rounds ts w = (w', evs, inr tt) /\ connected w' /\
    connects evs = (Z.of_nat (length ts) + HEARTBEAT_LIVENESS - m_liveness w) / HEARTBEAT_LIVENESS.
Proof.
  revert w. induction ts as [|[[now now2] now3] ts IH]; intros w Hw.
  - exists w, []. split; [done|]. split; [done|]. destruct Hw as (_ & _ & Hl). unfold HEARTBEAT_LIVENESS in *.
    change (connects []) with 0. cbn [length]. symmetry. apply Z.div_small. lia.
  - destruct (silent_round now now2 now3 w Hw) as (w1 & t1 & E1 & Hw1 & C1 & L1).
    destruct (IH w1 Hw1) as (w2 & t2 & E2 & Hw2 & C2). exists w2, (t1 ++ t2). split; [|split; [done|]].
    + cbn [silent_rounds]. unfold mbind, CM_bind. by rewrite E1, E2.
    + rewrite connects_app, C1, C2, L1. destruct Hw as (_ & _ & Hl). unfold HEARTBEAT_LIVENESS in *. cbn [length].
      destruct (Z.eqb_spec (m_liveness w) 1); [rewrite <- (Z.div_add_l 1) by lia; f_equal; lia|rewrite Z.add_0_l; f_equal; lia].
Qed.
End Worker.

(** ** Concrete workers *)
Module WorkerDemo.
Import CzmqList.
Definition process (cmdId : Z) (params : list Z) : unit + zmsg :=
  if cmdId =? 9 then inl tt else inr (createResponse_msg cmdId params).
Definition parse_auth (bytes : list Z) : AuthReq :=
  match bytes with [1] => mkAuthReq true VIEWER | [2] => mkAuthReq true USER | _ => mkAuthReq false NONE end.
Definition worker0 : RpcWorker :=
  newRpcWorker (text "tcp://*:9007") (text "apc") None USER (text "w") false <| m_worker := true |> <| m_liveness := 10 |>.
Definition request (auth : list (list Z)) : zmsg :=
  mkZmsg ([[]; RPC_WORKER; [2]; text "c1"; []; [4]; [7; 7]] ++ auth) None.
End WorkerDemo.
Import CzmqList.

(** A cancellation is lost when the dispatcher's disconnection is handled after it: the
    new connection clears the flag. *)
Fact cancel_lost : exists w evs, (cancel ;; run_round WorkerDemo.process WorkerDemo.parse_auth 5 5 5
    (WPollIn (mkZmsg [[]; RPC_WORKER; [5]] None))) WorkerDemo.worker0 = (w, evs, inr tt) /\ m_done w = false.
Proof. eexists _, _. vm_compute. done. Qed.

Lemma request_answered_witness :
  (exists w' r, handleInput WorkerDemo.process WorkerDemo.parse_auth 5 (WorkerDemo.request [[2]]) WorkerDemo.worker0 =
     (w', [WSend r], inr tt) /\ z_frames r = [[]; RPC_WORKER; [3]; text "c1"; []; [4]; [0; 0; 0; 0]; [7; 7]]) /\
  (exists w' r, handleInput WorkerDemo.process WorkerDemo.parse_auth 5 (WorkerDemo.request [[1]]) WorkerDemo.worker0 =
     (w', [WSend r], inr tt) /\ z_frames r = [[]; RPC_WORKER; [3]; text "c1"; []; [4]; [0; 0; 0; 35]; []]).
Proof.
  split.
  - destruct (request_answered WorkerDemo.process WorkerDemo.parse_auth 5 (WorkerDemo.request [[2]]) (text "c1") 4 [] [7; 7] [[2]]
      WorkerDemo.worker0) as (w' & r & E & _ & Hr); [reflexivity|discriminate|reflexivity|].
    exists w', r. split; [exact E|exact Hr].
  - destruct (request_answered WorkerDemo.process WorkerDemo.parse_auth 5 (WorkerDemo.request [[1]]) (text "c1") 4 [] [7; 7] [[1]]
      WorkerDemo.worker0) as (w' & r & E & _ & Hr); [reflexivity|discriminate|reflexivity|].
    exists w', r. split; [exact E|exact Hr].
Defined.

Lemma silence_reconnects_witness :
  exists w' evs, silent_rounds (zmsg_t := zmsg) WorkerDemo.process WorkerDemo.parse_auth (repeat (1, 1, 1) 25) WorkerDemo.worker0 =
    (w', evs, inr tt) /\ connects evs = 2.
Proof.
  destruct (silence_reconnects (zmsg_t := zmsg) WorkerDemo.process WorkerDemo.parse_auth (repeat (1, 1, 1) 25) WorkerDemo.worker0)
    as (w' & evs & E & _ & Hc).
  - split; [reflexivity|]. split; [|unfold HEARTBEAT_LIVENESS; cbn; lia]. exists (text "tcp://127.0.0.1:9007"). reflexivity.
  - exists w', evs. split; [exact E|exact Hc].
Defined.
