(* ===== verification/ApcWorker.v ===== *)
(** The console's commands (APInterface/rpc/APCRpcWorker.cpp, APCRpcWorker.h, apc.proto;
    common/Version.cpp; rpc/ConvertDelayStat.cpp).

    The handlers ask the coupler, the client, the transport and the serial port; what
    these answer during one command is a record [ApcApi].  A message of apc.proto is a
    value; its parser and its serializer, generated by the protocol buffer compiler, are
    parameters.  The command [AP_API] passes a message to the AP and waits for the
    response, which another thread delivers: its steps are relations of their own. *)
From stdpp Require Import base numbers list option strings gmap.
From Stdlib Require Import ZArith Lia.
From S2P Require Import Prelude Common ApcProto ApmProto ApcClient ApmTransport FmtConv Coupler ZMessage RpcProtocol RpcWorker.
From S2P Require Gps.

Local Open Scope Z_scope.

(** ** Versions *)
Definition VER_MAJOR : Z := 0.
Definition VER_MINOR : Z := 1.
Definition VER_PATCH : Z := 0.
Definition VER_BUILD : Z := 10.

(** The label is cut to a buffer of 16 bytes. *)
Definition getVersionLabel : list Z :=
  take 15 (join (text ".") (map (dec 64) [VER_MAJOR; VER_MINOR; VER_PATCH; VER_BUILD])).

(** ** Messages *)
Inductive APCCommandType : Set :=
| GET_APC_INFO | GET_AP_INFO | GET_APC_STATS | CLEAR_APC_STATS | AP_RESET | AP_API | SET_AP_CLKSRC | GET_AP_CLKSRC.

Definition apc_command_code (c : APCCommandType) : Z :=
  match c with
  | GET_APC_INFO => 1 | GET_AP_INFO => 2 | GET_APC_STATS => 3 | CLEAR_APC_STATS => 4
  | AP_RESET => 5 | AP_API => 6 | SET_AP_CLKSRC => 7 | GET_AP_CLKSRC => 8
  end.

Definition apc_command_of (z : Z) : option APCCommandType :=
  match z with
  | 1 => Some GET_APC_INFO | 2 => Some GET_AP_INFO | 3 => Some GET_APC_STATS | 4 => Some CLEAR_APC_STATS
  | 5 => Some AP_RESET | 6 => Some AP_API | 7 => Some SET_AP_CLKSRC | 8 => Some GET_AP_CLKSRC
  | _ => None
  end.

Lemma apc_command_code_of c : apc_command_of (apc_command_code c) = Some c.
Proof. by destruct c. Qed.

Record DelayStatItem : Set := mkDelayStatItem { dsi_threshold : Z; dsi_numEvents : Z }.
Record DelayStat : Set := mkDelayStat {
  ds_delays : list DelayStatItem;
  ds_outThresholdEvents : DelayStatItem;
  ds_maxDelay : Z;       (** microseconds; the code divides by 1000.0 *)
  ds_numEvents : Z
}.

Definition convertDelayItem (e : numthevent_s) : DelayStatItem := mkDelayStatItem (Z.quot (m_threshold e) 1000) (m_number e).
Definition convertDelayStat (stat : CStatDelaysCalc) : DelayStat :=
  mkDelayStat (map convertDelayItem (sd_threshold stat)) (convertDelayItem (sd_numOutThresholds stat))
    (sd_maxDelay stat) (sd_allEvents stat).

Record APCInfoResp : Set := mkAPCInfoResp {
  clientId : list Z; managerState : Z; managerHost : list Z; managerPort : Z;
  gpsState : Z; gpsSatsUsed : Z; gpsSatsVisible : Z; apcVersion : list Z
}.
Record APInfoResp : Set := mkAPInfoResp { macAddr : list Z; networkid : Z; clksource : Z; appVer : list Z; apState : Z }.
Record MgrStats : Set := mkMgrStats { mgrQueueLen : Z; mgrPktSent : Z; mgrPktRecv : Z; toMngr : DelayStat }.
Record ApStats : Set := mkApStats {
  apQueueLen : Z; apMinResp : Z; apMaxResp : Z; apAvgResp : Z;
  apPktsSent : Z; apPktsRecv : Z; apRetriesSent : Z; apRespRecv : Z; apNackRecv : Z; apMaxNackCount : Z; apRetriesRecv : Z;
  apMinTimeInQueue : Z; apMaxTimeInQueue : Z; apAvgTimeInQueue : Z;
  toAP : DelayStat; fromAP : DelayStat; numOutBuffers : Z;
  apCurrPktRate : Z; ap30secPktRate : Z; ap5minPktRate : Z;
  apAvgPktRate : Z * Z        (** of these two the code sends the quotient, a [double] *)
}.

Inductive apc_response : Set :=
| RspAPCInfo (r : APCInfoResp)
| RspAPInfo (r : APInfoResp)
| RspAPCStats (mgr : option MgrStats) (ap : option ApStats)
| RspAP_API (cmdId : Z) (response : list Z)
| RspGetClkSrc (clkSrc : list Z).

(** ** What the handlers ask *)
Record ApcApi : Type := mkApcApi {
  aa_clientState : apcclient_state_t;
  aa_host : list Z;
  aa_port : Z;
  aa_coupler : CAPCoupler;
  aa_mgrCachedPkts : Z;
  aa_numRcvPkt : Z;
  aa_sendStat : CStatDelaysCalc;
  aa_apmStats : APMTStats;
  aa_apmQueueSize : Z;
  aa_statToAP : CStatDelaysCalc;
  aa_statFromAP : CStatDelaysCalc;
  aa_numOutBuffers : Z
}.

Definition client_state_code (s : apcclient_state_t) : Z :=
  match s with APCCLIENT_STATE_INIT => 0 | APCCLIENT_STATE_ONLINE => 1 | APCCLIENT_STATE_OFFLINE => 2 | APCCLIENT_STATE_DISCONNECT => 3 end.
Definition gps_status_code (s : Gps.gps_status_t) : Z :=
  match s with Gps.GPS_ST_NO_DEVICE => 0 | Gps.GPS_ST_NO_SYNC => 1 | Gps.GPS_ST_SYNC => 2 | Gps.GPS_ST_CONN_LOST => 3 end.

Definition ClkSourceToInt (apClkSrc : EAPClockSource) : Z :=
  if bool_decide (apClkSrc = PPS) then DN_API_AP_CLK_SOURCE_PPS else DN_API_AP_CLK_SOURCE_AUTO.

(** Text of the clock source: bytes in any case. *)
Definition toupper (c : Z) : Z := if (ch_a <=? c) && (c <=? 122) then c - 32 else c.
Definition as_string (s : list Z) : string :=
  String.string_of_list_ascii (map (fun c => Ascii.ascii_of_N (Z.to_N (u8 c))) s).
Definition clkSrcOf (str : list Z) : option EAPClockSource := clkSrcStringToEnum (as_string (map toupper str)).

(** ** The worker *)

(** The configuration file: the options that it sets; [None] if it cannot be read. *)
Notation conf_t := (option (gmap (list Z) (list Z))).

Inductive handler_exn : Set := EParse | EIni.

Inductive aw_event : Set :=
| AwClearAPMStats | AwClearMgrStats | AwResetAP
| AwWriteConf (conf : gmap (list Z) (list Z))
| AwSetClockSource (src : EAPClockSource).

Record AwConf : Type := mkAwConf { aw_Id : list Z; aw_conf : conf_t }.
#[export] Instance AwConf_eta : Eta AwConf := fun w => mkAwConf (aw_Id w) (aw_conf w).

Notation AWM := (M AwConf aw_event).

Section Handlers.
Context {zmsg_t : Type} `{CZMQ zmsg_t}.

(** [parseEmpty] of the requests without fields; [None]: it does not parse. *)
Context (ser : apc_response -> list Z) (parseEmpty : list Z -> bool)
  (parseSetClkSrc : list Z -> option (list Z)) (parseAP_API : list Z -> option (Z * list Z)).

(** The two forms of [createResponse]. *)
Definition respond (c : APCCommandType) (r : apc_response) : zmsg_t := createResponse_msg (apc_command_code c) (ser r).
Definition respond_code (c : APCCommandType) (code : RpcResult) (txt : list Z) : zmsg_t := createResponse (apc_command_code c) code txt.

Notation result_t := (handler_exn + zmsg_t)%type.

Definition handleAPCInfo (api : ApcApi) (request : list Z) : AWM result_t :=
  w ← get;
  if negb (parseEmpty request) then mret (inl EParse)
  else
    let c := aa_coupler api in
    mret (inr (respond GET_APC_INFO (RspAPCInfo (mkAPCInfoResp (aw_Id w) (client_state_code (aa_clientState api))
      (aa_host api) (u32 (aa_port api)) (gps_status_code (m_cur_gps_status c)) (u32 (satellites_used (m_gps_info c)))
      (u32 (satellites_visible (m_gps_info c))) getVersionLabel)))).

(** Version: three bytes and a number of two bytes, the more significant one first. *)
Definition appVersionText (v : list Z) : list Z :=
  let b i := default 0 (v !! i) in
  join (text ".") (map (dec 64) [b 0%nat; b 1%nat; b 2%nat; u16 (Z.shiftl (b 3%nat) 8 + b 4%nat)]).

Definition handleAPInfo (api : ApcApi) (request : list Z) : AWM result_t :=
  if negb (parseEmpty request) then mret (inl EParse)
  else
    let c := aa_coupler api in
    if m_apConnected c then
      let i := m_apInfo c in
      mret (inr (respond GET_AP_INFO (RspAPInfo (mkAPInfoResp (ai_mac i) (ai_networkId i) (ClkSourceToInt (m_apClkSource c))
        (appVersionText (ai_appVersion i)) (ai_apState i)))))
    else mret (inr (respond_code GET_AP_INFO RPC_OK [])).

(** [uint32_t] of a quotient, or zero. *)
Definition average (total n : Z) : Z := if 0 <? n then u32 (total / n) else 0.

Definition ap_stats (api : ApcApi) : ApStats :=
  let s := aa_apmStats api in
  mkApStats (u32 (aa_apmQueueSize api)) (u32 (m_minRspTime s)) (u32 (m_maxRspTime s)) (average (m_totalRspTime s) (m_numRespRecv s))
    (m_numPktsSent s) (m_numPktsRecv s) (m_numRetriesSent s) (m_numRespRecv s) (m_numNacks s) (m_maxNackCount s) (m_numRetriesRecv s)
    (u32 (m_minTimeInQueue s)) (u32 (m_maxTimeInQueue s)) (average (m_totalTimeInQueue s) (m_numPacketsQueued s))
    (convertDelayStat (aa_statToAP api)) (convertDelayStat (aa_statFromAP api)) (u32 (aa_numOutBuffers api))
    (m_packetRate s) (m_30secPacketRate s) (m_5minPacketRate s)
    (u32 (m_numPktsRecv s - m_numRespRecv s), m_totalSecs s).

Definition mgr_stats (api : ApcApi) : MgrStats :=
  mkMgrStats (u32 (aa_mgrCachedPkts api)) (u32 (sd_allEvents (aa_sendStat api))) (aa_numRcvPkt api) (convertDelayStat (aa_sendStat api)).

Definition handleGetStats (api : ApcApi) (request : list Z) : AWM result_t :=
  if negb (parseEmpty request) then mret (inl EParse)
  else
    let managerConnected := bool_decide (aa_clientState api = APCCLIENT_STATE_ONLINE) in
    let apConnected := m_apConnected (aa_coupler api) in
    mret (inr (respond GET_APC_STATS (RspAPCStats
      (if managerConnected then Some (mgr_stats api) else None) (if apConnected then Some (ap_stats api) else None)))).

Definition handleClearStats : AWM result_t :=
  emit AwClearAPMStats ;; emit AwClearMgrStats ;; mret (inr (respond_code CLEAR_APC_STATS RPC_OK [])).

Definition handleResetAP : AWM result_t := emit AwResetAP ;; mret (inr (respond_code AP_RESET RPC_OK [])).

Definition AP_CLOCK_SOURCE : list Z := text "ap-clock-source".

Definition handleSetAPClkSrc (request : list Z) : AWM result_t :=
  match parseSetClkSrc request with
  | None => mret (inl EParse)
  | Some clkSrcStr =>
      w ← get;
      match aw_conf w with
      | None => mret (inl EIni)
      | Some pt =>
          let oldClkSrcStr := default (text "AUTO") (pt !! AP_CLOCK_SOURCE) in
          match clkSrcOf clkSrcStr with
          | None => mret (inr (respond_code SET_AP_CLKSRC RPC_INVALID_PARAMETERS (text "Should be GPS or AUTO")))
          | Some apClkSource =>
              when (negb (bool_decide (oldClkSrcStr = clkSrcStr)))
                (let pt := <[AP_CLOCK_SOURCE := clkSrcStr]> pt in
                 modify (fun w => w <| aw_conf := Some pt |>) ;;
                 emit (AwWriteConf pt) ;;
                 emit (AwSetClockSource apClkSource)) ;;
              mret (inr (respond_code SET_AP_CLKSRC RPC_OK []))
          end
      end
  end.

Definition handleGetAPClkSrc (api : ApcApi) : AWM result_t :=
  mret (inr (respond GET_AP_CLKSRC (RspGetClkSrc (text (clkSrcEnumToString (m_apClkSource (aa_coupler api))))))).

(** [response]: what the wait for the AP ends with, see the steps below. *)
Definition handleAP_API (response : option (list Z)) (request : list Z) : AWM result_t :=
  match parseAP_API request with
  | None => mret (inl EParse)
  | Some (cmdId, _) =>
      match response with
      | Some r => mret (inr (respond AP_API (RspAP_API cmdId r)))
      | None => mret (inr (respond_code AP_API RPC_OK []))
      end
  end.

Definition processCmdMsg (api : ApcApi) (response : option (list Z)) (cmdId : Z) (params : list Z) : AWM result_t :=
  match apc_command_of cmdId with
  | Some GET_APC_INFO => handleAPCInfo api params
  | Some GET_AP_INFO => handleAPInfo api params
  | Some GET_APC_STATS => handleGetStats api params
  | Some CLEAR_APC_STATS => handleClearStats
  | Some AP_RESET => handleResetAP
  | Some AP_API => handleAP_API response params
  | Some SET_AP_CLKSRC => handleSetAPClkSrc params
  | Some GET_AP_CLKSRC => handleGetAPClkSrc api
  | None => mret (inr (createResponse cmdId RPC_INVALID_COMMAND []))
  end.
End Handlers.

(** ** [AP_API]: a message to the AP and its response

    Commands have names, numbers in their order.  The worker's thread resets, sends and
    waits; the callback of a command stores the response and then signals; the wait ends
    with a signal or after [AP_RESPONSE_TIMEOUT] milliseconds. *)
Definition AP_RESPONSE_TIMEOUT : Z := 20000.

Inductive aa_pc : Set := AaIdle | AaWait (n : nat) (cmdId : Z).

Record AApi : Set := mkAApi {
  m_apAPIResponse : list Z;
  m_isRespReceived : bool;
  aa_where : aa_pc;
  aa_open : list nat;       (** sent commands whose callback has not been called *)
  aa_signals : nat;         (** callbacks between the store and the signal *)
  aa_next : nat
}.
#[export] Instance AApi_eta : Eta AApi := fun a =>
  mkAApi (m_apAPIResponse a) (m_isRespReceived a) (aa_where a) (aa_open a) (aa_signals a) (aa_next a).

Definition newAApi : AApi := mkAApi [] false AaIdle [] 0 0.

(** The reply of command [n]: with a response or only [RPC_OK]. *)
Inductive aa_event : Set :=
| AeSend (n : nat) (cmdId : Z) (payload : list Z)
| AeStored (n : nat) (resBuffer : list Z)
| AeReply (n : nat) (cmdId : Z) (response : option (list Z)).

Notation AAM := (M AApi aa_event).

(** [queued]: [sendCmd] accepted the message; its result is not looked at. *)
Definition handleAP_API_begin (isAPConnected queued : bool) (cmdId : Z) (payload : list Z) : AAM unit :=
  a ← get;
  let n := aa_next a in
  modify (fun a => a <| aa_next := S n |>) ;;
  if bool_decide (payload <> []) && isAPConnected then
    modify (fun a => a <| m_isRespReceived := false |> <| m_apAPIResponse := [] |>) ;;
    emit (AeSend n cmdId payload) ;;
    modify (fun a => a <| aa_open := (if queued then [n] else []) ++ aa_open a |> <| aa_where := AaWait n cmdId |>)
  else emit (AeReply n cmdId None).

(** Behind the wait. *)
Definition handleAP_API_end : AAM unit :=
  a ← get;
  match aa_where a with
  | AaWait n cmdId =>
      modify (fun a => a <| aa_where := AaIdle |>) ;;
      emit (AeReply n cmdId (if bool_decide (m_apAPIResponse a <> []) then Some (m_apAPIResponse a) else None))
  | AaIdle => mret tt
  end.

(** The callback, up to its lock and behind it. *)
Definition handleAP_APIResponse_store (n : nat) (resBuffer : list Z) : AAM unit :=
  emit (AeStored n resBuffer) ;;
  modify (fun a => a <| m_apAPIResponse := resBuffer |> <| aa_open := filter (fun k => k <> n) (aa_open a) |> <| aa_signals := S (aa_signals a) |>).

Definition handleAP_APIResponse_signal : AAM unit :=
  modify (fun a => a <| m_isRespReceived := true |> <| aa_signals := pred (aa_signals a) |>).

Inductive aa_op : Set :=
| AoCall (isAPConnected queued : bool) (cmdId : Z) (payload : list Z)
| AoStore (n : nat) (resBuffer : list Z)
| AoSignal
| AoWake
| AoTimeout.

Definition aa_exec (op : aa_op) : AAM unit :=
  match op with
  | AoCall conn queued cmdId payload => handleAP_API_begin conn queued cmdId payload
  | AoStore n buf => handleAP_APIResponse_store n buf
  | AoSignal => handleAP_APIResponse_signal
  | AoWake | AoTimeout => handleAP_API_end
  end.

Definition aa_waits (a : AApi) : bool := match aa_where a with AaWait _ _ => true | AaIdle => false end.

Definition aa_enabled (op : aa_op) (a : AApi) : bool :=
  match op with
  | AoCall _ _ _ _ => negb (aa_waits a)
  | AoStore n _ => bool_decide (n ∈ aa_open a)
  | AoSignal => (0 <? aa_signals a)%nat
  | AoWake => aa_waits a && m_isRespReceived a
  | AoTimeout => aa_waits a
  end.

(** A command begins when the callbacks of all earlier ones have been called. *)
Definition aa_settled (op : aa_op) (a : AApi) : bool :=
  match op with AoCall _ _ _ _ => bool_decide (aa_open a = []) | _ => true end.

Inductive aa_reach : list aa_event -> AApi -> Prop :=
| aa_new : aa_reach [] newAApi
| aa_step tr a op : aa_reach tr a -> aa_enabled op a = true -> aa_settled op a = true ->
    aa_reach (tr ++ out_of (aa_exec op) a) (st_of (aa_exec op) a).

Record aa_inv (tr : list aa_event) (a : AApi) : Prop := {
  av_own : forall n c, aa_where a = AaWait n c -> m_apAPIResponse a <> [] -> AeStored n (m_apAPIResponse a) ∈ tr;
  av_open : forall k, k ∈ aa_open a -> S k = aa_next a;
  av_wait : forall n c, aa_where a = AaWait n c -> S n = aa_next a /\ exists p, AeSend n c p ∈ tr;
  av_reply : forall n c r, AeReply n c (Some r) ∈ tr -> AeStored n r ∈ tr /\ exists p, AeSend n c p ∈ tr
}.

Lemma aa_inv_more tr e a : aa_inv tr a -> (forall n c r, e <> AeReply n c (Some r)) -> aa_inv (tr ++ [e]) a.
Proof.
  intros [H1 H2 H3 H4] He. split; [..|].
  - intros n c Hw Hr. apply elem_of_app. left. by eapply H1.
  - done.
  - intros n c Hw. destruct (H3 n c Hw) as (Hn & p & Hp). split; [done|]. exists p. apply elem_of_app. by left.
  - intros n c r [Hi|Hi%list_elem_of_singleton]%elem_of_app; [|by destruct (He n c r)].
    destruct (H4 n c r Hi) as (Hs & p & Hp). split; [apply elem_of_app; by left|]. exists p. apply elem_of_app. by left.
Qed.

Lemma aa_begin_inv tr a conn queued cmdId payload : aa_inv tr a -> aa_open a = [] -> aa_where a = AaIdle ->
  aa_inv (tr ++ out_of (handleAP_API_begin conn queued cmdId payload) a) (st_of (handleAP_API_begin conn queued cmdId payload) a).
Proof.
  intros Hinv Ho Hw. unfold handleAP_API_begin, st_of, out_of; runM. destruct (bool_decide (payload <> []) && conn); cbn.
  - assert (Hinv' : aa_inv (tr ++ [AeSend (aa_next a) cmdId payload]) a) by (by apply aa_inv_more).
    destruct Hinv' as [H1 H2 H3 H4]. split; cbn; [done| | |done].
    + rewrite Ho, app_nil_r. intros k. destruct queued; [by intros ->%list_elem_of_singleton|by intros ?%elem_of_nil].
    + intros n c [= <- <-]. split; [done|]. exists payload. apply elem_of_app. right. by apply list_elem_of_singleton.
  - assert (Hinv' : aa_inv (tr ++ [AeReply (aa_next a) cmdId None]) a) by (by apply aa_inv_more).
    destruct Hinv' as [H1 H2 H3 H4]. split; cbn; [by rewrite Hw|by rewrite Ho; intros k ?%elem_of_nil|by rewrite Hw|done].
Qed.

Lemma aa_end_inv tr a : aa_inv tr a -> aa_inv (tr ++ out_of handleAP_API_end a) (st_of handleAP_API_end a).
Proof.
  intros Hinv. unfold handleAP_API_end, st_of, out_of; runM. destruct (aa_where a) as [|n c] eqn:Hw; cbn; [by rewrite app_nil_r|].
  destruct Hinv as [H1 H2 H3 H4]. split; cbn; try done.
  intros n' c' r [Hi|Hi%list_elem_of_singleton]%elem_of_app.
  - destruct (H4 n' c' r Hi) as (Hs & p & Hp). split; [apply elem_of_app; by left|]. exists p. apply elem_of_app. by left.
  - case_bool_decide as Hne; [|done]. injection Hi as -> -> ->.
    split; [apply elem_of_app; left; by eapply H1|]. destruct (H3 n c Hw) as (_ & p & Hp). exists p. apply elem_of_app. by left.
Qed.

Lemma aa_store_inv tr a n buf : aa_inv tr a -> n ∈ aa_open a ->
  aa_inv (tr ++ out_of (handleAP_APIResponse_store n buf) a) (st_of (handleAP_APIResponse_store n buf) a).
Proof.
  intros Hinv Hn. unfold handleAP_APIResponse_store, st_of, out_of; runM. cbn.
  assert (Hinv' : aa_inv (tr ++ [AeStored n buf]) a) by (by apply aa_inv_more).
  destruct Hinv' as [H1 H2 H3 H4]. split; cbn; [| |done|done].
  - intros m c Hw _. destruct (H3 m c Hw) as [Hm _]. pose proof (H2 n Hn) as Hn'. assert (m = n) as -> by lia.
    apply elem_of_app. right. by apply list_elem_of_singleton.
  - intros k [_ Hk]%list_elem_of_filter. by apply H2.
Qed.

Lemma aa_reach_inv tr a : aa_reach tr a -> aa_inv tr a.
Proof.
  induction 1 as [|tr a op Hr IH Hen Hset].
  { split; cbn; [done|by intros k ?%elem_of_nil|done|by intros n c r ?%elem_of_nil]. }
  destruct op as [conn queued c p|n buf| | |]; cbn [aa_exec]; cbn in Hen, Hset.
  - apply aa_begin_inv; [done|by apply bool_decide_eq_true in Hset|]. unfold aa_waits in Hen. by destruct (aa_where a).
  - apply aa_store_inv; [done|by apply bool_decide_eq_true in Hen].
  - destruct IH as [H1 H2 H3 H4]. unfold handleAP_APIResponse_signal, st_of, out_of; runM. rewrite app_nil_r. by split.
  - by apply aa_end_inv.
  - by apply aa_end_inv.
Qed.

(** C29: the console never gets the response of another command: if a command is only sent
    when the callbacks of the earlier ones have been called, then a response that is
    sent to the console with the number of a command was stored by the callback of this
    command, which had been sent to the AP; in any interleaving of the worker, the
    callbacks and the time-outs. *)
Theorem api_response_own (tr : list aa_event) (a : AApi) (n : nat) (c : Z) (r : list Z) (Hr : aa_reach tr a)
    (Hreply : AeReply n c (Some r) ∈ tr) :
  AeStored n r ∈ tr /\ exists p, AeSend n c p ∈ tr.
Proof. by apply (av_reply _ _ (aa_reach_inv tr a Hr)). Qed.

Definition aa_run (ops : list aa_op) : list aa_event * AApi :=
  fold_left (fun x op => (x.1 ++ out_of (aa_exec op) x.2, st_of (aa_exec op) x.2)) ops ([], newAApi).

Fixpoint aa_legal (ops : list aa_op) (a : AApi) : bool :=
  match ops with [] => true | op :: ops => aa_enabled op a && aa_settled op a && aa_legal ops (st_of (aa_exec op) a) end.

Lemma aa_run_reach ops tr a : aa_reach tr a -> aa_legal ops a = true ->
  let x := fold_left (fun x op => (x.1 ++ out_of (aa_exec op) x.2, st_of (aa_exec op) x.2)) ops (tr, a) in aa_reach x.1 x.2.
Proof.
  revert tr a. induction ops as [|op ops IH]; intros tr a Hr Hl; [done|]. cbn in Hl. apply andb_prop in Hl as [[H1 H2]%andb_prop Hl].
  cbn [fold_left fst snd]. apply IH; [by apply aa_step|done].
Qed.

Definition aa_demo : list aa_op :=
  [AoCall true true 3 [1; 2]; AoStore 0 [0; 7]; AoSignal; AoWake; AoCall true false 4 [5]; AoTimeout].

Lemma api_response_own_witness : AeStored 0 [0; 7] ∈ (aa_run aa_demo).1 /\ exists p, AeSend 0 3 p ∈ (aa_run aa_demo).1.
Proof.
  apply (api_response_own (aa_run aa_demo).1 (aa_run aa_demo).2 0 3 [0; 7]).
  - apply (aa_run_reach aa_demo [] newAApi); [apply aa_new|reflexivity].
  - apply list_elem_of_In. vm_compute. tauto.
Defined.

(** Without that order: the first command times out, its response comes while the second
    one waits and is sent to the console as the response of the second. *)
Fact stale_response :
  AeReply 1 4 (Some [0; 7]) ∈ (aa_run [AoCall true true 3 [1; 2]; AoTimeout; AoCall true true 4 [5]; AoStore 0 [0; 7]; AoSignal; AoWake]).1.
Proof. apply list_elem_of_In. vm_compute. tauto. Qed.

(** A command that the transport does not accept, its queue being full, makes the console
    wait for the whole time-out. *)
Fact refused_command_waits :
  let a := (aa_run [AoCall true false 3 [1]]).2 in
  aa_open a = [] /\ m_isRespReceived a = false /\ forall op, aa_enabled op a = true -> op = AoTimeout.
Proof. split_and!; [done..|]. by intros [] Hop. Qed.

(** ** Facts about the handlers *)
Section Replies.
Context {zmsg_t : Type} `{CZMQ_laws zmsg_t}.
Context (ser : apc_response -> list Z) (parseEmpty : list Z -> bool) (parseSetClkSrc : list Z -> option (list Z))
  (parseAP_API : list Z -> option (Z * list Z)).

Lemma frames_createResponse_msg cmdId bytes :
  frames (createResponse_msg cmdId bytes : zmsg_t) = [[cmdId]; le_bytes 4 (htonl (u32 (result_code RPC_OK))); bytes].
Proof. unfold createResponse_msg, serialize2zmsg. by rewrite frames_add, frames_addint, frames_push, frames_new. Qed.

(** The form of a reply to [cmdId]. *)
Definition answers (cmdId : Z) (reply : zmsg_t) : Prop :=
  exists code body, frames reply = [[cmdId]; le_bytes 4 (htonl (u32 (result_code code))); body].

Lemma answers_respond c r : answers (apc_command_code c) (respond ser c r).
Proof. eexists RPC_OK, _. apply frames_createResponse_msg. Qed.
Lemma answers_code cmdId code txt : answers cmdId (createResponse cmdId code txt).
Proof. eexists code, _. apply frames_createResponse. Qed.
Hint Resolve answers_respond answers_code : core.

Lemma apc_command_of_code z c : apc_command_of z = Some c -> z = apc_command_code c.
Proof. unfold apc_command_of. intros E. repeat case_match; try done; by injection E as <-. Qed.

Lemma handleSetAPClkSrc_run request w :
  handleSetAPClkSrc parseSetClkSrc request w =
  match parseSetClkSrc request, aw_conf w with
  | None, _ => (w, [], inl EParse)
  | _, None => (w, [], inl EIni)
  | Some s, Some pt =>
      match clkSrcOf s with
      | None => (w, [], inr (respond_code SET_AP_CLKSRC RPC_INVALID_PARAMETERS (text "Should be GPS or AUTO")))
      | Some src =>
          if bool_decide (default (text "AUTO") (pt !! AP_CLOCK_SOURCE) = s) then (w, [], inr (respond_code SET_AP_CLKSRC RPC_OK []))
          else (mkAwConf (aw_Id w) (Some (<[AP_CLOCK_SOURCE := s]> pt)),
                [AwWriteConf (<[AP_CLOCK_SOURCE := s]> pt); AwSetClockSource src],
                inr (respond_code SET_AP_CLKSRC RPC_OK []) : handler_exn + zmsg_t)
      end
  end.
Proof.
  unfold handleSetAPClkSrc. destruct (parseSetClkSrc request) as [s|]; [|done]. runM. destruct (aw_conf w) as [pt|]; [|done].
  destruct (clkSrcOf s) as [src|]; [|done]. by destruct (bool_decide _).
Qed.

(** A reply or an exception; the second only for a request that does not parse or if the
    configuration file cannot be read. *)
Definition console_outcome (conf : conf_t) (cmdId : Z) (r : handler_exn + zmsg_t) : Prop :=
  match r with
  | inr reply => answers cmdId reply
  | inl EParse => is_Some (apc_command_of cmdId)
  | inl EIni => cmdId = apc_command_code SET_AP_CLKSRC /\ conf = None
  end.

(** Handlers that change nothing. *)
Definition quiet (h : AWM (handler_exn + zmsg_t)) (cmdId : Z) (w : AwConf) : Prop :=
  exists r, h w = (w, [], r) /\ console_outcome (aw_conf w) cmdId r.

Lemma quiet_outcome h cmdId w (P : Prop) : quiet h cmdId w -> console_outcome (aw_conf w) cmdId (res_of h w) /\ (P -> out_of h w = [] /\ st_of h w = w).
Proof. intros (r & E & Ho). unfold res_of, out_of, st_of. by rewrite E. Qed.

Lemma quiet_reply h cmdId w reply : h w = (w, [], inr reply) -> answers cmdId reply -> quiet h cmdId w.
Proof. intros E Ha. by exists (inr reply). Qed.

Lemma quiet_parse h c w : h w = (w, [], inl EParse) -> quiet h (apc_command_code c) w.
Proof. intros E. exists (inl EParse). split; [done|]. cbn. rewrite apc_command_code_of. eauto. Qed.

Lemma handleAPCInfo_quiet api params w : quiet (handleAPCInfo ser parseEmpty api params) (apc_command_code GET_APC_INFO) w.
Proof.
  destruct (parseEmpty params) eqn:Hp.
  - eapply quiet_reply; [unfold handleAPCInfo; runM; by rewrite Hp|apply answers_respond].
  - apply quiet_parse. unfold handleAPCInfo. runM. by rewrite Hp.
Qed.
Lemma handleAPInfo_quiet api params w : quiet (handleAPInfo ser parseEmpty api params) (apc_command_code GET_AP_INFO) w.
Proof.
  destruct (parseEmpty params) eqn:Hp.
  - destruct (m_apConnected (aa_coupler api)) eqn:Hc.
    + eapply quiet_reply; [unfold handleAPInfo; by rewrite Hp, Hc|apply answers_respond].
    + eapply quiet_reply; [unfold handleAPInfo; by rewrite Hp, Hc|apply answers_code].
  - apply quiet_parse. unfold handleAPInfo. by rewrite Hp.
Qed.
Lemma handleGetStats_quiet api params w : quiet (handleGetStats ser parseEmpty api params) (apc_command_code GET_APC_STATS) w.
Proof.
  destruct (parseEmpty params) eqn:Hp.
  - eapply quiet_reply; [unfold handleGetStats; by rewrite Hp|apply answers_respond].
  - apply quiet_parse. unfold handleGetStats. by rewrite Hp.
Qed.

Lemma handleAP_API_quiet response params w : quiet (handleAP_API ser parseAP_API response params) (apc_command_code AP_API) w.
Proof.
  unfold handleAP_API. destruct (parseAP_API params) as [[cmdId payload]|]; [|by apply quiet_parse].
  destruct response; eapply quiet_reply; [done|apply answers_respond|done|apply answers_code].
Qed.

Lemma handleSetAPClkSrc_outcome params w :
  console_outcome (aw_conf w) (apc_command_code SET_AP_CLKSRC) (res_of (handleSetAPClkSrc parseSetClkSrc params) w).
Proof.
  unfold res_of. rewrite handleSetAPClkSrc_run. destruct (parseSetClkSrc params) as [s|]; [|by cbn; eauto].
  destruct (aw_conf w) as [pt|]; [|done]. destruct (clkSrcOf s); [destruct (bool_decide _)|]; apply answers_code.
Qed.

Definition changing (cmdId : Z) : bool :=
  match apc_command_of cmdId with Some (CLEAR_APC_STATS | AP_RESET | SET_AP_CLKSRC) => true | _ => false end.

(** Every command of the console, known or not, is answered by one reply that carries
    its number and a result code.  The exceptions: a request that does not parse, and
    [SET_AP_CLKSRC] without a readable configuration file.  Commands other than
    [CLEAR_APC_STATS], [AP_RESET] and [SET_AP_CLKSRC] change nothing. *)
Theorem console_answered (api : ApcApi) (response : option (list Z)) (cmdId : Z) (params : list Z) (w : AwConf) :
  let run := processCmdMsg ser parseEmpty parseSetClkSrc parseAP_API api response cmdId params in
  console_outcome (aw_conf w) cmdId (res_of run w) /\
  (changing cmdId = false -> out_of run w = [] /\ st_of run w = w).
Proof.
  unfold processCmdMsg, changing. destruct (apc_command_of cmdId) as [c|] eqn:Hc; [|by apply quiet_outcome; eapply quiet_reply, answers_code].
  pose proof (apc_command_of_code _ _ Hc) as ->.
  destruct c; try (split; [apply answers_code || apply handleSetAPClkSrc_outcome|done]); apply quiet_outcome;
    auto using handleAPCInfo_quiet, handleAPInfo_quiet, handleGetStats_quiet, handleAP_API_quiet.
  eapply quiet_reply; [done|apply answers_respond].
Qed.

(** ** The clock source *)

(** The coupler has the source that the configuration file gives. *)
Definition agree (pt : gmap (list Z) (list Z)) (c : CAPCoupler) : Prop :=
  clkSrcOf (default (text "AUTO") (pt !! AP_CLOCK_SOURCE)) = Some (m_apClkSource c).

(** What the coupler does with the worker's calls. *)
Definition coupler_after (evs : list aw_event) (c : CAPCoupler) : CAPCoupler :=
  fold_left (fun c e => match e with AwSetClockSource src => st_of (setClockSrource src) c | _ => c end) evs c.

Lemma setClockSrource_source src c : m_apClkSource (st_of (setClockSrource src) c) = src.
Proof. unfold setClockSrource, st_of. runM. destruct (decide (src = m_apClkSource c)); [done|]. by destruct c. Qed.

Lemma chr_ascii_of_byte b : is_byte b -> chr (Ascii.ascii_of_N (Z.to_N (u8 b))) = b.
Proof.
  intros Hb. unfold is_byte in Hb. unfold chr, u8, wrap. rewrite Z.mod_small by lia.
  rewrite Ascii.N_ascii_embedding; lia.
Qed.

Lemma text_as_string l : Forall is_byte l -> text (as_string l) = l.
Proof.
  intros Hl. unfold text, as_string. rewrite String.list_ascii_of_string_of_list_ascii, map_map.
  induction Hl as [|b l Hb Hl IH]; [done|]. cbn. by rewrite chr_ascii_of_byte, IH.
Qed.

Lemma toupper_byte b : is_byte b -> is_byte (toupper b).
Proof. unfold is_byte, toupper, ch_a. intros Hb. case_match; lia. Qed.

Lemma upper_bytes s : Forall is_byte s -> Forall is_byte (map toupper s).
Proof. induction 1; constructor; auto using toupper_byte. Qed.

Lemma clkSrcOf_text s src : Forall is_byte s -> clkSrcOf s = Some src -> text (clkSrcEnumToString src) = map toupper s.
Proof.
  intros Hs%upper_bytes. rewrite <- (text_as_string _ Hs) at 1. unfold clkSrcOf, clkSrcStringToEnum.
  destruct (String.eqb_spec (as_string (map toupper s)) "GPS") as [->|_]; [by intros [= <-]|].
  destruct (String.eqb_spec (as_string (map toupper s)) "AUTO") as [->|_]; [by intros [= <-]|done].
Qed.

(** The console reads back what it has set: while the coupler's clock source is the one
    of the configuration file, [SET_AP_CLKSRC] with a source, in upper or lower case, is
    accepted, the coupler then has that source and again agrees with the file, and
    [GET_AP_CLKSRC] returns its name in upper case. *)
Theorem clock_source_set_get (api : ApcApi) (params s : list Z) (src : EAPClockSource) (w : AwConf) (pt : gmap (list Z) (list Z))
    (Hparse : parseSetClkSrc params = Some s) (Hbytes : Forall is_byte s) (Hsrc : clkSrcOf s = Some src)
    (Hconf : aw_conf w = Some pt) (Hagree : agree pt (aa_coupler api)) :
  let set := handleSetAPClkSrc parseSetClkSrc params : AWM (handler_exn + zmsg_t) in
  let c' := coupler_after (out_of set w) (aa_coupler api) in
  res_of set w = inr (respond_code SET_AP_CLKSRC RPC_OK []) /\
  m_apClkSource c' = src /\ (exists pt', aw_conf (st_of set w) = Some pt' /\ agree pt' c') /\
  forall api', aa_coupler api' = c' ->
    res_of (handleGetAPClkSrc ser api' : AWM (handler_exn + zmsg_t)) (st_of set w) = inr (respond ser GET_AP_CLKSRC (RspGetClkSrc (map toupper s))).
Proof.
  cbv zeta. unfold st_of, out_of, res_of. rewrite handleSetAPClkSrc_run, Hparse, Hconf, Hsrc.
  case_bool_decide as Hold; cbn [fst snd coupler_after fold_left aw_conf].
  - unfold agree in Hagree. rewrite Hold, Hsrc in Hagree. injection Hagree as Hagree. split_and!; [done|done| |].
    + exists pt. split; [done|]. unfold agree. by rewrite Hold, Hsrc, Hagree.
    + intros api' Hc. unfold handleGetAPClkSrc. rewrite Hc, <- Hagree, (clkSrcOf_text s src) by done. done.
  - unfold out_of. cbn [fst snd fold_left]. rewrite setClockSrource_source. split_and!; [done|done| |].
    + eexists. split; [done|]. unfold agree. by rewrite lookup_insert_eq, setClockSrource_source.
    + intros api' Hc. unfold handleGetAPClkSrc. rewrite Hc, setClockSrource_source, (clkSrcOf_text s src) by done. done.
Qed.
End Replies.

(** ** Demonstrations *)
Import CzmqList.

Module ApcDemo.
Definition ser (r : apc_response) : list Z := match r with RspGetClkSrc s => s | _ => [0] end.
Definition parse (s : list Z) : option (list Z) := match s with 10 :: _ :: r => Some r | _ => None end.
Definition api (src : EAPClockSource) : ApcApi :=
  mkApcApi APCCLIENT_STATE_ONLINE (text "127.0.0.1") 9100 (newCAPCoupler <| m_apClkSource := src |>) 0 0
    (mkStatDelays 0 [] (mkNumThEvent 0 0) 0) stats_reset 0 (mkStatDelays 0 [] (mkNumThEvent 0 0) 0) (mkStatDelays 0 [] (mkNumThEvent 0 0) 0) 0.
Definition console (conf : conf_t) : AwConf := mkAwConf (text "apc1") conf.
Definition set_run (s : string) (conf : conf_t) := handleSetAPClkSrc (zmsg_t := CzmqList.zmsg) parse (10 :: 4 :: text s) (console conf).

(** A source of the command line differs from the one of the file: to set what the file
    says is acknowledged and has no effect. *)
Fact set_source_ignored :
  m_apClkSource (aa_coupler (api PPS)) = PPS /\ (set_run "AUTO" (Some ∅)).1.2 = [] /\
  (set_run "AUTO" (Some ∅)).2 = inr (respond_code SET_AP_CLKSRC RPC_OK []).
Proof. by vm_compute. Qed.

(** Without a configuration file, which the program does not need, the exception of the
    file's parser leaves the handler, which no caller catches. *)
Fact set_source_no_file : (set_run "GPS" None).2 = inl EIni.
Proof. by vm_compute. Qed.
End ApcDemo.

Lemma clock_source_set_get_witness :
  let set := handleSetAPClkSrc (zmsg_t := CzmqList.zmsg) ApcDemo.parse (10 :: 3 :: text "gps") in
  let w := ApcDemo.console (Some ∅) in
  m_apClkSource (coupler_after (out_of set w) (aa_coupler (ApcDemo.api MNGRSET))) = PPS.
Proof.
  apply (clock_source_set_get ApcDemo.ser ApcDemo.parse (ApcDemo.api MNGRSET) (10 :: 3 :: text "gps") (text "gps") PPS
    (ApcDemo.console (Some ∅)) ∅); [reflexivity| |reflexivity|reflexivity|reflexivity].
  repeat constructor; vm_compute; intuition discriminate.
Defined.
