(* ===== verification/NodeState.v ===== *)
(** The end of the process (common/ChangeNodeState.cpp, IChangeNodeState.h;
    watchdog/WdClntWrapper_APC.cpp).

    The main thread waits until the process is stopped; other threads and the handler of
    a signal ask for it.  A step is what a thread does while it holds the mutex. *)
From stdpp Require Import base numbers list option strings.
From Stdlib Require Import ZArith Lia.
From S2P Require Import Prelude Common ZMessage.

Local Open Scope Z_scope.

Inductive result_t : Set := NA | STOPPED | MASTER.
Inductive stopseverity_t : Set := STOP_OK | STOP_ERROR | STOP_FATAL_ERROR.

(** The waiting thread: outside of [waitSignal], holding the mutex at the test of the
    loop, asleep on the condition variable; or the mutex is taken for ever, by a thread that was interrupted by a signal whose
    handler waits for it. *)
Inductive ns_pc : Set := NsIdle | NsTest | NsAsleep | NsBlocked.

Record CChangeNodeState : Set := mkNodeState {
  m_who : list Z;
  m_isStop : bool;
  m_isPromote : bool;
  m_exitCode : Z;
  m_stopSeverity : stopseverity_t;
  ns_where : ns_pc;
  ns_notified : bool        (** the sleeping thread has been notified *)
}.
#[export] Instance CChangeNodeState_eta : Eta CChangeNodeState := fun s =>
  mkNodeState (m_who s) (m_isStop s) (m_isPromote s) (m_exitCode s) (m_stopSeverity s) (ns_where s) (ns_notified s).

Definition WATCHDOG_SERVER : list Z := text "Watchdog Server".

Definition newCChangeNodeState : CChangeNodeState := mkNodeState WATCHDOG_SERVER false false 0 STOP_OK NsIdle false.

(** What [stop] was called with. *)
Record stop_args : Set := mkStop { st_who : list Z; st_severity : stopseverity_t; st_code : Z }.

Inductive ns_event : Set := NsStop (a : stop_args) | NsPromote | NsReturn (r : result_t).

Notation NSM := (M CChangeNodeState ns_event).

Definition notify_one : NSM unit := modify (fun s => s <| ns_notified := true |>).

Definition stop (a : stop_args) : NSM unit :=
  emit (NsStop a) ;;
  modify (fun s => s <| m_stopSeverity := st_severity a |> <| m_exitCode := st_code a |> <| m_who := st_who a |> <| m_isStop := true |>) ;;
  notify_one.

Definition promote : NSM unit :=
  emit NsPromote ;; modify (fun s => s <| m_isPromote := true |>) ;; notify_one.

(** The thread that a signal interrupts: one without the mutex, the waiting thread, or one that has the mutex in [stop] or
    [promote] (before it writes). *)
Inductive sig_thread : Set := SigFree | SigWaiter | SigCaller.

(** The interrupted thread has the mutex, which is not recursive. *)
Definition interrupts_holder (on : sig_thread) (s : CChangeNodeState) : bool :=
  match on, ns_where s with SigCaller, _ | SigWaiter, NsTest => true | _, _ => false end.

Definition handle_signal (on : sig_thread) : NSM unit :=
  s ← get;
  if interrupts_holder on s then modify (fun s => s <| ns_where := NsBlocked |>)
  else stop (mkStop WATCHDOG_SERVER STOP_OK 0).

(** [waitSignal]: takes the mutex; then the test of the loop, after which it sleeps or
    returns. *)
Definition waitSignal_enter : NSM unit := modify (fun s => s <| ns_where := NsTest |>).
Definition waitSignal_test : NSM unit :=
  s ← get;
  if negb (m_isStop s) && negb (m_isPromote s) then modify (fun s => s <| ns_where := NsAsleep |> <| ns_notified := false |>)
  else if m_isStop s then
    modify (fun s => s <| m_isStop := false |> <| ns_where := NsIdle |>) ;; emit (NsReturn STOPPED)
  else
    modify (fun s => s <| m_isPromote := false |> <| ns_where := NsIdle |>) ;; emit (NsReturn MASTER).

Inductive ns_op : Set :=
| NoStop (a : stop_args) | NoPromote | NoSignal (on : sig_thread)
| NoEnter | NoTest
| NoWake.          (** the sleeping thread wakes up, notified or not, and has the mutex *)

Definition exec (op : ns_op) : NSM unit :=
  match op with
  | NoStop a => stop a | NoPromote => promote | NoSignal on => handle_signal on
  | NoEnter | NoWake => waitSignal_enter
  | NoTest => waitSignal_test
  end.

(** Who may run: the mutex is free unless the waiting thread tests; with the mutex taken for ever, nobody. *)
Definition enabled (op : ns_op) (s : CChangeNodeState) : bool :=
  match ns_where s, op with
  | NsTest, (NoTest | NoSignal SigWaiter) => true
  | NsTest, _ => false
  | NsIdle, NoEnter => true
  | NsAsleep, NoWake => true
  | NsBlocked, _ => false
  | _, (NoStop _ | NoPromote | NoSignal _) => true
  | _, _ => false
  end.

Inductive ns_reach : list ns_event -> CChangeNodeState -> Prop :=
| ns_new : ns_reach [] newCChangeNodeState
| ns_step tr s op : ns_reach tr s -> enabled op s = true ->
    ns_reach (tr ++ out_of (exec op) s) (st_of (exec op) s).

(** The specification: requests since the last return of that kind. *)
Definition spec_step (p : option stop_args * bool) (e : ns_event) : option stop_args * bool :=
  match e with
  | NsStop a => (Some a, snd p)
  | NsPromote => (fst p, true)
  | NsReturn STOPPED => (None, snd p)
  | NsReturn MASTER => (fst p, false)
  | NsReturn NA => p
  end.
Definition pending (tr : list ns_event) : option stop_args * bool := fold_left spec_step tr (None, false).

Record ns_inv (tr : list ns_event) (s : CChangeNodeState) : Prop := {
  ni_stop : m_isStop s = bool_decide (is_Some (fst (pending tr)));
  ni_args : forall a, fst (pending tr) = Some a -> m_who s = st_who a /\ m_stopSeverity s = st_severity a /\ m_exitCode s = st_code a;
  ni_promote : m_isPromote s = snd (pending tr);
  ni_awake : ns_where s = NsAsleep -> m_isStop s || m_isPromote s = true -> ns_notified s = true
}.

Lemma pending_snoc tr e : pending (tr ++ [e]) = spec_step (pending tr) e.
Proof. unfold pending. by rewrite fold_left_app. Qed.

Lemma stop_inv tr s a : ns_inv tr s -> ns_inv (tr ++ out_of (stop a) s) (st_of (stop a) s).
Proof.
  intros [H1 H2 H3 H4]. unfold stop, notify_one, st_of, out_of; runM. cbn. split; cbn; rewrite ?pending_snoc; cbn; try done.
  - by intros a' [= <-].
Qed.

Lemma ns_reach_inv tr s : ns_reach tr s -> ns_inv tr s.
Proof.
  induction 1 as [|tr s op Hr IH Hen]; [by split|].
  destruct op as [a| |w| | |]; cbn [exec]; [by apply stop_inv|..].
  2: { unfold handle_signal. rewrite st_read, out_read. destruct (interrupts_holder _ s); [|by apply stop_inv].
    cbn. rewrite app_nil_r. by destruct IH; split. }
  all: destruct IH as [H1 H2 H3 H4]; destruct s as [who st pr code sev pc nt]; cbn in *.
  - unfold promote, notify_one, st_of, out_of; runM. cbn. split; cbn; rewrite ?pending_snoc; cbn; done.
  - unfold waitSignal_enter, st_of, out_of; runM. rewrite app_nil_r. by split.
  - unfold enabled in Hen. cbn in Hen. unfold waitSignal_test, st_of, out_of; runM. destruct st, pr; cbn.
    1,2: split; cbn; rewrite ?pending_snoc; cbn; done.
    + split; cbn; rewrite ?pending_snoc; cbn; done.
    + rewrite app_nil_r. by split.
  - unfold waitSignal_enter, st_of, out_of; runM. rewrite app_nil_r. by split.
Qed.

(** The mutex is taken for ever by a signal that interrupts a thread that has it. *)
Lemma block_step op s : enabled op s = true ->
  ns_where (st_of (exec op) s) = NsBlocked <-> exists on, op = NoSignal on /\ interrupts_holder on s = true.
Proof.
  intros Hen. destruct s as [who st pr code sev pc nt].
  destruct op as [a| |on| | |]; cbn [exec];
    unfold stop, promote, handle_signal, notify_one, waitSignal_enter, waitSignal_test, st_of; runM;
    try (split; [|by intros (? & ? & _)]).
  1,2,4,6: destruct pc; cbn in *; done.
  - destruct on, pc; cbn in *; try done; (split; [first [done|intros _; by eexists]|try done; by intros (? & [= <-] & ?)]).
  - destruct st, pr; by cbn.
Qed.

(** [CWdClntWrapper::wait] on the results of [waitSignal]: does it return? *)
Fixpoint wd_wait (rs : list result_t) : bool :=
  match rs with [] => false | STOPPED :: _ => true | _ :: rs => wd_wait rs end.

(** What the waiting thread does next. *)
Definition waiter_op (s : CChangeNodeState) : ns_op :=
  match ns_where s with NsIdle => NoEnter | NsTest => NoTest | NsAsleep | NsBlocked => NoWake end.
Definition waiter_step (x : list ns_event * CChangeNodeState) : list ns_event * CChangeNodeState :=
  (x.1 ++ out_of (exec (waiter_op x.2)) x.2, st_of (exec (waiter_op x.2)) x.2).

Definition steps_left (s : CChangeNodeState) : nat := match ns_where s with NsTest => 1 | _ => 2 end.

(** C27: requests are neither lost nor made up, in any interleaving of requests and signals with the
    steps of the waiting thread.  The flags are the requests since the last return of
    their kind; a thread that sleeps while one is pending has been notified; a return is
    [STOPPED] exactly if a stop is pending, else [MASTER] for a pending promotion.  Unless the mutex was taken for ever:
    with a
    stop pending, whether it came before or during the wait and whatever promotions
    there are, the waiting thread returns [STOPPED] within two of its steps, keeps the
    promotion, and severity, code and name are those of the latest request.  The mutex is taken for ever by a signal that
    interrupts a thread that has it, and by nothing else; then no thread runs any more and no stop is delivered. *)
Theorem stop_delivered (tr : list ns_event) (s : CChangeNodeState) (Hr : ns_reach tr s) :
  (m_isStop s, m_isPromote s) = (bool_decide (is_Some (fst (pending tr))), snd (pending tr)) /\
  (ns_where s = NsAsleep -> m_isStop s || m_isPromote s = true -> ns_notified s = true) /\
  (forall r, out_of waitSignal_test s = [NsReturn r] ->
    (r = STOPPED /\ is_Some (fst (pending tr))) \/ (r = MASTER /\ fst (pending tr) = None /\ snd (pending tr) = true)) /\
  (ns_where s <> NsBlocked -> forall a, fst (pending tr) = Some a ->
    (m_who s, m_stopSeverity s, m_exitCode s) = (st_who a, st_severity a, st_code a) /\
    let x := Nat.iter (steps_left s) waiter_step (tr, s) in x.1 = tr ++ [NsReturn STOPPED] /\ m_isPromote x.2 = m_isPromote s) /\
  (forall op, enabled op s = true ->
    ns_where (st_of (exec op) s) = NsBlocked <-> exists on, op = NoSignal on /\ interrupts_holder on s = true) /\
  (ns_where s = NsBlocked -> forall op, enabled op s = false).
Proof.
  destruct (ns_reach_inv tr s Hr) as [H1 H2 H3 H4]. split_and!; [by rewrite H1, H3|done| | | |].
  - intros r. unfold waitSignal_test, out_of; runM. rewrite H1, H3. case_bool_decide as Hs; cbn; [intros [= <-]; by left|].
    destruct (snd (pending tr)); [|done]. intros [= <-]. right. split_and!; [done| |done].
    destruct (fst (pending tr)); [by destruct Hs|done].
  - intros Hb a Ha. destruct (H2 a Ha) as (-> & -> & ->). split; [done|]. rewrite Ha in H1. rewrite bool_decide_eq_true_2 in H1 by eauto.
    destruct s as [who st pr code sev pc nt]. cbn in H1. subst st. cbn in Hb.
    destruct pc; [| | |done]; unfold steps_left, waiter_step, waiter_op, exec, waitSignal_enter, waitSignal_test, st_of, out_of; runM; cbn;
      rewrite ?app_nil_r; done.
  - intros op Hen. apply block_step, Hen.
  - intros Hb op. unfold enabled. rewrite Hb. by destruct op.
Qed.

Definition ns_run (ops : list ns_op) : option (list ns_event * CChangeNodeState) :=
  fold_left (fun x op => x ≫= fun x => if enabled op x.2 then Some (x.1 ++ out_of (exec op) x.2, st_of (exec op) x.2) else None)
    ops (Some ([], newCChangeNodeState)).

Lemma ns_run_reach ops x : ns_run ops = Some x -> ns_reach x.1 x.2.
Proof.
  unfold ns_run. revert x. induction ops as [|op ops IH] using rev_ind; intros x; [intros [= <-]; apply ns_new|].
  rewrite fold_left_app. cbn. destruct (fold_left _ ops _) as [y|]; [|done]. cbn. specialize (IH y eq_refl).
  destruct (enabled op y.2) eqn:He; [|done]. intros [= <-]. by apply ns_step.
Qed.

(** A promotion and a stop while the thread sleeps. *)
Definition ns_demo : list ns_op := [NoEnter; NoTest; NoPromote; NoStop (mkStop (text "Serial Port Error") STOP_OK 0); NoSignal SigWaiter].

Lemma stop_delivered_witness : exists tr s, ns_run ns_demo = Some (tr, s) /\
  (Nat.iter (steps_left s) waiter_step (tr, s)).1 = tr ++ [NsReturn STOPPED].
Proof.
  eexists _, _. split; [vm_compute; reflexivity|].
  match goal with |- (Nat.iter _ _ (?tr, ?s)).1 = _ =>
    destruct (stop_delivered tr s) as (_ & _ & _ & H & _); [exact (ns_run_reach ns_demo (tr, s) eq_refl)|] end.
  apply (H ltac:(done) (mkStop WATCHDOG_SERVER STOP_OK 0)). done.
Defined.

(** A signal that interrupts the waiting thread at the test of the loop: its handler
    waits for the mutex that this thread has, and the process never stops. *)
Fact signal_blocks :
  let s := st_of (exec (NoSignal SigWaiter)) (st_of (exec NoEnter) newCChangeNodeState) in
  ns_where s = NsBlocked /\ m_isStop s = false /\ forall op, enabled op s = false.
Proof. split_and!; [done..|]. by intros []. Qed.
