(* ===== verification/Endpoint.v ===== *)
(** Addresses of the RPC servers (rpc/RpcCommon.cpp, rpc/public/RpcCommon.h;
    [getFullFileName] of common/common.cpp).

    Paths are handled by Boost.Filesystem, a parameter with its documented laws. *)
From stdpp Require Import base numbers list option strings gmap.
From Stdlib Require Import ZArith Lia.
From S2P Require Import Prelude Common ApcProto FmtConv ZMessage RpcProtocol RpcWorker ApcWorker.

Local Open Scope Z_scope.

Notation str := (list Z) (only parsing).

(** ** Strings of the standard library *)
Fixpoint starts_with (p s : str) : bool :=
  match p, s with
  | [], _ => true
  | a :: p, b :: s => (a =? b) && starts_with p s
  | _, [] => false
  end.

(** [find]: the number of characters before the first occurrence of [p]. *)
Fixpoint find (p s : str) : option nat :=
  if starts_with p s then Some 0%nat else
  match s with [] => None | _ :: s => S <$> find p s end.

(** [rfind] of a character. *)
Fixpoint rfind (c : Z) (s : str) : option nat :=
  match s with
  | [] => None
  | x :: s => match rfind c s with Some n => Some (S n) | None => if x =? c then Some 0%nat else None end
  end.

(** [stoi]: white space, a sign, digits; [None] for the exceptions, no digit or a number
    out of the range of [int]. *)
Fixpoint digits_value (acc : Z) (s : str) : Z :=
  match s with
  | c :: r => if isdigit c then digits_value (10 * acc + (c - ch_0)) r else acc
  | [] => acc
  end.

Fixpoint skip_space (s : str) : str :=
  match s with c :: r => if isspace c then skip_space r else s | [] => [] end.

Definition stoi (s : str) : option Z :=
  let s := skip_space s in
  let '(neg, s) := match s with c :: r => if c =? 45 then (true, r) else if c =? 43 then (false, r) else (false, s) | [] => (false, []) end in
  match s with
  | c :: _ =>
      if isdigit c then
        let v := digits_value 0 s in
        let v := if neg : bool then - v else v in
        if (- 2 ^ 31 <=? v) && (v <? 2 ^ 31) then Some v else None
      else None
  | [] => None
  end.

(** Decimal text of an [int] that is not negative. *)
Definition to_string (n : Z) : str := dec 64 n.

(** ** Endpoints *)
Inductive RpcEndpoints : Set :=
| TPLGDB_ENDPOINT_PATH | MNGR_NOTIFY_ENDPOINT_PATH | MNGR_LOG_ENDPOINT_PATH | TPLGCMD_NOTIFY_ENDPOINT_PATH
| AUTH_MNGR_ENDPOINT_PATH | AUTH_MNGR_LOG_ENDPOINT_PATH | AUTH_MNGR_NOTIFY_ENDPOINT_PATH
| APC_ENDPOINT_PATH | APC_LOG_ENDPOINT_PATH | CONFIGDB_ENDPOINT_PATH | CONFIGDB_NOTIFY_ENDPOINT_PATH
| WATCHDOG_ENDPOINT_PATH | WATCHDOG_NOTIFY_ENDPOINT_PATH | CONFIGDB_LOG_ENDPOINT_PATH | WATCHDOG_LOG_ENDPOINT_PATH.

Definition endpoint_code (e : RpcEndpoints) : Z :=
  match e with
  | TPLGDB_ENDPOINT_PATH => 0 | MNGR_NOTIFY_ENDPOINT_PATH => 1 | MNGR_LOG_ENDPOINT_PATH => 2 | TPLGCMD_NOTIFY_ENDPOINT_PATH => 3
  | AUTH_MNGR_ENDPOINT_PATH => 4 | AUTH_MNGR_LOG_ENDPOINT_PATH => 5 | AUTH_MNGR_NOTIFY_ENDPOINT_PATH => 6
  | APC_ENDPOINT_PATH => 7 | APC_LOG_ENDPOINT_PATH => 8 | CONFIGDB_ENDPOINT_PATH => 9 | CONFIGDB_NOTIFY_ENDPOINT_PATH => 10
  | WATCHDOG_ENDPOINT_PATH => 11 | WATCHDOG_NOTIFY_ENDPOINT_PATH => 12 | CONFIGDB_LOG_ENDPOINT_PATH => 13 | WATCHDOG_LOG_ENDPOINT_PATH => 14
  end.

(** The strings in the comments of the enumeration, which [toString] returns. *)
Definition endpoint_string (e : RpcEndpoints) : string :=
  match e with
  | TPLGDB_ENDPOINT_PATH => "ipc://manager_rpc.ipc"
  | MNGR_NOTIFY_ENDPOINT_PATH => "ipc://manager_notif.ipc"
  | MNGR_LOG_ENDPOINT_PATH => "ipc://manager_log.ipc"
  | TPLGCMD_NOTIFY_ENDPOINT_PATH => "ipc://tplgcmd_notif.ipc"
  | AUTH_MNGR_ENDPOINT_PATH => "ipc://authmngr_rpc.ipc"
  | AUTH_MNGR_LOG_ENDPOINT_PATH => "ipc://authmngr_log.ipc"
  | AUTH_MNGR_NOTIFY_ENDPOINT_PATH => "ipc://authmngr_notif.ipc"
  | APC_ENDPOINT_PATH => "ipc://apc_rpc.ipc"
  | APC_LOG_ENDPOINT_PATH => "ipc://apc_log.ipc"
  | CONFIGDB_ENDPOINT_PATH => "ipc://confdb_rpc.ipc"
  | CONFIGDB_NOTIFY_ENDPOINT_PATH => "ipc://confdb_notif.ipc"
  | WATCHDOG_ENDPOINT_PATH => "ipc://watchdog_rpc.ipc"
  | WATCHDOG_NOTIFY_ENDPOINT_PATH => "ipc://watchdog_notif.ipc"
  | CONFIGDB_LOG_ENDPOINT_PATH => "ipc://confdb_log.ipc"
  | WATCHDOG_LOG_ENDPOINT_PATH => "ipc://watchdog_log.ipc"
  end.

Inductive apiproto_t : Set := APIPROTO_NA | APIPROTO_IPC | APIPROTO_TCP.
#[export] Instance apiproto_t_eq_dec : EqDecision apiproto_t.
Proof. solve_decision. Defined.

(** Boost.Filesystem: [absolute] and [operator/=]. *)
Class Filesystem := { absolute : str -> str; append_path : str -> str -> str }.

Definition ch_slash : Z := 47.
Definition rooted (p : str) : Prop := head p = Some ch_slash.

(** Its documentation: an absolute path is returned as it is, otherwise the result is
    absolute; a relative name is appended unchanged. *)
Class FilesystemLaws `{Filesystem} := {
  absolute_rooted p : rooted (absolute p);
  absolute_fix p : rooted p -> absolute p = p;
  append_inj p q1 q2 : ~ rooted q1 -> ~ rooted q2 -> append_path p q1 = append_path p q2 -> q1 = q2;
  append_rooted p q : rooted p -> rooted (append_path p q)
}.

Lemma absolute_iff `{FilesystemLaws} p : absolute p = p <-> rooted p.
Proof. split; [intros <-; apply absolute_rooted|apply absolute_fix]. Qed.

Section Endpoints.
Context `{FS : Filesystem}.

(** [root]: the environment variable, or an empty string. *)
Definition getFullFileName (root strSubDir strFileName : str) : str :=
  if bool_decide (absolute strFileName = strFileName) then strFileName
  else if negb (bool_decide (strSubDir = [])) && bool_decide (absolute strSubDir = strSubDir) then append_path strSubDir strFileName
  else append_path (append_path root strSubDir) strFileName.

Record CApiEndpointBuilder : Set := mkEndpointBuilder { m_proto : apiproto_t; m_path : str; m_host : str; m_basePort : Z }.

Definition newCApiEndpointBuilder : CApiEndpointBuilder := mkEndpointBuilder APIPROTO_NA [] [] 0.

Definition init (proto : apiproto_t) (path host : str) (basePort : Z) : CApiEndpointBuilder :=
  mkEndpointBuilder proto path (match host with [] => text "127.0.0.1" | _ => host end) basePort.

(** The name for IPC and the offset for TCP. *)
Definition parseEndpointExt_p (endpointExt : str) : str * Z :=
  match endpointExt with
  | [] => ([], 0)
  | _ =>
      match find (text ":") endpointExt with
      | None => (endpointExt, 0)
      | Some pos => (take pos endpointExt, default 0 (u16 <$> stoi (drop (pos + 1) endpointExt)))
      end
  end.

Definition POSTFIX : str := text "://".

(** The file's name: the string behind the postfix, with the extension put in. *)
Definition ipc_split (e : RpcEndpoints) : nat :=
  match find POSTFIX (text (endpoint_string e)) with None => 0%nat | Some pos => (pos + length POSTFIX)%nat end.
Definition ipc_fileName (e : RpcEndpoints) (ipcName : str) : str :=
  let fileName := drop (ipc_split e) (text (endpoint_string e)) in
  match ipcName with
  | [] => fileName
  | _ =>
      match rfind 46 fileName with
      | None => fileName ++ text "_" ++ ipcName
      | Some pos1 => take pos1 fileName ++ text "_" ++ ipcName ++ drop pos1 fileName
      end
  end.

Definition getIPCname_p (root : str) (b : CApiEndpointBuilder) (e : RpcEndpoints) (ipcName : str) : str :=
  take (ipc_split e) (text (endpoint_string e)) ++ getFullFileName root (m_path b) (ipc_fileName e ipcName).

(** The port is an [int]. *)
Definition port_of (b : CApiEndpointBuilder) (e : RpcEndpoints) (portOffset : Z) : Z := m_basePort b + endpoint_code e + portOffset.

Definition getClient (root : str) (b : CApiEndpointBuilder) (e : RpcEndpoints) (endpointExt : str) : str :=
  let '(ipcName, portOffset) := parseEndpointExt_p endpointExt in
  match m_proto b with
  | APIPROTO_IPC => getIPCname_p root b e ipcName
  | APIPROTO_TCP => text "tcp://" ++ m_host b ++ text ":" ++ to_string (port_of b e portOffset)
  | APIPROTO_NA => []
  end.

Definition getServer (root : str) (b : CApiEndpointBuilder) (e : RpcEndpoints) (endpointExt : str) : str :=
  let '(ipcName, portOffset) := parseEndpointExt_p endpointExt in
  match m_proto b with
  | APIPROTO_IPC => getIPCname_p root b e ipcName
  | APIPROTO_TCP => text "tcp://*:" ++ to_string (port_of b e portOffset)
  | APIPROTO_NA => []
  end.
End Endpoints.

(** ** The privileges of the file of an IPC server *)
Definition IPC_PREFIX : str := text "ipc://".

(** What the operating system gives: the group "dust", the file's mode and owner, and
    whether the changes succeed. *)
Record os_file : Set := mkOsFile { of_group : option Z; of_stat : option (Z * Z); of_chmod : bool; of_chown : bool }.

Inductive os_call : Set := OsChmod (fileName : str) (mode : Z) | OsChown (fileName : str) (uid gid : Z).

(** Read, write and search permission for the group. *)
Definition GROUP_RWX : Z := 56.

Definition changeIPCFilePrivilege (os : os_file) (serverAddr : str) : list os_call * bool :=
  if negb (bool_decide (map tolower (take (length IPC_PREFIX) serverAddr) = IPC_PREFIX)) then ([], true)
  else
    let fileName := drop (length IPC_PREFIX) serverAddr in
    match of_group os with
    | None => ([], false)
    | Some gid =>
        match of_stat os with
        | None => ([], false)
        | Some (mode, uid) =>
            let chmod := OsChmod fileName (Z.lor mode GROUP_RWX) in
            if of_chmod os then ([chmod; OsChown fileName uid gid], of_chown os) else ([chmod], false)
        end
    end.

(** ** Facts *)
Lemma from_last_app c s t : from_last c t = Some t -> from_last c (s ++ t) = Some t.
Proof. intros Ht. induction s as [|x s IH]; [done|]. cbn. by rewrite IH. Qed.

Lemma from_last_none c s : Forall (fun x => x <> c) s -> from_last c s = None.
Proof. induction 1 as [|x s Hx Hs IH]; [done|]. cbn. rewrite IH. by destruct (Z.eqb_spec x c). Qed.

Lemma long_64 : long_width 64.
Proof. by right. Qed.

Lemma to_string_digits n : 0 <= n < 2 ^ 31 -> Forall (fun c => isdigit c = true) (to_string n).
Proof.
  intros Hn. destruct (dec_digits 64 n long_64 Hn) as (ds & E & _ & Hd & _). unfold to_string. rewrite E.
  apply Forall_map. eapply Forall_impl; [done|]. intros d Hdd. by apply dec_char_digit.
Qed.

Lemma no_colon s : Forall (fun c => isdigit c = true) s -> Forall (fun c => c <> ch_colon) s.
Proof. intros Hs. eapply Forall_impl; [done|]. intros c Hc ->. done. Qed.

Lemma text_colon : text ":" = [ch_colon].
Proof. reflexivity. Qed.

Lemma from_last_here c s : Forall (fun x => x <> c) s -> from_last c ([c] ++ s) = Some ([c] ++ s).
Proof. intros Hs. cbn [app from_last]. by rewrite from_last_none, Z.eqb_refl. Qed.

Lemma from_last_port n : 0 <= n < 2 ^ 31 -> from_last ch_colon (text ":" ++ to_string n) = Some (text ":" ++ to_string n).
Proof. intros Hn. rewrite text_colon. by apply from_last_here, no_colon, to_string_digits. Qed.

(** The bounds of the fields. *)
Definition valid (b : CApiEndpointBuilder) : Prop := 0 <= m_basePort b < 65536.

Lemma ext_offset ext : 0 <= snd (parseEndpointExt_p ext) < 65536.
Proof.
  unfold parseEndpointExt_p. destruct ext as [|c ext]; [cbn; lia|]. destruct (find _ _) as [pos|]; [|cbn; lia].
  cbn [snd]. destruct (stoi _) as [v|]; cbn; [by apply (wrap_range 16)|lia].
Qed.

Lemma port_range b e off : valid b -> 0 <= off < 65536 -> 0 <= port_of b e off < 2 ^ 31.
Proof. unfold valid, port_of. intros Hb Ho. destruct e; cbn; lia. Qed.

Section Agreement.
Context `{FL : FilesystemLaws}.

(** C31: a worker takes the address of its server and connects to the address that a client
    on this host uses: the same file for IPC, and for TCP, where the server's address
    has no host, the host 127.0.0.1 and the port of the server. *)
Theorem worker_reaches_server (root path endpointExt : str) (proto : apiproto_t) (basePort : Z) (e : RpcEndpoints)
    (Hport : 0 <= basePort < 65536) :
  let b := init proto path (text "127.0.0.1") basePort in
  connect_endpoint (getServer root b e endpointExt) = Some (getClient root b e endpointExt).
Proof.
  cbv zeta. unfold getServer, getClient, init. pose proof (ext_offset endpointExt) as Ho.
  destruct (parseEndpointExt_p endpointExt) as [ipcName off]. cbn [snd] in Ho. cbn [m_proto m_host]. destruct proto; [done| |].
  - unfold connect_endpoint, getIPCname_p. rewrite bool_decide_eq_false_2; [done|]. destruct e; vm_compute; discriminate.
  - unfold connect_endpoint. rewrite bool_decide_eq_true_2 by done.
    change (text "tcp://*:") with (text "tcp://*" ++ text ":"). rewrite <- app_assoc, from_last_app; [done|].
    apply from_last_port, port_range; [done|lia].
Qed.

Lemma getFullFileName_inj root sub f1 f2 : ~ rooted f1 -> ~ rooted f2 -> getFullFileName root sub f1 = getFullFileName root sub f2 -> f1 = f2.
Proof.
  intros H1 H2. unfold getFullFileName. rewrite (bool_decide_eq_false_2 (absolute f1 = f1)), (bool_decide_eq_false_2 (absolute f2 = f2)) by (by rewrite absolute_iff).
  destruct (negb _ && _); by apply append_inj.
Qed.

(** The names of the files without their extension. *)
Definition ipc_stem (e : RpcEndpoints) : str := take (length (text (endpoint_string e)) - 10) (drop 6 (text (endpoint_string e))).

Lemma ipc_fileName_stem e ipcName :
  ipc_fileName e ipcName = ipc_stem e ++ (match ipcName with [] => [] | _ => text "_" ++ ipcName end) ++ text ".ipc".
Proof. destruct ipcName as [|c n]; destruct e; vm_compute; reflexivity. Qed.

Lemma ipc_stem_inj e1 e2 : ipc_stem e1 = ipc_stem e2 -> e1 = e2.
Proof. destruct e1, e2; intros E; (reflexivity || (vm_compute in E; discriminate E)). Qed.

Lemma ipc_fileName_relative e ipcName : ~ rooted (ipc_fileName e ipcName).
Proof. rewrite ipc_fileName_stem. destruct e; vm_compute; discriminate. Qed.

Lemma ipc_fileName_inj e1 e2 ipcName : ipc_fileName e1 ipcName = ipc_fileName e2 ipcName -> e1 = e2.
Proof. rewrite !ipc_fileName_stem. intros E%app_inv_tail. by apply ipc_stem_inj. Qed.

Lemma ipc_prefix e : take (ipc_split e) (text (endpoint_string e)) = text "ipc://".
Proof. by destruct e. Qed.

Lemma endpoint_code_inj e1 e2 : endpoint_code e1 = endpoint_code e2 -> e1 = e2.
Proof. by destruct e1, e2. Qed.

(** No two servers of an application have the same address: with a protocol set,
    different endpoints with the same extension have different files or ports, whatever
    the extension is. *)
Theorem server_addresses_distinct (root endpointExt : str) (b : CApiEndpointBuilder) (e1 e2 : RpcEndpoints)
    (Hb : valid b) (Hproto : m_proto b <> APIPROTO_NA) (Heq : getServer root b e1 endpointExt = getServer root b e2 endpointExt) :
  e1 = e2.
Proof.
  unfold getServer in Heq. pose proof (ext_offset endpointExt) as Ho. destruct (parseEndpointExt_p endpointExt) as [ipcName off].
  cbn [snd] in Ho. destruct (m_proto b); [done| |].
  - unfold getIPCname_p in Heq. rewrite !ipc_prefix in Heq. apply app_inv_head in Heq.
    apply getFullFileName_inj in Heq; [by apply ipc_fileName_inj in Heq|apply ipc_fileName_relative..].
  - apply app_inv_head in Heq.
    pose proof (dec_inj 64 _ _ long_64 (port_range b e1 off Hb Ho) (port_range b e2 off Hb Ho) Heq) as Hport.
    apply endpoint_code_inj. unfold port_of in Hport. lia.
Qed.

(** ** Extensions *)
Lemma digits_value_map ds : forall acc, Forall (fun d => 0 <= d < 10) ds -> digits_value acc (map dec_char ds) = fold_left (fun a d => a * 10 + d) ds acc.
Proof.
  induction ds as [|d ds IH]; intros acc Hds; [done|]. inversion_clear Hds as [|? ? Hd Hr]. cbn [map digits_value fold_left].
  destruct (dec_char_digit d Hd) as [-> ->]. rewrite IH by done. f_equal. lia.
Qed.

Lemma digit_not_sign c : isdigit c = true -> isspace c = false /\ (c =? 45) = false /\ (c =? 43) = false.
Proof. unfold isdigit, isspace, ch_0, ch_9. intros Hc. split_and!; lia. Qed.

Lemma stoi_to_string n : 0 <= n < 2 ^ 31 -> stoi (to_string n) = Some n.
Proof.
  intros Hn. destruct (dec_digits 64 n long_64 Hn) as (ds & E & Hv & Hd & Hc). unfold to_string. rewrite E.
  assert (exists d r, ds = d :: r) as (d & r & ->) by (destruct Hc as [->|(d & r & -> & _)]; eauto).
  pose proof (proj1 (dec_char_digit d ltac:(by inversion_clear Hd))) as Hdig. destruct (digit_not_sign _ Hdig) as (Hs & H1 & H2).
  unfold stoi. cbn [map skip_space]. rewrite Hs, H1, H2, Hdig. change (dec_char d :: map dec_char r) with (map dec_char (d :: r)).
  rewrite digits_value_map by done. change (fold_left _ (d :: r) 0) with (val 10 (d :: r)). rewrite Hv.
  by rewrite (proj2 (Z.leb_le _ _)), (proj2 (Z.ltb_lt _ _)) by lia.
Qed.

Lemma find_colon name rest : Forall (fun c => c <> ch_colon) name -> find (text ":") (name ++ ch_colon :: rest) = Some (length name).
Proof.
  rewrite text_colon. induction 1 as [|c name Hc Hn IH]; [done|]. cbn [app find length starts_with]. rewrite IH.
  by destruct (Z.eqb_spec ch_colon c); [subst|].
Qed.

(** An extension of a name and an offset is read back. *)
Lemma parse_ext_roundtrip name off : name <> [] -> Forall (fun c => c <> ch_colon) name -> 0 <= off < 65536 ->
  parseEndpointExt_p (name ++ text ":" ++ to_string off) = (name, off).
Proof.
  intros Hne Hn Ho. unfold parseEndpointExt_p. rewrite text_colon. cbn [app].
  rewrite find_colon by done. destruct name as [|c name]; [done|]. cbn [app].
  cbn [length]. f_equal; [by apply (take_app_length (c :: name))|].
  change (c :: name ++ ch_colon :: to_string off) with ((c :: name) ++ [ch_colon] ++ to_string off). rewrite app_assoc.
  rewrite drop_app_length' by (rewrite length_app; cbn; lia). rewrite stoi_to_string by lia. cbn.
  unfold u16. by rewrite wrap_small by lia.
Qed.
End Agreement.

(** ** A file system *)
Module UnixFs.
#[export] Instance fs : Filesystem := {
  absolute p := match p with c :: _ => if c =? ch_slash then p else ch_slash :: p | [] => [ch_slash] end;
  append_path p q := match q with c :: _ => if c =? ch_slash then p ++ q else p ++ ch_slash :: q | [] => p end
}.

#[export, refine] Instance fs_laws : FilesystemLaws := {}.
Proof.
  - intros [|c p]; [done|]. cbn. destruct (Z.eqb_spec c ch_slash) as [->|]; done.
  - intros [|c p]; [done|]. intros [= ->]. done.
  - intros p q1 q2 H1 H2. unfold rooted in *.
    destruct q1 as [|c1 q1], q2 as [|c2 q2]; cbn in *; [done| | |];
      repeat match goal with H : Some ?c <> Some ch_slash |- context [?c =? ch_slash] => destruct (Z.eqb_spec c ch_slash); [by subst|] end.
    + intros E%(f_equal length). rewrite length_app in E. cbn in E. lia.
    + intros E%(f_equal length). rewrite length_app in E. cbn in E. lia.
    + by intros [= -> ->]%app_inv_head.
  - intros [|c p] q; [done|]. intros [= ->]. destruct q as [|d q]; [done|]. cbn. by case_match.
Qed.
End UnixFs.

Import UnixFs.

Lemma worker_reaches_server_witness :
  connect_endpoint (getServer [] (init APIPROTO_TCP [] (text "127.0.0.1") 9000) APC_ENDPOINT_PATH (text "apc1:100")) = Some (text "tcp://127.0.0.1:9107").
Proof.
  rewrite (worker_reaches_server [] [] (text "apc1:100") APIPROTO_TCP 9000 APC_ENDPOINT_PATH); [vm_compute; reflexivity|lia].
Defined.

Lemma server_addresses_distinct_witness :
  let b := init APIPROTO_IPC (text "var/run") [] 9000 in
  getServer (text "/opt/dust") b APC_ENDPOINT_PATH (text "apc1") = text "ipc:///opt/dust/var/run/apc_rpc_apc1.ipc" /\
  getServer (text "/opt/dust") b APC_LOG_ENDPOINT_PATH (text "apc1") <> getServer (text "/opt/dust") b APC_ENDPOINT_PATH (text "apc1").
Proof.
  split; [vm_compute; reflexivity|]. intros E.
  assert (APC_LOG_ENDPOINT_PATH = APC_ENDPOINT_PATH) as [=].
  apply (server_addresses_distinct (text "/opt/dust") (text "apc1") (init APIPROTO_IPC (text "var/run") [] 9000) _ _); [|discriminate|exact E].
  split; [vm_compute; discriminate|reflexivity].
Defined.

(** The sum of base, number and offset is not a [uint16_t]: the address may name a port
    that does not exist. *)
Fact port_too_large :
  getServer [] (init APIPROTO_TCP [] [] 9000) APC_ENDPOINT_PATH (text "apc1:60000") = text "tcp://*:69007".
Proof. by vm_compute. Qed.
