(* ===== verification/Options.v ===== *)
(** The program's options (common/ProcessInputArguments.cpp, ProcessInputArguments.h; the
    options and their checks of APInterface/apc_main.cpp, apc_main.h).

    An option is a variable with a default; the command line and the configuration file
    set some of them.  The parsers of Boost.Program_options are a parameter: what each of
    the two sets, or that it is wrong. *)
From stdpp Require Import base numbers list option strings gmap.
From Stdlib Require Import ZArith Lia.
From S2P Require Import Prelude Common ApcProto FmtConv ZMessage RpcProtocol RpcWorker ApcWorker Endpoint.

Local Open Scope Z_scope.
Local Open Scope string_scope.

Notation str := (list Z) (only parsing).

Inductive optval : Set := OStr (s : str) | ONum (n : Z) | OBool (b : bool).
Notation vars := (gmap string optval).

(** ** Defaults *)

(** Options of every program. *)
Definition common_defaults (baseName : str) : vars := list_to_map [
  ("api-ipcpath", OStr (text "var/run"));
  ("api-host", OStr (text "127.0.0.1"));
  ("api-port", ONum 9000);
  ("wd-name", OStr []);
  ("log-file", OStr (baseName ++ text ".log")%list);
  ("config-file", OStr (baseName ++ text ".conf")%list);
  ("api-proto", OStr []);
  ("log-level", OStr [])].

Definition RESET_SIGNAL_TX : str := text "TX".
Definition RESET_SIGNAL_DTR : str := text "DTR".

(** Options of the AP bridge; three quarters and a tenth of the queue, cut to integers. *)
Definition apc_defaults : vars := list_to_map [
  ("client-id", OStr []);
  ("host", OStr (text "127.0.0.1"));
  ("port", ONum 9100);
  ("api-device", OStr (text "/dev/ttyUSB4"));
  ("reset-device", OStr (text "/dev/ttyUSB2"));
  ("baud", ONum 921600);
  ("max-queue-size", ONum 16);
  ("high-queue-watermark", ONum 12);
  ("low-queue-watermark", ONum 1);
  ("ping-timeout", ONum 1000);
  ("retry-delay", ONum 100);
  ("max-retries", ONum 3);
  ("retry-timeout", ONum 800);
  ("apm-max-msg-size", ONum 256);
  ("max-packet-age", ONum 1500);
  ("gpsd-host", OStr (text "localhost"));
  ("gpsd-port", OStr (text "2947"));
  ("gpsd-timeout", ONum 5000000);
  ("gpsd-min-sats-in-use", ONum 1);
  ("gps-max-stable-time", ONum 5);
  ("apc-max-queue-size", ONum 20);
  ("apc-ka-timeout", ONum 2000);
  ("apc-free-buffer-timeout", ONum 2000);
  ("apc-reconnect-delay", ONum 1000);
  ("apc-disconnect-timeout", ONum 30000);
  ("reset-boot-timeout", ONum 30000);
  ("disconnect-boot-timeout-short", ONum 4000);
  ("disconnect-boot-timeout-long", ONum 30000);
  ("reset-signal", OStr RESET_SIGNAL_TX);
  ("reconnect-serial", OBool true);
  ("gpsd-conn", OBool false);
  ("ap-clock-source", OStr [])].

Definition str_of (k : string) (v : vars) : str := match v !! k with Some (OStr s) => s | _ => [] end.
Definition num_of (k : string) (v : vars) : Z := match v !! k with Some (ONum n) => n | _ => 0 end.
Definition bool_of (k : string) (v : vars) : bool := match v !! k with Some (OBool b) => b | _ => false end.

(** ** Parsing *)
Inductive opt_error : Set :=
| ErrCmdLine | ErrHelp | ErrConfFile | ErrProto (s : str)
| ErrClientId | ErrResetSignal | ErrClockSource (s : str).

(** [boost::iequals]. *)
Definition iequals (s t : str) : bool := bool_decide (map tolower s = map tolower t).

Definition str2proto_p (s : str) : opt_error + apiproto_t :=
  if iequals s (text "ipc") then inr APIPROTO_IPC
  else if iequals s (text "tcp") then inr APIPROTO_TCP
  else inl (ErrProto s).

(** What [process] leaves: the clock source of the AP. *)
Definition process (v : vars) : opt_error + EAPClockSource :=
  match str_of "client-id" v with
  | [] => inl ErrClientId
  | _ =>
      let sResetSignal := str_of "reset-signal" v in
      if negb (bool_decide (sResetSignal = RESET_SIGNAL_TX)) && negb (bool_decide (sResetSignal = RESET_SIGNAL_DTR)) then inl ErrResetSignal
      else
        match str_of "ap-clock-source" v with
        | [] => inr MNGRSET
        | s => match clkSrcOf s with Some src => inr src | None => inl (ErrClockSource s) end
        end
  end.

Record args : Type := mkArgs { a_vars : vars; a_proto : apiproto_t; a_clkSrc : EAPClockSource }.

Section Parse.
Context `{FS : Filesystem}.

(** [notify]: the variables that are set take their values. *)
Definition notify (set v : vars) : vars := set ∪ v.

(** [cmd]: what the command line sets; [help]: it asks for help; [conf]: what a file sets,
    if it can be opened. *)
Definition parse (root : str) (cmd : opt_error + vars) (help : bool) (conf : str -> option (opt_error + vars)) (v : vars) : opt_error + args :=
  match cmd with
  | inl e => inl e
  | inr c =>
      let v := notify c v in
      if help then inl ErrHelp
      else
        let confName := getFullFileName root (text "conf") (str_of "config-file" v) in
        let v := <["config-file" := OStr confName]> v in
        let after_conf :=
          match conf confName with
          | None => inr v
          | Some (inl e) => inl ErrConfFile
          | Some (inr f) => inr (notify c (notify f v))
          end in
        match after_conf with
        | inl e => inl e
        | inr v =>
            let proto := match str_of "api-proto" v with [] => inr APIPROTO_IPC | s => str2proto_p s end in
            match proto with
            | inl e => inl e
            | inr p =>
                let v := <["log-file" := OStr (getFullFileName root (text "logs") (str_of "log-file" v))]> v in
                match process v with inl e => inl e | inr src => inr (mkArgs v p src) end
            end
        end
  end.

Definition new_vars : vars := apc_defaults ∪ common_defaults (text "apc").

(** [toString] of the options. *)
Definition toString_args (root : str) (a : args) : str :=
  match a_proto a with
  | APIPROTO_IPC =>
      let ipcsubdir := match str_of "api-ipcpath" (a_vars a) with [] => text "var/run" | s => s end in
      (text "API protocol: IPC. IPC directory: " ++ getFullFileName root ipcsubdir (text " "))%list
  | _ => (text "API protocol: TCP. " ++ str_of "api-host" (a_vars a) ++ text ":" ++ to_string (num_of "api-port" (a_vars a)))%list
  end.
End Parse.

(** The builder of addresses that the program makes from its options. *)
Definition builder_of (a : args) : CApiEndpointBuilder :=
  init (a_proto a) (str_of "api-ipcpath" (a_vars a)) (str_of "api-host" (a_vars a)) (num_of "api-port" (a_vars a)).

(** ** Facts *)

(** Where the value of an option comes from: the command line, the file, the default. *)
Definition precedence (c f v : vars) (k : string) : option optval :=
  match c !! k with Some x => Some x | None => match f !! k with Some x => Some x | None => v !! k end end.

Section Facts.
Context `{FS : Filesystem}.

Lemma notify_twice c f v k : notify c (notify f (notify c v)) !! k = precedence c f v k.
Proof. unfold notify, precedence. rewrite !lookup_union. destruct (c !! k), (f !! k), (v !! k); done. Qed.

(** The file that is read: named by the command line or the default, never by itself. *)
Definition conf_file (root : str) (c v : vars) : str := getFullFileName root (text "conf") (str_of "config-file" (notify c v)).

(** The checks that a parsed set of options has passed. *)
Definition checked (a : args) : Prop :=
  str_of "client-id" (a_vars a) <> [] /\
  (str_of "reset-signal" (a_vars a) = RESET_SIGNAL_TX \/ str_of "reset-signal" (a_vars a) = RESET_SIGNAL_DTR) /\
  match str_of "ap-clock-source" (a_vars a) with
  | [] => a_clkSrc a = MNGRSET
  | name => clkSrcOf name = Some (a_clkSrc a)
  end /\
  match str_of "api-proto" (a_vars a) with
  | [] => a_proto a = APIPROTO_IPC
  | name => str2proto_p name = inr (a_proto a)
  end.

Lemma process_checked v p src : process v = inr src ->
  match str_of "api-proto" v with [] => inr APIPROTO_IPC | s => str2proto_p s end = inr p -> checked (mkArgs v p src).
Proof.
  unfold process, checked. cbn [a_vars a_clkSrc a_proto]. intros H Hp. destruct (str_of "client-id" v); [done|].
  destruct (negb _ && negb _) eqn:Hr; [done|]. apply andb_false_iff in Hr. rewrite !negb_false_iff, !bool_decide_eq_true in Hr.
  split_and!; [done|done| |].
  - destruct (str_of "ap-clock-source" v) as [|x s]; [by injection H as <-|]. destruct (clkSrcOf _); [by injection H as <-|done].
  - destruct (str_of "api-proto" v); [by injection Hp as <-|done].
Qed.

(** The part of [parse] behind the configuration file. *)
Lemma parse_tail root v a :
  match (match str_of "api-proto" v with [] => inr APIPROTO_IPC | s => str2proto_p s end) with
  | inl e => inl e
  | inr p =>
      match process (<["log-file" := OStr (getFullFileName root (text "logs") (str_of "log-file" v))]> v) with
      | inl e => inl e
      | inr src => inr (mkArgs (<["log-file" := OStr (getFullFileName root (text "logs") (str_of "log-file" v))]> v) p src)
      end
  end = inr a ->
  checked a /\ a_vars a = <["log-file" := OStr (getFullFileName root (text "logs") (str_of "log-file" v))]> v.
Proof.
  destruct (match str_of "api-proto" v with [] => _ | _ => _ end) as [e|p] eqn:Hp; [done|].
  destruct (process _) as [e|src] eqn:Hpr; [done|]. intros [= <-]. split; [|done].
  apply process_checked; [done|]. unfold str_of in *. by rewrite lookup_insert_ne by done.
Qed.

(** What the file sets, and the name under which the file is known afterwards. *)
Inductive conf_read (root : str) (c v : vars) (conf : str -> option (opt_error + vars)) : vars -> option optval -> Prop :=
| conf_absent : conf (conf_file root c v) = None ->
    conf_read root c v conf ∅ (Some (OStr (conf_file root c v)))
| conf_present f : conf (conf_file root c v) = Some (inr f) ->
    conf_read root c v conf f (precedence c f {["config-file" := OStr (conf_file root c v)]} "config-file").

(** C30: if the options are accepted, then every option but the names of the two files has
    the value of the command line, else of the configuration file, else its default; the
    file that is read is the one that the command line or the default names; and the
    checks hold: a client name, a known reset signal, a clock source and a protocol that are those of
    known names (or the defaults, for empty names).
    The name of the configuration file that the rest of the program sees is the one that
    was read only if neither the command line nor, when the file exists, the file itself
    names one. *)
Theorem options_precedence (root : str) (c v : vars) (conf : str -> option (opt_error + vars)) (a : args)
    (H : parse root (inr c) false conf v = inr a) :
  checked a /\ exists f name, conf_read root c v conf f name /\
    (forall k, k <> "config-file" -> k <> "log-file" -> a_vars a !! k = precedence c f v k) /\
    a_vars a !! "config-file" = name.
Proof.
  unfold parse in H. cbv zeta in H. fold (conf_file root c v) in H.
  destruct (conf (conf_file root c v)) as [[e|f]|] eqn:Hf; [done| |]; apply parse_tail in H as [Hck Hv]; (split; [done|]).
  - eexists f, _. split; [by apply conf_present|]. rewrite Hv. split.
    + intros k H1 H2. rewrite lookup_insert_ne by done. unfold notify, precedence.
      rewrite !lookup_union, lookup_insert_ne, lookup_union by done. by destruct (c !! k), (f !! k), (v !! k).
    + rewrite lookup_insert_ne by done. unfold notify, precedence. rewrite !lookup_union, lookup_insert_eq, lookup_singleton_eq.
      by destruct (c !! "config-file"), (f !! "config-file").
  - eexists ∅, _. split; [by apply conf_absent|]. rewrite Hv. split.
    + intros k H1 H2. rewrite !lookup_insert_ne by done. unfold notify, precedence. rewrite lookup_union, lookup_empty. by destruct (c !! k), (v !! k).
    + by rewrite lookup_insert_ne, lookup_insert_eq by done.
Qed.
End Facts.

Import UnixFs.

(** The command line names a client and a file in [conf]; the file sets the host. *)
Definition demo_cmd : vars := list_to_map [("client-id", OStr (text "apc1")); ("config-file", OStr (text "my.conf")); ("port", ONum 9200)].
Definition demo_conf (name : str) : option (opt_error + vars) :=
  if bool_decide (name = text "/dust/conf/my.conf") then Some (inr (list_to_map [("host", OStr (text "mngr")); ("port", ONum 9300)])) else None.
Definition demo_parse : opt_error + args := parse (text "/dust") (inr demo_cmd) false demo_conf new_vars.

Lemma options_precedence_witness : exists a, demo_parse = inr a /\ checked a /\
  a_vars a !! "host" = Some (OStr (text "mngr")) /\ a_vars a !! "port" = Some (ONum 9200) /\ a_vars a !! "baud" = Some (ONum 921600).
Proof.
  destruct demo_parse as [e|a] eqn:E; [vm_compute in E; discriminate E|]. exists a. split; [done|].
  destruct (options_precedence (text "/dust") demo_cmd new_vars demo_conf a E) as (Hc & f & name & Hf & Hk & _).
  split; [done|]. assert (conf_file (text "/dust") demo_cmd new_vars = text "/dust/conf/my.conf") as Hn by (vm_compute; reflexivity).
  assert (f = list_to_map [("host", OStr (text "mngr")); ("port", ONum 9300)]) as ->.
  { destruct Hf as [Hf|f Hf]; rewrite Hn in Hf; [discriminate Hf|]. unfold demo_conf in Hf.
    rewrite bool_decide_eq_true_2 in Hf by done. by injection Hf as <-. }
  rewrite !Hk by done. split_and!; vm_compute; reflexivity.
Defined.

(** The configuration file is read from the directory [conf], but its name is then set
    again by the second reading of the command line: the worker that changes the clock
    source looks for it in the working directory. *)
Fact config_name_lost :
  match demo_parse with
  | inr a => a_vars a !! "config-file" = Some (OStr (text "my.conf"))
  | inl _ => False
  end.
Proof. by vm_compute. Qed.
