(* ===== verification/Main.v ===== *)
(** The main program (APInterface/apc_main.cpp).

    [main] is one block: it makes objects, connects them, starts them, waits for the end
    of the process and stops them in turn.  At the end of the block, also when an
    exception leaves it, the objects are destroyed in reverse order; a destructor may use
    other objects.  Whether a call returns, reports an error, throws or never returns is given by an oracle; [main] hangs where a
    call does, or where it repeats a call that never succeeds. *)
From stdpp Require Import base numbers list option strings gmap.
From Stdlib Require Import ZArith Lia.
From S2P Require Import Prelude Common ApcProto ApcClient ApmTransport Coupler ZMessage RpcWorker ApcWorker NodeState Endpoint Options.
From S2P Require Gps.

Local Open Scope Z_scope.

Notation str := (list Z) (only parsing).

(** ** Configurations of the parts *)
Definition transportCfg (v : gmap string optval) : init_param_t :=
  init_param (num_of "max-queue-size" v) (num_of "high-queue-watermark" v) (num_of "low-queue-watermark" v)
    (num_of "ping-timeout" v) (num_of "retry-delay" v) (num_of "retry-timeout" v) (num_of "max-retries" v)
    (num_of "apm-max-msg-size" v) (num_of "max-packet-age" v).

Definition gpsCfg (v : gmap string optval) : Gps.start_param_t :=
  Gps.mkGpsParam (str_of "gpsd-host" v) (str_of "gpsd-port" v) (num_of "gpsd-timeout" v) (num_of "gpsd-min-sats-in-use" v)
    (num_of "gps-max-stable-time" v) (bool_of "gpsd-conn" v).

Definition apcStartCfg (v : gmap string optval) : start_param_t :=
  mkStartParam (num_of "apc-ka-timeout" v) (num_of "apc-free-buffer-timeout" v) (num_of "apc-reconnect-delay" v)
    (num_of "apc-disconnect-timeout" v).

Definition apm_init_params (a : args) : cpl_param_t :=
  let v := a_vars a in
  mkCplParam true (bool_of "gpsd-conn" v) (num_of "reset-boot-timeout" v) (num_of "disconnect-boot-timeout-short" v)
    (num_of "disconnect-boot-timeout-long" v) (a_clkSrc a).

(** Addresses: of the RPC server, of the log messages and of the watchdog. *)
Definition endpoints `{Filesystem} (root : str) (a : args) : str * str * str * str :=
  let epGetter := builder_of a in
  let clientId := str_of "client-id" (a_vars a) in
  (getServer root epGetter APC_ENDPOINT_PATH clientId, getServer root epGetter APC_LOG_ENDPOINT_PATH clientId,
   getClient root epGetter WATCHDOG_ENDPOINT_PATH [], getClient root epGetter WATCHDOG_NOTIFY_ENDPOINT_PATH []).

(** ** Objects and calls *)
Inductive obj : Set :=
| OCtx | OPublisher | OPort | OGps | OCoupler | OClient | OTransport | OWdClnt | OWorker | OServer | OSrvThread.
#[export] Instance obj_eq_dec : EqDecision obj.
Proof. solve_decision. Defined.

Inductive main_call : Set :=
| KOpenLogging (logName : str)
| KWelcome
| KNew (o : obj)
| KClientOpen (clientId : str)
| KPortOpen
| KTransportOpen (p : init_param_t)
| KCouplerOpen (p : cpl_param_t) (client : start_param_t) (gps : Gps.start_param_t)
| KPortStart
| KSetWDClient
| KAddWorker
| KServerStart
| KCouplerStart
| KWait
| KCouplerStop
| KSvcStop
| KSrvJoin
| KWdFinish
| KPortStop
| KServerStop
| KCloseLogging.

(** Exceptions: those that [main] catches, and others. *)
Inductive main_exn : Set := XZmq | XBoost | XRuntime | XOther.

Inductive main_event : Set :=
| MCall (c : main_call)
| MSleep (msec : Z)
| MDestroy (o : obj)
| MDetach                  (** the handle of the service's thread is destroyed while the thread runs: it goes on, with the
                               objects that are destroyed next *)
| MDangling (o : obj).     (** an object that is destroyed or not yet made is used *)

(** Statements of the block: the result is not looked at, an error throws
    [runtime_error], or the call is repeated until it succeeds. *)
Inductive stmt : Set :=
| SNew (o : obj)
| SCall (c : main_call)
| SCheck (c : main_call)
| SRetry (c : main_call).

Definition RETRY_INTERVAL : Z := 1000.

(** ** State: the objects, the last one first, what the coupler points to, and whether the service's thread runs *)
Record MainSt : Set := mkMain { ms_live : list obj; ms_coupler : list obj; ms_srv : bool }.

(** The objects that a call uses. *)
Definition uses (s : MainSt) (c : main_call) : list obj :=
  match c with
  | KClientOpen _ => [OClient; OCoupler]
  | KPortOpen | KPortStop => [OPort]
  | KTransportOpen _ => [OTransport]
  | KCouplerOpen _ _ _ => [OCoupler]
  | KPortStart => [OPort; OTransport]
  | KSetWDClient => [OCoupler; OWdClnt]
  | KAddWorker => [OServer; OWorker]
  | KServerStart | KServerStop => [OServer; OWorker]
  | KCouplerStart => [OCoupler]
  | KWait | KWdFinish => [OWdClnt]
  | KCouplerStop => OCoupler :: ms_coupler s
  | KSrvJoin => [OSrvThread]
  | KNew OTransport => [OPort; OCoupler]
  | KNew OWorker => [OCoupler; OClient; OPort; OCtx]
  | KNew OServer | KNew OPublisher => [OCtx]
  | _ => []
  end.

(** Destructors: the coupler's and the server's call [stop]; the coupler's [stop] resets
    its pointers. *)
Definition destructor_uses (s : MainSt) (o : obj) : list obj :=
  match o with OCoupler => ms_coupler s | OServer => [OWorker] | OPublisher => [OCtx] | _ => [] end.

Definition effect (c : main_call) (s : MainSt) : MainSt :=
  match c with
  | KNew o => mkMain (o :: ms_live s) (ms_coupler s) (bool_decide (o = OSrvThread) || ms_srv s)
  | KCouplerOpen _ _ _ => mkMain (ms_live s) [OGps; OClient; OTransport] (ms_srv s)
  | KCouplerStop => mkMain (ms_live s) [] (ms_srv s)
  | KSrvJoin => mkMain (ms_live s) (ms_coupler s) false
  | _ => s
  end.

Definition dangling (s : MainSt) (os : list obj) : list main_event :=
  MDangling <$> filter (fun o => o ∉ ms_live s) os.

(** What a call does.  An error counts for the calls that are checked. *)
Inductive outcome : Set := OcReturn | OcError | OcThrow (x : main_exn) | OcHang.

(** [attempts]: failed attempts before a repeated call does what [outcomes] says; [None]: it fails for ever. *)
Record oracle : Type := mkOracle { outcomes : main_call -> outcome; attempts : main_call -> option nat }.

(** Why the next statement is not reached. *)
Inductive halt : Set := HThrow (x : main_exn) | HHang.

(** A constructor that throws makes no object; a call that throws has no effect. *)
Definition do_call (w : oracle) (c : main_call) (s : MainSt) : MainSt * list main_event * option halt :=
  let evs := MCall c :: dangling s (uses s c) in
  match outcomes w c with
  | OcThrow x => (s, evs, Some (HThrow x))
  | OcHang => (s, evs, Some HHang)
  | _ => (effect c s, evs, None)
  end.

Definition exec_stmt (w : oracle) (st : stmt) (s : MainSt) : MainSt * list main_event * option halt :=
  match st with
  | SNew o => do_call w (KNew o) s
  | SCall c => do_call w c s
  | SCheck c =>
      match outcomes w c with
      | OcError => (s, MCall c :: dangling s (uses s c), Some (HThrow XRuntime))
      | _ => do_call w c s
      end
  | SRetry c =>
      let failed := MCall c :: dangling s (uses s c) ++ [MSleep RETRY_INTERVAL] in
      match attempts w c with
      | None => (s, failed, Some HHang)
      | Some n => let '(s, evs, x) := do_call w c s in (s, mjoin (replicate n failed) ++ evs, x)
      end
  end.

Fixpoint exec_stmts (w : oracle) (l : list stmt) (s : MainSt) : MainSt * list main_event * option halt :=
  match l with
  | [] => (s, [], None)
  | st :: l =>
      let '(s, evs, x) := exec_stmt w st s in
      match x with
      | Some x => (s, evs, Some x)
      | None => let '(s, evs2, x) := exec_stmts w l s in (s, evs ++ evs2, x)
      end
  end.

(** The end of the block. *)
Fixpoint destroy_all (live : list obj) (cpl : list obj) (srv : bool) : list main_event :=
  match live with
  | [] => []
  | o :: live =>
      (if bool_decide (o = OSrvThread) && srv then [MDetach] else []) ++
      MDestroy o :: dangling (mkMain (o :: live) cpl srv) (destructor_uses (mkMain (o :: live) cpl srv) o) ++
      destroy_all live (if decide (o = OCoupler) then [] else cpl) srv
  end.

(** ** [main] *)
Definition block (root : str) (a : args) : list stmt :=
  let v := a_vars a in
  [SCall (KOpenLogging (str_of "log-file" v)); SCall KWelcome;
   SNew OCtx; SNew OPublisher; SNew OPort; SNew OGps; SNew OCoupler; SNew OClient; SNew OTransport;
   SCheck (KClientOpen (str_of "client-id" v));
   SRetry KPortOpen;
   SCall (KTransportOpen (transportCfg v));
   SCheck (KCouplerOpen (apm_init_params a) (apcStartCfg v) (gpsCfg v));
   SRetry KPortStart;
   SNew OWdClnt; SCall KSetWDClient; SNew OWorker; SNew OServer; SCall KAddWorker; SCall KServerStart; SNew OSrvThread;
   SCall KCouplerStart;
   SCall KWait;
   SCall KCouplerStop; SCall KSvcStop; SCall KSrvJoin; SCall KWdFinish; SCall KPortStop; SCall KServerStop; SCall KCloseLogging].

(** How [main] ends, if it does; [Terminated]: by an exception that nobody catches. *)
Inductive ending : Set := Exit (code : Z) | Terminated | Running.
Definition caught (x : main_exn) : ending := match x with XOther => Terminated | _ => Exit 1 end.

Definition main (root : str) (parsed : opt_error + args) (w : oracle) : list main_event * ending :=
  match parsed with
  | inl _ => ([MCall KCloseLogging], Exit 1)
  | inr a =>
      let '(s, evs, x) := exec_stmts w (block root a) (mkMain [] [] false) in
      let ends := evs ++ destroy_all (ms_live s) (ms_coupler s) (ms_srv s) in
      match x with None => (ends, Exit 0) | Some (HThrow x) => (ends, caught x) | Some HHang => (evs, Running) end
  end.

(** ** Facts *)
Definition call_of (st : stmt) : main_call := match st with SNew o => KNew o | SCall c | SCheck c | SRetry c => c end.
Definition failure (w : oracle) (st : stmt) : option halt :=
  match st with
  | SRetry c =>
      match attempts w c, outcomes w c with
      | None, _ | _, OcHang => Some HHang
      | _, OcThrow x => Some (HThrow x)
      | _, _ => None
      end
  | _ =>
      match outcomes w (call_of st), st with
      | OcThrow x, _ => Some (HThrow x)
      | OcHang, _ => Some HHang
      | OcError, SCheck _ => Some (HThrow XRuntime)
      | _, _ => None
      end
  end.

(** The first statement that does not lead to the next one, and why. *)
Fixpoint first_failure (w : oracle) (l : list stmt) : option (main_call * halt) :=
  match l with
  | [] => None
  | st :: l => match failure w st with Some x => Some (call_of st, x) | None => first_failure w l end
  end.

Definition is_dangling (e : main_event) : bool := match e with MDangling _ => true | _ => false end.
Definition misuse (evs : list main_event) : bool := existsb is_dangling evs.
Definition detaches (evs : list main_event) : bool := existsb (fun e => match e with MDetach => true | _ => false end) evs.
(** What is wrong with a run: destroyed objects are used, by [main] or (possibly) by the thread that it leaves behind. *)
Definition faults (evs : list main_event) : bool * bool := (misuse evs, detaches evs).
Definition clean (evs : list main_event) : Prop := faults evs = (false, false).

Lemma clean_app a b : clean a -> faults (a ++ b) = faults b.
Proof. unfold clean, faults, misuse, detaches. rewrite !existsb_app. by intros [= -> ->]. Qed.

Lemma clean_attempts n evs : clean evs -> clean (mjoin (replicate n evs)).
Proof. intros H. induction n as [|n IH]; [done|]. unfold clean. cbn. by rewrite clean_app. Qed.

(** Effects of a statement that does not fail. *)
Definition stmt_effect (st : stmt) (s : MainSt) : MainSt := effect (call_of st) s.
Definition uses_live (st : stmt) (s : MainSt) : bool := bool_decide (Forall (fun o => o ∈ ms_live s) (uses s (call_of st))).

Lemma dangling_none s os : Forall (fun o => o ∈ ms_live s) os -> dangling s os = [].
Proof. unfold dangling. induction 1 as [|o os Ho Hos IH]; [done|]. rewrite filter_cons_False by auto. done. Qed.

Lemma exec_stmt_run w st s : uses_live st s = true ->
  exists evs, exec_stmt w st s = (match failure w st with Some _ => s | None => stmt_effect st s end, evs, failure w st) /\ clean evs.
Proof.
  unfold uses_live, stmt_effect, failure. intros H%bool_decide_eq_true.
  destruct st as [o|c|c|c]; cbn [call_of exec_stmt] in *; unfold do_call; rewrite ?(dangling_none _ _ H).
  1,2: destruct (outcomes w _); by eexists.
  - destruct (outcomes w c); by eexists.
  - destruct (attempts w c) as [n|]; [|by eexists]. destruct (outcomes w c); eexists; (split; [done|]); unfold clean; by rewrite clean_app by by apply clean_attempts.
Qed.

(** The objects and pointers when each of the statements begins, and at the end. *)
Fixpoint all_live (l : list stmt) (s : MainSt) : bool :=
  match l with [] => true | st :: l => uses_live st s && all_live l (stmt_effect st s) end.
Fixpoint state_at_failure (w : oracle) (l : list stmt) (s : MainSt) : MainSt :=
  match l with [] => s | st :: l => match failure w st with Some _ => s | None => state_at_failure w l (stmt_effect st s) end end.

Lemma exec_stmts_run w l s : all_live l s = true ->
  exists evs, exec_stmts w l s = (state_at_failure w l s, evs, snd <$> first_failure w l) /\ clean evs.
Proof.
  revert s. induction l as [|st l IH]; intros s Hl; [by exists []|]. cbn in Hl. apply andb_prop in Hl as [Hu Hl].
  destruct (exec_stmt_run w st s Hu) as (evs & E & Hm). cbn [exec_stmts state_at_failure first_failure]. rewrite E.
  destruct (failure w st) as [x|]; [by exists evs|]. destruct (IH _ Hl) as (evs2 & E2 & Hm2). rewrite E2.
  exists (evs ++ evs2). split; [done|]. unfold clean. by rewrite clean_app.
Qed.

(** What the end of the block does wrong, if the block is left in this state. *)
Definition end_faults (s : MainSt) : bool * bool := faults (destroy_all (ms_live s) (ms_coupler s) (ms_srv s)).

(** The calls between the success of the coupler's [open] and that of its [stop]. *)
Definition unsafe_window (c : main_call) : bool :=
  match c with
  | KPortStart | KNew OWdClnt | KSetWDClient | KNew OWorker | KNew OServer | KAddWorker | KServerStart | KNew OSrvThread
  | KCouplerStart | KWait | KCouplerStop => true
  | _ => false
  end.

(** The calls between the start of the service's thread and its end. *)
Definition thread_window (c : main_call) : bool :=
  match c with KCouplerStart | KWait | KCouplerStop | KSvcStop | KSrvJoin => true | _ => false end.

Ltac walk_block :=
  unfold block; cbn [first_failure state_at_failure];
  repeat match goal with |- context [failure ?w ?st] =>
    destruct (failure w st) as [[]|]; [intros [= <- <-]; vm_compute; reflexivity|discriminate|cbn [first_failure state_at_failure]] end.

Lemma end_throw w root a c x : first_failure w (block root a) = Some (c, HThrow x) ->
  end_faults (state_at_failure w (block root a) (mkMain [] [] false)) = (unsafe_window c, thread_window c).
Proof. walk_block. discriminate. Qed.

Lemma end_return w root a : first_failure w (block root a) = None ->
  end_faults (state_at_failure w (block root a) (mkMain [] [] false)) = (false, false).
Proof.
  unfold block. cbn [first_failure state_at_failure].
  repeat match goal with |- context [failure ?w ?st] => destruct (failure w st); [discriminate|cbn [first_failure state_at_failure]] end.
  by vm_compute.
Qed.

(** Nothing is destroyed before the end of the block. *)
Lemma dangling_keeps s os o : MDestroy o ∉ dangling s os.
Proof. unfold dangling. by intros (? & ? & _)%list_elem_of_fmap. Qed.

Lemma call_keeps w c s o : MDestroy o ∉ (do_call w c s).1.2.
Proof.
  unfold do_call. assert (MDestroy o ∉ MCall c :: dangling s (uses s c)) by (intros [?|?%dangling_keeps]%elem_of_cons; done).
  by destruct (outcomes w c).
Qed.

Lemma stmt_keeps w st s o : MDestroy o ∉ (exec_stmt w st s).1.2.
Proof.
  assert (forall c, MDestroy o ∉ MCall c :: dangling s (uses s c)) as Hc by (intros c [?|?%dangling_keeps]%elem_of_cons; done).
  destruct st as [o'|c|c|c]; cbn [exec_stmt]; [apply call_keeps..| |].
  - pose proof (call_keeps w c s o). pose proof (Hc c). by destruct (outcomes w c).
  - assert (MDestroy o ∉ MCall c :: dangling s (uses s c) ++ [MSleep RETRY_INTERVAL]) as Hf.
    { rewrite app_comm_cons. intros [?%Hc|?%list_elem_of_singleton]%elem_of_app; done. }
    destruct (attempts w c) as [n|]; [|done]. pose proof (call_keeps w c s o) as Hk. destruct (do_call w c s) as [[s1 e] x]. cbn in *.
    intros [H|?]%elem_of_app; [|done]. apply list_elem_of_join in H as (l & Hl & H). apply elem_of_replicate_inv in H as ->. done.
Qed.

Lemma exec_stmts_keeps w l : forall s s' evs x o, exec_stmts w l s = (s', evs, x) -> MDestroy o ∉ evs.
Proof.
  induction l as [|st l IH]; intros s s' evs x o E; cbn in E; [injection E as _ <- _; apply not_elem_of_nil|].
  pose proof (stmt_keeps w st s o) as Hs. destruct (exec_stmt w st s) as [[s1 e1] [x1|]]; [by injection E as _ <- _|].
  destruct (exec_stmts w l s1) as [[s2 e2] x2] eqn:E2. injection E as _ <- _. intros [?|?%(IH _ _ _ _ _ E2)]%elem_of_app; done.
Qed.


(** The address of the RPC server is in use: its constructor throws. *)
Definition address_in_use : oracle :=
  mkOracle (fun c => match c with KNew OServer => OcThrow XZmq | _ => OcReturn end) (fun _ => Some 0%nat).
Fact server_address_in_use (root : str) (a : args) :
  let '(evs, code) := main root (inr a) address_in_use in
  code = Exit 1 /\ List.filter is_dangling evs = [MDangling OClient; MDangling OTransport].
Proof. vm_compute. done. Qed.

(** The coupler's [stop] waits for a manager that cannot be reached ([Coupler.stop_waits_for_manager]). *)
Fact stop_hangs (root : str) (a : args) :
  (main root (inr a) (mkOracle (fun c => match c with KCouplerStop => OcHang | _ => OcReturn end) (fun _ => Some 0%nat))).2 = Running.
Proof. by vm_compute. Qed.

(** The defaults of the transport's queue are in order. *)
Fact default_watermarks :
  let p := transportCfg new_vars in
  lowQueueWatermark p < highQueueWatermark p /\ highQueueWatermark p < maxQueueSize p /\ maxPacketAge p = 1500.
Proof. by vm_compute. Qed.
