(* ===== verification/RpcServer.v ===== *)
(** The RPC server (rpc/RpcServer.cpp, rpc/public/RpcServer.h; logging/LogWorker.cpp): a
    dispatcher and its workers, each with a thread.  The methods of the parts are those of
    RpcDispatcher and RpcWorker, run on the part's state. *)
From stdpp Require Import base numbers list option strings gmap.
From Stdlib Require Import ZArith Lia.
From S2P Require Import Prelude Common FmtConv Crash ZMessage RpcProtocol RpcDispatcher RpcWorker RemoteLog.

Local Open Scope Z_scope.

Notation str := (list Z) (only parsing).

(** ** The worker for the log levels *)
Definition LOG_RPC_SERVICE : str := text "logger".
Definition LOGWORKER_IDENTITY : str := text "LOGWRK".

Definition newLogWorker (svrAddr : str) (allowUninitializedAuth : bool) : RpcWorker :=
  newRpcWorker svrAddr LOG_RPC_SERVICE None VIEWER LOGWORKER_IDENTITY allowUninitializedAuth.

(** Commands of logevent.proto; [GET_REMOTE_ADDRESS] is not handled. *)
Inductive LogCommandType : Set := GET_LOGGERS | GET_LOG_LEVEL | SET_LOG_LEVEL.
Definition log_command_code (c : LogCommandType) : Z := match c with GET_LOGGERS => 1 | GET_LOG_LEVEL => 2 | SET_LOG_LEVEL => 3 end.
Definition log_command_of (z : Z) : option LogCommandType :=
  match z with 1 => Some GET_LOGGERS | 2 => Some GET_LOG_LEVEL | 3 => Some SET_LOG_LEVEL | _ => None end.

Inductive log_response : Set := RspLoggers (names : list str) | RspLogLevel (l : LogLevel).

(** The loggers of log4cxx: their names and levels, [None] where the level is not set. *)
Notation loggers_t := (gmap (list Z) (option Level)).

Section LogCommands.
Context {zmsg_t : Type} `{CZMQ zmsg_t}.
Context (ser : log_response -> str) (parseGet : str -> option str) (parseSet : str -> option (str * LogLevel)).

Notation LWM := (CM loggers_t Empty_set).

Definition log_respond (c : LogCommandType) (r : log_response) : zmsg_t := createResponse_msg (log_command_code c) (ser r).
Definition log_code (c : LogCommandType) (code : RpcResult) : zmsg_t := createResponse (log_command_code c) code [].

(** [inl tt]: the exception of the parser. *)
Definition log_processCmdMsg (cmdId : Z) (params : str) : LWM (unit + zmsg_t) :=
  l ← cget;
  match log_command_of cmdId with
  | Some GET_LOGGERS => mret (inr (log_respond GET_LOGGERS (RspLoggers (fst <$> map_to_list l))))
  | Some GET_LOG_LEVEL =>
      match parseGet params with
      | None => mret (inl tt)
      | Some name =>
          match l !! name with
          | Some level =>
              v ← deref AssertFailed (convertLogLevel level);
              mret (inr (log_respond GET_LOG_LEVEL (RspLogLevel v)))
          | None => mret (inr (log_code GET_LOG_LEVEL RPC_INVALID_PARAMETERS))
          end
      end
  | Some SET_LOG_LEVEL =>
      match parseSet params with
      | None => mret (inl tt)
      | Some (name, v) =>
          match l !! name with
          | Some _ => cmodify (<[name := Some (convertLogLevel_back v)]>) ;; mret (inr (log_code SET_LOG_LEVEL RPC_OK))
          | None => mret (inr (log_code SET_LOG_LEVEL RPC_INVALID_PARAMETERS))
          end
      end
  | None => mret (inr (createResponse cmdId RPC_INVALID_COMMAND []))
  end.

(** A level that was set is read back, for an existing logger; other loggers keep theirs
    and no logger is made. *)
Theorem log_level_set_get (l l' : loggers_t) (evs : list Empty_set) (name p g : str) (v : LogLevel) (reply : zmsg_t)
    (Hset : parseSet p = Some (name, v)) (Hget : parseGet g = Some name)
    (Hrun : log_processCmdMsg (log_command_code SET_LOG_LEVEL) p l = (l', evs, inr (inr reply))) (Hex : is_Some (l !! name)) :
  reply = log_code SET_LOG_LEVEL RPC_OK /\ dom l' = dom l /\ (forall n, n <> name -> l' !! n = l !! n) /\
  log_processCmdMsg (log_command_code GET_LOG_LEVEL) g l' = (l', [], inr (inr (log_respond GET_LOG_LEVEL (RspLogLevel v)))).
Proof.
  destruct Hex as [lv Hlv]. unfold log_processCmdMsg, mbind, CM_bind, cget in *. cbn in *. rewrite Hset, Hlv in Hrun. cbn in Hrun.
  injection Hrun as <- <- <-. rewrite Hget. split_and!; [done| | |].
  - rewrite dom_insert_L. assert (name ∈ dom l) by (by apply elem_of_dom_2 in Hlv). set_solver.
  - intros n Hn. by apply lookup_insert_ne.
  - rewrite lookup_insert_eq. by destruct v.
Qed.
End LogCommands.

(** ** The server *)
Section Server.
Context {zmsg_t : Type} `{CZMQ zmsg_t}.

Record WorkerData : Type := mkWorkerData { wd_worker : RpcWorker; wd_thread : bool; wd_isManaged : bool }.
#[export] Instance WorkerData_eta : Eta WorkerData := fun w => mkWorkerData (wd_worker w) (wd_thread w) (wd_isManaged w).

Record RpcServer : Type := mkRpcServer {
  m_serverAddr : str;
  m_dispatch : RpcDispatcherBase (zmsg_t := zmsg_t);
  m_dispatchThread : bool;
  m_workers : list WorkerData
}.
#[export] Instance RpcServer_eta : Eta RpcServer := fun s =>
  mkRpcServer (m_serverAddr s) (m_dispatch s) (m_dispatchThread s) (m_workers s).

Inductive sv_event : Type :=
| SvDispatcher (e : disp_event (zmsg_t := zmsg_t))
| SvWorker (identity : str) (e : worker_event (zmsg_t := zmsg_t))
| SvPrivilegeError
| SvStartWorker (identity : str) | SvJoinWorker (identity : str)
| SvStartDispatch | SvJoinDispatch
| SvDeleteWorker (identity : str).

Notation SVM := (CM RpcServer sv_event).

(** A method of the dispatcher; one of a worker. *)
Definition on_dispatch {A} (m : CM RpcDispatcherBase disp_event A) : SVM A := fun s =>
  let '(d, evs, r) := m (m_dispatch s) in (s <| m_dispatch := d |>, SvDispatcher <$> evs, r).
Definition on_worker {A} (w : RpcWorker) (m : CM RpcWorker worker_event A) : SVM RpcWorker := fun s =>
  let '(w', evs, r) := m w in
  (s, SvWorker (RpcWorker.m_identity w) <$> evs, match r with inl c => inl c | inr _ => inr w' end).

Definition addWorker (now : Z) (worker : RpcWorker) (isManaged : bool) : SVM unit :=
  on_dispatch (getService (RpcWorker.m_service worker)) ;;
  s ← cget;
  worker ← on_worker worker (connectToServer now (m_serverAddr s));
  cmodify (fun s => s <| m_workers := m_workers s ++ [mkWorkerData worker false isManaged] |>).

(** [privileged]: [changeIPCFilePrivilege] succeeds; [authorization]: the dispatcher
    checks authorization. *)
Definition construct (now : Z) (privileged authorization : bool) : SVM unit :=
  s ← cget;
  on_dispatch (bind_endpoint (m_serverAddr s)) ;;
  (if privileged then mret tt else cemit SvPrivilegeError) ;;
  addWorker now (newLogWorker (m_serverAddr s) (negb authorization)) true.

Definition newRpcServer (now : Z) (serverAddr : str) : RpcServer := mkRpcServer serverAddr (newRpcDispatcherBase now) false [].

Fixpoint start_workers (ws : list WorkerData) : SVM unit :=
  match ws with [] => mret tt | w :: ws => cemit (SvStartWorker (RpcWorker.m_identity (wd_worker w))) ;; start_workers ws end.

Definition start : SVM unit :=
  s ← cget;
  start_workers (m_workers s) ;;
  cmodify (fun s => s <| m_workers := (fun w => w <| wd_thread := true |>) <$> m_workers s |>) ;;
  cmodify (fun s => s <| m_dispatchThread := true |>) ;;
  cemit SvStartDispatch.

Definition cancelled (w : RpcWorker) : RpcWorker := (RpcWorker.cancel (zmsg_t := zmsg_t) w).1.1.

Fixpoint join_workers (ws : list WorkerData) : SVM unit :=
  match ws with
  | [] => mret tt
  | w :: ws => (if wd_thread w then cemit (SvJoinWorker (RpcWorker.m_identity (wd_worker w))) else mret tt) ;; join_workers ws
  end.

Definition stop : SVM unit :=
  cmodify (fun s => s <| m_workers := (fun w => w <| wd_worker := cancelled (wd_worker w) |>) <$> m_workers s |>) ;;
  s ← cget;
  join_workers (m_workers s) ;;
  cmodify (fun s => s <| m_workers := (fun w => w <| wd_thread := false |>) <$> m_workers s |>) ;;
  on_dispatch RpcDispatcher.cancel ;;
  s ← cget;
  (if m_dispatchThread s then cemit SvJoinDispatch else mret tt) ;;
  cmodify (fun s => s <| m_dispatchThread := false |>).

(** The destructor. *)
Fixpoint delete_managed (ws : list WorkerData) : SVM unit :=
  match ws with
  | [] => mret tt
  | w :: ws => (if wd_isManaged w then cemit (SvDeleteWorker (RpcWorker.m_identity (wd_worker w))) else mret tt) ;; delete_managed ws
  end.
Definition destroy_server : SVM unit :=
  stop ;; on_dispatch RpcDispatcher.destroy ;; s ← cget; delete_managed (m_workers s).

(** ** Facts *)
Context {L : CZMQ_laws zmsg_t}.

Fixpoint addWorkers (now : Z) (ws : list (RpcWorker * bool)) : SVM unit :=
  match ws with [] => mret tt | (w, managed) :: ws => addWorker now w managed ;; addWorkers now ws end.

(** Before the dispatcher's thread runs: no worker has been heard of, every worker's
    service is known. *)
Record unstarted (s : RpcServer) : Prop := {
  un_waiting : RpcDispatcher.m_waiting (m_dispatch s) = [];
  un_idle n (sv : service (zmsg_t := zmsg_t)) : m_services (m_dispatch s) !! n = Some sv -> sv_waiting sv = [] /\ m_name sv = n;
  un_known : Forall (fun w => is_Some (m_services (m_dispatch s) !! RpcWorker.m_service (wd_worker w))) (m_workers s);
  un_reach : disp_reachable (m_dispatch s)
}.

Lemma getService_run n d d' evs r : getService n d = (d', evs, inr r) ->
  evs = [] /\ is_Some (m_services d' !! n) /\ RpcDispatcher.m_waiting d' = RpcDispatcher.m_waiting d /\
  (forall k (sv : service (zmsg_t := zmsg_t)), m_services d' !! k = Some sv -> m_services d !! k = Some sv \/ (sv_waiting sv = [] /\ m_name sv = k)) /\
  (forall k, is_Some (m_services d !! k) -> is_Some (m_services d' !! k)).
Proof.
  unfold getService, findService, assert_. destruct (negb (bool_decide (n = []))) eqn:Hn; [|done].
  unfold mbind, CM_bind, cget, mret, CM_ret. cbn. destruct (decide (is_Some (m_services d !! n))) as [Hs|Hs]; cbn.
  - intros [= <- <- <-]. split_and!; [done..| |done]. intros k sv Hk. by left.
  - intros [= <- <- <-]. cbn. split_and!; [done|by rewrite lookup_insert_eq|done| |].
    + intros k sv Hk. apply lookup_insert_Some in Hk as [[<- <-]|[_ Hk]]; [by right|by left].
    + intros k Hk. apply lookup_insert_is_Some'. by right.
Qed.

Lemma connectToServer_service now addr w w' evs u : connectToServer (zmsg_t := zmsg_t) now addr w = (w', evs, inr u) ->
  RpcWorker.m_service w' = RpcWorker.m_service w.
Proof.
  unfold connectToServer, sendToServer, mbind, CM_bind, cget, cmodify, cemit, deref. cbn.
  destruct (connect_endpoint addr); [|done]. cbn. intros [= <- _]. done.
Qed.

Lemma addWorker_unstarted now w managed s s' evs : unstarted s -> addWorker now w managed s = (s', evs, inr tt) -> unstarted s'.
Proof.
  intros [H1 H2 H3 H4]. unfold addWorker, on_dispatch, on_worker, mbind, CM_bind, cget, cmodify.
  destruct (getService _ _) as [[d t1] [c|n]] eqn:Eg; [done|]. cbn.
  destruct (connectToServer _ _ _) as [[w' t2] [c|u]] eqn:Ec; [done|]. intros [= <- _].
  destruct (getService_run _ _ _ _ _ Eg) as (-> & Hs & Hw & Hsv & Hk). pose proof (connectToServer_service _ _ _ _ _ _ Ec) as Hw'.
  split; cbn.
  - by rewrite Hw.
  - intros k sv Hkv. destruct (Hsv k sv Hkv) as [Hold|Hnew]; [by apply H2|done].
  - apply Forall_app. split; [eapply Forall_impl; [exact H3|]; auto|]. repeat constructor. cbn. by rewrite Hw'.
  - eapply (disp_exec (OpGetService (RpcWorker.m_service w))); [exact H4|]. cbn. unfold mbind, CM_bind. by rewrite Eg.
Qed.

Lemma addWorkers_unstarted now ws s s' evs : unstarted s -> addWorkers now ws s = (s', evs, inr tt) -> unstarted s'.
Proof.
  revert s evs. induction ws as [|[w m] ws IH]; intros s evs Hu; cbn [addWorkers]; [by intros [= <- _]|].
  unfold mbind, CM_bind. destruct (addWorker now w m s) as [[s1 t1] [c|[]]] eqn:Ea; [done|].
  destruct (addWorkers now ws s1) as [[s2 t2] [c|[]]] eqn:Es; [done|]. intros [= <- _]. eapply IH; [|done]. by eapply addWorker_unstarted.
Qed.

Lemma construct_unstarted now addr privileged authorization s evs :
  construct now privileged authorization (newRpcServer now addr) = (s, evs, inr tt) -> unstarted s.
Proof.
  assert (Hu : unstarted (newRpcServer now addr <| m_dispatch := (newRpcDispatcherBase now) <| m_endpoint := addr |> |>)).
  { split; cbn; [done| |done|].
    - intros n sv Hn. by rewrite lookup_empty in Hn.
    - eapply (disp_exec (OpBind addr)); [apply (disp_new now)|]. done. }
  unfold construct, mbind, CM_bind, cget, on_dispatch, bind_endpoint, cmodify, cemit.
  destruct privileged; cbn -[addWorker newLogWorker]; unfold mbind, CM_bind, mret, CM_ret; cbn -[addWorker newLogWorker];
    match goal with |- context [addWorker _ _ _ ?s0] => destruct (addWorker _ _ _ s0) as [[s1 t1] [c|[]]] eqn:Ea; [done|] end;
    intros [= <- _]; by eapply addWorker_unstarted; [exact Hu|exact Ea].
Qed.

(** [stop] tells all workers to end, waits for the threads of all, then for the
    dispatcher's thread, which it tells to end only when no worker runs. *)
Fixpoint joins (ws : list WorkerData) : list sv_event :=
  match ws with
  | [] => []
  | w :: ws => (if wd_thread w then [SvJoinWorker (RpcWorker.m_identity (wd_worker w))] else []) ++ joins ws
  end.

Lemma joins_cancelled ws : joins ((fun w => w <| wd_worker := cancelled (wd_worker w) |>) <$> ws) = joins ws.
Proof. induction ws as [|w ws IH]; [done|]. cbn [fmap list_fmap joins]. f_equal. exact IH. Qed.

Lemma join_workers_run ws s : join_workers ws s = (s, joins ws, inr tt).
Proof.
  induction ws as [|w ws IH]; [done|]. cbn [join_workers joins]. unfold mbind, CM_bind.
  destruct (wd_thread w); cbn; by rewrite IH.
Qed.

Lemma server_stop_run s : exists s', stop s = (s', joins (m_workers s) ++ (if m_dispatchThread s then [SvJoinDispatch] else []), inr tt) /\
  m_dispatchThread s' = false /\ RpcDispatcher.m_done (m_dispatch s') = true /\
  Forall (fun w => wd_thread w = false /\ RpcWorker.m_done (wd_worker w) = true) (m_workers s').
Proof.
  set (ws := (fun w => w <| wd_worker := cancelled (wd_worker w) |>) <$> m_workers s).
  assert (Hj : joins ws = joins (m_workers s)) by apply joins_cancelled.
  set (s1 := s <| m_workers := ws |>). set (ws' := (fun w => w <| wd_thread := false |>) <$> ws).
  set (s2 := s <| m_workers := ws' |> <| m_dispatch := m_dispatch s <| RpcDispatcher.m_done := true |> |>).
  exists (s2 <| m_dispatchThread := false |>). split; [|split_and!; [done|done|]].
  - unfold stop. rewrite (cm_silent _ _ s s1 tt) by done. rewrite (cm_silent _ _ s1 s1 s1) by done.
    rewrite (cm_bind _ _ _ _ _ _ (join_workers_run ws s1)), Hj. rewrite (cm_silent _ _ s1 (s <| m_workers := ws' |>) tt) by done.
    rewrite (cm_silent _ _ _ s2 tt) by done. rewrite (cm_silent _ _ s2 s2 s2) by done.
    change (m_dispatchThread s2) with (m_dispatchThread s). by destruct (m_dispatchThread s).
  - change (m_workers (s2 <| m_dispatchThread := false |>)) with ws'. unfold ws', ws. rewrite !Forall_fmap. by apply Forall_true.
Qed.

(** A request for a service without workers. *)
Lemma dispatch_kept now d n sv m : RpcDispatcher.m_waiting d = [] -> m_services d !! n = Some sv -> sv_waiting sv = [] ->
  service_dispatch now n (Some m) d =
    (d <| m_services := <[n := sv <| m_requests := m_requests sv ++ [m] |>]> (m_services d) |>, [], inr tt).
Proof.
  intros Hw Hn Hs. unfold service_dispatch, service_at, set_service, purge_workers, mbind, CM_bind, cget, cmodify, deref, mret, CM_ret.
  rewrite Hn. cbn. rewrite Hw. cbn. rewrite lookup_insert_eq. cbn.
  destruct (m_requests sv ++ [m]) as [|r rs] eqn:E; [by destruct (m_requests sv)|].
  cbn. unfold service_at, mbind, CM_bind, cget, deref, mret, CM_ret. cbn. rewrite lookup_insert_eq. cbn. by rewrite Hs.
Qed.

(** Clients may send before the workers have registered, even before the server is
    started: once the server is made and the workers are added, a request for the service
    of any of them, among them the worker for log levels, is kept for that service behind
    the earlier ones; it is neither refused nor answered. *)
Theorem served_before_start (now : Z) (addr : str) (privileged authorization : bool) (ws : list (RpcWorker * bool))
    (s1 s : RpcServer) (evs1 evs : list sv_event) (w : WorkerData) (now2 : Z) (m : zmsg_t) (cid e : str) (body : list str)
    (Hc : construct now privileged authorization (newRpcServer now addr) = (s1, evs1, inr tt))
    (Ha : addWorkers now ws s1 = (s, evs, inr tt))
    (Hw : w ∈ m_workers s) (Hsvc : RpcWorker.m_service (wd_worker w) <> []) (Hb : body <> [])
    (Hm : frames m = cid :: e :: RPC_CLIENT :: RpcWorker.m_service (wd_worker w) :: body) :
  exists d', process_input now2 m (m_dispatch s) = (d', [], inr tt) /\
    pending d' (RpcWorker.m_service (wd_worker w)) = pending (m_dispatch s) (RpcWorker.m_service (wd_worker w)) ++ [cid :: [] :: body].
Proof.
  destruct (addWorkers_unstarted _ _ _ _ _ (construct_unstarted _ _ _ _ _ _ Hc) Ha) as [U1 U2 U3 U4].
  rewrite Forall_forall in U3. destruct (U3 w Hw) as [sv Hsv]. destruct (U2 _ _ Hsv) as [Hidle _].
  set (n := RpcWorker.m_service (wd_worker w)) in *.
  destruct (process_frames m) as (m1 & m2 & m3 & E1 & E2 & E3 & Hf). unfold frame_at in *. rewrite Hm in *. cbn in E1, E2, E3, Hf.
  unfold process_input. rewrite E1, E2, E3. rewrite bool_decide_eq_true_2 by done.
  destruct (RpcWorker.popstr_frames m3 _ _ Hf) as (m4 & E4 & H4). unfold client_process. rewrite size_frames, Hf, E4.
  unfold assert_, findService. destruct body as [|c body]; [done|]. cbn [length Nat.leb]. rewrite bool_decide_eq_false_2 by done.
  unfold mbind at 1, CM_bind at 1. cbn. unfold mbind, CM_bind, mret, CM_ret, cget, assert_. cbn.
  rewrite decide_True by eauto. rewrite (dispatch_kept _ _ _ _ _ U1 Hsv Hidle).
  eexists. split; [done|]. unfold pending. cbn. rewrite lookup_insert_eq, Hsv. cbn. rewrite map_app. cbn. by rewrite frames_wrap_msg, H4.
Qed.
End Server.

(** ** A server *)
Import CzmqList.

Module ServerDemo.
Definition apc_worker : RpcWorker := newRpcWorker (text "ipc://apc_rpc.ipc") (text "apc") None NONE (text "apc1") true.
Definition request : zmsg := mkZmsg [text "console"; []; RPC_CLIENT; text "apc"; [1]; []] None.
Definition made : RpcServer (zmsg_t := zmsg) := (construct 0 true false (newRpcServer 0 (text "ipc://apc_rpc.ipc"))).1.1.
Definition ready : RpcServer (zmsg_t := zmsg) := (addWorkers 0 [(apc_worker, false)] made).1.1.
End ServerDemo.

Lemma served_before_start_witness : exists d',
  process_input 1 ServerDemo.request (m_dispatch ServerDemo.ready) = (d', [], inr tt) /\
  pending d' (text "apc") = [[text "console"; []; [1]; []]].
Proof.
  destruct (served_before_start 0 (text "ipc://apc_rpc.ipc") true false [(ServerDemo.apc_worker, false)]
    ServerDemo.made ServerDemo.ready (construct 0 true false (newRpcServer 0 (text "ipc://apc_rpc.ipc"))).1.2
    (addWorkers 0 [(ServerDemo.apc_worker, false)] ServerDemo.made).1.2
    (mkWorkerData (fst (fst (connectToServer (zmsg_t := zmsg) 0 (text "ipc://apc_rpc.ipc") ServerDemo.apc_worker))) false false)
    1 ServerDemo.request (text "console") [] [[1]; []]) as (d' & H1 & H2); [reflexivity|reflexivity| |discriminate|discriminate|reflexivity|].
  - apply list_elem_of_In. vm_compute. tauto.
  - exists d'. split; [exact H1|]. etransitivity; [exact H2|]. vm_compute. reflexivity.
Defined.

Lemma log_level_set_get_witness :
  let ser := fun r => match r with RspLogLevel L_WARN => [3] | _ => [0] end in
  let get := fun p : list Z => Some p in
  let set := fun p : list Z => match p with _ :: name => Some (name, L_WARN) | [] => None end in
  log_processCmdMsg (zmsg_t := zmsg) ser get set 2 (text "apc") {[text "apc" := Some LvWarn]} =
    ({[text "apc" := Some LvWarn]}, [], inr (inr (log_respond ser GET_LOG_LEVEL (RspLogLevel L_WARN)))).
Proof.
  cbv zeta. set (ser := fun r => _). set (get := fun p : list Z => Some p). set (set' := fun p : list Z => match p with _ :: name => _ | [] => _ end).
  destruct (log_level_set_get (zmsg_t := zmsg) ser get set' {[text "apc" := None]} {[text "apc" := Some LvWarn]} [] (text "apc") (3 :: text "apc") (text "apc")
    L_WARN (log_code SET_LOG_LEVEL RPC_OK)) as (_ & _ & _ & H); [reflexivity|reflexivity|reflexivity|by eexists|exact H].
Defined.
