(* ===== verification/RpcCall.v ===== *)
(** A call through the RPC layer: dispatcher and worker together.

    The sockets are ZeroMQ's: the dispatcher's router socket puts the identity of the
    sender in front of what it receives, and takes the identity of the receiver off the
    front of what it sends. *)
From stdpp Require Import base numbers list option strings gmap.
From Stdlib Require Import ZArith Lia.
From S2P Require Import Prelude Common FmtConv Crash ZMessage RpcProtocol RpcWorker RpcDispatcher.

Local Open Scope Z_scope.

Section Call.
Context {zmsg_t : Type} `{CZMQ zmsg_t} {L : CZMQ_laws zmsg_t}.
Notation DM := (CM RpcDispatcherBase (disp_event (zmsg_t := zmsg_t))).
Implicit Types (d : RpcDispatcherBase (zmsg_t := zmsg_t)).

(** ** A request to a service with a waiting worker *)
Lemma dispatch_waiting A now n m s p ws wid d : good A nobody [] d ->
  m_services d !! n = Some s -> sv_waiting s = p :: ws -> view d !! p = Some (wid, Some n) ->
  exists d' w, service_dispatch now n (Some m) d = (d', [ToWorker w RPC_REQUEST (worker_msg w RPC_REQUEST (Some m))], inr tt) /\
    RpcDispatcher.m_identity w = wid.
Proof.
  intros Hg Hs Hw Hp. assert (Hr : m_requests s = []).
  { destruct Hg as (_ & Hb & _). destruct (Hb n s Hs) as [?|?]; [by intros []|congruence|done]. }
  set (s' := s <| m_requests := m_requests s ++ [m] |>).
  set (P := fun (tr : list (disp_event (zmsg_t := zmsg_t))) d => disp_inv d /\ (tr = [] /\ m_services d !! n = Some s') /\ view d !! p = Some (wid, Some n)).
  assert (HP : blind P).
  { intros tr d0 q w w' (H1 & H2 & H3) Hq Hi Hv. split; [by eapply inv_set_worker|]. split; [exact H2|].
    by rewrite (view_same d0 q w w'). }
  assert (Hh : hoare (fun tr d0 => tr = [] /\ d0 = d) (fun _ => False) (service_dispatch now n (Some m))
    (fun _ tr _ => exists w, RpcDispatcher.m_identity w = wid /\ tr = [ToWorker w RPC_REQUEST (worker_msg w RPC_REQUEST (Some m))])).
  { apply h_service_at; [intros tr d0 [_ ->]; eauto|]. intros s0.
    eapply (h_pre _ _ (fun tr d0 => s0 = s /\ tr = [] /\ d0 = d)). { intros tr d0 [[-> ->] Hs0]. split; [congruence|done]. }
    apply h_pure. intros ->. apply (h_bind _ _ _ _ (fun _ => P)).
    { apply h_modify. intros tr d0 [-> ->]. destruct Hg as (Hi & _). destruct (di_services _ Hi _ _ Hs) as (S1 & S2 & S3 & S4).
      split; [by apply inv_set_service|]. split; [|done]. split; [done|]. exact (lookup_insert_eq _ _ _). }
    intros []. apply (h_bind _ _ _ _ (fun _ => P)); [apply h_purge; [done|by intros tr d0 [? _]]|]. intros [].
    apply h_service_at; [intros tr d0 (_ & [_ Hs0] & _); eauto|]. intros s1.
    eapply (h_pre _ _ (fun tr d0 => s1 = s' /\ P tr d0)). { intros tr d0 [HPd Hs1]. split; [|done]. destruct HPd as (_ & [_ ?] & _). congruence. }
    apply h_pure. intros ->. unfold s' at 1. cbn [m_requests upd]. rewrite Hr. cbn [app length dispatch_loop].
    apply h_service_at; [intros tr d0 (_ & [_ Hs0] & _); eauto|]. intros s1.
    eapply (h_pre _ _ (fun tr d0 => s1 = s' /\ P tr d0)). { intros tr d0 [HPd Hs1]. split; [|done]. destruct HPd as (_ & [_ ?] & _). congruence. }
    apply h_pure. intros ->. change (sv_waiting s') with (sv_waiting s). change (m_requests s') with (m_requests s ++ [m]).
    rewrite Hw, Hr. cbn [app].
    apply (h_bind _ _ _ _ (fun _ tr d0 => tr = [] /\ view d0 !! p = Some (wid, Some n))).
    { apply h_modify. intros tr d0 (_ & [-> _] & Hv). done. }
    intros []. apply (h_bind _ _ _ _ (fun _ tr _ => exists w, RpcDispatcher.m_identity w = wid /\
      tr = [ToWorker w RPC_REQUEST (worker_msg w RPC_REQUEST (Some m))])).
    { eapply h_post; [apply h_worker_send|].
      - intros tr d0 [_ Hv]. apply view_lookup in Hv as (w & ? & _). eauto.
      - intros u tr d0 (tr0 & w & [-> Hv] & Hw0 & ->). apply view_lookup in Hv as (w' & ? & ? & _). exists w. split; [congruence|done]. }
    intros []. apply (h_bind _ _ _ _ (fun _ tr _ => exists w, RpcDispatcher.m_identity w = wid /\
      tr = [ToWorker w RPC_REQUEST (worker_msg w RPC_REQUEST (Some m))])); [by apply h_modify|]. intros []. by apply h_ret. }
  specialize (Hh [] d (conj eq_refl eq_refl)). destruct (service_dispatch now n (Some m) d) as [[d' evs] [c|[]]]; [done|].
  destruct Hh as (w & Hid & Ht). cbn [app] in Ht. subst evs. by exists d', w.
Qed.

Lemma process_input_frames now d m f0 f1 f2 fs : frames m = f0 :: f1 :: f2 :: fs -> exists m3, frames m3 = fs /\
  process_input now m d = (if bool_decide (f2 = RPC_CLIENT) then client_process now f0 m3
    else if bool_decide (f2 = RPC_WORKER) then worker_process now f0 m3 else mret tt) d.
Proof.
  intros Hm. destruct (process_frames m) as (m1 & m2 & m3 & E1 & E2 & E3 & Hf). unfold frame_at in *. rewrite Hm in *.
  exists m3. split; [done|]. unfold process_input. by rewrite E1, E2, E3.
Qed.

Lemma request_dispatched now d m cid e svc body p ws s wid : disp_reachable d ->
  frames m = cid :: e :: RPC_CLIENT :: svc :: body -> body <> [] ->
  m_services d !! svc = Some s -> sv_waiting s = p :: ws -> view d !! p = Some (wid, Some svc) ->
  exists d' w m', process_input now m d = (d', [ToWorker w RPC_REQUEST m'], inr tt) /\ RpcDispatcher.m_identity w = wid /\
    frames m' = wid :: [] :: RPC_WORKER :: [2] :: cid :: [] :: body.
Proof.
  intros Hr Hm Hb Hs Hw Hp. destruct (reachable_good d Hr) as (A & tr & Hi & Hbusy & Hf).
  assert (Hg : good (pending d) nobody [] d) by by split_and!.
  assert (svc <> []) as Hne by (by destruct (di_services _ Hi _ _ Hs) as (? & _)).
  destruct (process_input_frames now d m _ _ _ _ Hm) as (m3 & Hm3 & ->). rewrite bool_decide_eq_true_2 by done.
  destruct (popstr_frames m3 _ _ Hm3) as (m4 & E4 & Hm4). unfold client_process. rewrite E4, size_frames, Hm3.
  destruct body as [|b0 body]; [done|]. cbn [length Nat.leb].
  destruct (dispatch_waiting _ now svc (wrap_msg cid [] m4) s p ws wid d Hg Hs Hw Hp) as (d' & w & Ed & Hid).
  exists d', w, (worker_msg w RPC_REQUEST (Some (wrap_msg cid [] m4))). split_and!; [|done|].
  - unfold findService, mbind, CM_bind, assert_, cget, mret, CM_ret. rewrite bool_decide_eq_false_2 by done. cbn [negb].
    rewrite decide_True by eauto. by rewrite Ed.
  - rewrite frames_worker_msg, Hid. cbn [command_code]. do 4 f_equal. etransitivity; [apply frames_wrap_msg|]. by rewrite Hm4.
Qed.

(** ** The reply *)
Lemma reply_forwarded now d m wid e cid body svc p w : disp_reachable d -> wid <> [] ->
  m_workers d !! wid = Some p -> d_heap d !! p = Some w -> RpcDispatcher.m_service w = Some svc ->
  frames m = wid :: e :: RPC_WORKER :: [3] :: cid :: [] :: body ->
  exists d' m' evs, process_input now m d = (d', ToClient m' :: evs, inr tt) /\
    frames m' = cid :: [] :: RPC_CLIENT :: c_str svc :: body.
Proof.
  intros Hr Hne Hwk Hp Hsv Hm. destruct (reachable_good d Hr) as (A & tr & Hg). pose proof Hg as (Hi & _).
  destruct (process_input_frames now d m _ _ _ _ Hm) as (m3 & Hm3 & ->). rewrite bool_decide_eq_false_2, bool_decide_eq_true_2 by done.
  destruct (pop_frames m3 _ _ Hm3) as (m4 & E4 & Hm4). destruct (unwrap_frames m4 _ _ Hm4) as (m5 & E5 & Hm5).
  assert (serves (view d) svc p) as Hs by (exists (RpcDispatcher.m_identity w); apply view_lookup; eauto).
  destruct (di_known _ Hi _ _ Hs) as [s Hsd]. destruct (di_services _ Hi _ _ Hsd) as (_ & Hname & _).
  pose proof (h_worker_waiting (fun _ => False) A svc p now tr d (conj Hg Hs)) as Hw.
  destruct (worker_waiting now p d) as [[d' evs] [c|[]]] eqn:Ew; [done|].
  exists d', (wrap_msg cid [] (pushstr RPC_CLIENT (pushstr (m_name s) m5))), evs. split.
  - assert (Hreq : worker_require wid d = (d, [], inr p)).
    { unfold worker_require. rewrite bool_decide_eq_false_2 by done. erewrite cm_silent by done.
      erewrite cm_silent by done. by rewrite Hwk. }
    assert (Hat : worker_at p d = (d, [], inr w)) by (unfold worker_at; erewrite cm_silent by done; by rewrite Hp).
    assert (Hsat : service_at svc d = (d, [], inr s)) by (unfold service_at; erewrite cm_silent by done; by rewrite Hsd).
    unfold worker_process. rewrite E4, size_frames, Hm3. do 4 erewrite cm_silent by done. rewrite (cm_silent _ _ _ _ _ Hreq), Hwk.
    rewrite (bool_decide_eq_true_2 (is_Some (Some p))) by done. change (command_of (default 0 (head [3]))) with (Some RPC_REPLY).
    cbn beta iota. unfold worker_reply. rewrite E5. erewrite cm_silent by done. rewrite (cm_silent _ _ _ _ _ Hat), Hsv.
    erewrite cm_silent by done. rewrite (cm_silent _ _ _ _ _ Hsat). cbn zeta. erewrite cm_bind by done. by rewrite Ew.
  - by rewrite frames_wrap_msg, !frames_pushstr, Hm5, Hname.
Qed.

(** ** Properties *)

(** C22: a call goes through the RPC layer and back.  A client's request to a service
    with a waiting worker is sent to the worker that waits longest; what the worker
    answers (the command's result, or an error code for a missing privilege or a
    request that does not parse) reaches the client that called, and carries the service
    that it called. *)
Theorem call_roundtrip (process : Z -> list Z -> unit + zmsg_t) (parse : list Z -> AuthReq)
    now1 now2 now3 d req cid e svc c rc params auth p ws s wid (wk : RpcWorker) :
  disp_reachable d -> cid <> [] -> wid <> [] ->
  frames req = cid :: e :: RPC_CLIENT :: svc :: (c :: rc) :: params :: auth ->
  m_services d !! svc = Some s -> sv_waiting s = p :: ws -> view d !! p = Some (wid, Some svc) ->
  m_worker wk = true ->
  exists d1 w m1, process_input now1 req d = (d1, [ToWorker w RPC_REQUEST m1], inr tt) /\ head (frames m1) = Some wid /\
  forall m1', frames m1' = tail (frames m1) ->
  exists wk' r, handleInput process parse now2 m1' wk = (wk', [WSend r], inr tt) /\
  forall d2 m2 p2 w2, disp_reachable d2 -> frames m2 = wid :: frames r ->
    m_workers d2 !! wid = Some p2 -> d_heap d2 !! p2 = Some w2 -> RpcDispatcher.m_service w2 = Some svc ->
  exists d3 m3 evs, process_input now3 m2 d2 = (d3, ToClient m3 :: evs, inr tt) /\
    frames m3 = cid :: [] :: RPC_CLIENT :: c_str svc ::
      (if authorized wk c (auth_of parse auth) then
         match process c params with
         | inr reply => frames reply
         | inl _ => [[c]; [0; 0; 0; 40]; []]
         end
       else [[c]; [0; 0; 0; 35]; []]).
Proof.
  intros Hr Hc Hwid Hreq Hs Hw Hp Hwk.
  destruct (request_dispatched now1 d req cid e svc _ p ws s wid Hr Hreq ltac:(done) Hs Hw Hp) as (d1 & w & m1 & E1 & _ & Hm1).
  exists d1, w, m1. split; [done|]. split; [by rewrite Hm1|]. intros m1' Hm1'. rewrite Hm1 in Hm1'. cbn [tail] in Hm1'.
  eexists _, _. split; [exact (handleInput_request process parse now2 m1' cid c rc params auth wk Hwk Hc Hm1')|]. intros d2 m2 p2 w2 Hr2 Hm2 Hw2 Hp2 Hsv2.
  rewrite frames_server_msg, frames_wrap_msg in Hm2. cbn [command_code] in Hm2.
  destruct (reply_forwarded now3 d2 m2 wid [] cid _ svc p2 w2 Hr2 Hwid Hw2 Hp2 Hsv2 Hm2) as (d3 & m3 & evs & E3 & Hm3).
  exists d3, m3, evs. split; [done|]. rewrite Hm3. do 4 f_equal. unfold reply_to.
  destruct (authorized _ _ _); [destruct (process c params); [|done]|]; by rewrite frames_createResponse.
Qed.
End Call.

Import CzmqList.

Lemma call_roundtrip_witness :
  exists d evs, exec_all [List.nth 3 DispDemo.demo OpCancel] DispDemo.disp0 = (d, evs, inr tt) /\
  exists d1 w m1, process_input 5 (DispDemo.msg [text "c1"; []; RPC_CLIENT; text "apc"; [4]; [7; 7]]) d =
    (d1, [ToWorker w RPC_REQUEST m1], inr tt) /\
    z_frames m1 = [text "w"; []; RPC_WORKER; [2]; text "c1"; []; [4]; [7; 7]].
Proof.
  destruct (exec_all [List.nth 3 DispDemo.demo OpCancel] DispDemo.disp0) as [[d evs] [c|[]]] eqn:E; [vm_compute in E; discriminate E|].
  exists d, evs. split; [reflexivity|].
  assert (disp_reachable d) as Hr by exact (DispDemo.reach_all _ DispDemo.disp0 d evs (disp_new 0) E).
  destruct (call_roundtrip WorkerDemo.process WorkerDemo.parse_auth 5 6 7 d
      (DispDemo.msg [text "c1"; []; RPC_CLIENT; text "apc"; [4]; [7; 7]]) (text "c1") [] (text "apc") 4 [] [7; 7] [] 0 []
      (mkService (text "apc") [] [0%nat] 1) (text "w") WorkerDemo.worker0) as (d1 & w & m1 & E1 & _).
  - exact Hr.
  - discriminate.
  - discriminate.
  - reflexivity.
  - vm_compute in E. injection E as <- _. vm_compute. reflexivity.
  - reflexivity.
  - vm_compute in E. injection E as <- _. vm_compute. reflexivity.
  - reflexivity.
  - exists d1, w, m1. split; [exact E1|]. vm_compute in E. injection E as <- _. vm_compute in E1. injection E1 as _ _ <-. vm_compute. reflexivity.
Defined.
